(* ===== verification/_CoqProject ===== *)
-Q . S2P
Prelude.v
Logger.v
Fanout.v
Path.v
GoUrl.v
ID.v
Match.v
Crypto.v
X509.v
X509Sample.v
Pem.v
BundleSet.v
X509Bundle.v
Memory.v
Jose.v
JwtBundle.v
WitBundle.v
SpiffeBundle.v
X509Svid.v
Jwt.v
JwtSvid.v
WitSvid.v
Backoff.v
Addr.v
Client.v
Watch.v
Watcher.v
Sources.v
FakeApi.v
TestCA.v
KeyMemory.v
TlsConfig.v
TlsSession.v
SpiffeTls.v
ModeRace.v
GrpcCreds.v
Federation.v
FakeEndpoint.v
Federated.v
Convenience.v
RwMutex.v
Locks.v
SourceLocks.v
Live.v
LiveWit.v
Examples.v
