(* ===== verification/Prelude.v ===== *)
(** * go-spiffe: a verification development

    This library models go-spiffe (v2), the Go library for SPIFFE workloads, and
    proves what its parts promise. This file is the root: below this comment it has the
    definitions every file shares (Go errors and outcomes, strings, maps, fixed-width
    integers, the hint databases [go]).

    ** The program and its files

    Identities. src/spiffeid: Path.v (path.go, the characters of a trust domain
    and the two character-set builds, as the interface [Charset]), ID.v
    (trustdomain.go, id.go, require.go), Match.v (match.go). An ID is its text and
    the index of its path; every accessor slices the text.

    Keys, certificates, documents. Crypto.v (src/internal/cryptoutil, jwtutil),
    X509.v (x509util and the interface [X509Lib] to crypto/x509), Pem.v (pemutil),
    Jose.v and Jwt.v (the interfaces to go-jose), GoUrl.v (the URL struct and its
    String method). X509Sample.v has a concrete instance of the X.509 interface.
    Logger.v (src/logger) has the loggers; the watch loops and the federation handler
    log through it.

    Bundles. X509Bundle.v, JwtBundle.v, WitBundle.v and SpiffeBundle.v model the
    packages src/bundle/x509bundle, jwtbundle, src/exp/bundle/witbundle and
    src/bundle/spiffebundle: a bundle is a record with the fields of the struct, a
    method is a function on it, one atomic step under the mutex of the bundle.
    BundleSet.v is the set type the four packages share. RwMutex.v is a machine
    of threads over objects behind a sync.RWMutex each, with a discipline that excludes
    races and deadlocks; Locks.v runs the methods of shared bundles and sets of the four
    packages on it, SourceLocks.v those of the sources. Memory.v
    takes the slices of x509bundle apart: a heap of backing arrays, bundles and sets of
    pointers that callers share and write to. KeyMemory.v does the same for the maps of
    keys of jwtbundle, its sets, and the two sources that hand bundles out: JWTSource
    hands out its own bundles, BundleSource copies.

    SVIDs. X509Svid.v (src/svid/x509svid: parsing, validation, Verify), JwtSvid.v
    (src/svid/jwtsvid), WitSvid.v (src/exp/svid/witsvid).

    Workload API (src/workloadapi). Addr.v (options, endpoint addresses), Backoff.v,
    Client.v (responses, fetch methods), Watch.v (the five watch loops), Convenience.v
    (dialling, short-lived clients), Watcher.v (constructor, watch goroutines, Close
    and the update channel of a source as an interleaving machine), Sources.v (the
    four sources, instances of the machine).

    TLS. TlsConfig.v (src/spiffetls/tlsconfig) has the configurations and the checks of a
    full handshake under them, the VerifyConnection and GetConfigForClient of a base
    included; TlsSession.v the connections of an endpoint, with the resumption of its own
    sessions and of sessions shared with other configurations. SpiffeTls.v (src/spiffetls)
    keeps base configurations in a heap, since the hooks change them in place; creating a
    source and dialing may panic there. GrpcCreds.v
    (src/spiffegrpc/grpccredentials), Federation.v (src/federation). ModeRace.v interleaves
    concurrent dials on shared modes and shared base configurations, a read or a write at a
    time. Live.v composes Watcher.v,
    Sources.v, TlsConfig.v, SpiffeTls.v and JwtSvid.v: mutual TLS between two workloads,
    and validation of JWT-SVIDs, with sources that are kept up to date. LiveWit.v does so
    for a WIT-SVID that one workload takes from its source and another validates. Federated.v
    composes Federation.v, SpiffeBundle.v and TlsConfig.v: a workload that adds what it
    fetches from another trust domain to the set it authenticates peers with.

    Programs. Examples.v (src/examples): each program as a run, what it does in order and
    what it returns; the JWT middleware over the live source of Live.v.

    Tests. src/internal/test has a Workload API of its own, a certificate authority and a
    bundle endpoint. Fanout.v is the machine that sends each response to the streams that
    wait for it; FakeApi.v is the rest of that server, with the client of Client.v against
    it; TestCA.v is the authority, as programs over a source of random bytes and a clock;
    FakeEndpoint.v is the endpoint, with the client of Federation.v against it.

    ** How the parts interact

    The packages meet in interfaces, and so do the files. A bundle source is a class
    with one operation ([X509Bundle.Source], [JwtBundle.Source], [WitBundle.Source],
    [SpiffeBundle.Source]); the promise that a source answers for a trust domain with
    a bundle of that trust domain is [source_ok], proved for every bundle, set and
    source of the library and assumed by what verifies with it. The watches of Watch.v
    deliver what the parse functions of Client.v return; Watcher.v takes the set of
    values delivered and the update functions as parameters, and Sources.v discharges
    both. A loop over a Go map visits it in an order that the map carries ([go_map]), and
    the theorems hold for every order. TlsConfig.v reads sources at the state of the world of the handshake, so its
    theorems hold for the bundles current at that time; SpiffeTls.v, GrpcCreds.v and
    Federation.v are its clients.

    ** Code outside src/

    crypto/x509, encoding/json, go-jose, gRPC, net/http, crypto/tls and the
    Workload API service are classes of operations, arguments of the definitions that use
    them. What is relied on is stated as separate laws ([X509LibLaws], [VerifierLaws],
    [JoseLaws], [JwtLaws], ...), each with a concrete instance that satisfies it, on
    which the witnesses evaluate.

    ** What is proved

    - Identities: [FromString] accepts exactly the texts of the specification; every
      ID the API makes is well formed, so that no accessor panics; ValidatePath agrees
      with a check of the segments; IDs and URLs round trip in the default build.
    - Bundles: invariants of the authorities and of sets, equality, round trips of
      every format, with the exact effect of the rounding of refresh hints, overflow
      included; the in-memory bundles behave as the values, whatever their callers do
      with the slices and maps they hold ([bundles_in_memory], [keys_in_memory]), and which
      callers can change what a source answers ([who_can_change_a_source]); linearizability, freedom from races
      and progress for concurrent calls on bundles and sets, and the races and deadlocks
      of the few methods that do not take their lock, or take it twice.
    - SVIDs: acceptance of SVIDs and tokens characterised by their checks; a chain
      that Verify returns goes from the leaf to an authority of the bundle of the
      leaf's own trust domain.
    - Workload API: responses (first SVID, hints, federated bundles), independence of
      the iteration order of maps when keys name different trust domains; a watch is a
      count of failures since the last message, and ends only on a fatal code or with
      the context.
    - Sources: over all interleavings, no update is lost, Close completes once and stops
      the goroutines, and each source serves the latest update; its getters and updates do
      not race, but for the bundle getters of X509Source and JWTSource.
    - TLS: the peers that pass a full handshake under a configuration, for every hook and
      base configuration, whatever callbacks the base has;
      in which configurations a resumed session was authenticated ([sessions_authenticate]);
      the lifetime of the sources of dials and listeners; the peer IDs reported by
      spiffetls and by the gRPC credentials; end to end, what each side of a mutual
      TLS handshake knows of the other when both have live sources ([live_mtls]), and
      that JWT-SVIDs and WIT-SVIDs are validated with the keys delivered last ([live_jwt],
      [live_wit]); that a dial is as the dial run alone while no other call uses its mode
      and its base configuration, and need not be when one does ([dials_own_their_mode]).
    - Examples: whom each program talks to ([programs_authenticate]); the requests that
      the JWT middleware lets through; that the programs close what they open.
    - Federation: a federated trust domain can change which of its own peers are accepted
      and no others ([federation_isolated]); the authentication of a fetch, the round
      trip from handler to client, and the contract of BundleWatcher.
    - Tests: a client fetches from the Workload API of the tests what it was told to serve
      ([served_is_fetched]); its streams catch up with the latest response, unless a call
      hangs ([streams_catch_up]); what the authority of the tests issues is what the
      library accepts ([minted_svids_validate]); the bundle endpoint gives its bundles one
      at a time and in order ([endpoint_fetched_in_order]).

    ** Bounds and fuel

    Only Pem.v runs on fuel (parseBlocks): one unit more than the bytes of the input,
    proved enough ([parseBlocks_terminates]). Watch loops and WatchBundle, which need not
    end, run over a script of their environment; Watcher.v, RwMutex.v, Memory.v, KeyMemory.v,
    TlsSession.v, ModeRace.v and Fanout.v over steps in any order, and their theorems quantify over
    all of them.
    Durations, refresh hints and counters are int64 with the wrap-around written out ([wrap_int64]).

    ** Not modelled

    The generated messages and stubs (src/proto, src/exp/proto); the listeners of the
    servers of the tests, and their start and stop; what the example programs print; in ModeRace.v, what becomes of a
    connection whose configuration is written to after tls.Dial has read it; String methods used for logging. Errors keep their format and arguments; the rendered text is
    left out, as no code inspects it. Outside Memory.v and KeyMemory.v slices and maps are
    values: the code copies the slices and maps of authorities it takes and hands out, which
    these files show to be enough for x509bundle and jwtbundle (witbundle and spiffebundle
    have the same code);
    SVIDs are handed out as pointers, and a caller that writes to one is not modelled. A
    client that changes a bundle it was given is covered where the code keeps the pointer
    (WatchBundle, sets). *)

From stdpp Require Export base tactics list strings gmap countable sorting.
From Stdlib Require Export ZArith Lia Ascii.
From Stdlib Require String.
#[export] Set Default Goal Selector "!".
#[export] Set Warnings "-clear-no-such-hyp".

(** ** Go error values

    A Go [error] is kept symbolically: the format string and the arguments of
    the call that made it, so that [errors.Unwrap] and comparisons with
    package-level error variables are computable, while the rendering of the
    text (which no code path inspects) is left out. *)
#[warnings="-register-all"]
Inductive error : Type :=
  | errors_New (msg : string)                     (* errors.New("...") *)
  | fmt_Errorf (format : string) (args : list farg)  (* fmt.Errorf("...", args) *)
  | errors_Joined (errs : list error)             (* errors.Join(...) *)
  | extern_error (pkg name : string)              (* an error variable or value of code outside src/ *)
with farg : Type :=
  | Arg_s (s : string)                            (* %s, %q, %T: a string *)
  | Arg_d (z : Z)                                 (* %d; %s of a time.Duration *)
  | Arg_v (e : option error)                      (* %v of an error; None is nil *)
  | Arg_w (e : option error).                     (* %w of an error; None is nil *)

(** [errors.Unwrap]: the argument of [%w] of an error made by [fmt.Errorf];
    an error of [errors.New] or [errors.Join] has nothing to unwrap. *)
Fixpoint first_wrapped (args : list farg) : option error :=
  match args with
  | [] => None
  | Arg_w e :: _ => e
  | _ :: args' => first_wrapped args'
  end.

Definition errors_Unwrap (e : error) : option error :=
  match e with
  | fmt_Errorf _ args => first_wrapped args
  | _ => None
  end.

(** [errors.Join]: nil arguments are dropped; the result is nil when all are. *)
Definition errors_Join (errs : list (option error)) : option error :=
  match omap id errs with
  | [] => None
  | es => Some (errors_Joined es)
  end.

(** ** Outcomes of a Go call

    [Ok a]: returned [a] with a nil error; [Err e]: returned the non-nil error
    [e] (the other results being zero values); [Panic why]: the call panicked
    (index or slice out of range, nil dereference, explicit [panic]). *)
Inductive res (A : Type) : Type :=
  | Ok (a : A)
  | Err (e : error)
  | Panic (why : string).
Arguments Ok {A} a.
Arguments Err {A} e.
Arguments Panic {A} why.

#[export] Instance res_ret : MRet res := @Ok.
#[export] Instance res_bind : MBind res := λ A B f m,
  match m with
  | Ok a => f a
  | Err e => Err e
  | Panic why => Panic why
  end.

#[export] Instance res_fmap : FMap res := λ A B f m,
  match m with
  | Ok a => Ok (f a)
  | Err e => Err e
  | Panic why => Panic why
  end.

(** [if err != nil { return wrap(err) }]: replace the error, keep the rest. *)
Definition wrap_err {A} (wrap : error → error) (m : res A) : res A :=
  match m with
  | Err e => Err (wrap e)
  | m => m
  end.

Definition is_Ok {A} (m : res A) : bool :=
  match m with Ok _ => true | _ => false end.
Definition is_Err {A} (m : res A) : bool :=
  match m with Err _ => true | _ => false end.
Definition no_panic {A} (m : res A) : bool :=
  match m with Panic _ => false | _ => true end.

(** A call whose error is the only result. *)
Definition res_of_error (e : option error) : res unit :=
  match e with None => Ok () | Some e => Err e end.

Declare Scope go_scope.
Delimit Scope go_scope with go.
Notation "'let!' x ':=' m 'in' k" := (mbind (M := res) (λ x, k) m)
  (at level 10, x binder, m at level 100, k at level 200) : go_scope.
Notation "'check!' m ';' k" := (mbind (M := res) (λ _ : unit, k) m)
  (at level 10, m at level 100, k at level 200) : go_scope.
Open Scope go_scope.

Section res_lemmas.
Context {A B : Type}.
Implicit Types (m : res A) (f : A → res B).

Lemma bind_Ok_inv m f b : (m ≫= f) = Ok b ↔ ∃ a, m = Ok a ∧ f a = Ok b.
Proof.
  destruct m; simpl; split.
  - eauto.
  - intros (? & Hm & ?). by injection Hm as ->.
  - done.
  - by intros (? & ? & ?).
  - done.
  - by intros (? & ? & ?).
Qed.

Lemma check_Ok_inv (m : res unit) (k : res B) b :
  (check! m; k) = Ok b ↔ m = Ok () ∧ k = Ok b.
Proof.
  destruct m as [[]| |]; simpl; (split; [|by intros [??]]); [by split|done|done].
Qed.

Lemma bind_Err_inv m f e :
  (m ≫= f) = Err e ↔ m = Err e ∨ ∃ a, m = Ok a ∧ f a = Err e.
Proof.
  destruct m; simpl; split.
  - intros ?. right. exists a. split; [done|assumption].
  - intros [?|(? & Hm & ?)]; [done|]. by injection Hm as ->.
  - intros [= ->]. by left.
  - intros [[= ->]|(? & ? & ?)]; done.
  - done.
  - by intros [?|(? & ? & ?)].
Qed.

Lemma bind_no_panic m f :
  no_panic m = true → (∀ a, m = Ok a → no_panic (f a) = true) →
  no_panic (m ≫= f) = true.
Proof. destruct m; simpl; auto. Qed.

Lemma wrap_err_Ok (w : error → error) m a : wrap_err w m = Ok a ↔ m = Ok a.
Proof. by destruct m. Qed.

Lemma wrap_err_no_panic (w : error → error) m :
  no_panic (wrap_err w m) = no_panic m.
Proof. by destruct m. Qed.
End res_lemmas.

Lemma Ok_fun {A} {m : res A} {a b} : m = Ok a → m = Ok b → a = b.
Proof. by intros -> [= ->]. Qed.

(** [res_inv]: destruct every bind and error wrapper known to have succeeded. *)
Ltac res_inv :=
  repeat match goal with
  | H : mbind (M := res) _ _ = Ok _ |- _ =>
      apply bind_Ok_inv in H; destruct H as (? & ? & ?)
  | H : wrap_err _ _ = Ok _ |- _ => apply wrap_err_Ok in H
  | H : Ok _ = Ok _ |- _ => injection H as H
  | H : Err _ = Ok _ |- _ => discriminate H
  | H : Panic _ = Ok _ |- _ => discriminate H
  end; simplify_eq/=.

Create HintDb go.
Create Rewrite HintDb go.
#[export] Hint Rewrite @wrap_err_no_panic : go.

(** Run a fallible body over a slice, left to right, stopping at the first
    error: the shape of the sources' [for _, x := range xs { ... return err }]. *)
Fixpoint forM {A B} (f : A → res B) (l : list A) : res (list B) :=
  match l with
  | [] => Ok []
  | x :: l => let! y := f x in let! ys := forM f l in Ok (y :: ys)
  end.

Lemma forM_Ok {A B} (f : A → res B) l ys :
  forM f l = Ok ys ↔ Forall2 (λ x y, f x = Ok y) l ys.
Proof.
  revert ys; induction l as [|x l IH]; intros ys; simpl.
  - split; [by intros [= <-] | by inversion 1].
  - split.
    + intros H; res_inv. constructor; [done|]. by apply IH.
    + inversion 1 as [|? y ? ys' Hx Hl]; subst. rewrite Hx; simpl.
      by rewrite (proj2 (IH _) Hl).
Qed.

Lemma forM_no_panic {A B} (f : A → res B) l :
  (∀ x, no_panic (f x) = true) → no_panic (forM f l) = true.
Proof.
  intros Hf; induction l as [|x l IH]; [done|]; simpl.
  apply bind_no_panic; [done|]; intros ??.
  by apply bind_no_panic.
Qed.

(** Another order of the elements: the results in that order. *)
Lemma forM_perm {A B} (f : A → res B) l l' ys :
  l ≡ₚ l' → forM f l = Ok ys → ∃ ys', forM f l' = Ok ys' ∧ ys ≡ₚ ys'.
Proof.
  intros Hp; revert ys; induction Hp as [|x l l' Hp IH|x y l|l l1 l2 H1 IH1 H2 IH2]; intros ys; cbn [forM].
  - eauto.
  - intros (y & Hy & (zs & Hz & [= <-])%bind_Ok_inv)%bind_Ok_inv.
    destruct (IH zs Hz) as (zs' & Hz' & ?). rewrite Hy; cbn [mbind res_bind]. rewrite Hz'; cbn [mbind res_bind].
    eexists. split; [done|]. by constructor.
  - intros (b & Hb & (ws & (a & Ha & (zs & Hz & [= <-])%bind_Ok_inv)%bind_Ok_inv & [= <-])%bind_Ok_inv)%bind_Ok_inv.
    rewrite Ha; cbn [mbind res_bind]. rewrite Hb; cbn [mbind res_bind]. rewrite Hz; cbn [mbind res_bind].
    eexists. split; [done|]. constructor.
  - intros Hy. destruct (IH1 ys Hy) as (ys1 & Hy1 & ?). destruct (IH2 ys1 Hy1) as (ys2 & Hy2 & ?).
    exists ys2. split; [done|]. by etrans.
Qed.

#[export] Hint Resolve bind_no_panic forM_no_panic : go.

(** ** Go strings: byte strings *)

(** The value of a byte, for the ordered comparisons of [uint8]. *)
Definition byte_le (a b : ascii) : bool := (N_of_ascii a <=? N_of_ascii b)%N.

(** [s[lo:hi]]: panics unless 0 <= lo <= hi <= len(s). *)
Definition go_slice (s : string) (lo hi : nat) : res string :=
  if (lo <=? hi)%nat && (hi <=? String.length s)%nat
  then Ok (String.substring lo (hi - lo) s)
  else Panic "slice bounds out of range".

(** [s[lo:]]. *)
Definition go_slice_from (s : string) (lo : nat) : res string :=
  go_slice s lo (String.length s).

(** [strings.HasPrefix]. *)
Definition strings_HasPrefix (s prefix : string) : bool := String.prefix prefix s.

(** [strings.Contains]. *)
Fixpoint strings_Contains (s substr : string) : bool :=
  String.prefix substr s ||
  match s with
  | EmptyString => false
  | String _ s' => strings_Contains s' substr
  end.

(** [strings.Compare]: byte-wise lexicographic order. *)
Definition strings_Compare (a b : string) : Z :=
  match String.compare a b with Eq => 0 | Lt => -1 | Gt => 1 end.

(** Every byte of the string satisfies [p]: the loops over [s[i]]. *)
Fixpoint all_bytes (p : ascii → bool) (s : string) : bool :=
  match s with
  | EmptyString => true
  | String c s => p c && all_bytes p s
  end.

(** ** Fixed-width integers *)
Definition wrap_int64 (z : Z) : Z := (z + 2 ^ 63) mod 2 ^ 64 - 2 ^ 63.
Definition int64_ok (z : Z) : Prop := (- 2 ^ 63 ≤ z < 2 ^ 63)%Z.

Lemma wrap_int64_id z : int64_ok z → wrap_int64 z = z.
Proof. unfold int64_ok, wrap_int64. intros. rewrite Z.mod_small; lia. Qed.

Lemma wrap_int64_ok z : int64_ok (wrap_int64 z).
Proof.
  unfold int64_ok, wrap_int64.
  pose proof (Z.mod_pos_bound (z + 2 ^ 63) (2 ^ 64) eq_refl). lia.
Qed.

(** ** Lemmas on byte strings *)
Section string_lemmas.
Implicit Types (s a b c : string).

Lemma length_app_str a b : String.length (a +:+ b) = String.length a + String.length b.
Proof. induction a as [|x a IH]; simpl; [done|]. unfold String.app in *; simpl. by rewrite IH. Qed.

Lemma app_str_cons x a b : String x a +:+ b = String x (a +:+ b).
Proof. done. Qed.

Lemma app_str_nil_l b : EmptyString +:+ b = b.
Proof. done. Qed.

Lemma app_str_nil_r a : a +:+ EmptyString = a.
Proof. induction a as [|x a IH]; [done|]. rewrite app_str_cons. by rewrite IH. Qed.

Lemma app_str_assoc a b c : (a +:+ b) +:+ c = a +:+ (b +:+ c).
Proof. induction a as [|x a IH]; [done|]. rewrite !app_str_cons. by rewrite IH. Qed.

Lemma substring_0_app a b : String.substring 0 (String.length a) (a +:+ b) = a.
Proof.
  induction a as [|x a IH].
  - by destruct b.
  - rewrite app_str_cons; simpl. by rewrite IH.
Qed.

Lemma substring_skip n a b :
  String.substring (String.length a) n (a +:+ b) = String.substring 0 n b.
Proof. induction a as [|x a IH]; [done|]. rewrite app_str_cons; simpl. done. Qed.

Lemma substring_mid a b c :
  String.substring (String.length a) (String.length b) (a +:+ (b +:+ c)) = b.
Proof. by rewrite substring_skip, substring_0_app. Qed.

Lemma app_str_inj a b c : a +:+ b = a +:+ c → b = c.
Proof. induction a as [|x a IH]; [done|]. rewrite !app_str_cons. by intros [= ?%IH]. Qed.

Lemma go_slice_mid a b c :
  go_slice (a +:+ (b +:+ c)) (String.length a) (String.length a + String.length b) = Ok b.
Proof.
  unfold go_slice. rewrite !length_app_str.
  rewrite (proj2 (Nat.leb_le _ _)), (proj2 (Nat.leb_le _ _)) by lia; simpl.
  replace (_ - _) with (String.length b) by lia. by rewrite substring_mid.
Qed.

Lemma go_slice_from_app a b : go_slice_from (a +:+ b) (String.length a) = Ok b.
Proof.
  unfold go_slice_from. rewrite length_app_str.
  pose proof (go_slice_mid a b EmptyString) as H. by rewrite app_str_nil_r in H.
Qed.

Lemma prefix_app a b : String.prefix a (a +:+ b) = true.
Proof.
  induction a as [|x a IH]; [by destruct b|]. rewrite app_str_cons; simpl.
  by destruct (ascii_dec x x).
Qed.

Lemma prefix_inv a s : String.prefix a s = true → ∃ b, s = a +:+ b.
Proof.
  revert s; induction a as [|x a IH]; intros s Hp; [by exists s|].
  destruct s as [|y s]; [done|]; simpl in Hp.
  destruct (ascii_dec x y) as [->|]; [|done].
  destruct (IH _ Hp) as [b ->]. by exists b.
Qed.

Lemma all_bytes_app p a b : all_bytes p (a +:+ b) = all_bytes p a && all_bytes p b.
Proof. induction a as [|x a IH]; [done|]. rewrite app_str_cons; simpl. by rewrite IH, andb_assoc. Qed.

Lemma Contains_prefix s b : String.prefix b s = true → strings_Contains s b = true.
Proof. intros Hp. destruct s; cbn [strings_Contains]; by rewrite Hp. Qed.

Lemma Contains_app a b c : strings_Contains (a +:+ (b +:+ c)) b = true.
Proof.
  induction a as [|x a IH].
  - rewrite app_str_nil_l. apply Contains_prefix, prefix_app.
  - rewrite app_str_cons; simpl. by rewrite IH, orb_true_r.
Qed.

Lemma string_compare_refl s : String.compare s s = Eq.
Proof.
  induction s as [|c s IH]; [done|]; simpl. unfold Ascii.compare. by rewrite N.compare_refl.
Qed.

Lemma string_compare_eq a b : String.compare a b = Eq ↔ a = b.
Proof. split; [apply String.compare_eq_iff|intros ->; apply string_compare_refl]. Qed.

Lemma Contains_inv s b : strings_Contains s b = true → ∃ a c, s = a +:+ (b +:+ c).
Proof.
  induction s as [|x s IH]; cbn [strings_Contains]; intros [Hp|Hc]%orb_prop.
  - apply prefix_inv in Hp as [c ->]. by exists "", c.
  - done.
  - apply prefix_inv in Hp as [c Hc]. rewrite Hc. by exists "", c.
  - destruct (IH Hc) as (a & c & ->). by exists (String x a), c.
Qed.
End string_lemmas.

#[export] Hint Rewrite length_app_str app_str_nil_l app_str_nil_r app_str_assoc
  substring_0_app substring_mid go_slice_mid go_slice_from_app prefix_app
  all_bytes_app : go.

(** ** Go maps

    [for k, v := range m] visits the entries of [m] in an unspecified order:
    a loop over a map takes the visiting order as an argument, and [range_of]
    says that it is an order of that map. *)
Definition range_of {K V} `{Countable K} (m : gmap K V) (order : list (K * V)) : Prop :=
  order ≡ₚ map_to_list m.

Lemma range_of_lookup {K V} `{Countable K} (m : gmap K V) order k v :
  range_of m order → (k, v) ∈ order ↔ m !! k = Some v.
Proof. intros ->. apply elem_of_map_to_list. Qed.

Lemma range_of_NoDup {K V} `{Countable K} (m : gmap K V) order :
  range_of m order → NoDup order.*1.
Proof. intros Ho. rewrite Ho. apply NoDup_fst_map_to_list. Qed.

Lemma range_of_list_to_map {K V} `{Countable K} (m : gmap K V) order :
  range_of m order → list_to_map order = m.
Proof.
  intros Ho. symmetry. by apply list_to_map_flip.
Qed.

Lemma range_of_map_to_list {K V} `{Countable K} (m : gmap K V) : range_of m (map_to_list m).
Proof. unfold range_of. reflexivity. Qed.

#[export] Hint Resolve range_of_map_to_list range_of_NoDup : go.

(** A map of a message with string keys, with the order in which the one loop of the code
    over it visits it: any order of the map. *)
Record go_map (V : Type) : Type := mkGoMap {
  gm_map : gmap string V;
  gm_order : list (string * V);
  gm_range : range_of gm_map gm_order;
}.
Arguments mkGoMap {V} gm_map gm_order gm_range.
Arguments gm_map {V} g.
Arguments gm_order {V} g.
Arguments gm_range {V} g.

(** A map visited in the order of its list. *)
Definition listed {V} (m : gmap string V) : go_map V := mkGoMap m (map_to_list m) (range_of_map_to_list m).

(** Every order of a map is the order of some loop; a received map is one of them. *)
Lemma go_map_perm {V} (g g' : go_map V) : gm_map g = gm_map g' → gm_order g ≡ₚ gm_order g'.
Proof. destruct g as [m o H], g' as [m' o' H']. cbn. intros ->. unfold range_of in *. by rewrite H, H'. Qed.

(** Loops that append one element per iteration. *)
Lemma foldl_snoc_fmap {A B} (f : A → B) l acc :
  foldl (λ out a, out ++ [f a]) acc l = acc ++ (f <$> l).
Proof.
  revert acc; induction l as [|a l IH]; intros acc; simpl; [by rewrite app_nil_r|].
  by rewrite IH, <- app_assoc.
Qed.
