(* ===== verification/Logger.v ===== *)
(** * logger: the loggers of the library

    Models src/logger: the Logger interface (logger.go), the logger that drops its
    lines (null.go), the one over the standard log package (std.go) and the one over an
    io.Writer (writer.go). A call of a logger returns what it passed on, in order; a
    logger of the user's is known by its name. A method of a nil interface panics.

    fmt.Sprintf is a parameter ([Fmt]); [FmtLaws] is what its documentation says of
    literal text. *)

From S2P Require Import Prelude.

(** fmt.Sprintf. *)
Class Fmt := fmt_Sprintf : string → list farg → string.

(** Text without verbs at the start of a format is copied. *)
Class FmtLaws (F : Fmt) : Prop := {
  Sprintf_literal lit format args :
    all_bytes (λ c, negb (bool_decide (c = "%"%char))) lit = true →
    fmt_Sprintf (lit +:+ format) args = lit +:+ fmt_Sprintf format args;
}.

Definition newline : string := String (ascii_of_nat 10) EmptyString.

(** The values of the interface; an io.Writer is a handle. *)
Inductive Logger : Type :=
  | nil_logger
  | nullLogger
  | stdLogger
  | writer (Writer : string)
  | other_logger (name : string).

Definition Null : Logger := nullLogger.
Definition Std : Logger := stdLogger.
Definition Writer (w : string) : Logger := writer w.

Inductive level : Type := DEBUG | INFO | WARN | ERROR.

(** What a logger passes on: log.Printf, fmt.Fprintf on its writer, or the call itself. *)
Inductive log_entry : Type :=
  | log_Printf (format : string) (args : list farg)
  | fmt_Fprintf (w : string) (format : string) (args : list farg)
  | Logged (to : string) (l : level) (format : string) (args : list farg).

Definition std_Debugf format args : list log_entry := [log_Printf ("[DEBUG] " +:+ (format +:+ newline)) args].
Definition std_Infof format args : list log_entry := [log_Printf ("[INFO] " +:+ (format +:+ newline)) args].
Definition std_Warnf format args : list log_entry := [log_Printf ("[WARN] " +:+ (format +:+ newline)) args].
Definition std_Errorf format args : list log_entry := [log_Printf ("[ERROR] " +:+ (format +:+ newline)) args].

Definition writer_Debugf w format args : list log_entry := [fmt_Fprintf w ("[DEBUG] " +:+ (format +:+ newline)) args].
Definition writer_Infof w format args : list log_entry := [fmt_Fprintf w ("[INFO] " +:+ (format +:+ newline)) args].
Definition writer_Warnf w format args : list log_entry := [fmt_Fprintf w ("[WARN] " +:+ (format +:+ newline)) args].
Definition writer_Errorf w format args : list log_entry := [fmt_Fprintf w ("[ERROR] " +:+ (format +:+ newline)) args].

Definition null_logf (format : string) (args : list farg) : list log_entry := [].

Definition Debugf (log : Logger) (format : string) (args : list farg) : res (list log_entry) :=
  match log with
  | nil_logger => Panic "nil pointer dereference"
  | nullLogger => Ok (null_logf format args)
  | stdLogger => Ok (std_Debugf format args)
  | writer w => Ok (writer_Debugf w format args)
  | other_logger name => Ok [Logged name DEBUG format args]
  end.
Definition Infof (log : Logger) (format : string) (args : list farg) : res (list log_entry) :=
  match log with
  | nil_logger => Panic "nil pointer dereference"
  | nullLogger => Ok (null_logf format args)
  | stdLogger => Ok (std_Infof format args)
  | writer w => Ok (writer_Infof w format args)
  | other_logger name => Ok [Logged name INFO format args]
  end.
Definition Warnf (log : Logger) (format : string) (args : list farg) : res (list log_entry) :=
  match log with
  | nil_logger => Panic "nil pointer dereference"
  | nullLogger => Ok (null_logf format args)
  | stdLogger => Ok (std_Warnf format args)
  | writer w => Ok (writer_Warnf w format args)
  | other_logger name => Ok [Logged name WARN format args]
  end.
Definition Errorf (log : Logger) (format : string) (args : list farg) : res (list log_entry) :=
  match log with
  | nil_logger => Panic "nil pointer dereference"
  | nullLogger => Ok (null_logf format args)
  | stdLogger => Ok (std_Errorf format args)
  | writer w => Ok (writer_Errorf w format args)
  | other_logger name => Ok [Logged name ERROR format args]
  end.

(** ** Specification: the entry of a call, by its level *)
Definition tag (l : level) : string :=
  match l with DEBUG => "[DEBUG] " | INFO => "[INFO] " | WARN => "[WARN] " | ERROR => "[ERROR] " end.

Definition logs (log : Logger) (l : level) (format : string) (args : list farg) : list log_entry :=
  match log with
  | nil_logger | nullLogger => []
  | stdLogger => [log_Printf (tag l +:+ (format +:+ newline)) args]
  | writer w => [fmt_Fprintf w (tag l +:+ (format +:+ newline)) args]
  | other_logger name => [Logged name l format args]
  end.

Definition logf (log : Logger) (l : level) : string → list farg → res (list log_entry) :=
  match l with DEBUG => Debugf log | INFO => Infof log | WARN => Warnf log | ERROR => Errorf log end.

Lemma logf_logs log l format args : log ≠ nil_logger → logf log l format args = Ok (logs log l format args).
Proof. by destruct log, l. Qed.

Lemma Debugf_logs log format args : log ≠ nil_logger → Debugf log format args = Ok (logs log DEBUG format args).
Proof. apply (logf_logs log DEBUG). Qed.
Lemma Errorf_logs log format args : log ≠ nil_logger → Errorf log format args = Ok (logs log ERROR format args).
Proof. apply (logf_logs log ERROR). Qed.

(** The line a logger writes, when it writes one itself. *)
Definition entry_text {F : Fmt} (e : log_entry) : option string :=
  match e with
  | log_Printf format args | fmt_Fprintf _ format args => Some (fmt_Sprintf format args)
  | Logged _ _ _ _ => None
  end.

(** A line of the loggers of the package is the tag of its level and the formatted
    text; the tag cannot be changed by the format or the arguments. *)
Theorem log_lines {F : Fmt} {FL : FmtLaws F} log l format args e line :
  log ≠ nil_logger →
  logf log l format args = Ok [e] → entry_text e = Some line →
  line = tag l +:+ fmt_Sprintf (format +:+ newline) args.
Proof.
  intros Hn. rewrite logf_logs by done. destruct log; try done; intros [= <-] [= <-];
    rewrite Sprintf_literal by (by destruct l); done.
Qed.
