(* ===== verification/Fanout.v ===== *)
(** * internal/test/fakeworkloadapi: responses sent to many streams

    The Workload API of src/internal/test/fakeworkloadapi/workload_api.go keeps, for each
    kind of response, the latest one and the channels of the streams that wait for the
    next. A call of Set... stores a response and hands it to each channel; a stream sends
    the response it finds, then what arrives on its channel. This file is that machine,
    which the file has five times: the code under the mutex and the streams, interleaved one
    channel operation at a time. Calls of Set... exclude each other, so there is at most
    one in its critical section; a critical section without a channel operation is one
    step. A nil response is None; [R] is the type of the others. *)

From S2P Require Import Prelude.

(** The call that holds the mutex: about to visit the channels of [todo]; in the default
    branch for [c], about to receive from it; about to send to it. *)
Inductive setter_pc : Type :=
  | Unlocked
  | Visiting (todo : list nat)
  | Draining (c : nat) (todo : list nat)
  | Pushing (c : nat) (todo : list nat).

Section machine.
Context {R : Type}.

(** A stream: in sendResp, in its select, and past the loop with the error it returns,
    before and after the deferred delete. *)
Inductive stream_pc : Type :=
  | Sending (resp : option R)
  | Selecting
  | Leaving (err : error)
  | Returned (err : error).

(** [s_buffer]: the channel, of capacity one; [s_sent]: what it has sent, latest first. *)
Record stream : Type := mkStream {
  s_registered : bool;
  s_buffer : option (option R);
  s_pc : stream_pc;
  s_sent : list R;
}.

(** [serr]: witErr or witBundlesErr, nil for ever in the other fan-outs;
    [history]: the responses so far, latest first. *)
Record state : Type := mkState {
  resp : option R;
  serr : option error;
  streams : gmap nat stream;
  setter : setter_pc;
  history : list (option R);
}.

Definition new_fanout : state := mkState None None ∅ Unlocked [None].

Definition set_stream (c : nat) (st : stream) (s : state) : state :=
  mkState (resp s) (serr s) (<[c := st]> (streams s)) (setter s) (history s).
Definition set_setter (pc : setter_pc) (s : state) : state :=
  mkState (resp s) (serr s) (streams s) pc (history s).
Definition set_buffer (b : option (option R)) (st : stream) : stream :=
  mkStream (s_registered st) b (s_pc st) (s_sent st).
Definition set_pc (pc : stream_pc) (st : stream) : stream :=
  mkStream (s_registered st) (s_buffer st) pc (s_sent st).

Definition registered (s : state) : gset nat := dom (filter (λ kv, s_registered kv.2 = true) (streams s)).

(** The schedule and the environment's choices: the order of the range loop, the outcome
    of stream.Send, the end of a stream's context. *)
Inductive choice : Type :=
  | Ch_set (r : option R) (order : list nat)   (* a Set... locks the mutex and stores *)
  | Ch_set_error (err : option error)          (* SetWITSVIDError, SetWITBundlesError *)
  | Ch_setter                                  (* the next channel operation, or the unlock *)
  | Ch_fetch (c : nat)                         (* a stream registers a new channel *)
  | Ch_send (c : nat) (err : option error)     (* sendResp *)
  | Ch_recv (c : nat)                          (* the select receives *)
  | Ch_done (c : nat) (err : error)            (* the select finds the context done *)
  | Ch_leave (c : nat).                        (* the deferred delete *)

Variable noIdentityError : error.

(** One step of the loop over the channels. *)
Definition setter_step (s : state) : option state :=
  match setter s with
  | Unlocked => None
  | Visiting [] => Some (set_setter Unlocked s)
  | Visiting (c :: todo) =>
      st ← streams s !! c;
      match s_buffer st with
      | None => Some (set_setter (Visiting todo) (set_stream c (set_buffer (Some (resp s)) st) s))
      | Some _ => Some (set_setter (Draining c todo) s)
      end
  | Draining c todo =>
      st ← streams s !! c;
      match s_buffer st with
      | Some _ => Some (set_setter (Pushing c todo) (set_stream c (set_buffer None st) s))
      | None => None
      end
  | Pushing c todo =>
      st ← streams s !! c;
      match s_buffer st with
      | None => Some (set_setter (Visiting todo) (set_stream c (set_buffer (Some (resp s)) st) s))
      | Some _ => None
      end
  end.

Definition is_unlocked (s : state) : bool := match setter s with Unlocked => true | _ => false end.

(** sendResp: a nil response ends the stream, and so does a failure to send. *)
Definition sendResp (r : option R) (err : option error) (st : stream) : stream :=
  match r with
  | None => set_pc (Leaving noIdentityError) st
  | Some r =>
      match err with
      | Some err => set_pc (Leaving err) st
      | None => mkStream (s_registered st) (s_buffer st) Selecting (r :: s_sent st)
      end
  end.

Definition do (ch : choice) (s : state) : option state :=
  match ch with
  | Ch_set r order =>
      if is_unlocked s && bool_decide (NoDup order) && bool_decide (list_to_set order = registered s)
      then Some (mkState r (serr s) (streams s) (Visiting order) (r :: history s)) else None
  | Ch_set_error err =>
      if is_unlocked s then Some (mkState (resp s) err (streams s) (setter s) (history s)) else None
  | Ch_setter => setter_step s
  | Ch_fetch c =>
      if is_unlocked s && bool_decide (streams s !! c = None)
      then Some (set_stream c (mkStream true None
             (match serr s with Some err => Leaving err | None => Sending (resp s) end) []) s)
      else None
  | Ch_send c err =>
      st ← streams s !! c;
      match s_pc st with Sending r => Some (set_stream c (sendResp r err st) s) | _ => None end
  | Ch_recv c =>
      st ← streams s !! c;
      match s_pc st, s_buffer st with
      | Selecting, Some r => Some (set_stream c (set_pc (Sending r) (set_buffer None st)) s)
      | _, _ => None
      end
  | Ch_done c err =>
      st ← streams s !! c;
      match s_pc st with Selecting => Some (set_stream c (set_pc (Leaving err) st) s) | _ => None end
  | Ch_leave c =>
      st ← streams s !! c;
      match s_pc st with
      | Leaving err =>
          if is_unlocked s then Some (set_stream c (mkStream false (s_buffer st) (Returned err) (s_sent st)) s) else None
      | _ => None
      end
  end.

Definition step (s s' : state) : Prop := ∃ ch, do ch s = Some s'.
Definition reachable (s : state) : Prop := rtc step new_fanout s.

Fixpoint run (chs : list choice) (s : state) : option state :=
  match chs with
  | [] => Some s
  | ch :: chs => s' ← do ch s; run chs s'
  end.
End machine.
Arguments stream : clear implicits.
Arguments state : clear implicits.
Arguments choice : clear implicits.
Arguments stream_pc : clear implicits.

(** ** Specification: what a stream knows *)
Section spec.
Context {R : Type}.
Implicit Types (s : state R) (st : stream R).

(** Everything a stream has been given, latest first. *)
Definition in_buffer st : list (option R) := option_list (s_buffer st).
Definition in_hand st : list (option R) := match s_pc st with Sending r => [r] | _ => [] end.
Definition given st : list (option R) := in_buffer st ++ in_hand st ++ (Some <$> s_sent st).

(** A stream still in its loop. *)
Definition live st : Prop := s_registered st = true ∧ match s_pc st with Sending _ | Selecting => True | _ => False end.

(** The call in the critical section waits for a channel that is empty: the stream has
    received between the failed send and the receive of the default branch. *)
Definition hung s : Prop :=
  ∃ c todo st, setter s = Draining c todo ∧ streams s !! c = Some st ∧ s_buffer st = None.

(** The channels the call has still to visit. *)
Definition pending s : list nat :=
  match setter s with
  | Unlocked => []
  | Visiting todo => todo
  | Draining c todo | Pushing c todo => c :: todo
  end.

(** ** Invariant *)
Record Inv s : Prop := {
  inv_history : head (history s) = Some (resp s);
  inv_pending_NoDup : NoDup (pending s);
  inv_registered c st : streams s !! c = Some st → c ∈ pending s → s_registered st = true;
  inv_present c : c ∈ pending s → is_Some (streams s !! c);
  inv_given c st : streams s !! c = Some st →
    given st `sublist_of` (if bool_decide (c ∈ pending s) then tail (history s) else history s);
  inv_live c st : streams s !! c = Some st → live st → c ∉ pending s → head (given st) = Some (resp s);
  inv_pushing c todo st : setter s = Pushing c todo → streams s !! c = Some st → s_buffer st = None;
}.

Lemma pending_unlocked s : is_unlocked s = true → pending s = [].
Proof. unfold is_unlocked, pending. by destruct (setter s). Qed.

Lemma registered_spec s c : c ∈ registered s ↔ ∃ st, streams s !! c = Some st ∧ s_registered st = true.
Proof.
  unfold registered. rewrite elem_of_dom. split.
  - intros [st [Hst Hr]%map_lookup_filter_Some]. by exists st.
  - intros (st & Hst & Hr). exists st. by apply map_lookup_filter_Some.
Qed.

Lemma sublist_tail_cons (l h : list (option R)) : l `sublist_of` tail h → l `sublist_of` h.
Proof. destruct h; cbn; [done|]. by constructor. Qed.

(** A step of one stream that leaves the machine as it is. *)
Lemma Inv_set_stream s c st st' :
  Inv s → streams s !! c = Some st →
  given st' `sublist_of` given st → (s_registered st' = s_registered st ∨ pending s = []) →
  (live st' → live st ∧ head (given st') = head (given st)) →
  (s_buffer st = None → s_buffer st' = None) →
  Inv (set_stream c st' s).
Proof.
  intros HI Hst Hg Hr Hl Hb. destruct HI. split; cbn; [done..| | | | |].
  - intros c' st0. rewrite lookup_insert_Some. intros [[<- <-]|[??]] Hin; [|by eauto].
    destruct Hr as [->|Hr]; [by eauto|]. change (c ∈ pending s) in Hin. rewrite Hr in Hin. by apply elem_of_nil in Hin.
  - intros c' Hin. rewrite lookup_insert_is_Some. destruct (decide (c = c')); eauto.
  - intros c' st0. rewrite lookup_insert_Some. intros [[<- <-]|[??]]; [|by apply inv_given0]. etrans; [done|]. by apply inv_given0.
  - intros c' st0. rewrite lookup_insert_Some. intros [[<- <-]|[??]] Hlv Hn; [|by eauto].
    destruct (Hl Hlv) as [? ->]. eauto.
  - intros c' todo st0 Hp'. rewrite lookup_insert_Some. intros [[<- <-]|[??]]; eauto.
Qed.

(** A push to the channel of [c], the first of the pending ones. *)
Lemma Inv_push s c todo st :
  Inv s → pending s = c :: todo → streams s !! c = Some st → s_buffer st = None →
  Inv (set_setter (Visiting todo) (set_stream c (set_buffer (Some (resp s)) st) s)).
Proof.
  intros HI Hp Hst Hb. destruct HI. rewrite Hp in *. apply NoDup_cons in inv_pending_NoDup0 as [Hn Hnd].
  split; cbn.
  - done.
  - done.
  - intros c' st0. rewrite lookup_insert_Some. intros [[<- <-]|[??]] Hin; [done|]. eapply inv_registered0; [done|]. by right.
  - intros c' Hin. rewrite lookup_insert_is_Some. destruct (decide (c = c')); [by left|right].
    split; [done|]. apply inv_present0. by right.
  - intros c' st0. rewrite lookup_insert_Some. intros [[<- <-]|[Hne Hst']].
    + rewrite bool_decide_false by done. specialize (inv_given0 _ _ Hst).
      rewrite bool_decide_true in inv_given0 by by left. unfold given, in_buffer in *. rewrite Hb in inv_given0. cbn in *.
      destruct (history s) as [|h hs]; [done|]. cbn in *. simplify_eq. by constructor.
    + specialize (inv_given0 _ _ Hst'). erewrite bool_decide_ext; [exact inv_given0|].
      rewrite elem_of_cons. naive_solver.
  - intros c' st0. rewrite lookup_insert_Some. intros [[<- <-]|[Hne Hst']] Hlv Hn'; [done|].
    apply (inv_live0 _ _ Hst' Hlv). rewrite elem_of_cons. naive_solver.
  - done.
Qed.

Lemma setter_step_Inv s s' : Inv s → setter_step s = Some s' → Inv s'.
Proof.
  intros HI. unfold setter_step. destruct (setter s) as [|[|c todo]|c todo|c todo] eqn:Hpc; [done| | | |].
  - intros [= <-]. destruct HI. unfold pending in *. rewrite Hpc in *. by split.
  - destruct (streams s !! c) as [st|] eqn:Hst; [|done]. cbn. destruct (s_buffer st) eqn:Hb; intros [= <-].
    + destruct HI. unfold pending in *. rewrite Hpc in *. split; try done.
    + apply Inv_push; [done| |done..]. unfold pending. by rewrite Hpc.
  - destruct (streams s !! c) as [st|] eqn:Hst; [|done]. cbn. destruct (s_buffer st) as [r|] eqn:Hb; [|done]. intros [= <-].
    destruct HI. unfold pending in *. rewrite Hpc in *. split; cbn; try done.
    + intros c' st0. rewrite lookup_insert_Some. intros [[<- <-]|[? Hst']] Hin; [exact (inv_registered0 _ _ Hst Hin)|exact (inv_registered0 _ _ Hst' Hin)].
    + intros c' Hin. rewrite lookup_insert_is_Some. destruct (decide (c = c')); eauto.
    + intros c' st0. rewrite lookup_insert_Some. intros [[<- <-]|[Hne Hst']]; [|by apply inv_given0].
      specialize (inv_given0 _ _ Hst). rewrite bool_decide_true in * by by left. etrans; [|exact inv_given0].
      unfold given, in_buffer. rewrite Hb. cbn. by constructor.
    + intros c' st0. rewrite lookup_insert_Some. intros [[<- <-]|[Hne Hst']] Hlv Hn'; [|by eauto]. destruct Hn'. by left.
    + intros c' todo' st0 [= <- <-]. rewrite lookup_insert_Some. by intros [[_ <-]|[? _]].
  - destruct (streams s !! c) as [st|] eqn:Hst; [|done]. cbn. destruct (s_buffer st) eqn:Hb; [done|]. intros [= <-].
    apply Inv_push; [done| |done..]. unfold pending. by rewrite Hpc.
Qed.

Lemma do_Inv e ch s s' : Inv s → do e ch s = Some s' → Inv s'.
Proof.
  intros HI. destruct ch as [r order|err| |c|c err|c|c err|c]; cbn [do].
  - destruct (is_unlocked s) eqn:Hu; [|done]. apply pending_unlocked in Hu.
    case_bool_decide as Hnd; [|done]. case_bool_decide as Ho; [|done]. intros [= <-].
    assert (∀ c, c ∈ order ↔ ∃ st, streams s !! c = Some st ∧ s_registered st = true) as Hin
      by (intros c; rewrite <- registered_spec, <- Ho; set_solver).
    destruct HI. rewrite Hu in *. split; cbn; try done.
    + intros c st Hst Hc%Hin. destruct Hc as (st' & ? & ?). congruence.
    + intros c (st & -> & _)%Hin. by eexists.
    + intros c st Hst. specialize (inv_given0 _ _ Hst). rewrite bool_decide_false in inv_given0 by apply not_elem_of_nil.
      case_bool_decide; [done|]. by constructor.
    + intros c st Hst [Hr _] Hn. destruct Hn. apply Hin. by exists st.
  - destruct (is_unlocked s) eqn:Hu; [|done]. intros [= <-]. destruct HI. by split.
  - by apply setter_step_Inv.
  - destruct (is_unlocked s) eqn:Hu; [|done]. apply pending_unlocked in Hu. case_bool_decide as Hc; [|done]. intros [= <-].
    destruct HI. unfold pending in Hu. split; cbn; unfold pending; cbn; rewrite ?Hu; try done.
    + constructor.
    + by intros c' st _ ?%elem_of_nil.
    + by intros c' ?%elem_of_nil.
    + intros c' st. rewrite bool_decide_false by apply not_elem_of_nil. rewrite lookup_insert_Some. intros [[<- <-]|[??]].
      * destruct (serr s); unfold given; cbn; [apply sublist_nil_l|].
        destruct (history s); [done|]. cbn in *. simplify_eq. constructor. apply sublist_nil_l.
      * specialize (inv_given0 c' st). unfold pending in inv_given0. rewrite Hu, bool_decide_false in inv_given0; auto. apply not_elem_of_nil.
    + intros c' st. rewrite lookup_insert_Some. intros [[<- <-]|[??]] Hlv _.
      * revert Hlv. destruct (serr s); [by intros []|done].
      * apply (inv_live0 c'); [done..|]. unfold pending. rewrite Hu. apply not_elem_of_nil.
    + intros c' todo st E. by rewrite E in Hu.
  - destruct (streams s !! c) as [st|] eqn:Hst; [|done]. cbn. destruct (s_pc st) as [r| | |] eqn:Hpc; [|done..]. intros [= <-].
    apply (Inv_set_stream s c st); [done|done| | | |].
    + unfold given, in_buffer, in_hand, sendResp. rewrite Hpc. destruct r as [r|]; [destruct err|]; cbn.
      all: try (apply sublist_app; [done|]; by constructor).
    + left. unfold sendResp. by repeat case_match.
    + unfold sendResp, live, given, in_buffer, in_hand. rewrite Hpc. destruct r as [r|]; [destruct err|]; cbn; by intros [].
    + unfold sendResp. by repeat case_match.
  - destruct (streams s !! c) as [st|] eqn:Hst; [|done]. cbn. destruct (s_pc st) eqn:Hpc; [done| |done..].
    destruct (s_buffer st) as [r|] eqn:Hb; [|done]. intros [= <-].
    apply (Inv_set_stream s c st); [done|done| |by left| |done].
    + unfold given, in_buffer, in_hand. by rewrite Hpc, Hb.
    + unfold live, given, in_buffer, in_hand. by rewrite Hpc, Hb.
  - destruct (streams s !! c) as [st|] eqn:Hst; [|done]. cbn. destruct (s_pc st) eqn:Hpc; [done| |done..]. intros [= <-].
    apply (Inv_set_stream s c st); [done|done| |by left| |done].
    + unfold given, in_buffer, in_hand. by rewrite Hpc.
    + by intros [].
  - destruct (streams s !! c) as [st|] eqn:Hst; [|done]. cbn. destruct (s_pc st) eqn:Hpc; [done|done| |done].
    destruct (is_unlocked s) eqn:Hu; [|done]. intros [= <-].
    apply (Inv_set_stream s c st); [done|done| | | |done].
    + unfold given, in_buffer, in_hand. by rewrite Hpc.
    + right. by apply pending_unlocked.
    + by intros [].
Qed.

Lemma new_fanout_Inv : Inv (new_fanout (R := R)).
Proof.
  split; cbn; [done|constructor|..].
  - by intros c st ?%lookup_empty_Some.
  - by intros c ?%elem_of_nil.
  - by intros c st ?%lookup_empty_Some.
  - by intros c st ?%lookup_empty_Some.
  - done.
Qed.

Lemma reachable_Inv_fanout e s : reachable e s → Inv s.
Proof.
  intros Hr. refine (rtc_ind_r (λ s : state R, Inv s) new_fanout new_fanout_Inv _ s Hr).
  intros s1 s2 _ [ch Hdo] HI. by eapply do_Inv.
Qed.

(** ** A call of Set... finishes unless it hangs *)
Definition setter_run : relation (state R) := rtc (λ s s', setter_step s = Some s').

Lemma push_runs s c todo st :
  (setter s = Visiting (c :: todo) ∨ setter s = Pushing c todo) → streams s !! c = Some st → s_buffer st = None →
  setter_step s = Some (set_setter (Visiting todo) (set_stream c (set_buffer (Some (resp s)) st) s)).
Proof. intros [Hp|Hp] Hst Hb; unfold setter_step; rewrite Hp, Hst; cbn; by rewrite Hb. Qed.

Lemma drain_runs s c todo st r :
  setter s = Draining c todo → streams s !! c = Some st → s_buffer st = Some r →
  ∃ s', setter_run s s' ∧ setter s' = Visiting todo ∧ resp s' = resp s.
Proof.
  intros Hp Hst Hb. eexists. split.
  - eapply rtc_l; [unfold setter_step; rewrite Hp, Hst; cbn; by rewrite Hb|].
    apply rtc_once. apply (push_runs _ c todo (set_buffer None st)); cbn; [by right|by rewrite lookup_insert_eq|done].
  - done.
Qed.

Lemma visit_runs s c todo st :
  setter s = Visiting (c :: todo) → streams s !! c = Some st →
  ∃ s', setter_run s s' ∧ setter s' = Visiting todo ∧ resp s' = resp s.
Proof.
  intros Hp Hst. destruct (s_buffer st) as [r|] eqn:Hb.
  - destruct (drain_runs (set_setter (Draining c todo) s) c todo st r) as (s' & Hrun & ?); [done..|].
    exists s'. split; [|done]. eapply rtc_l; [|exact Hrun]. unfold setter_step. rewrite Hp, Hst; cbn. by rewrite Hb.
  - eexists. split; [apply rtc_once; apply (push_runs s c todo st); [by left|done..]|done].
Qed.

Lemma setter_run_Inv s s' : setter_run s s' → Inv s → Inv s'.
Proof. induction 1; eauto using setter_step_Inv. Qed.

Lemma visiting_finishes todo s :
  Inv s → setter s = Visiting todo → ∃ s', setter_run s s' ∧ setter s' = Unlocked ∧ resp s' = resp s.
Proof.
  revert s; induction todo as [|c todo IH]; intros s HI Hp.
  - exists (set_setter Unlocked s). split; [|done]. apply rtc_once. unfold setter_step. by rewrite Hp.
  - destruct (inv_present _ HI c) as [st Hst]; [unfold pending; rewrite Hp; by left|].
    destruct (visit_runs s c todo st Hp Hst) as (s1 & Hr1 & Hp1 & He1).
    destruct (IH s1) as (s2 & Hr2 & Hp2 & He2); [by eapply setter_run_Inv|done|].
    exists s2. split_and!; [by etrans|done|congruence].
Qed.

Lemma setter_finishes s :
  Inv s → ¬ hung s → ∃ s', setter_run s s' ∧ setter s' = Unlocked ∧ resp s' = resp s.
Proof.
  intros HI Hn. destruct (setter s) as [|todo|c todo|c todo] eqn:Hp.
  - by exists s.
  - by eapply visiting_finishes.
  - destruct (inv_present _ HI c) as [st Hst]; [unfold pending; rewrite Hp; by left|].
    destruct (s_buffer st) as [r|] eqn:Hb; [|destruct Hn; by exists c, todo, st].
    destruct (drain_runs s c todo st r Hp Hst Hb) as (s1 & Hr1 & Hp1 & He1).
    destruct (visiting_finishes todo s1) as (s2 & Hr2 & Hp2 & He2); [by eapply setter_run_Inv|done|].
    exists s2. split_and!; [by etrans|done|congruence].
  - destruct (inv_present _ HI c) as [st Hst]; [unfold pending; rewrite Hp; by left|].
    pose proof (push_runs s c todo st (or_intror Hp) Hst (inv_pushing _ HI c todo st Hp Hst)) as Hs1.
    destruct (visiting_finishes todo _ (setter_step_Inv _ _ HI Hs1) eq_refl) as (s2 & Hr2 & Hp2 & He2).
    exists s2. split_and!; [by eapply rtc_l|done|done].
Qed.

(** ** A hung call hangs for ever, with the mutex *)
Lemma hung_step e ch s s' :
  hung s → do e ch s = Some s' →
  hung s' ∧ setter s' = setter s ∧ resp s' = resp s ∧
  match ch with Ch_send _ _ | Ch_recv _ | Ch_done _ _ => True | _ => False end.
Proof.
  intros (c & todo & st & Hp & Hst & Hb) Hdo.
  assert (is_unlocked s = false) as Hu by (unfold is_unlocked; by rewrite Hp).
  assert (∀ c' st0 st1, streams s !! c' = Some st0 → (s_buffer st0 = None → s_buffer st1 = None) → hung (set_stream c' st1 s)) as Hset.
  { intros c' st0 st1 Hst0 Hb1. exists c, todo. destruct (decide (c' = c)) as [->|Hne].
    - exists st1. cbn. rewrite lookup_insert_eq. split_and!; [done|done|]. apply Hb1. congruence.
    - exists st. cbn. by rewrite lookup_insert_ne. }
  destruct ch as [r order|err| |c'|c' err|c'|c' err|c']; cbn [do] in Hdo; rewrite ?Hu in Hdo; try done.
  - unfold setter_step in Hdo. rewrite Hp, Hst in Hdo. cbn in Hdo. by rewrite Hb in Hdo.
  - destruct (streams s !! c') as [st'|] eqn:Hst'; [|done]. cbn in Hdo. destruct (s_pc st') as [r| | |]; [|done..]. injection Hdo as <-.
    split_and!; [|done..]. eapply Hset; [done|]. unfold sendResp. by repeat case_match.
  - destruct (streams s !! c') as [st'|] eqn:Hst'; [|done]. cbn in Hdo. destruct (s_pc st'); [done| |done..].
    destruct (s_buffer st') eqn:Hb'; [|done]. injection Hdo as <-. split_and!; [|done..]. by eapply Hset.
  - destruct (streams s !! c') as [st'|] eqn:Hst'; [|done]. cbn in Hdo. destruct (s_pc st'); [done| |done..]. injection Hdo as <-.
    split_and!; [|done..]. by eapply Hset.
  - destruct (streams s !! c') as [st'|] eqn:Hst'; [|done]. cbn in Hdo. by destruct (s_pc st').
Qed.

Lemma hung_for_ever e s s' : hung s → rtc (step e) s s' → hung s' ∧ setter s' = setter s ∧ resp s' = resp s.
Proof.
  intros Hh Hr. induction Hr as [s|s s1 s2 [ch Hdo] _ IH]; [done|].
  destruct (hung_step _ _ _ _ Hh Hdo) as (Hh1 & Hp & He & _). destruct (IH Hh1) as (? & ? & ?). split_and!; [done|congruence..].
Qed.

Lemma run_reachable e chs s : run e chs new_fanout = Some s → reachable e s.
Proof.
  unfold reachable. generalize (new_fanout (R := R)). induction chs as [|ch chs IH]; intros s0; cbn; [by intros [= <-]|].
  destruct (do e ch s0) as [s1|] eqn:Hdo; [|done]. cbn. intros Hr. eapply rtc_l; [by exists ch|by apply IH].
Qed.
End spec.

(** ** Properties *)
Section fanout_properties.
Context {R : Type}.

(** [C38] The fan-out of responses. Every stream sends responses in the order in which they
    were set, possibly skipping some; when no call of Set... is under way, what a stream
    has in its channel, in hand, or else has sent last, is the latest response. A call of
    Set... can finish by itself unless it hangs: the stream has received from the full
    channel between the failed send and the receive of the default branch. From then on
    the call waits with the mutex locked for ever: no response is set and no stream
    begins or returns. One stream and two calls are enough to get there. *)
Theorem streams_catch_up (noIdentityError : error) (s : state R) :
  reachable noIdentityError s →
  (∀ c st, streams s !! c = Some st → (Some <$> s_sent st) `sublist_of` history s ∧
     (setter s = Unlocked → live st →
        head (given st) = Some (resp s) ∧
        (s_buffer st = None → s_pc st = Selecting → ∃ r, resp s = Some r ∧ head (s_sent st) = Some r))) ∧
  (¬ hung s → ∃ s', setter_run s s' ∧ setter s' = Unlocked ∧ resp s' = resp s) ∧
  (hung s → ∀ s', rtc (step noIdentityError) s s' →
     setter s' = setter s ∧ resp s' = resp s ∧
     ∀ ch, match ch with Ch_send _ _ | Ch_recv _ | Ch_done _ _ => True | _ => do noIdentityError ch s' = None end) ∧
  (∀ r1 r2 r3 : R, ∃ s', reachable noIdentityError s' ∧ hung s' ∧ history s' = [Some r3; Some r2; Some r1; None] ∧
     dom (streams s') = {[ 0 ]}).
Proof.
  intros Hr. pose proof (reachable_Inv_fanout _ _ Hr) as HI. split_and!.
  - intros c st Hst. split.
    + etrans; [|etrans; [exact (inv_given _ HI c st Hst)|]].
      * unfold given. do 2 apply sublist_inserts_l. done.
      * case_bool_decide; [by apply sublist_tail_cons|done].
    + intros Hu Hl. assert (head (given st) = Some (resp s)) as Hh.
      { apply (inv_live _ HI c); [done..|]. unfold pending. rewrite Hu. apply not_elem_of_nil. }
      split; [done|]. intros Hb Hpc. unfold given, in_buffer, in_hand in Hh. rewrite Hb, Hpc in Hh. cbn in Hh.
      destruct (s_sent st) as [|r l]; [done|]. injection Hh as Hh. by exists r.
  - by apply setter_finishes.
  - intros Hh s' Hs'. destruct (hung_for_ever _ _ _ Hh Hs') as (Hh' & Hp & He). split_and!; [done..|].
    intros ch. destruct (do noIdentityError ch s') as [s''|] eqn:Hdo; [|by destruct ch].
    destruct (hung_step _ _ _ _ Hh' Hdo) as (_ & _ & _ & ?). by destruct ch.
  - intros r1 r2 r3.
    set (s' := run noIdentityError [Ch_set (Some r1) []; Ch_setter; Ch_fetch 0; Ch_send 0 None;
      Ch_set (Some r2) [0]; Ch_setter; Ch_setter; Ch_set (Some r3) [0]; Ch_setter; Ch_recv 0] new_fanout).
    destruct s' as [s1|] eqn:Hs1; [|by vm_compute in Hs1]. exists s1. split; [by eapply run_reachable|].
    vm_compute in Hs1. injection Hs1 as <-. split_and!; [|done|].
    + by eexists 0, [], _.
    + by vm_compute.
Qed.
End fanout_properties.

(** ** Witness: a stream that has sent the latest of two responses *)
Lemma streams_catch_up_witness :
  let e := errors_New "no identity issued" in
  ∃ s st, reachable e s ∧ streams s !! 0 = Some st ∧ s_sent st = [2; 1] ∧ head (given st) = Some (Some 2).
Proof.
  intros e.
  set (s := run e [Ch_set (Some 1) []; Ch_setter; Ch_fetch 0; Ch_send 0 None; Ch_set (Some 2) [0]; Ch_setter; Ch_setter;
    Ch_recv 0; Ch_send 0 None] new_fanout).
  destruct s as [s1|] eqn:Hs; [|by vm_compute in Hs].
  assert (reachable e s1) as Hr by by eapply run_reachable.
  destruct (streams_catch_up e s1 Hr) as [H _].
  vm_compute in Hs. injection Hs as <-. eexists _, _. split_and!; [done|reflexivity|done|].
  apply (H 0); [reflexivity|done|done].
Defined.
