(* ===== verification/Path.v ===== *)
(** * spiffeid: characters and paths

    Models src/spiffeid/path.go, errors.go, the character predicate of
    trustdomain.go and both build-tag variants of the backwards-compatible
    character sets (charset_backcompat_allow.go, charset_backcompat_deny.go).
    The two variants are the two values of the interface [Charset]; the path
    code is defined, and its theorems proved, against that interface.

    The theorems: [ValidatePath] agrees, errors included, with a check of the
    '/'-separated segments ([ValidatePath_reference]); it accepts exactly the
    outputs of [JoinPathSegments]; and joining is injective. *)

From S2P Require Import Prelude.

(** ** errors.go *)
Definition errBadTrustDomainChar : error := errors_New "trust domain characters are limited to lowercase letters, numbers, dots, dashes, and underscores".
Definition errBadPathSegmentChar : error := errors_New "path segment characters are limited to letters, numbers, dots, dashes, and underscores".
Definition errDotSegment : error := errors_New "path cannot contain dot segments".
Definition errNoLeadingSlash : error := errors_New "path must have a leading slash".
Definition errEmpty : error := errors_New "cannot be empty".
Definition errEmptySegment : error := errors_New "path cannot contain empty segments".
Definition errMissingTrustDomain : error := errors_New "trust domain is missing".
Definition errTrailingSlash : error := errors_New "path cannot have a trailing slash".
Definition errWrongScheme : error := errors_New "scheme is missing or invalid".

(** ** The two build variants of the character sets *)
Class Charset := {
  isBackcompatTrustDomainChar : ascii → bool;
  isBackcompatPathChar : ascii → bool;
}.

(** What the rest of the package relies on: '/' is never a character of a
    trust domain or of a path segment. *)
Class CharsetLaws (C : Charset) : Prop := {
  trust_domain_char_not_slash : isBackcompatTrustDomainChar "/"%char = false;
  path_char_not_slash : isBackcompatPathChar "/"%char = false;
}.

Open Scope char_scope.

Definition isSubDelim (c : ascii) : bool :=
  match c with
  | "!" | "$" | "&" | "'" | "(" | ")" | "*" | "+" | "," | ";" | "=" => true
  | _ => false
  end.

(** charset_backcompat_deny.go: the default build. *)
Definition charset_deny : Charset := {|
  isBackcompatTrustDomainChar := λ c, false;
  isBackcompatPathChar := λ c, false;
|}.

(** charset_backcompat_allow.go: built with the tag spiffeid_charset_backcompat. *)
Definition charset_allow : Charset := {|
  isBackcompatTrustDomainChar := λ c,
    if isSubDelim c then true else match c with "~" => true | _ => false end;
  isBackcompatPathChar := λ c,
    if isSubDelim c then true else
    match c with "~" => true | ":" | "[" | "]" | "@" => true | _ => false end;
|}.

#[export] Instance charset_deny_laws : CharsetLaws charset_deny.
Proof. by split. Qed.
#[export] Instance charset_allow_laws : CharsetLaws charset_allow.
Proof. by split. Qed.

(** ** Character predicates *)
Section chars.
Context {C : Charset}.

Definition isValidTrustDomainChar (c : ascii) : bool :=
  if byte_le "a" c && byte_le c "z" then true
  else if byte_le "0" c && byte_le c "9" then true
  else if bool_decide (c = "-") || bool_decide (c = ".") || bool_decide (c = "_") then true
  else if isBackcompatTrustDomainChar c then true
  else false.

Definition isValidPathSegmentChar (c : ascii) : bool :=
  if byte_le "a" c && byte_le c "z" then true
  else if byte_le "A" c && byte_le c "Z" then true
  else if byte_le "0" c && byte_le c "9" then true
  else if bool_decide (c = "-") || bool_decide (c = ".") || bool_decide (c = "_") then true
  else if isBackcompatPathChar c then true
  else false.

Lemma slash_not_trust_domain_char `{!CharsetLaws C} : isValidTrustDomainChar "/" = false.
Proof. unfold isValidTrustDomainChar; simpl. by rewrite trust_domain_char_not_slash. Qed.

Lemma slash_not_path_char `{!CharsetLaws C} : isValidPathSegmentChar "/" = false.
Proof. unfold isValidPathSegmentChar; simpl. by rewrite path_char_not_slash. Qed.
End chars.
Close Scope char_scope.

#[export] Hint Rewrite @slash_not_trust_domain_char @slash_not_path_char using typeclasses eauto : go.

(** ** path.go *)
Section path.
Context {C : Charset}.

(** The scanning loop of [ValidatePath]: [rest] is path[segmentEnd:]. The
    result is (segmentStart, segmentEnd) at the end of the loop. *)
Fixpoint ValidatePath_loop (path rest : string) (segmentStart segmentEnd : nat)
    : res (nat * nat) :=
  match rest with
  | EmptyString => Ok (segmentStart, segmentEnd)
  | String c rest' =>
      if bool_decide (c = "/"%char) then
        let! seg := go_slice path segmentStart segmentEnd in
        if bool_decide (seg = "/") then Err errEmptySegment
        else if bool_decide (seg = "/.") || bool_decide (seg = "/..") then Err errDotSegment
        else ValidatePath_loop path rest' segmentEnd (S segmentEnd)
      else if negb (isValidPathSegmentChar c) then Err errBadPathSegmentChar
      else ValidatePath_loop path rest' segmentStart (S segmentEnd)
  end.

(** The switch after the loop, on path[segmentStart:segmentEnd]. *)
Definition ValidatePath_last (path : string) (bounds : nat * nat) : res unit :=
  let! seg := go_slice path bounds.1 bounds.2 in
  if bool_decide (seg = "/") then Err errTrailingSlash
  else if bool_decide (seg = "/.") || bool_decide (seg = "/..") then Err errDotSegment
  else Ok ().

Definition ValidatePath (path : string) : res unit :=
  match path with
  | EmptyString => Ok ()
  | String c _ =>
      if negb (bool_decide (c = "/"%char)) then Err errNoLeadingSlash
      else ValidatePath_loop path path 0 0 ≫= ValidatePath_last path
  end.

Definition ValidatePathSegment (segment : string) : res unit :=
  if bool_decide (segment = "") then Err errEmptySegment
  else if bool_decide (segment = ".") || bool_decide (segment = "..") then Err errDotSegment
  else if negb (all_bytes isValidPathSegmentChar segment) then Err errBadPathSegmentChar
  else Ok ().

(** The loop of [JoinPathSegments], with [builder] the text written so far. *)
Fixpoint JoinPathSegments_loop (builder : string) (segments : list string) : res string :=
  match segments with
  | [] => Ok builder
  | segment :: segments =>
      check! ValidatePathSegment segment;
      JoinPathSegments_loop ((builder +:+ "/") +:+ segment) segments
  end.

Definition JoinPathSegments (segments : list string) : res string :=
  JoinPathSegments_loop "" segments.

(** [fmt.Sprintf] formats arbitrary values; it is an argument. *)
Definition FormatPath {A} (fmt_Sprintf : string → list A → string)
    (format : string) (args : list A) : res string :=
  let path := fmt_Sprintf format args in
  check! ValidatePath path;
  Ok path.
End path.

(** ** The reference: segments between slashes *)

(** The segments of a path written after its leading slash. *)
Fixpoint split_slash (s : string) : list string :=
  match s with
  | EmptyString => [EmptyString]
  | String c s' =>
      if bool_decide (c = "/"%char) then EmptyString :: split_slash s'
      else match split_slash s' with
           | seg :: segs => String c seg :: segs
           | [] => [String c EmptyString]
           end
  end.

(** "/" before every segment. *)
Definition join_slash (segs : list string) : string :=
  foldr (λ seg acc, "/" +:+ (seg +:+ acc)) "" segs.

Section reference.
Context {C : Charset}.

(** Check of one segment; [empty] is the error for an empty one. *)
Definition check_segment (empty : error) (seg : string) : res unit :=
  if negb (all_bytes isValidPathSegmentChar seg) then Err errBadPathSegmentChar
  else if bool_decide (seg = "") then Err empty
  else if bool_decide (seg = ".") || bool_decide (seg = "..") then Err errDotSegment
  else Ok ().

(** Segments are checked left to right; an empty last one is a trailing slash. *)
Fixpoint check_segments (segs : list string) : res unit :=
  match segs with
  | [] => Ok ()
  | [seg] => check_segment errTrailingSlash seg
  | seg :: segs => check! check_segment errEmptySegment seg; check_segments segs
  end.

Definition check_path (path : string) : res unit :=
  match path with
  | EmptyString => Ok ()
  | String c rest =>
      if bool_decide (c = "/"%char) then check_segments (split_slash rest)
      else Err errNoLeadingSlash
  end.

Definition valid_segment (seg : string) : Prop := ValidatePathSegment seg = Ok ().

#[export] Instance valid_segment_dec seg : Decision (valid_segment seg).
Proof.
  unfold valid_segment. destruct (ValidatePathSegment seg) as [[]| |]; [by left|by right..].
Defined.
End reference.

(** ** Lemmas *)
Section path_lemmas.
Context {C : Charset} {CL : CharsetLaws C}.
Implicit Types (s seg cur pre rest : string) (segs : list string).

Lemma split_slash_not_nil s : split_slash s ≠ [].
Proof. induction s as [|c s IH]; simpl; repeat case_match; done. Qed.

Lemma split_slash_path_char c s :
  isValidPathSegmentChar c = true →
  ∃ seg segs, split_slash s = seg :: segs ∧ split_slash (String c s) = String c seg :: segs.
Proof.
  intros Hc; simpl. rewrite bool_decide_false by (intros ->; by autorewrite with go in Hc).
  destruct (split_slash s) as [|seg segs] eqn:E; [by destruct (split_slash_not_nil s)|]. eauto.
Qed.

Lemma split_slash_segment seg rest :
  all_bytes isValidPathSegmentChar seg = true →
  split_slash (seg +:+ ("/" +:+ rest)) = seg :: split_slash rest ∧ split_slash seg = [seg].
Proof.
  induction seg as [|c seg IH]; [done|]; cbn [all_bytes].
  intros [Hc Hs]%andb_prop. destruct (IH Hs) as [IH1 IH2].
  rewrite app_str_cons; simpl.
  rewrite bool_decide_false by (intros ->; by autorewrite with go in Hc).
  by rewrite IH1, IH2.
Qed.

(** A segment slice "/" ++ cur is compared with "/", "/." and "/..". *)
Lemma slash_cons_eq cur t : bool_decide ("/" +:+ cur = String "/" t) = bool_decide (cur = t).
Proof. apply bool_decide_ext. rewrite app_str_cons. split; [by intros [= ?]|by intros ->]. Qed.

Lemma check_segment_valid e cur :
  all_bytes isValidPathSegmentChar cur = true →
  check_segment e cur =
    if bool_decide (cur = "") then Err e
    else if bool_decide (cur = ".") || bool_decide (cur = "..") then Err errDotSegment else Ok ().
Proof. unfold check_segment. by intros ->. Qed.

(** The slice between the two indices of the loop. *)
Lemma segment_slice pre cur rest :
  go_slice (pre +:+ (("/" +:+ cur) +:+ rest)) (String.length pre)
    (String.length pre + S (String.length cur)) = Ok ("/" +:+ cur).
Proof. exact (go_slice_mid pre ("/" +:+ cur) rest). Qed.

Lemma ValidatePath_loop_spec rest : ∀ pre cur path,
  path = pre +:+ (("/" +:+ cur) +:+ rest) →
  all_bytes isValidPathSegmentChar cur = true →
  (ValidatePath_loop path rest (String.length pre) (String.length pre + S (String.length cur))
     ≫= ValidatePath_last path) =
  check_segments (match split_slash rest with
                  | seg :: segs => (cur +:+ seg) :: segs
                  | [] => [cur] end).
Proof.
  induction rest as [|c rest IH]; intros pre cur path Hpath Hcur.
  - simpl. unfold ValidatePath_last; simpl. rewrite Hpath, segment_slice; simpl.
    rewrite app_str_nil_r, check_segment_valid by done.
    by rewrite !(slash_cons_eq cur ""), !(slash_cons_eq cur "."), !(slash_cons_eq cur "..").
  - cbn [ValidatePath_loop split_slash].
    destruct (bool_decide (c = "/"%char)) eqn:Hc.
    + apply bool_decide_eq_true in Hc as ->.
      pose proof (segment_slice pre cur (String "/" rest)) as Hseg.
      rewrite <- Hpath in Hseg. rewrite Hseg; simpl.
      rewrite app_str_nil_r, (slash_cons_eq cur ""), (slash_cons_eq cur "."), (slash_cons_eq cur "..").
      pose proof (split_slash_not_nil rest) as Hne.
      destruct (split_slash rest) as [|seg segs] eqn:Esp; [done|].
      rewrite check_segment_valid by done.
      destruct (bool_decide (cur = "")); [done|].
      destruct (_ || _); [done|]; simpl.
      specialize (IH (pre +:+ ("/" +:+ cur)) "" path).
      rewrite length_app_str in IH. simpl in IH. rewrite Nat.add_1_r in IH.
      apply IH; [|done].
      rewrite Hpath. by rewrite !app_str_assoc.
    + destruct (isValidPathSegmentChar c) eqn:Hv; simpl.
      * specialize (IH pre (cur +:+ String c "") path).
        replace (S (_ + S _)) with (String.length pre + S (String.length (cur +:+ String c "")))
          by (rewrite length_app_str; simpl; lia).
        rewrite IH; [|by rewrite Hpath, !app_str_assoc|by rewrite all_bytes_app, Hcur; simpl; rewrite Hv].
        pose proof (split_slash_not_nil rest) as Hne.
        destruct (split_slash rest) as [|seg segs]; [done|].
        by rewrite app_str_assoc.
      * pose proof (split_slash_not_nil rest) as Hne.
        destruct (split_slash rest) as [|seg segs]; [done|].
        assert (all_bytes isValidPathSegmentChar (cur +:+ String c seg) = false) as Hbad.
        { rewrite all_bytes_app; simpl. by rewrite Hv, andb_false_r. }
        destruct segs; simpl; unfold check_segment; by rewrite Hbad.
Qed.

Lemma check_segment_Ok e seg :
  check_segment e seg = Ok () ↔ valid_segment seg.
Proof.
  unfold check_segment, valid_segment, ValidatePathSegment.
  by repeat case_match.
Qed.

Lemma valid_segment_bytes seg :
  valid_segment seg → all_bytes isValidPathSegmentChar seg = true.
Proof.
  unfold valid_segment, ValidatePathSegment.
  by destruct (all_bytes _ _); repeat case_match.
Qed.

Lemma check_segments_Ok segs : check_segments segs = Ok () ↔ Forall valid_segment segs.
Proof.
  induction segs as [|seg segs IH]; [done|].
  rewrite Forall_cons, <- IH. destruct segs as [|seg' segs].
  - cbn [check_segments]. rewrite check_segment_Ok. split; [by intros|by intros [??]].
  - cbn [check_segments]. by rewrite check_Ok_inv, check_segment_Ok.
Qed.

Lemma join_split s : join_slash (split_slash s) = "/" +:+ s.
Proof.
  induction s as [|c s IH]; [done|]; cbn [split_slash].
  case_bool_decide as Hc.
  - subst. simpl. by rewrite IH.
  - destruct (split_slash s) as [|seg segs] eqn:E; [by destruct (split_slash_not_nil s)|].
    simpl in *. rewrite app_str_cons in *. injection IH as IH.
    rewrite app_str_nil_l in *. by rewrite app_str_cons, IH.
Qed.

Lemma split_join seg segs :
  Forall valid_segment (seg :: segs) →
  split_slash (seg +:+ join_slash segs) = seg :: segs.
Proof.
  revert seg; induction segs as [|seg' segs IH]; intros seg Hv; simpl.
  - rewrite app_str_nil_r. inversion Hv; subst.
    by destruct (split_slash_segment seg "" (valid_segment_bytes _ ltac:(done))).
  - inversion Hv as [|?? H1 H2]; subst.
    destruct (split_slash_segment seg (seg' +:+ join_slash segs) (valid_segment_bytes _ H1)) as [-> _].
    by rewrite IH.
Qed.

Lemma JoinPathSegments_loop_Ok segs : ∀ b p,
  JoinPathSegments_loop b segs = Ok p ↔
  Forall valid_segment segs ∧ p = b +:+ join_slash segs.
Proof.
  induction segs as [|seg segs IH]; intros b p; simpl.
  - rewrite app_str_nil_r. split; [by intros [= ->]|by intros [_ ->]].
  - rewrite check_Ok_inv, Forall_cons, IH, !app_str_assoc. by rewrite (assoc (∧)).
Qed.

Lemma JoinPathSegments_Ok segs p :
  JoinPathSegments segs = Ok p ↔ Forall valid_segment segs ∧ p = join_slash segs.
Proof. apply JoinPathSegments_loop_Ok. Qed.

Lemma ValidatePathSegment_no_panic seg : no_panic (ValidatePathSegment seg) = true.
Proof. unfold ValidatePathSegment. by repeat case_match. Qed.

Lemma JoinPathSegments_no_panic segs : no_panic (JoinPathSegments segs) = true.
Proof.
  unfold JoinPathSegments. generalize ("" : string).
  induction segs as [|seg segs IH]; intros b; simpl; [done|].
  apply bind_no_panic; [apply ValidatePathSegment_no_panic|done].
Qed.

Lemma ValidatePath_check path : ValidatePath path = check_path path.
Proof.
  destruct path as [|c rest]; [done|]. unfold ValidatePath, check_path.
  case_bool_decide as Hc; [subst c|done]. cbn [negb].
  pose proof (ValidatePath_loop_spec rest "" "" (String "/" rest) eq_refl eq_refl) as Hs.
  pose proof (split_slash_not_nil rest) as Hne.
  destruct (split_slash rest); [done|]. rewrite app_str_nil_l in Hs. by rewrite <- Hs.
Qed.

Lemma check_path_no_panic path : no_panic (check_path path) = true.
Proof.
  destruct path as [|c rest]; [done|]; simpl. case_bool_decide; [|done].
  assert (∀ e s, no_panic (check_segment e s) = true) as Hs.
  { intros. unfold check_segment. by repeat case_match. }
  induction (split_slash rest) as [|seg segs IH]; [done|]. simpl.
  destruct segs; [done|]. apply bind_no_panic; auto.
Qed.

Lemma ValidatePath_no_panic path : no_panic (ValidatePath path) = true.
Proof. rewrite ValidatePath_check. apply check_path_no_panic. Qed.

Lemma ValidatePath_Ok path :
  ValidatePath path = Ok () ↔ ∃ segs, Forall valid_segment segs ∧ path = join_slash segs.
Proof.
  rewrite ValidatePath_check. split.
  - destruct path as [|c rest]; [by exists []|]; simpl.
    case_bool_decide as Hc; [subst c|done]. intros Hs%check_segments_Ok.
    exists (split_slash rest). by rewrite join_split.
  - intros ([|seg segs] & Hv & ->); [done|].
    change (check_segments (split_slash (seg +:+ join_slash segs)) = Ok ()).
    rewrite split_join by done. by apply check_segments_Ok.
Qed.

Lemma join_slash_app segs segs' : join_slash (segs ++ segs') = join_slash segs +:+ join_slash segs'.
Proof. induction segs as [|seg segs IH]; [done|]; simpl. by rewrite IH, !app_str_assoc. Qed.

(** Valid paths concatenate: what [AppendPath] relies on. *)
Lemma ValidatePath_app p q :
  ValidatePath p = Ok () → ValidatePath q = Ok () → ValidatePath (p +:+ q) = Ok ().
Proof.
  rewrite !ValidatePath_Ok. intros (s1 & ? & ->) (s2 & ? & ->).
  exists (s1 ++ s2). rewrite join_slash_app. by rewrite Forall_app.
Qed.

Lemma ValidatePath_head c rest : ValidatePath (String c rest) = Ok () → c = "/"%char.
Proof. unfold ValidatePath. by case_bool_decide. Qed.
End path_lemmas.

#[export] Hint Resolve ValidatePath_no_panic ValidatePathSegment_no_panic
  JoinPathSegments_no_panic : go.

(** ** Properties *)
Section path_properties.
Context {C : Charset} {CL : CharsetLaws C}.

(** [C12] The single-pass scanner [ValidatePath] returns, for every string,
    what a segment-by-segment check of the text between slashes returns:
    same verdict and same error, the first offending segment deciding. In
    particular none of its slice expressions is ever out of range. *)
Theorem ValidatePath_reference (path : string) : ValidatePath path = check_path path.
Proof. apply ValidatePath_check. Qed.

(** A path is valid exactly when it is the output of [JoinPathSegments]
    on some list of segments, and that list is unique: joining loses nothing. *)
Theorem ValidatePath_iff_joined (path : string) :
  ValidatePath path = Ok () ↔ exists! segs : list string, JoinPathSegments segs = Ok path.
Proof.
  rewrite ValidatePath_Ok. split.
  - intros (segs & Hv & ->). exists segs. split; [by apply JoinPathSegments_Ok|].
    intros segs' [Hv' Heq]%JoinPathSegments_Ok.
    destruct segs as [|s segs], segs' as [|s' segs']; try done.
    rewrite <- (split_join s segs Hv), <- (split_join s' segs' Hv').
    f_equal. exact (app_str_inj "/" _ _ Heq).
  - intros (segs & [? ->]%JoinPathSegments_Ok & _). eauto.
Qed.
End path_properties.

Lemma ValidatePath_reference_witness :
  ValidatePath (C := charset_deny) "/a/./b" = Err errDotSegment ∧
  ValidatePath (C := charset_deny) "/a/b_1" = Ok () ∧
  ValidatePath (C := charset_allow) "/a//b" = Err errEmptySegment.
Proof.
  split; [|split]; rewrite ValidatePath_reference; [reflexivity| |reflexivity..].
  reflexivity.
Defined.

Lemma ValidatePath_iff_joined_witness :
  ValidatePath (C := charset_deny) "/a/b" = Ok ().
Proof.
  apply (ValidatePath_iff_joined (C := charset_deny)). exists ["a"; "b"].
  split; [reflexivity|]. intros segs Hj.
  apply JoinPathSegments_Ok in Hj as [Hv Heq].
  destruct segs as [|s segs]; [done|].
  rewrite <- (split_join s segs Hv). 
  rewrite (app_str_inj "/" (s +:+ join_slash segs) "a/b" (eq_sym Heq)). reflexivity.
Defined.
