(* ===== verification/GoUrl.v ===== *)
(** * The part of Go's net/url that the sources use

    [URL] is the struct of net/url (the user information kept rendered), and
    [URL_String] its String method with the escaping it applies to the host and
    the path. Parsing a URL is not modelled here: it stays an argument of the
    code that calls url.Parse (see Addr.v). *)

From S2P Require Import Prelude.

Record URL : Type := mkURL {
  Scheme : string;
  Opaque : string;
  User : option string;      (* userinfo as url.Userinfo.String renders it *)
  Host : string;
  Path : string;
  RawPath : string;
  OmitHost : bool;
  ForceQuery : bool;
  RawQuery : string;
  Fragment : string;         (* as EscapedFragment renders it *)
}.

Definition url_zero : URL := mkURL "" "" None "" "" "" false false "" "".

Open Scope char_scope.

Inductive encoding := encodePath | encodeHost.

Definition is_alnum (c : ascii) : bool :=
  (byte_le "a" c && byte_le c "z") || (byte_le "A" c && byte_le c "Z")
  || (byte_le "0" c && byte_le c "9").

(** net/url shouldEscape, for the two modes used. *)
Definition shouldEscape (c : ascii) (mode : encoding) : bool :=
  if is_alnum c then false else
  match mode, c with
  | encodeHost, ("!" | "$" | "&" | "'" | "(" | ")" | "*" | "+" | "," | ";" | "="
                 | ":" | "[" | "]" | "<" | ">" | "034") => false
  | _, ("-" | "_" | "." | "~") => false
  | encodePath, ("$" | "&" | "+" | "," | "/" | ":" | ";" | "=" | "@") => false
  | _, _ => true
  end.

Definition hex_digit (n : N) : ascii :=
  if (n <? 10)%N then ascii_of_N (48 + n) else ascii_of_N (55 + n).

Fixpoint escape (s : string) (mode : encoding) : string :=
  match s with
  | EmptyString => EmptyString
  | String c s =>
      if shouldEscape c mode
      then String "%" (String (hex_digit (N_of_ascii c / 16))
             (String (hex_digit (N_of_ascii c mod 16)) (escape s mode)))
      else String c (escape s mode)
  end.

Definition unhex (c : ascii) : option N :=
  if byte_le "0" c && byte_le c "9" then Some (N_of_ascii c - 48)%N
  else if byte_le "a" c && byte_le c "f" then Some (N_of_ascii c - 87)%N
  else if byte_le "A" c && byte_le c "F" then Some (N_of_ascii c - 55)%N
  else None.

(** unescape in mode encodePath: None on a malformed escape. *)
Fixpoint unescape_path (s : string) : option string :=
  match s with
  | String "%" (String a (String b s)) =>
      h ← unhex a; l ← unhex b; String (ascii_of_N (16 * h + l)) <$> unescape_path s
  | String "%" _ => None
  | String c s => String c <$> unescape_path s
  | EmptyString => Some EmptyString
  end.

(** validEncoded in mode encodePath. *)
Definition validEncoded (s : string) : bool :=
  all_bytes (λ c, match c with
    | "!" | "$" | "&" | "'" | "(" | ")" | "*" | "+" | "," | ";" | "=" | ":" | "@"
    | "[" | "]" | "%" => true
    | c => negb (shouldEscape c encodePath) end) s.
Close Scope char_scope.

Definition EscapedPath (u : URL) : string :=
  if negb (bool_decide (RawPath u = "")) && validEncoded (RawPath u) &&
     bool_decide (unescape_path (RawPath u) = Some (Path u))
  then RawPath u
  else if bool_decide (Path u = "*") then "*"
  else escape (Path u) encodePath.

(** The text before the first slash: strings.Cut(path, "/"). *)
Fixpoint before_slash (s : string) : string :=
  match s with
  | EmptyString => EmptyString
  | String c s => if bool_decide (c = "/"%char) then EmptyString else String c (before_slash s)
  end.

Definition URL_String (u : URL) : string :=
  let scheme := if bool_decide (Scheme u = "") then "" else Scheme u +:+ ":" in
  let rest :=
    if negb (bool_decide (Opaque u = "")) then scheme +:+ Opaque u
    else
      let has_user := bool_decide (is_Some (User u)) in
      let auth :=
        if negb (bool_decide (Scheme u = "")) || negb (bool_decide (Host u = "")) || has_user then
          if OmitHost u && bool_decide (Host u = "") && negb has_user then ""
          else
            (if negb (bool_decide (Host u = "")) || negb (bool_decide (Path u = "")) || has_user
             then "//" else "") +:+
            ((match User u with Some ui => ui +:+ "@" | None => "" end) +:+
             escape (Host u) encodeHost)
        else "" in
      let path := EscapedPath u in
      let sep := if negb (bool_decide (path = "")) && negb (String.prefix "/" path) &&
                    negb (bool_decide (Host u = "")) then "/" else "" in
      let buf := scheme +:+ (auth +:+ sep) in
      let dot := if bool_decide (buf = "") && strings_Contains (before_slash path) ":"
                 then "./" else "" in
      buf +:+ (dot +:+ path) in
  let query := if ForceQuery u || negb (bool_decide (RawQuery u = ""))
               then "?" +:+ RawQuery u else "" in
  let fragment := if bool_decide (Fragment u = "") then "" else "#" +:+ Fragment u in
  rest +:+ (query +:+ fragment).

Lemma escape_id s mode :
  all_bytes (λ c, negb (shouldEscape c mode)) s = true → escape s mode = s.
Proof.
  induction s as [|c s IH]; [done|]; simpl. intros [Hc Hs]%andb_prop.
  destruct (shouldEscape c mode); [done|]. by rewrite IH.
Qed.

(** String of a URL with a scheme, a host and a rooted or empty path, none of
    whose bytes needs escaping. *)
Lemma URL_String_plain scheme host path :
  scheme ≠ "" → host ≠ "" → path ≠ "*" →
  (path = "" ∨ String.prefix "/" path = true) →
  all_bytes (λ c, negb (shouldEscape c encodeHost)) host = true →
  all_bytes (λ c, negb (shouldEscape c encodePath)) path = true →
  URL_String (mkURL scheme "" None host path "" false false "" "") =
    scheme +:+ ("://" +:+ (host +:+ path)).
Proof.
  intros Hs Hh Hstar Hp Heh Hep. unfold URL_String, EscapedPath; simpl.
  rewrite (bool_decide_false (scheme = "")), (bool_decide_false (host = "")),
    (bool_decide_false (path = "*")) by done; simpl.
  rewrite !escape_id by done.
  replace (negb (bool_decide (path = "")) && negb (String.prefix "/" path) && true) with false.
  - rewrite bool_decide_false by (by destruct scheme).
    simpl. by rewrite ?app_str_nil_r, ?app_str_nil_l, ?app_str_assoc.
  - symmetry. destruct Hp as [->|Hp]; [done|]. by rewrite Hp, andb_false_r.
Qed.
