(* ===== verification/ID.v ===== *)
(** * spiffeid: trust domains and SPIFFE IDs

    Models src/spiffeid/trustdomain.go, id.go, require.go. [TrustDomain] and
    [ID] are the structs; slicing an ID text panics out of range, as in Go, so
    every accessor returns a [res]. The invariant [id_wf] says the text is
    spiffe://<trust domain><path> with a valid trust domain and path and
    [pathidx] at the start of the path (or the ID is the zero value); every ID
    the package's API can produce satisfies it, hence no accessor panics on one. *)

From S2P Require Import Prelude Path GoUrl.

(** ** Data *)
Record TrustDomain : Type := mkTrustDomain { name : string }.
Record ID : Type := mkID { id_ : string; pathidx : nat }.

#[export] Instance TrustDomain_eq_dec : EqDecision TrustDomain.
Proof. solve_decision. Defined.
#[export] Instance ID_eq_dec : EqDecision ID.
Proof. solve_decision. Defined.
#[export] Instance TrustDomain_countable : Countable TrustDomain.
Proof. by apply (inj_countable' name mkTrustDomain); intros []. Defined.
#[export] Instance ID_countable : Countable ID.
Proof. by apply (inj_countable' (λ i, (id_ i, pathidx i)) (λ p, mkID p.1 p.2)); intros []. Defined.

#[export] Instance mkTrustDomain_inj : Inj (=) (=) mkTrustDomain.
Proof. by intros ?? [= ->]. Qed.

Definition zero_TrustDomain : TrustDomain := mkTrustDomain "".
Definition zero_ID : ID := mkID "" 0.

Definition schemePrefix : string := "spiffe://".
Definition schemePrefixLen : nat := String.length schemePrefix.

(** ** Trust domain accessors *)
Definition Name (td : TrustDomain) : string := name td.
Definition TrustDomain_String (td : TrustDomain) : string := name td.
Definition TrustDomain_IsZero (td : TrustDomain) : bool := bool_decide (name td = "").
Definition Compare (td other : TrustDomain) : Z := strings_Compare (name td) (name other).

(** ** ID accessors *)
Definition ID_IsZero (i : ID) : bool := bool_decide (id_ i = "").
Definition ID_String (i : ID) : string := id_ i.

Definition ID_TrustDomain (i : ID) : res TrustDomain :=
  if ID_IsZero i then Ok zero_TrustDomain
  else let! n := go_slice (id_ i) schemePrefixLen (pathidx i) in Ok (mkTrustDomain n).

Definition MemberOf (i : ID) (td : TrustDomain) : res bool :=
  let! td' := ID_TrustDomain i in Ok (bool_decide (td' = td)).

Definition Path (i : ID) : res string := go_slice_from (id_ i) (pathidx i).

Definition ID_URL (i : ID) : res URL :=
  if ID_IsZero i then Ok url_zero
  else
    let! td := ID_TrustDomain i in
    let! path := Path i in
    Ok (mkURL "spiffe" "" None (TrustDomain_String td) path "" false false "" "").

Definition ID_MarshalText (i : ID) : option string :=
  if ID_IsZero i then None else Some (ID_String i).

Definition TrustDomain_MarshalText (td : TrustDomain) : option string :=
  if TrustDomain_IsZero td then None else Some (TrustDomain_String td).

Definition makeID (td : TrustDomain) (path : string) : res ID :=
  if TrustDomain_IsZero td then Err (errors_New "trust domain is empty")
  else Ok (mkID (schemePrefix +:+ (name td +:+ path))
                (schemePrefixLen + String.length (name td))).

Definition TrustDomain_ID (td : TrustDomain) : ID :=
  match makeID td "" with Ok i => i | _ => zero_ID end.

Definition IDString (td : TrustDomain) : string := ID_String (TrustDomain_ID td).

(** ** Construction *)
Section construction.
Context {C : Charset}.

(** The scan for the end of the trust domain: [rest] is id[pathidx:]. *)
Fixpoint FromString_loop (rest : string) (pathidx : nat) : res nat :=
  match rest with
  | EmptyString => Ok pathidx
  | String c rest' =>
      if bool_decide (c = "/"%char) then Ok pathidx
      else if negb (isValidTrustDomainChar c) then Err errBadTrustDomainChar
      else FromString_loop rest' (S pathidx)
  end.

Definition FromString (id : string) : res ID :=
  if bool_decide (id = "") then Err errEmpty
  else if negb (strings_HasPrefix id schemePrefix) then Err errWrongScheme
  else
    let! rest := go_slice_from id schemePrefixLen in
    let! pathidx := FromString_loop rest schemePrefixLen in
    if bool_decide (pathidx = schemePrefixLen) then Err errMissingTrustDomain
    else
      let! path := go_slice_from id pathidx in
      check! ValidatePath path;
      Ok (mkID id pathidx).

Definition FromStringf {A} (fmt_Sprintf : string → list A → string)
    (format : string) (args : list A) : res ID :=
  FromString (fmt_Sprintf format args).

Definition FromURI (uri : URL) : res ID := FromString (URL_String uri).

Definition FromPath (td : TrustDomain) (path : string) : res ID :=
  check! ValidatePath path;
  makeID td path.

Definition FromPathf {A} (fmt_Sprintf : string → list A → string)
    (td : TrustDomain) (format : string) (args : list A) : res ID :=
  let! path := FormatPath fmt_Sprintf format args in
  makeID td path.

Definition FromSegments (td : TrustDomain) (segments : list string) : res ID :=
  let! path := JoinPathSegments segments in
  makeID td path.

Definition AppendPath (i : ID) (path : string) : res ID :=
  if ID_IsZero i then Err (errors_New "cannot append path on a zero ID value")
  else
    check! ValidatePath path;
    Ok (mkID (id_ i +:+ path) (pathidx i)).

Definition AppendPathf {A} (fmt_Sprintf : string → list A → string)
    (i : ID) (format : string) (args : list A) : res ID :=
  if ID_IsZero i then Err (errors_New "cannot append path on a zero ID value")
  else
    let! path := FormatPath fmt_Sprintf format args in
    Ok (mkID (id_ i +:+ path) (pathidx i)).

Definition AppendSegments (i : ID) (segments : list string) : res ID :=
  if ID_IsZero i then Err (errors_New "cannot append path segments on a zero ID value")
  else
    let! path := JoinPathSegments segments in
    Ok (mkID (id_ i +:+ path) (pathidx i)).

Definition ReplacePath (i : ID) (path : string) : res ID :=
  if ID_IsZero i then Err (errors_New "cannot replace path on a zero ID value")
  else let! td := ID_TrustDomain i in FromPath td path.

Definition ReplacePathf {A} (fmt_Sprintf : string → list A → string)
    (i : ID) (format : string) (args : list A) : res ID :=
  if ID_IsZero i then Err (errors_New "cannot replace path on a zero ID value")
  else let! td := ID_TrustDomain i in FromPathf fmt_Sprintf td format args.

Definition ReplaceSegments (i : ID) (segments : list string) : res ID :=
  if ID_IsZero i then Err (errors_New "cannot replace path segments on a zero ID value")
  else let! td := ID_TrustDomain i in FromSegments td segments.

(** Pointer receiver: the new value of *id and the returned error. *)
Definition ID_UnmarshalText (self : ID) (text : string) : ID * res unit :=
  if bool_decide (String.length text = 0) then (zero_ID, Ok ())
  else match FromString text with
       | Ok unmarshaled => (unmarshaled, Ok ())
       | Err e => (self, Err e)
       | Panic why => (self, Panic why)
       end.

Definition TrustDomainFromString (idOrName : string) : res TrustDomain :=
  if bool_decide (idOrName = "") then Err errMissingTrustDomain
  else if strings_Contains idOrName ":/" then
    let! id := FromString idOrName in
    ID_TrustDomain id
  else if negb (all_bytes isValidTrustDomainChar idOrName) then Err errBadTrustDomainChar
  else Ok (mkTrustDomain idOrName).

Definition TrustDomainFromURI (uri : URL) : res TrustDomain :=
  let! id := FromURI uri in
  ID_TrustDomain id.

Definition TrustDomain_UnmarshalText (self : TrustDomain) (text : string) : TrustDomain * res unit :=
  if bool_decide (String.length text = 0) then (zero_TrustDomain, Ok ())
  else match TrustDomainFromString text with
       | Ok unmarshaled => (unmarshaled, Ok ())
       | Err e => (self, Err e)
       | Panic why => (self, Panic why)
       end.
End construction.

(** ** require.go *)
Definition panicOnErr (err : option error) : res unit :=
  match err with Some _ => Panic "spiffeid: malformed input" | None => Ok () end.

(** [v, err := f(...); panicOnErr(err); return v]. *)
Definition require {A} (m : res A) : res A :=
  match m with
  | Ok a => check! panicOnErr None; Ok a
  | Err e => check! panicOnErr (Some e); Err e
  | Panic why => Panic why
  end.

Section require_defs.
Context {C : Charset} {A : Type} (fmt_Sprintf : string → list A → string).

Definition RequireFromPath (td : TrustDomain) (path : string) : res ID :=
  require (FromPath td path).
Definition RequireFromPathf (td : TrustDomain) (format : string) (args : list A) : res ID :=
  require (FromPathf fmt_Sprintf td format args).
Definition RequireFromSegments (td : TrustDomain) (segments : list string) : res ID :=
  require (FromSegments td segments).
Definition RequireFromString (s : string) : res ID := require (FromString s).
Definition RequireFromStringf (format : string) (args : list A) : res ID :=
  require (FromStringf fmt_Sprintf format args).
Definition RequireFromURI (uri : URL) : res ID := require (FromURI uri).
Definition RequireTrustDomainFromString (s : string) : res TrustDomain :=
  require (TrustDomainFromString s).
Definition RequireTrustDomainFromURI (uri : URL) : res TrustDomain :=
  require (TrustDomainFromURI uri).
Definition RequireFormatPath (format : string) (args : list A) : res string :=
  require (FormatPath fmt_Sprintf format args).
Definition RequireJoinPathSegments (segments : list string) : res string :=
  require (JoinPathSegments segments).
End require_defs.

(** ** Well-formedness *)
Section wf.
Context {C : Charset}.

Definition td_wf (td : TrustDomain) : Prop :=
  all_bytes isValidTrustDomainChar (name td) = true.

(** The ID of trust domain [td] and path [path], as [makeID] lays it out. *)
Definition id_of (td : TrustDomain) (path : string) : ID :=
  mkID (schemePrefix +:+ (name td +:+ path)) (schemePrefixLen + String.length (name td)).

Definition id_parts (i : ID) (td : TrustDomain) (path : string) : Prop :=
  td ≠ zero_TrustDomain ∧ td_wf td ∧ ValidatePath path = Ok () ∧ i = id_of td path.

Definition id_wf (i : ID) : Prop := i = zero_ID ∨ ∃ td path, id_parts i td path.
End wf.

Section id_lemmas.
Context {C : Charset} {CL : CharsetLaws C}.
Implicit Types (td : TrustDomain) (i : ID) (path s rest : string).

Definition rooted (s : string) : bool :=
  match s with EmptyString => true | String c _ => bool_decide (c = "/"%char) end.

Lemma valid_path_rooted path : ValidatePath path = Ok () → rooted path = true.
Proof.
  destruct path as [|c path]; [done|]. intros ->%ValidatePath_head. by apply bool_decide_true.
Qed.

Lemma FromString_loop_name nm rest idx :
  all_bytes isValidTrustDomainChar nm = true → rooted rest = true →
  FromString_loop (nm +:+ rest) idx = Ok (idx + String.length nm).
Proof.
  revert idx; induction nm as [|c nm IH]; intros idx Hnm Hr.
  - rewrite app_str_nil_l, Nat.add_0_r. destruct rest as [|c rest]; [done|]; simpl in *. by rewrite Hr.
  - rewrite app_str_cons; simpl in *. apply andb_prop in Hnm as [Hc Hnm].
    rewrite bool_decide_false by (intros ->; by autorewrite with go in Hc).
    rewrite Hc, IH by done; simpl. f_equal; lia.
Qed.

Lemma FromString_loop_inv s idx j :
  FromString_loop s idx = Ok j →
  ∃ nm rest, s = nm +:+ rest ∧ all_bytes isValidTrustDomainChar nm = true ∧
             rooted rest = true ∧ j = idx + String.length nm.
Proof.
  revert idx; induction s as [|c s IH]; intros idx; simpl.
  - intros [= <-]. by exists "", "".
  - case_bool_decide as Hc.
    + intros [= <-]. exists "", (String c s). repeat split; [|simpl; lia].
      simpl. by apply bool_decide_true.
    + destruct (isValidTrustDomainChar c) eqn:Hv; [|done]. simpl.
      intros (nm & rest & -> & Hnm & ? & ->)%IH. exists (String c nm), rest.
      rewrite app_str_cons; simpl. rewrite Hv. repeat split; auto with lia.
Qed.

Lemma string_length_0 s : String.length s = 0 ↔ s = "".
Proof. by destruct s. Qed.

Lemma td_not_zero td : td ≠ zero_TrustDomain ↔ name td ≠ "".
Proof. destruct td as [n]. split; [by intros Hn; contradict Hn; simpl in *; subst|by intros Hn [= ->]]. Qed.

Lemma td_IsZero_false td : TrustDomain_IsZero td = false ↔ td ≠ zero_TrustDomain.
Proof. unfold TrustDomain_IsZero. by rewrite bool_decide_eq_false, td_not_zero. Qed.

(** The slice id[pathidx:] of an ID text. *)
Lemma path_slice nm path :
  go_slice_from (schemePrefix +:+ (nm +:+ path)) (String.length schemePrefix + String.length nm)
    = Ok path.
Proof. rewrite <- length_app_str, <- app_str_assoc. apply go_slice_from_app. Qed.

Lemma FromString_id_of td path :
  td ≠ zero_TrustDomain → td_wf td → ValidatePath path = Ok () →
  FromString (schemePrefix +:+ (name td +:+ path)) = Ok (id_of td path).
Proof.
  intros Hnz Hwf Hp. apply td_not_zero in Hnz. unfold FromString.
  rewrite bool_decide_false by done. unfold strings_HasPrefix. rewrite prefix_app; simpl negb; cbv iota.
  unfold schemePrefixLen. rewrite go_slice_from_app; cbn [mbind res_bind].
  rewrite FromString_loop_name by (done || by apply valid_path_rooted). cbn [mbind res_bind].
  rewrite bool_decide_false.
  - rewrite path_slice; cbn [mbind res_bind]. by rewrite Hp.
  - intros Hl. apply Hnz, string_length_0. lia.
Qed.

Lemma FromString_Ok s i :
  FromString s = Ok i ↔ ∃ td path, id_parts i td path ∧ id_ i = s.
Proof.
  split.
  - unfold FromString. case_bool_decide as Hne; [done|].
    destruct (strings_HasPrefix s schemePrefix) eqn:Hpre; [|done]; simpl negb; cbv iota.
    apply prefix_inv in Hpre as [rest ->]. unfold schemePrefixLen.
    rewrite go_slice_from_app; cbn [mbind res_bind]. intros (j & Hloop & H)%bind_Ok_inv.
    apply FromString_loop_inv in Hloop as (nm & path & -> & Hnm & Hr & ->).
    case_bool_decide as Hj; [done|].
    rewrite path_slice in H; cbn [mbind res_bind] in H.
    apply check_Ok_inv in H as [Hp [= <-]].
    exists (mkTrustDomain nm), path. repeat split; try done.
    intros [= ->]. apply Hj. simpl. done.
  - intros (td & path & (Hz & Hwf & Hp & ->) & <-). by apply FromString_id_of.
Qed.

Lemma FromString_no_panic s : no_panic (FromString s) = true.
Proof.
  unfold FromString. case_bool_decide; [done|].
  destruct (strings_HasPrefix s schemePrefix) eqn:Hpre; [|done]; simpl negb; cbv iota.
  apply prefix_inv in Hpre as [rest ->]. unfold schemePrefixLen.
  rewrite go_slice_from_app; cbn [mbind res_bind]. apply bind_no_panic.
  - generalize (String.length schemePrefix). induction rest as [|c rest IH]; intros n; simpl; [done|].
    repeat case_match; auto.
  - intros j (nm & path & -> & Hnm & Hr & ->)%FromString_loop_inv.
    case_bool_decide; [done|].
    rewrite path_slice; cbn [mbind res_bind].
    apply bind_no_panic; auto with go.
Qed.

(** *** Accessors of a well-formed ID *)
Lemma id_parts_not_zero i td path : id_parts i td path → ID_IsZero i = false.
Proof. intros (_ & _ & _ & ->). by apply bool_decide_false. Qed.

Lemma id_parts_TrustDomain i td path : id_parts i td path → ID_TrustDomain i = Ok td.
Proof.
  intros Hi. unfold ID_TrustDomain. rewrite (id_parts_not_zero _ _ _ Hi).
  destruct Hi as (_ & _ & _ & ->); simpl. unfold schemePrefixLen.
  rewrite go_slice_mid; simpl. by destruct td.
Qed.

Lemma id_parts_Path i td path : id_parts i td path → Path i = Ok path.
Proof.
  intros (_ & _ & _ & ->). apply path_slice.
Qed.

Lemma id_parts_inj i td path td' path' :
  id_parts i td path → id_parts i td' path' → td = td' ∧ path = path'.
Proof.
  intros H1 H2.
  pose proof (id_parts_TrustDomain _ _ _ H1) as E1. rewrite (id_parts_TrustDomain _ _ _ H2) in E1.
  pose proof (id_parts_Path _ _ _ H1) as E2. rewrite (id_parts_Path _ _ _ H2) in E2.
  by injection E1 as ->; injection E2 as ->.
Qed.

Lemma id_parts_wf i td path : id_parts i td path → id_wf i.
Proof. right; eauto. Qed.

Lemma id_wf_cases i : id_wf i → i = zero_ID ∨ (ID_IsZero i = false ∧ ∃ td path, id_parts i td path).
Proof. intros [?|(td & path & Hi)]; [by left|right]. eauto using id_parts_not_zero. Qed.

Lemma id_wf_IsZero i : id_wf i → ID_IsZero i = true ↔ i = zero_ID.
Proof.
  intros [->|(Hz & _)]%id_wf_cases; [done|]. rewrite Hz.
  split; [done|]. by intros ->.
Qed.

Lemma id_wf_TrustDomain i : id_wf i → ∃ td, ID_TrustDomain i = Ok td ∧ td_wf td.
Proof.
  intros [->|(_ & td & path & Hi)]%id_wf_cases; [by exists zero_TrustDomain|].
  exists td. split; [by eapply id_parts_TrustDomain|by destruct Hi as (_ & ? & _)].
Qed.

Lemma makeID_Ok td path i :
  td_wf td → ValidatePath path = Ok () →
  makeID td path = Ok i ↔ id_parts i td path.
Proof.
  intros Hwf Hp. unfold makeID. destruct (TrustDomain_IsZero td) eqn:Hz.
  - split; [done|]. intros (Hnz & _). by apply td_IsZero_false in Hnz; rewrite Hz in Hnz.
  - apply td_IsZero_false in Hz. split; [by intros [= <-]|by intros (_ & _ & _ & ->)].
Qed.

Lemma FromPath_Ok td path i : td_wf td → FromPath td path = Ok i ↔ id_parts i td path.
Proof.
  intros Hwf. unfold FromPath. rewrite check_Ok_inv. split.
  - intros [Hp Hm]. by apply makeID_Ok in Hm.
  - intros Hi. assert (ValidatePath path = Ok ()) by by destruct Hi as (_ & _ & ? & _).
    split; [done|]. by apply makeID_Ok.
Qed.

Lemma JoinPathSegments_valid segs p : JoinPathSegments segs = Ok p → ValidatePath p = Ok ().
Proof. intros [? ->]%JoinPathSegments_Ok. apply ValidatePath_Ok. eauto. Qed.

Lemma FromSegments_Ok td segs i :
  td_wf td →
  FromSegments td segs = Ok i ↔ ∃ path, JoinPathSegments segs = Ok path ∧ id_parts i td path.
Proof.
  intros Hwf. unfold FromSegments. rewrite bind_Ok_inv. split.
  - intros (path & Hj & Hm). exists path. split; [done|].
    apply makeID_Ok in Hm; eauto using JoinPathSegments_valid.
  - intros (path & Hj & Hm). exists path. split; [done|].
    apply makeID_Ok; eauto using JoinPathSegments_valid.
Qed.

(** Appending a valid path to the text of a well-formed ID. *)
Lemma id_parts_append i td path p :
  id_parts i td path → ValidatePath p = Ok () →
  id_parts (mkID (id_ i +:+ p) (pathidx i)) td (path +:+ p).
Proof.
  intros (? & ? & ? & ->) Hp. repeat split; auto using ValidatePath_app.
  unfold id_of; simpl. by rewrite !app_str_assoc.
Qed.

Lemma AppendPath_Ok i td path p j :
  id_parts i td path →
  AppendPath i p = Ok j ↔ ValidatePath p = Ok () ∧ id_parts j td (path +:+ p).
Proof.
  intros Hi. unfold AppendPath. rewrite (id_parts_not_zero _ _ _ Hi), check_Ok_inv. split.
  - intros [Hp [= <-]]. eauto using id_parts_append.
  - intros [Hp Hj]. split; [done|]. f_equal.
    pose proof (id_parts_append _ _ _ _ Hi Hp) as (_ & _ & _ & ->).
    by destruct Hj as (_ & _ & _ & ->).
Qed.
End id_lemmas.

(** ** The values a client of the package can hold

    The fields of both structs are private, so a client only holds the zero
    values and results of exported functions. One rule per exported function
    that returns or updates a value. *)
Section api.
Context {C : Charset} {A : Type} (fmt_Sprintf : string → list A → string).

Inductive api_td : TrustDomain → Prop :=
  | api_td_zero : api_td zero_TrustDomain
  | api_td_FromString s td : TrustDomainFromString s = Ok td → api_td td
  | api_td_FromURI u td : TrustDomainFromURI u = Ok td → api_td td
  | api_td_of_ID i td : api_id i → ID_TrustDomain i = Ok td → api_td td
  | api_td_Unmarshal td text : api_td td → api_td (TrustDomain_UnmarshalText td text).1
with api_id : ID → Prop :=
  | api_id_zero : api_id zero_ID
  | api_id_FromString s i : FromString s = Ok i → api_id i
  | api_id_FromStringf format args i : FromStringf fmt_Sprintf format args = Ok i → api_id i
  | api_id_FromURI u i : FromURI u = Ok i → api_id i
  | api_id_FromPath td p i : api_td td → FromPath td p = Ok i → api_id i
  | api_id_FromPathf td format args i :
      api_td td → FromPathf fmt_Sprintf td format args = Ok i → api_id i
  | api_id_FromSegments td segs i : api_td td → FromSegments td segs = Ok i → api_id i
  | api_id_of_td td : api_td td → api_id (TrustDomain_ID td)
  | api_id_AppendPath i p j : api_id i → AppendPath i p = Ok j → api_id j
  | api_id_AppendPathf i format args j :
      api_id i → AppendPathf fmt_Sprintf i format args = Ok j → api_id j
  | api_id_AppendSegments i segs j : api_id i → AppendSegments i segs = Ok j → api_id j
  | api_id_ReplacePath i p j : api_id i → ReplacePath i p = Ok j → api_id j
  | api_id_ReplacePathf i format args j :
      api_id i → ReplacePathf fmt_Sprintf i format args = Ok j → api_id j
  | api_id_ReplaceSegments i segs j : api_id i → ReplaceSegments i segs = Ok j → api_id j
  | api_id_Unmarshal i text : api_id i → api_id (ID_UnmarshalText i text).1.

Scheme api_td_mut := Minimality for api_td Sort Prop
with api_id_mut := Minimality for api_id Sort Prop.
Combined Scheme api_mut from api_td_mut, api_id_mut.
End api.

Section api_lemmas.
Context {C : Charset} {CL : CharsetLaws C} {A : Type} (fmt_Sprintf : string → list A → string).
Implicit Types (td : TrustDomain) (i j : ID).

Lemma FromString_wf s i : FromString s = Ok i → id_wf i.
Proof. intros (td & path & Hi & _)%FromString_Ok. eauto using id_parts_wf. Qed.

Lemma TrustDomainFromString_wf s td : TrustDomainFromString s = Ok td → td_wf td.
Proof.
  unfold TrustDomainFromString. case_bool_decide; [done|]. destruct (strings_Contains _ _).
  - intros (i & Hi & Ht)%bind_Ok_inv. apply FromString_wf, id_wf_TrustDomain in Hi as (td' & Hi & ?).
    by rewrite Hi in Ht; injection Ht as <-.
  - destruct (all_bytes _ s) eqn:Hs; [|done]. by intros [= <-].
Qed.

Lemma TrustDomainFromString_no_panic s : no_panic (TrustDomainFromString s) = true.
Proof.
  unfold TrustDomainFromString. case_bool_decide; [done|]. destruct (strings_Contains s ":/").
  - apply bind_no_panic; [apply FromString_no_panic|]. intros i (td & path & Hp & _)%FromString_Ok.
    by rewrite (id_parts_TrustDomain _ _ _ Hp).
  - by case_match.
Qed.

Lemma FormatPath_Ok format (args : list A) p :
  FormatPath fmt_Sprintf format args = Ok p → ValidatePath p = Ok ().
Proof. unfold FormatPath. by intros [? [= <-]]%check_Ok_inv. Qed.

Lemma makeID_wf td p i : td_wf td → ValidatePath p = Ok () → makeID td p = Ok i → id_wf i.
Proof. intros Ht Hp Hm. apply (makeID_Ok td p i Ht Hp) in Hm. eauto using id_parts_wf. Qed.

Lemma TrustDomain_ID_wf td : td_wf td → id_wf (TrustDomain_ID td).
Proof.
  intros Ht. unfold TrustDomain_ID.
  destruct (makeID td "") as [i| |] eqn:Hm; [|by left..].
  by apply (makeID_wf td "").
Qed.

(** Appending a path already known to be valid. *)
Lemma append_wf i p :
  id_wf i → ID_IsZero i = false → ValidatePath p = Ok () → id_wf (mkID (id_ i +:+ p) (pathidx i)).
Proof.
  intros [->|(_ & td & path & Hi)]%id_wf_cases Hz Hp; [done|].
  eauto using id_parts_wf, id_parts_append.
Qed.

Lemma replace_wf i (f : TrustDomain → res ID) j :
  id_wf i → (∀ td, td_wf td → f td = Ok j → id_wf j) →
  (ID_TrustDomain i ≫= f) = Ok j → id_wf j.
Proof.
  intros (td & Hi & Ht)%id_wf_TrustDomain Hf. rewrite Hi; cbn [mbind res_bind]. eauto.
Qed.

Lemma FromPath_wf td p i : td_wf td → FromPath td p = Ok i → id_wf i.
Proof. intros Ht [Hp Hm]%check_Ok_inv. eauto using makeID_wf. Qed.
Lemma FromPathf_wf td format (args : list A) i :
  td_wf td → FromPathf fmt_Sprintf td format args = Ok i → id_wf i.
Proof. intros Ht (p & Hp%FormatPath_Ok & Hm)%bind_Ok_inv. eauto using makeID_wf. Qed.
Lemma FromSegments_wf td segs i : td_wf td → FromSegments td segs = Ok i → id_wf i.
Proof. intros Ht (p & Hp%JoinPathSegments_valid & Hm)%bind_Ok_inv. eauto using makeID_wf. Qed.

Lemma ID_UnmarshalText_wf i text : id_wf i → id_wf (ID_UnmarshalText i text).1.
Proof.
  intros Hi. unfold ID_UnmarshalText. case_bool_decide; [by left|].
  destruct (FromString text) eqn:E; simpl; eauto using FromString_wf.
Qed.
Lemma TrustDomain_UnmarshalText_wf td text : td_wf td → td_wf (TrustDomain_UnmarshalText td text).1.
Proof.
  intros Hi. unfold TrustDomain_UnmarshalText. case_bool_decide; [done|].
  destruct (TrustDomainFromString text) eqn:E; simpl; eauto using TrustDomainFromString_wf.
Qed.

Lemma api_wf :
  (∀ td, api_td fmt_Sprintf td → td_wf td) ∧ (∀ i, api_id fmt_Sprintf i → id_wf i).
Proof.
  apply api_mut; try done.
  - eauto using TrustDomainFromString_wf.
  - intros u td (i & Hi & Ht)%bind_Ok_inv.
    apply FromString_wf, id_wf_TrustDomain in Hi as (td' & Hi & ?). by rewrite <- (Ok_fun Hi Ht).
  - intros i td _ (td' & Hi & ?)%id_wf_TrustDomain Ht. by rewrite <- (Ok_fun Hi Ht).
  - eauto using TrustDomain_UnmarshalText_wf.
  - by left.
  - eauto using FromString_wf.
  - unfold FromStringf. eauto using FromString_wf.
  - unfold FromURI. eauto using FromString_wf.
  - eauto using FromPath_wf.
  - eauto using FromPathf_wf.
  - eauto using FromSegments_wf.
  - eauto using TrustDomain_ID_wf.
  - intros i p j _ Hi. unfold AppendPath. destruct (ID_IsZero i) eqn:Hz; [done|].
    intros [Hp [= <-]]%check_Ok_inv. by apply append_wf.
  - intros i f args j _ Hi. unfold AppendPathf. destruct (ID_IsZero i) eqn:Hz; [done|].
    intros (p & Hp%FormatPath_Ok & [= <-])%bind_Ok_inv. by apply append_wf.
  - intros i segs j _ Hi. unfold AppendSegments. destruct (ID_IsZero i) eqn:Hz; [done|].
    intros (p & Hp%JoinPathSegments_valid & [= <-])%bind_Ok_inv. by apply append_wf.
  - intros i p j _ Hi. unfold ReplacePath. destruct (ID_IsZero i); [done|].
    apply replace_wf; eauto using FromPath_wf.
  - intros i f args j _ Hi. unfold ReplacePathf. destruct (ID_IsZero i); [done|].
    apply replace_wf; eauto using FromPathf_wf.
  - intros i segs j _ Hi. unfold ReplaceSegments. destruct (ID_IsZero i); [done|].
    apply replace_wf; eauto using FromSegments_wf.
  - eauto using ID_UnmarshalText_wf.
Qed.

Lemma id_wf_no_panic i :
  id_wf i →
  no_panic (ID_TrustDomain i) = true ∧ no_panic (Path i) = true ∧
  no_panic (ID_URL i) = true ∧ (∀ td, no_panic (MemberOf i td) = true).
Proof.
  intros [->|(Hz & td & path & Hi)]%id_wf_cases; [done|].
  unfold ID_URL, MemberOf. rewrite Hz, (id_parts_TrustDomain _ _ _ Hi), (id_parts_Path _ _ _ Hi).
  done.
Qed.
End api_lemmas.

(** ** Properties *)
Section id_properties.
Context {C : Charset} {CL : CharsetLaws C} {A : Type} (fmt_Sprintf : string → list A → string).
Implicit Types (td : TrustDomain) (i j : ID).

(** [C10] [FromString] succeeds exactly on the texts of the non-zero
    well-formed IDs and returns that ID: parsing is the inverse of [String]. *)
Theorem FromString_iff s i :
  FromString s = Ok i ↔ id_wf i ∧ i ≠ zero_ID ∧ ID_String i = s.
Proof.
  rewrite FromString_Ok. split.
  - intros (td & path & Hi & <-). split; [eauto using id_parts_wf|]. split; [|done].
    intros ->. by apply id_parts_not_zero in Hi.
  - intros ([?|(td & path & Hi)] & Hz & <-); [done|]. by exists td, path.
Qed.

(** Every error of [FromString]: the text after the scheme is split at
    its first slash into a name and a path; a bad name character is reported
    first, then a missing name, then the error of the path. *)
Theorem FromString_parse (nm path : string) :
  all_bytes (λ c, negb (bool_decide (c = "/"%char))) nm = true → rooted path = true →
  FromString (schemePrefix +:+ (nm +:+ path)) =
    if negb (all_bytes isValidTrustDomainChar nm) then Err errBadTrustDomainChar
    else if bool_decide (nm = "") then Err errMissingTrustDomain
    else check! ValidatePath path; Ok (id_of (mkTrustDomain nm) path).
Proof.
  intros Hslash Hr. unfold FromString. rewrite bool_decide_false by done.
  unfold strings_HasPrefix. rewrite prefix_app; simpl negb; cbv iota.
  unfold schemePrefixLen. rewrite go_slice_from_app; cbn [mbind res_bind].
  destruct (all_bytes isValidTrustDomainChar nm) eqn:Hnm; simpl negb; cbv iota.
  - rewrite FromString_loop_name by done; cbn [mbind res_bind].
    rewrite (bool_decide_ext _ (nm = "")) by (rewrite <- string_length_0; lia).
    case_bool_decide; [done|]. by rewrite path_slice.
  - assert (∀ idx, FromString_loop (nm +:+ path) idx = Err errBadTrustDomainChar) as ->; [|done].
    clear Hr. induction nm as [|c nm IH]; [done|]. intros idx. rewrite app_str_cons; simpl in *.
    apply andb_prop in Hslash as [Hc Hslash].
    apply negb_true_iff in Hc. rewrite Hc.
    destruct (isValidTrustDomainChar c); [|done]. by apply IH.
Qed.

(** [C11] Every ID a client of the package can hold is well-formed, so
    [TrustDomain], [Path], [URL] and [MemberOf] never slice out of range. *)
Theorem api_id_safe i :
  api_id fmt_Sprintf i →
  id_wf i ∧ no_panic (ID_TrustDomain i) = true ∧ no_panic (Path i) = true ∧
  no_panic (ID_URL i) = true ∧ (∀ td, no_panic (MemberOf i td) = true).
Proof. intros Hi. apply api_wf in Hi. split; [done|]. by apply id_wf_no_panic. Qed.

(** An ID made from a trust domain and a path gives both back, is a
    member of that trust domain and of no other, and parses back from its
    text. *)
Theorem FromPath_components td path i :
  api_td fmt_Sprintf td → FromPath td path = Ok i →
  ID_TrustDomain i = Ok td ∧ Path i = Ok path ∧
  (∀ td', MemberOf i td' = Ok (bool_decide (td = td'))) ∧
  FromString (ID_String i) = Ok i.
Proof.
  intros Ht%api_wf Hi. apply FromPath_Ok in Hi; [|done].
  unfold MemberOf. rewrite (id_parts_TrustDomain _ _ _ Hi), (id_parts_Path _ _ _ Hi).
  repeat split. apply FromString_Ok. eauto.
Qed.

(** [AppendPath] and [ReplacePath] on an ID obtained from the package:
    they fail on the zero ID or an invalid path, and otherwise keep the trust
    domain and append to, respectively replace, the path. *)
Theorem AppendPath_ReplacePath_spec i td path p :
  api_id fmt_Sprintf i → i ≠ zero_ID → ID_TrustDomain i = Ok td → Path i = Ok path →
  match ValidatePath p with
  | Ok _ => ∃ j k, AppendPath i p = Ok j ∧ ReplacePath i p = Ok k ∧
              ID_TrustDomain j = Ok td ∧ Path j = Ok (path +:+ p) ∧
              ID_TrustDomain k = Ok td ∧ Path k = Ok p
  | Err e => AppendPath i p = Err e ∧ ReplacePath i p = Err e
  | Panic _ => False
  end.
Proof.
  intros Hi%api_wf Hnz Ht Hp. apply id_wf_cases in Hi as [?|(Hz & td' & path' & Hi)]; [done|].
  rewrite (id_parts_TrustDomain _ _ _ Hi) in Ht; injection Ht as ->.
  rewrite (id_parts_Path _ _ _ Hi) in Hp; injection Hp as ->.
  pose proof (ValidatePath_no_panic p) as Hnp.
  destruct (ValidatePath p) as [[]|e|] eqn:Hv; [|..|done].
  - pose proof Hi as (? & Hwf & _).
    assert (id_parts (id_of td p) td p) as Hk by done.
    pose proof (id_parts_append _ _ _ _ Hi Hv) as Hj.
    exists (mkID (id_ i +:+ p) (pathidx i)), (id_of td p).
    repeat split; eauto using id_parts_TrustDomain, id_parts_Path.
    + by eapply AppendPath_Ok.
    + unfold ReplacePath. rewrite Hz, (id_parts_TrustDomain _ _ _ Hi); cbn [mbind res_bind].
      by apply FromPath_Ok.
  - unfold AppendPath, ReplacePath, FromPath.
    by rewrite Hz, (id_parts_TrustDomain _ _ _ Hi), Hv.
Qed.

Lemma TrustDomainFromString_name td :
  td_wf td →
  if decide (td = zero_TrustDomain) then TrustDomain_ID td = zero_ID
  else TrustDomainFromString (Name td) = Ok td ∧ TrustDomainFromString (IDString td) = Ok td.
Proof.
  intros Hwf. case_decide as Hz; [by subst|].
  pose proof Hz as Hne. apply td_not_zero in Hne. unfold TrustDomainFromString, Name. split.
  - rewrite bool_decide_false by done.
    destruct (strings_Contains (name td) ":/") eqn:Hc.
    + apply Contains_inv in Hc as (a & b & Hc). unfold td_wf in Hwf.
      rewrite Hc, !all_bytes_app in Hwf. cbn [all_bytes] in Hwf. autorewrite with go in Hwf.
      by rewrite ?andb_false_r, ?andb_false_l, ?andb_false_r in Hwf.
    + unfold td_wf in Hwf. rewrite Hwf; simpl. by destruct td.
  - assert (id_parts (TrustDomain_ID td) td "") as Hi.
    { unfold TrustDomain_ID, makeID. pose proof Hz as Hz'.
      apply td_IsZero_false in Hz'. rewrite Hz'. done. }
    unfold IDString, ID_String. pose proof Hi as (_ & _ & _ & Heq).
    assert (id_ (TrustDomain_ID td) = schemePrefix +:+ (name td +:+ "")) as -> by by rewrite Heq.
    rewrite bool_decide_false by done.
    assert (strings_Contains (schemePrefix +:+ (name td +:+ "")) ":/" = true) as ->
      by exact (Contains_app "spiffe" ":/" ("/" +:+ (name td +:+ ""))).
    rewrite (FromString_id_of td "") by done; cbn [mbind res_bind].
    rewrite <- Heq. by apply (id_parts_TrustDomain _ _ _ Hi).
Qed.

(** A non-zero trust domain parses back from its name and from the text
    of its ID; the zero one has no ID. *)
Theorem TrustDomainFromString_roundtrip td :
  api_td fmt_Sprintf td →
  if decide (td = zero_TrustDomain) then TrustDomain_ID td = zero_ID
  else TrustDomainFromString (Name td) = Ok td ∧ TrustDomainFromString (IDString td) = Ok td.
Proof. intros Hwf%api_wf. by apply TrustDomainFromString_name. Qed.
End id_properties.

Section id_more_properties.
Context {C : Charset} {CL : CharsetLaws C} {A : Type} (fmt_Sprintf : string → list A → string).
Implicit Types (td : TrustDomain) (i j : ID).

(** Text marshalling: unmarshalling the marshalled text of any value of
    the package into any receiver restores it (the zero values through the
    empty text), and a failing unmarshal leaves the receiver unchanged. *)
Theorem MarshalText_roundtrip i (self : ID) td (self' : TrustDomain) text :
  api_id fmt_Sprintf i → api_td fmt_Sprintf td →
  ID_UnmarshalText self (default "" (ID_MarshalText i)) = (i, Ok ()) ∧
  TrustDomain_UnmarshalText self' (default "" (TrustDomain_MarshalText td)) = (td, Ok ()) ∧
  (∀ e, (ID_UnmarshalText self text).2 = Err e → (ID_UnmarshalText self text).1 = self) ∧
  (∀ e, (TrustDomain_UnmarshalText self' text).2 = Err e →
        (TrustDomain_UnmarshalText self' text).1 = self').
Proof.
  intros Hi Ht. repeat split.
  - apply api_wf in Hi as [->|(Hz & tdi & path & Hi)]%id_wf_cases; [done|].
    unfold ID_UnmarshalText, ID_MarshalText. rewrite Hz; simpl.
    assert (FromString (ID_String i) = Ok i) as -> by (apply FromString_Ok; eauto).
    by destruct Hi as (_ & _ & _ & ->).
  - apply api_wf, TrustDomainFromString_name in Ht. case_decide as Hz; [by subst|].
    destruct Ht as [Hn _]. unfold TrustDomain_UnmarshalText, TrustDomain_MarshalText.
    pose proof Hz as Hne. apply td_not_zero in Hne. apply td_IsZero_false in Hz. rewrite Hz; simpl.
    rewrite bool_decide_false by (by rewrite string_length_0).
    change (TrustDomain_String td) with (Name td). by rewrite Hn.
  - intros e. unfold ID_UnmarshalText. case_bool_decide; [done|]. by destruct (FromString text).
  - intros e. unfold TrustDomain_UnmarshalText. case_bool_decide; [done|].
    by destruct (TrustDomainFromString text).
Qed.

Lemma Compare_eq td td' : (Compare td td' = 0 ↔ td = td')%Z.
Proof.
  destruct td as [a], td' as [b]. unfold Compare, strings_Compare; simpl.
  rewrite (inj_iff mkTrustDomain), <- (string_compare_eq a b). by destruct (String.compare a b).
Qed.

Lemma Compare_antisym td td' : Compare td' td = (- Compare td td')%Z.
Proof.
  unfold Compare, strings_Compare. rewrite String.compare_antisym.
  by destruct (String.compare _ _).
Qed.

Lemma Compare_lt_trans td td' td'' :
  (Compare td td' < 0 → Compare td' td'' < 0 → Compare td td'' < 0)%Z.
Proof.
  destruct td as [a], td' as [b], td'' as [c]. unfold Compare, strings_Compare; simpl.
  pose proof (String.compare_antisym b a) as Has.
  destruct (String.compare a b) eqn:E1; try done. destruct (String.compare b c) eqn:E2; try done.
  assert (String.le a c) as Hle.
  { transitivity b; unfold String.le, String.leb; by rewrite ?E1, ?E2. }
  unfold String.le, String.leb in Hle. destruct (String.compare a c) eqn:E3; try done.
  apply string_compare_eq in E3 as ->. by rewrite E2 in Has.
Qed.

(** [TrustDomain.Compare] is a total order on trust domains whose ties
    are equalities: what sorting the bundles of a set relies on. *)
Theorem Compare_total_order td td' td'' :
  (Compare td td' = 0 ↔ td = td')%Z ∧
  Compare td' td = (- Compare td td')%Z ∧
  (Compare td td' < 0 → Compare td' td'' < 0 → Compare td td'' < 0)%Z.
Proof. eauto using Compare_eq, Compare_antisym, Compare_lt_trans. Qed.
End id_more_properties.

(** ** IDs as URLs *)
Class CharsetURLSafe (C : Charset) : Prop := {
  td_char_url_safe c : isBackcompatTrustDomainChar c = true → shouldEscape c encodeHost = false;
  path_char_url_safe c : isBackcompatPathChar c = true → shouldEscape c encodePath = false;
}.

#[export] Instance charset_deny_url_safe : CharsetURLSafe charset_deny.
Proof. by split. Qed.

Section url.
Context {C : Charset} {CL : CharsetLaws C} {CU : CharsetURLSafe C}.

Lemma alnum_not_escaped c mode : is_alnum c = true → shouldEscape c mode = false.
Proof. unfold shouldEscape. by intros ->. Qed.

Lemma path_char_not_escaped c : isValidPathSegmentChar c = true → shouldEscape c encodePath = false.
Proof.
  unfold isValidPathSegmentChar.
  destruct (byte_le "a" c && byte_le c "z") eqn:E1;
    [intros _; apply alnum_not_escaped; unfold is_alnum; by rewrite E1|].
  destruct (byte_le "A" c && byte_le c "Z") eqn:E2;
    [intros _; apply alnum_not_escaped; unfold is_alnum; by rewrite E2, orb_true_r|].
  destruct (byte_le "0" c && byte_le c "9") eqn:E3;
    [intros _; apply alnum_not_escaped; unfold is_alnum; by rewrite E3, orb_true_r|].
  repeat case_bool_decide; subst; try done; simpl.
  destruct (isBackcompatPathChar c) eqn:Hc; [|done]. intros _. by apply path_char_url_safe.
Qed.

Lemma td_char_not_escaped c : isValidTrustDomainChar c = true → shouldEscape c encodeHost = false.
Proof.
  unfold isValidTrustDomainChar.
  destruct (byte_le "a" c && byte_le c "z") eqn:E1;
    [intros _; apply alnum_not_escaped; unfold is_alnum; by rewrite E1|].
  destruct (byte_le "0" c && byte_le c "9") eqn:E3;
    [intros _; apply alnum_not_escaped; unfold is_alnum; by rewrite E3, orb_true_r|].
  repeat case_bool_decide; subst; try done; simpl.
  destruct (isBackcompatTrustDomainChar c) eqn:Hc; [|done]. intros _. by apply td_char_url_safe.
Qed.

Lemma all_bytes_impl (p q : ascii → bool) s :
  (∀ c, p c = true → q c = true) → all_bytes p s = true → all_bytes q s = true.
Proof.
  intros Hpq. induction s as [|c s IH]; [done|]; simpl.
  intros [Hc Hs]%andb_prop. by rewrite Hpq, IH.
Qed.

Lemma valid_path_not_escaped path :
  ValidatePath path = Ok () → all_bytes (λ c, negb (shouldEscape c encodePath)) path = true.
Proof.
  intros (segs & Hv & ->)%ValidatePath_Ok. induction Hv as [|seg segs Hs Hv IH]; [done|]; simpl.
  rewrite !all_bytes_app, IH, andb_true_r; simpl.
  apply valid_segment_bytes in Hs. revert Hs. apply all_bytes_impl.
  intros c Hc. by rewrite path_char_not_escaped.
Qed.

Lemma id_parts_URL_String i td path :
  id_parts i td path →
  ∃ u, ID_URL i = Ok u ∧ URL_String u = ID_String i.
Proof.
  intros Hi. unfold ID_URL.
  rewrite (id_parts_not_zero _ _ _ Hi), (id_parts_TrustDomain _ _ _ Hi), (id_parts_Path _ _ _ Hi).
  cbn [mbind res_bind]. eexists; split; [done|].
  destruct Hi as (Hz & Hwf & Hp & ->). apply td_not_zero in Hz.
  rewrite URL_String_plain; try done.
  - intros ->. by apply ValidatePath_head in Hp.
  - destruct path as [|c path]; [by left|right]. apply ValidatePath_head in Hp as ->.
    apply (prefix_app "/" path).
  - revert Hwf. unfold td_wf. apply all_bytes_impl. intros c Hc. by rewrite td_char_not_escaped.
  - by apply valid_path_not_escaped.
Qed.

(** With a character set whose characters net/url leaves unescaped (the
    default build), every non-zero ID survives conversion to a URL and back,
    and the trust domain read from the URL is its own. *)
Theorem URL_roundtrip i :
  id_wf i → i ≠ zero_ID →
  ∃ u, ID_URL i = Ok u ∧ FromURI u = Ok i ∧ TrustDomainFromURI u = ID_TrustDomain i.
Proof.
  intros [?|(td & path & Hi)] Hnz; [done|].
  destruct (id_parts_URL_String i td path Hi) as (u & Hu & Hs). exists u.
  unfold TrustDomainFromURI, FromURI. rewrite Hs.
  assert (FromString (ID_String i) = Ok i) as -> by (apply FromString_Ok; eauto). done.
Qed.
End url.

(** In the backwards-compatible build the round trip through a URL fails:
    net/url escapes '!' (and the like) in a path, and '%' is not a path
    character, so FromURI rejects the URL of an ID that FromString accepts. *)
Theorem URL_roundtrip_fails_backcompat :
  ∃ i u, FromString (C := charset_allow) "spiffe://td/a!b" = Ok i ∧
    ID_URL i = Ok u ∧ FromURI (C := charset_allow) u = Err errBadPathSegmentChar.
Proof. by eexists _, _. Qed.

(** ** Witnesses *)
Definition fmt_id (format : string) (args : list unit) : string := format.
#[local] Instance default_build : Charset := charset_deny.

Lemma example_ID_wf : id_wf (mkID "spiffe://example.org/a" 20).
Proof.
  right. exists (mkTrustDomain "example.org"), "/a". by repeat split.
Qed.

Lemma example_api_ID : api_id fmt_id (mkID "spiffe://example.org/a" 20).
Proof. by apply (api_id_FromString _ "spiffe://example.org/a"). Qed.

Lemma example_api_td : api_td fmt_id (mkTrustDomain "example.org").
Proof. by apply (api_td_FromString _ "example.org"). Qed.

Lemma FromString_iff_witness : FromString "spiffe://example.org/a" = Ok (mkID "spiffe://example.org/a" 20).
Proof. apply FromString_iff. split; [apply example_ID_wf|done]. Defined.

Lemma FromString_parse_witness :
  FromString "spiffe://Td/a" = Err errBadTrustDomainChar ∧
  FromString "spiffe:///a" = Err errMissingTrustDomain ∧
  FromString "spiffe://td/a/" = Err errTrailingSlash.
Proof.
  split; [|split].
  - rewrite (FromString_parse "Td" "/a"); reflexivity.
  - rewrite (FromString_parse "" "/a"); reflexivity.
  - rewrite (FromString_parse "td" "/a/"); reflexivity.
Defined.

Lemma api_id_safe_witness : no_panic (Path (mkID "spiffe://example.org/a" 20)) = true.
Proof. apply (api_id_safe fmt_id), example_api_ID. Defined.

Lemma FromPath_components_witness :
  Path (mkID "spiffe://example.org/a" 20) = Ok "/a".
Proof.
  apply (FromPath_components fmt_id (mkTrustDomain "example.org") "/a");
    [apply example_api_td|reflexivity].
Defined.

Lemma AppendPath_ReplacePath_spec_witness :
  ∃ j k, AppendPath (mkID "spiffe://example.org/a" 20) "/b" = Ok j ∧
         ReplacePath (mkID "spiffe://example.org/a" 20) "/b" = Ok k ∧
         Path j = Ok "/a/b" ∧ Path k = Ok "/b".
Proof.
  destruct (AppendPath_ReplacePath_spec fmt_id (mkID "spiffe://example.org/a" 20)
    (mkTrustDomain "example.org") "/a" "/b" example_api_ID ltac:(discriminate) eq_refl eq_refl)
    as (j & k & ? & ? & ? & ? & ? & ?).
  by exists j, k.
Defined.

Lemma TrustDomainFromString_roundtrip_witness :
  TrustDomainFromString "spiffe://example.org" = Ok (mkTrustDomain "example.org").
Proof.
  apply (TrustDomainFromString_roundtrip fmt_id (mkTrustDomain "example.org")), example_api_td.
Defined.

Lemma MarshalText_roundtrip_witness :
  ID_UnmarshalText zero_ID "spiffe://example.org/a" = (mkID "spiffe://example.org/a" 20, Ok ()).
Proof.
  apply (MarshalText_roundtrip fmt_id _ zero_ID (mkTrustDomain "example.org") zero_TrustDomain "x"
    example_api_ID example_api_td).
Defined.

Lemma URL_roundtrip_witness :
  ∃ u, ID_URL (mkID "spiffe://example.org/a" 20) = Ok u ∧
       FromURI u = Ok (mkID "spiffe://example.org/a" 20).
Proof.
  destruct (URL_roundtrip (mkID "spiffe://example.org/a" 20) example_ID_wf ltac:(discriminate))
    as (u & ? & ? & _).
  by exists u.
Defined.
