(* ===== verification/Match.v ===== *)
(** * spiffeid: matchers

    Models src/spiffeid/match.go. A [Matcher] returns nil ([Ok ()]) or an
    error; matching a trust domain slices the ID, hence the [res]. *)

From S2P Require Import Prelude Path ID.

Definition Matcher : Type := ID → res unit.

Definition MatchAny : Matcher := λ actual, Ok ().

Definition MatchID (expected : ID) : Matcher := λ actual,
  if negb (bool_decide (actual = expected))
  then Err (fmt_Errorf "unexpected ID %q" [Arg_s (ID_String actual)])
  else Ok ().

(** The map is built once, from the arguments in order. *)
Definition MatchOneOf (expected : list ID) : Matcher :=
  let set : gmap ID unit := foldl (λ set i, <[i:=()]> set) ∅ expected in
  λ actual,
    match set !! actual with
    | None => Err (fmt_Errorf "unexpected ID %q" [Arg_s (ID_String actual)])
    | Some _ => Ok ()
    end.

Definition MatchMemberOf (expected : TrustDomain) : Matcher := λ actual,
  let! member := MemberOf actual expected in
  if negb member then
    let! td := ID_TrustDomain actual in
    Err (fmt_Errorf "unexpected trust domain %q" [Arg_s (TrustDomain_String td)])
  else Ok ().

(** A matcher accepts an ID when it returns nil. *)
Definition accepts (m : Matcher) (actual : ID) : Prop := m actual = Ok ().

Lemma one_of_set_lookup (expected : list ID) (set : gmap ID unit) actual :
  is_Some (foldl (λ set i, <[i:=()]> set) set expected !! actual) ↔
  is_Some (set !! actual) ∨ actual ∈ expected.
Proof.
  revert set; induction expected as [|i expected IH]; intros set; simpl.
  - set_solver.
  - rewrite IH, elem_of_cons. destruct (decide (i = actual)) as [->|Hne].
    + rewrite lookup_insert_eq. naive_solver.
    + rewrite lookup_insert_ne by done. naive_solver.
Qed.

Lemma MatchID_accepts expected actual : accepts (MatchID expected) actual ↔ actual = expected.
Proof. unfold accepts, MatchID. by case_bool_decide. Qed.

Lemma MatchOneOf_accepts expected actual :
  accepts (MatchOneOf expected) actual ↔ actual ∈ expected.
Proof.
  unfold accepts, MatchOneOf. pose proof (one_of_set_lookup expected ∅ actual) as Hs.
  rewrite lookup_empty, is_Some_alt in Hs. simpl in Hs.
  destruct (foldl _ _ _ !! _); split; naive_solver.
Qed.

Section match_lemmas.
Context {C : Charset} {CL : CharsetLaws C}.

Lemma MatchMemberOf_accepts td actual :
  id_wf actual → accepts (MatchMemberOf td) actual ↔ ID_TrustDomain actual = Ok td.
Proof.
  intros (td' & Ht & _)%id_wf_TrustDomain. unfold accepts, MatchMemberOf, MemberOf.
  rewrite Ht; cbn [mbind res_bind].
  case_bool_decide; subst; simpl; [done|]. split; [done|]. by intros [= ->].
Qed.

Lemma matchers_no_panic actual :
  id_wf actual →
  no_panic (MatchAny actual) = true ∧ (∀ e, no_panic (MatchID e actual) = true) ∧
  (∀ l, no_panic (MatchOneOf l actual) = true) ∧
  (∀ td, no_panic (MatchMemberOf td actual) = true).
Proof.
  intros (td' & Ht & _)%id_wf_TrustDomain. repeat split.
  - intros e. unfold MatchID. by case_bool_decide.
  - intros l. unfold MatchOneOf. by case_match.
  - intros td. unfold MatchMemberOf, MemberOf. rewrite Ht; cbn [mbind res_bind].
    by case_bool_decide.
Qed.

(** On any ID of the package each matcher returns (never panics) and
    accepts exactly the IDs it is built for: any ID, the expected ID, the
    listed IDs, the members of the trust domain. *)
Theorem matchers_spec actual expected (ids : list ID) td :
  id_wf actual →
  accepts MatchAny actual ∧
  (accepts (MatchID expected) actual ↔ actual = expected) ∧
  (accepts (MatchOneOf ids) actual ↔ actual ∈ ids) ∧
  (accepts (MatchMemberOf td) actual ↔ MemberOf actual td = Ok true) ∧
  no_panic (MatchMemberOf td actual) = true.
Proof.
  intros Hwf. split; [done|]. split; [apply MatchID_accepts|].
  split; [apply MatchOneOf_accepts|]. split; [|by apply matchers_no_panic].
  rewrite MatchMemberOf_accepts by done. unfold MemberOf.
  apply id_wf_TrustDomain in Hwf as (td' & -> & _); cbn [mbind res_bind].
  case_bool_decide; subst; [done|]. split; [by intros [= ->]|done].
Qed.
End match_lemmas.

Lemma matchers_spec_witness :
  accepts (MatchMemberOf (mkTrustDomain "example.org")) (mkID "spiffe://example.org/a" 20) ∧
  ¬ accepts (MatchOneOf [zero_ID]) (mkID "spiffe://example.org/a" 20).
Proof.
  destruct (matchers_spec (C := charset_deny) (mkID "spiffe://example.org/a" 20) zero_ID [zero_ID]
    (mkTrustDomain "example.org") example_ID_wf) as (_ & _ & H1 & H2 & _).
  split; [by apply H2|]. rewrite H1. set_solver.
Defined.
