(* ===== verification/Crypto.v ===== *)
(** * internal/cryptoutil, internal/jwtutil: public keys and authority maps

    Models src/internal/cryptoutil/keys.go and src/internal/jwtutil/util.go.
    A crypto.PublicKey is an interface value: the dynamic types the code
    switches on are the constructors, anything else is [Other_PublicKey]. *)

From S2P Require Import Prelude.

(** ** Keys *)
Inductive PublicKey : Type :=
  | RSA_PublicKey (E N : Z)                     (* *rsa.PublicKey *)
  | ECDSA_PublicKey (curve : string) (X Y : Z)  (* *ecdsa.PublicKey *)
  | Ed25519_PublicKey (bytes : string)          (* ed25519.PublicKey *)
  | Other_PublicKey (type_name value : string). (* any other dynamic type, nil included *)

#[export] Instance PublicKey_eq_dec : EqDecision PublicKey.
Proof. solve_decision. Defined.

Definition key_type_name (k : PublicKey) : string :=
  match k with
  | RSA_PublicKey _ _ => "*rsa.PublicKey"
  | ECDSA_PublicKey _ _ _ => "*ecdsa.PublicKey"
  | Ed25519_PublicKey _ => "ed25519.PublicKey"
  | Other_PublicKey t _ => t
  end.

(** ** cryptoutil *)
Definition RSAPublicKeyEqual (E N E' N' : Z) : bool := (E =? E')%Z && (N =? N')%Z.

Definition ECDSAPublicKeyEqual (curve : string) (X Y : Z) (curve' : string) (X' Y' : Z) : bool :=
  bool_decide (curve = curve') && (X =? X')%Z && (Y =? Y')%Z.

(** Both results: the boolean and the error (None for nil). *)
Definition PublicKeyEqual (a b : PublicKey) : bool * option error :=
  match a with
  | RSA_PublicKey E N =>
      (match b with RSA_PublicKey E' N' => RSAPublicKeyEqual E N E' N' | _ => false end, None)
  | ECDSA_PublicKey c X Y =>
      (match b with ECDSA_PublicKey c' X' Y' => ECDSAPublicKeyEqual c X Y c' X' Y' | _ => false end,
       None)
  | Ed25519_PublicKey bs =>
      (match b with Ed25519_PublicKey bs' => bool_decide (bs = bs') | _ => false end, None)
  | Other_PublicKey _ _ =>
      (false, Some (fmt_Errorf "unsupported public key type %T" [Arg_s (key_type_name a)]))
  end.

(** The dynamic types [PublicKeyEqual] supports. *)
Definition supported_key (k : PublicKey) : Prop :=
  match k with Other_PublicKey _ _ => False | _ => True end.

#[export] Instance supported_key_dec k : Decision (supported_key k).
Proof. destruct k; simpl; apply _. Defined.

Lemma PublicKeyEqual_true a b : (PublicKeyEqual a b).1 = true ↔ a = b ∧ supported_key a.
Proof.
  destruct a as [E N|c X Y|bs|t v], b as [E' N'|c' X' Y'|bs'|t' v']; simpl; try naive_solver;
    unfold RSAPublicKeyEqual, ECDSAPublicKeyEqual;
    rewrite ?andb_true_iff, ?Z.eqb_eq, ?bool_decide_eq_true; naive_solver.
Qed.

(** ** jwtutil *)

(** The copying loop over a map; [order] is the order of the iteration. *)
Definition CopyJWTAuthorities_loop (order : list (string * PublicKey)) : gmap string PublicKey :=
  foldl (λ copied kv, <[kv.1:=kv.2]> copied) ∅ order.

Definition CopyJWTAuthorities (m : gmap string PublicKey) : gmap string PublicKey :=
  CopyJWTAuthorities_loop (map_to_list m).

Fixpoint JWTAuthoritiesEqual_loop (order : list (string * PublicKey))
    (b : gmap string PublicKey) : bool :=
  match order with
  | [] => true
  | (k, pka) :: order =>
      match b !! k with
      | None => false
      | Some pkb =>
          if negb (PublicKeyEqual pka pkb).1 then false
          else JWTAuthoritiesEqual_loop order b
      end
  end.

Definition JWTAuthoritiesEqual (a b : gmap string PublicKey) : bool :=
  if negb (size a =? size b)%nat then false
  else JWTAuthoritiesEqual_loop (map_to_list a) b.

(** *** Lemmas: the iteration order does not matter *)
Lemma copy_loop_lookup order (m : gmap string PublicKey) k :
  NoDup order.*1 →
  foldl (λ copied kv, <[kv.1:=kv.2]> copied) m order !! k =
  match (list_to_map order : gmap string PublicKey) !! k with Some v => Some v | None => m !! k end.
Proof.
  revert m; induction order as [|[k' v'] order IH]; intros m; simpl.
  - by rewrite lookup_empty.
  - intros [Hk Hnd]%NoDup_cons. rewrite IH by done.
    destruct (decide (k' = k)) as [->|Hne].
    + rewrite lookup_insert_eq.
      apply not_elem_of_list_to_map_1 in Hk. rewrite Hk. by rewrite lookup_insert_eq.
    + by rewrite !lookup_insert_ne.
Qed.

Lemma CopyJWTAuthorities_any_order (m : gmap string PublicKey) order :
  range_of m order → CopyJWTAuthorities_loop order = m.
Proof.
  intros Ho. apply map_eq. intros k. unfold CopyJWTAuthorities_loop.
  rewrite copy_loop_lookup by eauto with go.
  rewrite (range_of_list_to_map _ _ Ho). rewrite lookup_empty. by destruct (m !! k).
Qed.

Lemma CopyJWTAuthorities_id m : CopyJWTAuthorities m = m.
Proof. apply CopyJWTAuthorities_any_order, range_of_map_to_list. Qed.
#[export] Hint Rewrite CopyJWTAuthorities_id : go.

Lemma JWTAuthoritiesEqual_loop_true order b :
  JWTAuthoritiesEqual_loop order b = true ↔
  Forall (λ kv, b !! kv.1 = Some kv.2 ∧ supported_key kv.2) order.
Proof.
  induction order as [|[k v] order IH]; simpl; [done|].
  rewrite Forall_cons, <- IH; simpl. destruct (b !! k) as [v'|] eqn:E; [|naive_solver].
  pose proof (PublicKeyEqual_true v v') as Hk.
  destruct (PublicKeyEqual v v').1; simpl; naive_solver.
Qed.

Lemma JWTAuthoritiesEqual_any_order a b order :
  range_of a order →
  JWTAuthoritiesEqual_loop order b = JWTAuthoritiesEqual_loop (map_to_list a) b.
Proof.
  intros Ho. apply eq_true_iff_eq. rewrite !JWTAuthoritiesEqual_loop_true.
  by rewrite Ho.
Qed.

Definition all_supported (m : gmap string PublicKey) : Prop := map_Forall (λ _ k, supported_key k) m.

Lemma JWTAuthoritiesEqual_true a b :
  JWTAuthoritiesEqual a b = true ↔ a = b ∧ all_supported a.
Proof.
  unfold JWTAuthoritiesEqual, all_supported. destruct (Nat.eqb_spec (size a) (size b)) as [Hs|Hs]; simpl.
  - rewrite JWTAuthoritiesEqual_loop_true, Forall_forall. split.
    + intros Hall. assert (a ⊆ b) as Hsub.
      { apply map_subseteq_spec. intros k v Hk.
        by destruct (Hall (k, v)) as [? _]; [apply elem_of_map_to_list|]. }
      split; [by apply map_subseteq_size_eq; [|lia]|].
      intros k v Hk. by destruct (Hall (k, v)); [apply elem_of_map_to_list|].
    + intros [-> Hsup] [k v] Hk%elem_of_map_to_list; simpl. split; [done|]. by apply (Hsup k).
  - split; [done|]. by intros [-> _].
Qed.

(** [JWTAuthoritiesEqual] holds exactly for equal maps whose keys are all
    RSA, ECDSA or Ed25519, whatever the iteration order: it is an equality on
    supported maps, but not reflexive on a map holding any other key type. *)
Theorem JWTAuthoritiesEqual_iff (a b : gmap string PublicKey) :
  (JWTAuthoritiesEqual a b = true ↔ a = b ∧ all_supported a) ∧
  (∀ order, range_of a order →
     JWTAuthoritiesEqual_loop order b = JWTAuthoritiesEqual_loop (map_to_list a) b ∧
     CopyJWTAuthorities_loop order = a).
Proof.
  split; [apply JWTAuthoritiesEqual_true|].
  eauto using JWTAuthoritiesEqual_any_order, CopyJWTAuthorities_any_order.
Qed.
