(* ===== verification/X509.v ===== *)
(** * internal/x509util: certificates and slices of certificates

    Models src/internal/x509util/util.go. [Certificate] has the fields of
    x509.Certificate the sources read; parsing, encoding and chain building are
    the operations of crypto/x509 and encoding/pem, collected in the interface
    [X509Lib], an argument of the code that calls them. *)

From S2P Require Import Prelude GoUrl Crypto.

(** ** Certificates *)
Record Certificate : Type := mkCertificate {
  Raw : string;              (* complete ASN.1 DER content *)
  cert_PublicKey : PublicKey;
  URIs : list URL;           (* URI subject alternative names *)
  IsCA : bool;
  KeyUsage : Z;              (* bit set *)
}.

#[export] Instance URL_eq_dec : EqDecision URL.
Proof. solve_decision. Defined.
#[export] Instance Certificate_eq_dec : EqDecision Certificate.
Proof. solve_decision. Defined.

Definition KeyUsageDigitalSignature : Z := Z.shiftl 1 0.
Definition KeyUsageCertSign : Z := Z.shiftl 1 5.
Definition KeyUsageCRLSign : Z := Z.shiftl 1 6.

(** x509.Certificate.Equal compares the DER contents. *)
Definition cert_Equal (c other : Certificate) : bool := bool_decide (Raw c = Raw other).

(** x509.CertPool: AddCert ignores a certificate already present. *)
Definition CertPool : Type := list Certificate.
Definition CertPool_AddCert (pool : CertPool) (cert : Certificate) : CertPool :=
  if existsb (cert_Equal cert) pool then pool else pool ++ [cert].

(** ** Private keys: crypto.PrivateKey, by the dynamic types the code tests.
    Each holds its public part and an opaque secret; [Other_PrivateKey] says
    whether its type implements crypto.Signer. *)
Inductive PrivateKey : Type :=
  | RSA_PrivateKey (E N : Z) (secret : string)
  | ECDSA_PrivateKey (curve : string) (X Y : Z) (secret : string)
  | Ed25519_PrivateKey (public secret : string)
  | Other_PrivateKey (type_name : string) (is_signer : bool).

(** %T of a private key. *)
Definition dynamic_type (k : PrivateKey) : string :=
  match k with
  | RSA_PrivateKey _ _ _ => "*rsa.PrivateKey"
  | ECDSA_PrivateKey _ _ _ _ => "*ecdsa.PrivateKey"
  | Ed25519_PrivateKey _ _ => "ed25519.PrivateKey"
  | Other_PrivateKey type_name _ => type_name
  end.

#[export] Instance PrivateKey_eq_dec : EqDecision PrivateKey.
Proof. solve_decision. Defined.

(** encoding/pem's Block (headers are never used). *)
Record Block : Type := mkBlock { Type_ : string; Bytes : string }.

(** ** The operations of crypto/x509 and encoding/pem the sources call *)
Class X509Lib := {
  pem_Decode : string → option Block * string;       (* (block or nil, rest) *)
  pem_EncodeToMemory : Block → string;
  x509_ParseCertificate : string → Certificate + error;
  x509_ParseCertificates : string → list Certificate + error;
  x509_ParsePKCS8PrivateKey : string → PrivateKey + error;
  x509_MarshalPKCS8PrivateKey : PrivateKey → string + error;
}.

(** A certificate that came out of the parser. *)
Definition parsed_cert `{X509Lib} (c : Certificate) : Prop :=
  ∃ raw, x509_ParseCertificate raw = inl c.

(** Documented behaviour of those operations. *)
Class X509LibLaws `(L : X509Lib) : Prop := {
  (* Decode returns the block and the remainder after it *)
  pem_Decode_shrinks s b rest :
    pem_Decode s = (Some b, rest) → String.length rest < String.length s;
  pem_Decode_Encode b rest :
    Type_ b = "CERTIFICATE" ∨ Type_ b = "PRIVATE KEY" →
    pem_Decode (pem_EncodeToMemory b +:+ rest) = (Some b, rest);
  (* Raw is the complete content that was parsed *)
  x509_Raw raw c : x509_ParseCertificate raw = inl c → Raw c = raw;
  (* concatenated certificates without padding *)
  x509_ParseCertificates_concat cs :
    Forall parsed_cert cs →
    x509_ParseCertificates (foldr (λ c s, Raw c +:+ s) "" cs) = inl cs;
  x509_PKCS8_roundtrip k bs :
    x509_MarshalPKCS8PrivateKey k = inl bs → x509_ParsePKCS8PrivateKey bs = inl k;
}.

Definition of_lib {A} (r : A + error) : res A :=
  match r with inl a => Ok a | inr e => Err e end.

Lemma of_lib_no_panic {A} (r : A + error) : no_panic (of_lib r) = true.
Proof. by destruct r. Qed.
#[export] Hint Resolve of_lib_no_panic : go.

(** ** x509util *)

(** Go's copy(dst, src): the first min(len(dst), len(src)) elements of [dst] are
    overwritten. *)
Definition go_copy {A} (dst src : list A) : list A :=
  take (length dst) src ++ drop (length src) dst.

(** What a fresh slot holds before copy overwrites it (a nil pointer in Go). *)
Definition fresh_slot : Certificate := mkCertificate "" (Other_PublicKey "nil" "") [] false 0.

Definition CopyX509Authorities (certs : list Certificate) : list Certificate :=
  go_copy (replicate (length certs) fresh_slot) certs.

Definition NewCertPool (certs : list Certificate) : CertPool := foldl CertPool_AddCert [] certs.

(** The loop of [CertsEqual]: cert.Equal(b[i]) for each i. *)
Fixpoint CertsEqual_loop (a b : list Certificate) (i : nat) : res bool :=
  match a with
  | [] => Ok true
  | cert :: a =>
      match b !! i with
      | None => Panic "index out of range"
      | Some c => if negb (cert_Equal cert c) then Ok false else CertsEqual_loop a b (S i)
      end
  end.

Definition CertsEqual (a b : list Certificate) : res bool :=
  if negb (length a =? length b)%nat then Ok false
  else CertsEqual_loop a b 0.

Definition RawCertsFromCerts (certs : list Certificate) : list string :=
  foldl (λ rawCerts cert, rawCerts ++ [Raw cert]) [] certs.

Definition ConcatRawCertsFromCerts (certs : list Certificate) : string :=
  foldl (λ rawCerts cert, rawCerts +:+ Raw cert) "" certs.

(** ** Lemmas *)
Lemma CopyX509Authorities_id certs : CopyX509Authorities certs = certs.
Proof.
  unfold CopyX509Authorities, go_copy. rewrite length_replicate, drop_replicate, Nat.sub_diag.
  rewrite app_nil_r. by apply take_ge.
Qed.
#[export] Hint Rewrite CopyX509Authorities_id : go.

Lemma cert_Equal_true c c' : cert_Equal c c' = true ↔ Raw c = Raw c'.
Proof. unfold cert_Equal. by rewrite bool_decide_eq_true. Qed.

Lemma NewCertPool_foldl certs pool c :
  (∃ c', c' ∈ foldl CertPool_AddCert pool certs ∧ Raw c' = Raw c) ↔
  (∃ c', (c' ∈ pool ∨ c' ∈ certs) ∧ Raw c' = Raw c).
Proof.
  revert pool; induction certs as [|c0 certs IH]; intros pool; simpl.
  - split; intros (c' & ? & ?); exists c'; set_solver.
  - rewrite IH. unfold CertPool_AddCert. destruct (existsb _ _) eqn:E.
    + apply existsb_exists in E as (c1 & Hin & Heq%cert_Equal_true).
      apply list_elem_of_In in Hin. split.
      * intros (c' & ? & ?). exists c'. set_solver.
      * intros (c' & [?|[->|?]%elem_of_cons] & ?); eauto. exists c1. split; [by left|congruence].
    + split; intros (c' & ? & ?); exists c'; set_solver.
Qed.

(** The pool holds, up to DER equality, the given certificates. *)
Lemma NewCertPool_spec certs c :
  (∃ c', c' ∈ NewCertPool certs ∧ Raw c' = Raw c) ↔ (∃ c', c' ∈ certs ∧ Raw c' = Raw c).
Proof.
  unfold NewCertPool. rewrite NewCertPool_foldl.
  split; intros (c' & Hc & ?); exists c'; set_solver.
Qed.

Lemma CertsEqual_loop_spec a b1 b2 :
  length a = length b2 →
  CertsEqual_loop a (b1 ++ b2) (length b1) = Ok (bool_decide (Raw <$> a = Raw <$> b2)).
Proof.
  revert b1 b2; induction a as [|c a IH]; intros b1 [|c' b2] Hl; try done; simpl.
  rewrite list_lookup_middle by done. unfold cert_Equal.
  destruct (decide (Raw c = Raw c')) as [Heq|Hne].
  - rewrite bool_decide_true by done; simpl.
    specialize (IH (b1 ++ [c']) b2). rewrite length_app, Nat.add_1_r, <- app_assoc in IH.
    cbn [app] in IH. rewrite IH by (simpl in *; lia). f_equal. apply bool_decide_ext; simpl. rewrite Heq.
    split; [intros H; by f_equal|by intros [= ?]].
  - rewrite bool_decide_false by done; simpl. rewrite bool_decide_false; [done|]. by intros [= ??].
Qed.

Lemma CertsEqual_spec a b : CertsEqual a b = Ok (bool_decide (Raw <$> a = Raw <$> b)).
Proof.
  unfold CertsEqual. destruct (Nat.eqb_spec (length a) (length b)) as [Hl|Hl]; simpl.
  - exact (CertsEqual_loop_spec a [] b Hl).
  - rewrite bool_decide_false; [done|]. intros Heq%(f_equal length).
    by rewrite !length_fmap in Heq.
Qed.

Lemma RawCertsFromCerts_spec certs : RawCertsFromCerts certs = Raw <$> certs.
Proof. apply (foldl_snoc_fmap Raw certs []). Qed.

Lemma ConcatRawCerts_foldl certs acc :
  foldl (λ rawCerts cert, rawCerts +:+ Raw cert) acc certs =
  acc +:+ foldr (λ c s, Raw c +:+ s) "" certs.
Proof.
  revert acc; induction certs as [|c certs IH]; intros acc; simpl; [by rewrite app_str_nil_r|].
  by rewrite IH, app_str_assoc.
Qed.

Lemma ConcatRawCertsFromCerts_spec certs :
  ConcatRawCertsFromCerts certs = foldr (λ c s, Raw c +:+ s) "" certs.
Proof. apply ConcatRawCerts_foldl. Qed.

Lemma parsed_cert_Raw `{X509LibLaws} c : parsed_cert c → x509_ParseCertificate (Raw c) = inl c.
Proof. intros [raw Hp]. by rewrite (x509_Raw _ _ Hp). Qed.

Lemma parsed_certs_Raw_inj `{X509LibLaws} c c' :
  parsed_cert c → parsed_cert c' → Raw c = Raw c' → c = c'.
Proof.
  intros Hc Hc' Heq. pose proof (parsed_cert_Raw _ Hc) as E. rewrite Heq in E.
  rewrite (parsed_cert_Raw _ Hc') in E. by injection E.
Qed.

Lemma parsed_certs_eq `{X509LibLaws} cs cs' :
  Forall parsed_cert cs → Forall parsed_cert cs' → Raw <$> cs = Raw <$> cs' → cs = cs'.
Proof.
  intros Hcs; revert cs'; induction Hcs as [|c cs Hc Hcs IH]; intros [|c' cs'] Hcs' Hr; try done.
  simpl in Hr. simplify_eq. inversion Hcs'; subst. f_equal; [by apply parsed_certs_Raw_inj|by apply IH].
Qed.
