(* ===== verification/X509Sample.v ===== *)
(** * A concrete instance of the X.509 interface

    The operations of [X509Lib] instantiated by small executable functions that
    satisfy [X509LibLaws]: a certificate is one byte looked up in a table, a PEM
    block is its type's first byte and its escaped contents. The witnesses of the
    properties that assume those laws evaluate over this instance. *)

From S2P Require Import Prelude GoUrl Crypto X509.

Open Scope char_scope.

Definition spiffe_url (host path : string) : URL :=
  mkURL "spiffe" "" None host path "" false false "" "".

(** Leaf "L" for spiffe://example.org/workload and leaf "M" for .../other, both
    with the Ed25519 key "k"; "A" and "B" are signing certificates; "S" may
    sign; "N" has no URI. *)
Definition sample_table (a : ascii) : option Certificate :=
  let cert key uris ca usage := Some (mkCertificate (String a "") key uris ca usage) in
  match a with
  | "L" => cert (Ed25519_PublicKey "k") [spiffe_url "example.org" "/workload"] false 1%Z
  | "M" => cert (Ed25519_PublicKey "k") [spiffe_url "example.org" "/other"] false 1%Z
  | "A" => cert (Ed25519_PublicKey "a") [spiffe_url "example.org" ""] true 32%Z
  | "B" => cert (Ed25519_PublicKey "b") [spiffe_url "domain.test" ""] true 32%Z
  | "S" => cert (Ed25519_PublicKey "s") [spiffe_url "example.org" "/signer"] false 33%Z
  | "N" => cert (Ed25519_PublicKey "n") [] false 1%Z
  | _ => None
  end.

Definition sample_ParseCertificate (der : string) : Certificate + error :=
  match der with
  | String a "" =>
      match sample_table a with
      | Some c => inl c
      | None => inr (extern_error "crypto/x509" "malformed certificate")
      end
  | _ => inr (extern_error "crypto/x509" "malformed certificate")
  end.

Fixpoint sample_ParseCertificates (der : string) : list Certificate + error :=
  match der with
  | EmptyString => inl []
  | String a der =>
      match sample_ParseCertificate (String a ""), sample_ParseCertificates der with
      | inl c, inl cs => inl (c :: cs)
      | inr e, _ | _, inr e => inr e
      end
  end.

Definition sample_MarshalKey (k : PrivateKey) : string + error :=
  match k with
  | Ed25519_PrivateKey (String p "") secret => inl (String p secret)
  | _ => inr (extern_error "crypto/x509" "unknown key type")
  end.

Definition sample_ParseKey (der : string) : PrivateKey + error :=
  match der with
  | EmptyString => inr (extern_error "crypto/x509" "malformed key")
  | String p secret => inl (Ed25519_PrivateKey (String p "") secret)
  end.

Fixpoint sample_escape (s : string) : string :=
  match s with
  | EmptyString => String "." ""
  | String c s => String "x" (String c (sample_escape s))
  end.

Fixpoint sample_unescape (s : string) : option (string * string) :=
  match s with
  | String "." rest => Some ("" : string, rest)
  | String "x" (String c s) =>
      match sample_unescape s with
      | Some (bytes, rest) => Some (String c bytes, rest)
      | None => None
      end
  | _ => None
  end.

Definition sample_Encode (b : Block) : string :=
  if bool_decide (Type_ b = ("CERTIFICATE" : string)) then String "C" (sample_escape (Bytes b))
  else if bool_decide (Type_ b = ("PRIVATE KEY" : string)) then String "P" (sample_escape (Bytes b))
  else "".

Definition sample_Decode (s : string) : option Block * string :=
  match s with
  | String "C" s' =>
      match sample_unescape s' with
      | Some (bytes, rest) => (Some (mkBlock "CERTIFICATE" bytes), rest)
      | None => (None, s)
      end
  | String "P" s' =>
      match sample_unescape s' with
      | Some (bytes, rest) => (Some (mkBlock "PRIVATE KEY" bytes), rest)
      | None => (None, s)
      end
  | _ => (None, s)
  end.
Close Scope char_scope.

#[export] Instance sample_X509Lib : X509Lib := {|
  pem_Decode := sample_Decode;
  pem_EncodeToMemory := sample_Encode;
  x509_ParseCertificate := sample_ParseCertificate;
  x509_ParseCertificates := sample_ParseCertificates;
  x509_ParsePKCS8PrivateKey := sample_ParseKey;
  x509_MarshalPKCS8PrivateKey := sample_MarshalKey;
|}.

Lemma sample_unescape_length n s bytes rest :
  String.length s ≤ n → sample_unescape s = Some (bytes, rest) →
  String.length rest < String.length s.
Proof.
  revert s bytes rest; induction n as [|n IH]; intros s bytes rest Hn Hs.
  - by destruct s; simpl in *; [|lia].
  - destruct s as [|c s]; [done|]. cbn [sample_unescape] in Hs.
    repeat case_match; simplify_eq; simpl in *; try lia.
    match goal with H : sample_unescape _ = Some _ |- _ => apply IH in H; [lia|lia] end.
Qed.

Lemma sample_unescape_escape s rest : sample_unescape (sample_escape s +:+ rest) = Some (s, rest).
Proof.
  induction s as [|c s IH]; [done|].
  cbn [sample_escape]. rewrite !app_str_cons. cbn [sample_unescape]. by rewrite IH.
Qed.

Lemma sample_parsed c : parsed_cert c → ∃ a, Raw c = String a "" ∧ sample_table a = Some c.
Proof.
  intros [raw Hp]. cbn in Hp. destruct raw as [|a [|? ?]]; try done. simpl in Hp.
  destruct (sample_table a) as [c'|] eqn:Ht; simplify_eq. exists a. split; [|done].
  unfold sample_table in Ht. repeat case_match; by simplify_eq.
Qed.

#[export] Instance sample_X509LibLaws : X509LibLaws sample_X509Lib.
Proof.
  split.
  - intros s b rest; cbn. unfold sample_Decode.
    repeat case_match; intros; simplify_eq; simpl;
      match goal with H : sample_unescape _ = Some _ |- _ =>
        apply (sample_unescape_length _ _ _ _ (le_n _)) in H; lia end.
  - intros [t bytes] rest [Ht|Ht]; simpl in Ht; subst; cbn; unfold sample_Encode; simpl;
      rewrite app_str_cons; by rewrite sample_unescape_escape.
  - intros raw c; cbn. destruct raw as [|a [|? ?]]; try done. simpl.
    destruct (sample_table a) as [c'|] eqn:Ht; [|done]. intros [= <-].
    unfold sample_table in Ht. repeat case_match; by simplify_eq.
  - intros cs Hcs. cbn. induction Hcs as [|c cs Hc Hcs IH]; [done|].
    destruct (sample_parsed _ Hc) as (a & Ha & Ht). simpl.
    rewrite Ha, app_str_cons, app_str_nil_l. cbn [sample_ParseCertificates].
    rewrite IH. simpl. by rewrite Ht.
  - intros [| |p s|] bs; cbn; try done. destruct p as [|c [|]]; intros; by simplify_eq/=.
Qed.

(** Certificates and a key used by the witnesses. *)
Definition sample_cert (a : ascii) : Certificate :=
  match sample_table a with Some c => c | None => mkCertificate "" (Ed25519_PublicKey "") [] false 0 end.

Definition leafL := sample_cert "L".
Definition leafM := sample_cert "M".
Definition caA := sample_cert "A".
Definition caB := sample_cert "B".
Definition sample_key : PrivateKey := Ed25519_PrivateKey "k" "secret".

Lemma sample_cert_parsed a : is_Some (sample_table a) → parsed_cert (sample_cert a).
Proof.
  intros [c Hc]. exists (String a ""). cbn. unfold sample_cert. by rewrite Hc.
Qed.
