(* ===== verification/Pem.v ===== *)
(** * internal/pemutil: PEM files of certificates and keys

    Models src/internal/pemutil/pem.go over the interface [X509Lib]. The loop
    of [parseBlocks] consumes its input block by block; it runs on fuel, and
    [parseBlocks_terminates] shows that one unit more than the number of input
    bytes is always enough, because every iteration shortens the input. *)

From S2P Require Import Prelude GoUrl Crypto X509 X509Sample.

Definition certType : string := "CERTIFICATE".
Definition keyType : string := "PRIVATE KEY".

(** The dynamic types of the objects of [parseBlock]. *)
Inductive pem_object :=
  | Obj_Certificate (c : Certificate)
  | Obj_PrivateKey (k : PrivateKey).

Section pem.
Context {L : X509Lib}.

(** Results: object (None for nil), rest, whether a block was found, error. *)
Definition parseBlock (pemBytes pemType : string)
    : option pem_object * string * bool * option error :=
  match pem_Decode pemBytes with
  | (None, _) => (None, "", false, None)
  | (Some pemBlock, rest) =>
      if negb (bool_decide (Type_ pemBlock = pemType)) then (None, rest, true, None)
      else
        let object : pem_object + error :=
          if bool_decide (pemType = certType) then
            match x509_ParseCertificate (Bytes pemBlock) with
            | inl c => inl (Obj_Certificate c) | inr e => inr e end
          else if bool_decide (pemType = keyType) then
            match x509_ParsePKCS8PrivateKey (Bytes pemBlock) with
            | inl k => inl (Obj_PrivateKey k) | inr e => inr e end
          else inr (fmt_Errorf "PEM type not supported: %q" [Arg_s pemType]) in
        match object with
        | inr e => (None, "", false, Some e)
        | inl o => (Some o, rest, true, None)
        end
  end.

(** One unit of fuel per iteration; None when it runs out. *)
Fixpoint parseBlocks_loop (fuel : nat) (blocksBytes expectedType : string)
    (objects : list pem_object) (foundBlocks : bool) : option (res (list pem_object)) :=
  match fuel with
  | O => None
  | S fuel =>
      if (String.length blocksBytes =? 0)%nat then
        if (length objects =? 0)%nat && negb foundBlocks
        then Some (Err (errors_New "no PEM blocks found"))
        else Some (Ok objects)
      else
        let '(object, rest, foundBlock, err) := parseBlock blocksBytes expectedType in
        let foundBlocks := if foundBlock : bool then true else foundBlocks in
        match err, object with
        | Some e, _ => Some (Err e)
        | None, Some o => parseBlocks_loop fuel rest expectedType (objects ++ [o]) foundBlocks
        | None, None => parseBlocks_loop fuel rest expectedType objects foundBlocks
        end
  end.

Definition parseBlocks (blocksBytes expectedType : string) : res (list pem_object) :=
  match parseBlocks_loop (S (String.length blocksBytes)) blocksBytes expectedType [] false with
  | Some r => r
  | None => Panic "parseBlocks: out of fuel"
  end.

(** The type assertion of the loop in [ParseCertificates]. *)
Definition object_cert (object : pem_object) : res Certificate :=
  match object with
  | Obj_Certificate cert => Ok cert
  | Obj_PrivateKey k => Err (fmt_Errorf "expected *x509.Certificate; got %T" [Arg_s (dynamic_type k)])
  end.

Definition ParseCertificates (certsBytes : string) : res (list Certificate) :=
  let! objects := parseBlocks certsBytes certType in
  forM object_cert objects.

(** The assertion objects[0].(crypto.PrivateKey): any object passes, since
    crypto.PrivateKey is the empty interface. *)
Definition object_key (object : pem_object) : PrivateKey :=
  match object with
  | Obj_PrivateKey k => k
  | Obj_Certificate _ => Other_PrivateKey "*x509.Certificate" false
  end.

(** None: the nil key, when there were blocks but none of the key type. *)
Definition ParsePrivateKey (keyBytes : string) : res (option PrivateKey) :=
  let! objects := parseBlocks keyBytes keyType in
  match objects with
  | [] => Ok None
  | object :: _ => Ok (Some (object_key object))
  end.

Definition EncodePKCS8PrivateKey (privateKey : PrivateKey) : res string :=
  let! keyBytes := of_lib (x509_MarshalPKCS8PrivateKey privateKey) in
  Ok (pem_EncodeToMemory (mkBlock keyType keyBytes)).

Definition EncodeCertificates (certificates : list Certificate) : string :=
  foldl (λ pemBytes cert, pemBytes +:+ pem_EncodeToMemory (mkBlock certType (Raw cert)))
    "" certificates.
End pem.

Section pem_lemmas.
Context {L : X509Lib} {LL : X509LibLaws L}.

(** Each iteration shortens a non-empty input. *)
Lemma parseBlock_shrinks s t o rest found e :
  parseBlock s t = (o, rest, found, e) → s ≠ "" → String.length rest < String.length s.
Proof.
  intros Hp Hs. assert (0 < String.length s) as H0 by (destruct s; simpl; [done|lia]).
  unfold parseBlock in Hp. destruct (pem_Decode s) as [[b|] r] eqn:Hd; [|by simplify_eq].
  apply pem_Decode_shrinks in Hd. repeat case_match; simplify_eq; done.
Qed.

Lemma parseBlocks_loop_fuel t n : ∀ s objects found,
  String.length s < n → ∃ r, no_panic r = true ∧
    ∀ m, n ≤ m → parseBlocks_loop m s t objects found = Some r.
Proof.
  induction n as [|n IH]; intros s objects found Hn; [lia|].
  destruct (String.length s =? 0)%nat eqn:H0.
  - exists (if (length objects =? 0)%nat && negb found
            then Err (errors_New "no PEM blocks found") else Ok objects).
    split; [by case_match|]. intros [|m] Hm; [lia|]; simpl. rewrite H0. by case_match.
  - destruct (parseBlock s t) as [[[o rest] f] e] eqn:Hp.
    assert (String.length rest < n) as Hr.
    { apply parseBlock_shrinks in Hp; [lia|]. by intros ->. }
    destruct e as [e|]; [|destruct o as [o|]].
    + exists (Err e). split; [done|]. intros [|m] Hm; [lia|]; simpl. by rewrite H0, Hp.
    + destruct (IH rest (objects ++ [o]) (if f then true else found) Hr) as (r & ? & Hrun).
      exists r. split; [done|]. intros [|m] Hm; [lia|]; simpl. rewrite H0, Hp. apply Hrun; lia.
    + destruct (IH rest objects (if f then true else found) Hr) as (r & ? & Hrun).
      exists r. split; [done|]. intros [|m] Hm; [lia|]; simpl. rewrite H0, Hp. apply Hrun; lia.
Qed.

Lemma parseBlocks_fuel s t m :
  String.length s < m → parseBlocks_loop m s t [] false = Some (parseBlocks s t).
Proof.
  intros Hm. destruct (parseBlocks_loop_fuel t (S (String.length s)) s [] false)
    as (r & _ & Hr); [lia|].
  unfold parseBlocks. rewrite !Hr by lia. done.
Qed.

Lemma parseBlocks_no_panic s t : no_panic (parseBlocks s t) = true.
Proof.
  destruct (parseBlocks_loop_fuel t (S (String.length s)) s [] false) as (r & ? & Hr); [lia|].
  unfold parseBlocks. by rewrite Hr.
Qed.

Lemma ParseCertificates_no_panic s : no_panic (ParseCertificates s) = true.
Proof.
  apply bind_no_panic; [apply parseBlocks_no_panic|]. intros os _.
  apply forM_no_panic. by intros [].
Qed.

Lemma pem_not_empty b :
  Type_ b = certType ∨ Type_ b = keyType → pem_EncodeToMemory b ≠ "".
Proof.
  intros Ht Hb. pose proof (pem_Decode_shrinks _ _ _ (pem_Decode_Encode b "" Ht)) as H.
  rewrite Hb in H. simpl in H. lia.
Qed.

Definition pem_concat (certs : list Certificate) : string :=
  foldr (λ c s, pem_EncodeToMemory (mkBlock certType (Raw c)) +:+ s) "" certs.

Lemma EncodeCertificates_concat certs : EncodeCertificates certs = pem_concat certs.
Proof.
  unfold EncodeCertificates. rewrite <- (app_str_nil_l (pem_concat certs)).
  generalize ("" : string). induction certs as [|c certs IH]; intros acc; simpl.
  - by rewrite app_str_nil_r.
  - by rewrite IH, app_str_assoc.
Qed.

Lemma EncodeCertificates_nonempty certs : certs ≠ [] → EncodeCertificates certs ≠ "".
Proof.
  rewrite EncodeCertificates_concat. destruct certs as [|c certs]; [done|]. intros _; simpl.
  pose proof (pem_not_empty (mkBlock certType (Raw c)) (or_introl eq_refl)) as Hb.
  by destruct (pem_EncodeToMemory _).
Qed.

Lemma length_nonempty_0 (s : string) : s ≠ "" → (String.length s =? 0)%nat = false.
Proof. by destruct s. Qed.

Lemma parseBlocks_loop_certs certs : ∀ fuel objects found,
  Forall parsed_cert certs → String.length (pem_concat certs) < fuel →
  objects ≠ [] ∨ certs ≠ [] →
  parseBlocks_loop fuel (pem_concat certs) certType objects found =
    Some (Ok (objects ++ (Obj_Certificate <$> certs))).
Proof.
  induction certs as [|c certs IH]; intros [|fuel] objects found Hp Hf Hne; try (simpl in Hf; lia).
  - destruct Hne as [Hne|]; [|done]. simpl. destruct objects; [done|]; simpl. by rewrite app_nil_r.
  - inversion Hp as [|?? Hc Hcs]; subst. cbn [parseBlocks_loop pem_concat foldr].
    assert ((pem_EncodeToMemory (mkBlock certType (Raw c)) +:+ pem_concat certs) ≠ "") as Hnz.
    { intros Heq. pose proof (pem_not_empty (mkBlock certType (Raw c)) (or_introl eq_refl)) as Hb.
      by destruct (pem_EncodeToMemory _). }
    fold (pem_concat certs). rewrite length_nonempty_0 by done.
    unfold parseBlock. rewrite pem_Decode_Encode by (by left); simpl.
    rewrite (parsed_cert_Raw _ Hc).
    rewrite IH; [by rewrite <- app_assoc|done| |].
    + pose proof (pem_Decode_shrinks _ _ _
        (pem_Decode_Encode (mkBlock certType (Raw c)) (pem_concat certs) (or_introl eq_refl))).
      simpl in Hf. fold (pem_concat certs) in Hf. lia.
    + left. by destruct objects.
Qed.

Lemma ParseCertificates_Encode certs :
  Forall parsed_cert certs → certs ≠ [] →
  ParseCertificates (EncodeCertificates certs) = Ok certs.
Proof.
  intros Hp Hne. unfold ParseCertificates, parseBlocks. rewrite EncodeCertificates_concat.
  rewrite parseBlocks_loop_certs by (done || lia || by right); cbn [mbind res_bind].
  apply forM_Ok. simpl. apply Forall2_fmap_l, Forall_Forall2_diag, Forall_forall. done.
Qed.

Lemma parseBlocks_Encode_key k bs :
  x509_MarshalPKCS8PrivateKey k = inl bs →
  ParsePrivateKey (pem_EncodeToMemory (mkBlock keyType bs)) = Ok (Some k).
Proof.
  intros Hk. unfold ParsePrivateKey, parseBlocks.
  pose proof (pem_not_empty (mkBlock keyType bs) (or_intror eq_refl)) as Hne.
  pose proof (pem_Decode_Encode (mkBlock keyType bs) "" (or_intror eq_refl)) as Hd. rewrite app_str_nil_r in Hd.
  pose proof (pem_Decode_shrinks _ _ _ Hd) as Hl. simpl in Hl.
  destruct (String.length (pem_EncodeToMemory _)) as [|n] eqn:E; [lia|].
  cbn [parseBlocks_loop]. rewrite length_nonempty_0 by done.
  unfold parseBlock. rewrite Hd; simpl. by rewrite (x509_PKCS8_roundtrip _ _ Hk).
Qed.
End pem_lemmas.

Section pem_properties.
Context {L : X509Lib} {LL : X509LibLaws L}.

(** The block loop terminates on every input: one iteration more than
    the input has bytes is enough, any larger bound gives the same result,
    and that result is never a panic. *)
Theorem parseBlocks_terminates (s t : string) (fuel : nat) :
  String.length s < fuel →
  parseBlocks_loop fuel s t [] false = Some (parseBlocks s t) ∧
  no_panic (parseBlocks s t) = true.
Proof. intros. split; [by apply parseBlocks_fuel|apply parseBlocks_no_panic]. Qed.

(** PEM round trips: a non-empty list of certificates, and a private
    key that can be marshalled, are read back from their encodings. *)
Theorem pem_roundtrip certs k :
  Forall parsed_cert certs → certs ≠ [] →
  ParseCertificates (EncodeCertificates certs) = Ok certs ∧
  (∀ bs, EncodePKCS8PrivateKey k = Ok bs → ParsePrivateKey bs = Ok (Some k)).
Proof.
  intros Hp Hne. split; [by apply ParseCertificates_Encode|].
  intros bs (der & Hk & [= <-])%bind_Ok_inv.
  apply parseBlocks_Encode_key. destruct (x509_MarshalPKCS8PrivateKey k); simpl in Hk; by simplify_eq.
Qed.
End pem_properties.

Lemma parseBlocks_terminates_witness :
  String.length "CxL.junk" < 9 ∧
  (parseBlocks_loop 9 "CxL.junk" certType [] false = Some (parseBlocks "CxL.junk" certType) ∧
   no_panic (parseBlocks "CxL.junk" certType) = true).
Proof.
  split; [simpl; lia|]. apply (parseBlocks_terminates "CxL.junk" certType 9). simpl; lia.
Defined.

Lemma pem_roundtrip_witness :
  ParseCertificates (EncodeCertificates [leafL; caA]) = Ok [leafL; caA] ∧
  (∀ bs, EncodePKCS8PrivateKey sample_key = Ok bs → ParsePrivateKey bs = Ok (Some sample_key)).
Proof.
  apply (pem_roundtrip [leafL; caA] sample_key).
  - repeat constructor; by apply sample_cert_parsed.
  - done.
Defined.
