(* ===== verification/BundleSet.v ===== *)
(** * Sets of bundles keyed by trust domain

    The four packages x509bundle, jwtbundle, witbundle and spiffebundle each
    have a set.go with the same code for their own Bundle type; this file holds
    that code once, for any type of bundles with an immutable trust domain
    ([HasTrustDomain]: the struct field trustDomain, which no operation assigns
    after construction). The packages' files instantiate it. Every method runs
    under the set's mutex, so a method is one atomic step on [Set_]. *)

From S2P Require Import Prelude Path GoUrl ID.

Class HasTrustDomain (B : Type) := trustDomain_of : B → TrustDomain.

(** The map field; the mutex only makes the methods atomic. *)
Record Set_ (B : Type) : Type := mkSet { bundles : gmap TrustDomain B }.
Arguments mkSet {B} bundles.
Arguments bundles {B} s.

Section set_defs.
Context {B : Type} {HB : HasTrustDomain B}.
Implicit Types (s : Set_ B) (td : TrustDomain).

(** bundlesMap[b.trustDomain] = b unless b is nil. *)
Definition put_bundle (m : gmap TrustDomain B) (b : option B) : gmap TrustDomain B :=
  match b with
  | Some b => <[trustDomain_of b := b]> m
  | None => m
  end.

Definition NewSet (bs : list (option B)) : Set_ B := mkSet (foldl put_bundle ∅ bs).

Definition Set_Add s (bundle : option B) : Set_ B := mkSet (put_bundle (bundles s) bundle).

Definition Set_Remove s td : Set_ B := mkSet (delete td (bundles s)).

Definition Set_Has s td : bool := bool_decide (is_Some (bundles s !! td)).

Definition Set_Get s td : option B * bool :=
  match bundles s !! td with Some b => (Some b, true) | None => (None, false) end.

Definition Set_Len s : nat := size (bundles s).

(** sort.Slice with less(a, b) = a.TrustDomain().Compare(b.TrustDomain()) < 0:
    [b] may follow [a] unless less(b, a). *)
Definition bundle_less (a b : B) : bool := (Compare (trustDomain_of a) (trustDomain_of b) <? 0)%Z.
Definition may_precede (a b : B) : Prop := bundle_less b a = false.

#[export] Instance may_precede_dec : RelDecision may_precede.
Proof. intros a b. unfold may_precede. apply _. Defined.

Definition sort_bundles (out : list B) : list B := merge_sort may_precede out.

(** [order]: the order in which the range loop visits the map. *)
Definition Set_Bundles_in (order : list (TrustDomain * B)) : list B :=
  sort_bundles (foldl (λ out kv, out ++ [kv.2]) [] order).

Definition Set_Bundles s : list B := Set_Bundles_in (map_to_list (bundles s)).

(** The lookup of the Get...ForTrustDomain methods; [msg] is the format of the
    error and [wrap] the package's error wrapper. *)
Definition Set_lookup (wrap : error → error) (msg : string) s td : res B :=
  match bundles s !! td with
  | None => Err (wrap (fmt_Errorf msg [Arg_s (TrustDomain_String td)]))
  | Some bundle => Ok bundle
  end.

(** The invariant: every bundle is filed under its own trust domain. *)
Definition set_wf s : Prop := map_Forall (λ td b, trustDomain_of b = td) (bundles s).
End set_defs.

(** The operations that change a set, as steps. *)
Inductive set_op (B : Type) : Type :=
  | Op_Add (b : option B)
  | Op_Remove (td : TrustDomain).
Arguments Op_Add {B} b.
Arguments Op_Remove {B} td.

Definition set_step `{HasTrustDomain B} (s : Set_ B) (o : set_op B) : Set_ B :=
  match o with
  | Op_Add b => Set_Add s b
  | Op_Remove td => Set_Remove s td
  end.

Section set_lemmas.
Context {B : Type} {HB : HasTrustDomain B}.
Implicit Types (s : Set_ B) (td : TrustDomain).

Lemma put_bundle_wf (m : gmap TrustDomain B) b :
  set_wf (mkSet m) → set_wf (mkSet (put_bundle m b)).
Proof.
  destruct b as [b|]; [|done]. intros Hm. by apply map_Forall_insert_2.
Qed.

Lemma NewSet_wf bs : set_wf (NewSet bs).
Proof.
  unfold NewSet. assert (set_wf (mkSet (∅ : gmap TrustDomain B))) as H0 by apply map_Forall_empty.
  revert H0. generalize (∅ : gmap TrustDomain B).
  induction bs as [|b bs IH]; intros m Hm; simpl; [done|]. by apply IH, put_bundle_wf.
Qed.

Lemma Set_Add_wf s b : set_wf s → set_wf (Set_Add s b).
Proof. destruct s. apply put_bundle_wf. Qed.

Lemma Set_Remove_wf s td : set_wf s → set_wf (Set_Remove s td).
Proof. intros Hs. by apply map_Forall_delete. Qed.

Lemma set_steps_wf s ops : set_wf s → set_wf (foldl set_step s ops).
Proof.
  revert s; induction ops as [|[b|td] ops IH]; intros s Hs; simpl; [done| |];
    auto using Set_Add_wf, Set_Remove_wf.
Qed.

(** The last non-nil bundle of the trust domain is the one kept. *)
Lemma foldl_put_lookup bs (m : gmap TrustDomain B) td :
  foldl put_bundle m bs !! td =
  match last (filter (λ b, trustDomain_of b = td) (omap id bs)) with
  | Some b => Some b
  | None => m !! td
  end.
Proof.
  revert m; induction bs as [|[b|] bs IH]; intros m; simpl; [done| |apply IH].
  rewrite IH, filter_cons. case_decide as Hb.
  - rewrite last_cons, Hb, lookup_insert_eq. by destruct (last _).
  - rewrite lookup_insert_ne by done. done.
Qed.

Lemma omap_Some (bs : list B) : omap id (Some <$> bs) = bs.
Proof. induction bs as [|b bs IH]; [done|]. cbn. f_equal. exact IH. Qed.

Lemma NewSet_lookup_last (bs : list B) td :
  bundles (NewSet (Some <$> bs)) !! td = last (filter (λ b, trustDomain_of b = td) bs).
Proof.
  unfold NewSet; cbn [bundles]. rewrite foldl_put_lookup, lookup_empty.
  replace (omap id (Some <$> bs)) with bs by (symmetry; apply omap_Some). by destruct (last _).
Qed.

(** Without two bundles of one trust domain, all are in the set. *)
Lemma NewSet_lookup_NoDup (bs : list B) td b :
  NoDup (trustDomain_of <$> bs) →
  bundles (NewSet (Some <$> bs)) !! td = Some b ↔ b ∈ bs ∧ trustDomain_of b = td.
Proof.
  intros Hnd. rewrite NewSet_lookup_last. induction bs as [|b' bs IH]; simpl.
  { split; [done|]. by intros [?%not_elem_of_nil _]. }
  apply NoDup_cons in Hnd as [Hn Hnd]. specialize (IH Hnd). rewrite filter_cons, elem_of_cons.
  case_decide as Hb; [|rewrite IH; naive_solver].
  assert (filter (λ b, trustDomain_of b = td) bs = []) as E.
  { destruct (filter _ bs) as [|b1 l] eqn:E; [done|]. destruct Hn.
    assert (b1 ∈ filter (λ b, trustDomain_of b = td) bs) as [H1 H2]%list_elem_of_filter by (rewrite E; by left).
    rewrite Hb, <- H1. by apply list_elem_of_fmap_2. }
  rewrite E; simpl. split; [naive_solver|]. intros [[->|Hin] Htd]; [done|].
  destruct Hn. rewrite Hb, <- Htd. by apply list_elem_of_fmap_2.
Qed.

Lemma NewSet_perm (bs bs' : list B) :
  NoDup (trustDomain_of <$> bs) → bs ≡ₚ bs' → NewSet (Some <$> bs) = NewSet (Some <$> bs').
Proof.
  intros Hnd Hp. assert (NoDup (trustDomain_of <$> bs')) as Hnd' by by rewrite <- Hp.
  assert (bundles (NewSet (Some <$> bs)) = bundles (NewSet (Some <$> bs'))) as E.
  { apply map_eq. intros td. apply option_eq. intros b. rewrite !NewSet_lookup_NoDup by done. by rewrite Hp. }
  unfold NewSet in *. simpl in E. by rewrite E.
Qed.

Lemma Set_Get_Has s td : Set_Get s td = (bundles s !! td, Set_Has s td).
Proof.
  unfold Set_Get, Set_Has. destruct (bundles s !! td); [by rewrite bool_decide_true|].
  rewrite bool_decide_false; [done|]. by intros [? ?].
Qed.

Lemma Set_lookup_Ok wrap msg s td b :
  Set_lookup wrap msg s td = Ok b ↔ bundles s !! td = Some b.
Proof. unfold Set_lookup. destruct (bundles s !! td); naive_solver. Qed.

Lemma Set_lookup_td wrap msg s td b :
  set_wf s → Set_lookup wrap msg s td = Ok b → trustDomain_of b = td.
Proof. intros Hs Hb%Set_lookup_Ok. by apply Hs in Hb. Qed.

#[export] Instance may_precede_total : Total may_precede.
Proof.
  intros a b. unfold may_precede, bundle_less. rewrite !Z.ltb_ge.
  rewrite (Compare_antisym (trustDomain_of a)). lia.
Qed.

#[export] Instance may_precede_trans : Transitive may_precede.
Proof.
  intros a b c. unfold may_precede, bundle_less. rewrite !Z.ltb_ge. intros Hab Hbc.
  destruct (Z.lt_ge_cases (Compare (trustDomain_of c) (trustDomain_of a)) 0) as [Hlt|]; [|done].
  exfalso. destruct (decide (trustDomain_of b = trustDomain_of a)) as [E|Hne].
  - rewrite <- E in Hlt. lia.
  - assert (Compare (trustDomain_of a) (trustDomain_of b) < 0)%Z as Hab'.
    { rewrite Compare_antisym. assert (Compare (trustDomain_of b) (trustDomain_of a) ≠ 0)%Z; [|lia].
      by rewrite Compare_eq. }
    pose proof (Compare_lt_trans _ _ _ Hlt Hab'). lia.
Qed.

Lemma may_precede_antisym a b :
  may_precede a b → may_precede b a → trustDomain_of a = trustDomain_of b.
Proof.
  unfold may_precede, bundle_less. rewrite !Z.ltb_ge, (Compare_antisym (trustDomain_of a)).
  intros. apply Compare_eq. lia.
Qed.

Lemma Set_Bundles_perm s order :
  range_of (bundles s) order → Set_Bundles_in order ≡ₚ order.*2.
Proof.
  intros Ho. unfold Set_Bundles_in, sort_bundles. rewrite merge_sort_Permutation.
  by rewrite (foldl_snoc_fmap snd order []).
Qed.

Lemma Set_Bundles_in_elem s order b :
  set_wf s → range_of (bundles s) order →
  b ∈ Set_Bundles_in order ↔ bundles s !! trustDomain_of b = Some b.
Proof.
  intros Hs Ho. rewrite Set_Bundles_perm by done. rewrite list_elem_of_fmap. split.
  - intros ([td b'] & -> & Hin). simpl. rewrite (range_of_lookup (bundles s)) in Hin by done.
    by rewrite (Hs _ _ Hin).
  - intros Hb. exists (trustDomain_of b, b). split; [done|].
    by apply (range_of_lookup (bundles s)).
Qed.

(** The trust domains in the result: each key once. *)
Lemma Set_Bundles_keys s order :
  set_wf s → range_of (bundles s) order → trustDomain_of <$> order.*2 = order.*1.
Proof.
  intros Hs Ho. assert (Forall (λ kv, bundles s !! kv.1 = Some kv.2) order) as Hall.
  { apply Forall_forall. intros [td b] Hin. by apply (range_of_lookup (bundles s)) in Hin. }
  clear Ho. induction Hall as [|[td b] order Hb Hall IH]; [done|].
  rewrite !fmap_cons. f_equal; [exact (Hs _ _ Hb)|exact IH].
Qed.

Lemma Set_Bundles_sorted order : StronglySorted may_precede (Set_Bundles_in order).
Proof. apply StronglySorted_merge_sort; apply _. Qed.

Lemma Set_Bundles_NoDup s order :
  set_wf s → range_of (bundles s) order → NoDup (trustDomain_of <$> Set_Bundles_in order).
Proof.
  intros Hs Ho. rewrite (Set_Bundles_perm s order Ho), (Set_Bundles_keys s order Hs Ho).
  by eapply range_of_NoDup.
Qed.

Lemma Set_Bundles_any_order s order :
  set_wf s → range_of (bundles s) order → Set_Bundles_in order = Set_Bundles s.
Proof.
  intros Hs Ho. apply (StronglySorted_unique_strong may_precede).
  - intros a b Ha Hb Hab Hba.
    apply (Set_Bundles_in_elem s) in Ha, Hb; auto using range_of_map_to_list.
    pose proof (may_precede_antisym _ _ Hab Hba) as E. rewrite E in Ha. congruence.
  - apply Set_Bundles_sorted.
  - apply Set_Bundles_sorted.
  - unfold Set_Bundles. rewrite !(Set_Bundles_perm s) by auto using range_of_map_to_list. by rewrite Ho.
Qed.
End set_lemmas.
#[export] Hint Resolve NewSet_wf Set_Add_wf Set_Remove_wf set_steps_wf : go.

Section set_properties.
Context {B : Type} {HB : HasTrustDomain B}.

(** Sets built by the API: after NewSet and any sequence of Add and
    Remove, every bundle is filed under its own trust domain; Get and Has agree;
    Add replaces exactly the entry of the bundle's trust domain (and a nil
    bundle changes nothing), Remove deletes exactly one entry. *)
Theorem Set_lookup_spec (bs : list (option B)) (ops : list (set_op B)) :
  let s := foldl set_step (NewSet bs) ops in
  set_wf s ∧
  (∀ td, Set_Get (NewSet bs) td =
     let kept := last (filter (λ b, trustDomain_of b = td) (omap id bs)) in
     (kept, bool_decide (is_Some kept))) ∧
  (∀ td, Set_Has s td = (Set_Get s td).2) ∧
  (∀ b td, Set_Get (Set_Add s (Some b)) td =
     if decide (td = trustDomain_of b) then (Some b, true) else Set_Get s td) ∧
  Set_Add s None = s ∧
  (∀ td td', Set_Get (Set_Remove s td') td =
     if decide (td = td') then (None, false) else Set_Get s td).
Proof.
  intros s. repeat split.
  - by eauto with go.
  - intros td. rewrite Set_Get_Has. unfold Set_Has, NewSet; simpl.
    rewrite foldl_put_lookup, lookup_empty. by destruct (last _).
  - intros td. by rewrite Set_Get_Has.
  - intros b td. unfold Set_Get; simpl. case_decide; subst;
      [by rewrite lookup_insert_eq|by rewrite lookup_insert_ne].
  - unfold Set_Add. by destruct s.
  - intros td td'. unfold Set_Get; simpl. case_decide; subst;
      [by rewrite lookup_delete_eq|by rewrite lookup_delete_ne].
Qed.

(** Bundles lists every bundle of the set exactly once, sorted by trust
    domain, and the result is the same whatever order the map is iterated in. *)
Theorem Set_Bundles_spec (s : Set_ B) order :
  set_wf s → range_of (bundles s) order →
  Set_Bundles_in order = Set_Bundles s ∧
  length (Set_Bundles s) = Set_Len s ∧
  (∀ b, b ∈ Set_Bundles s ↔ Set_Get s (trustDomain_of b) = (Some b, true)) ∧
  StronglySorted (λ a b, Compare (trustDomain_of a) (trustDomain_of b) < 0)%Z (Set_Bundles s).
Proof.
  intros Hs Ho. pose proof (range_of_map_to_list (bundles s)) as Hm. repeat split.
  - by apply Set_Bundles_any_order.
  - unfold Set_Bundles. rewrite (Set_Bundles_perm s), length_fmap by done.
    apply length_map_to_list.
  - intros Hb%(Set_Bundles_in_elem s); [|done..]. unfold Set_Get. by rewrite Hb.
  - unfold Set_Get. intros Hb. apply (Set_Bundles_in_elem s); [done..|].
    by destruct (bundles s !! trustDomain_of b); simplify_eq.
  - pose proof (Set_Bundles_sorted (map_to_list (bundles s))) as Hss.
    pose proof (Set_Bundles_NoDup s _ Hs Hm) as Hnd. fold (Set_Bundles s) in *.
    induction Hss as [|b l Hl IH Hb]; [constructor|]. apply NoDup_cons in Hnd as [Hn Hnd].
    constructor; [by apply IH|]. rewrite Forall_forall in Hb |- *.
    intros b' Hin. pose proof (Hb _ Hin) as Hle. unfold may_precede, bundle_less in Hle. rewrite Z.ltb_ge, Compare_antisym in Hle.
    assert (Compare (trustDomain_of b) (trustDomain_of b') ≠ 0)%Z; [|lia].
    rewrite Compare_eq. intros E. apply Hn. rewrite E. by apply list_elem_of_fmap_2.
Qed.
End set_properties.

(** A type of bundles for the witness: a trust domain and a version. *)
Record sample_bundle := mkSampleBundle { sample_td : TrustDomain; sample_version : nat }.
#[export] Instance sample_bundle_td : HasTrustDomain sample_bundle := sample_td.

Definition sample_set : Set_ sample_bundle :=
  NewSet [Some (mkSampleBundle (mkTrustDomain "b.test") 1); None;
          Some (mkSampleBundle (mkTrustDomain "a.test") 2);
          Some (mkSampleBundle (mkTrustDomain "b.test") 3)].

Lemma Set_Bundles_spec_witness :
  sample_version <$> Set_Bundles sample_set = [2; 3] ∧
  length (Set_Bundles sample_set) = Set_Len sample_set.
Proof.
  split; [by vm_compute|].
  apply (Set_Bundles_spec sample_set (map_to_list (bundles sample_set))).
  - apply NewSet_wf.
  - apply range_of_map_to_list.
Defined.
