(* ===== verification/X509Bundle.v ===== *)
(** * x509bundle: bundles of X.509 authorities

    Models src/bundle/x509bundle/bundle.go and its set.go (an instance of
    BundleSet.v). A bundle is its trust domain and its slice of authorities;
    each method runs under the bundle's mutex and is one atomic step. *)

From S2P Require Import Prelude Path GoUrl ID Crypto X509 X509Sample Pem BundleSet.

Record Bundle : Type := mkBundle {
  trustDomain : TrustDomain;
  x509Authorities : list Certificate;
}.

#[export] Instance Bundle_eq_dec : EqDecision Bundle.
Proof. solve_decision. Defined.

Definition wrapX509bundleErr (err : error) : error := fmt_Errorf "x509bundle: %w" [Arg_w (Some err)].

Definition New (td : TrustDomain) : Bundle := mkBundle td [].

Definition FromX509Authorities (td : TrustDomain) (authorities : list Certificate) : Bundle :=
  mkBundle td (CopyX509Authorities authorities).

Definition Bundle_TrustDomain (b : Bundle) : TrustDomain := trustDomain b.

Definition X509Authorities (b : Bundle) : list Certificate := CopyX509Authorities (x509Authorities b).

(** The search loop of AddX509Authority and HasX509Authority. *)
Fixpoint has_equal (l : list Certificate) (x509Authority : Certificate) : bool :=
  match l with
  | [] => false
  | r :: l => if cert_Equal r x509Authority then true else has_equal l x509Authority
  end.

Definition AddX509Authority (b : Bundle) (x509Authority : Certificate) : Bundle :=
  if has_equal (x509Authorities b) x509Authority then b
  else mkBundle (trustDomain b) (x509Authorities b ++ [x509Authority]).

(** The loop of RemoveX509Authority: index of the first equal element. *)
Fixpoint find_equal (l : list Certificate) (x509Authority : Certificate) (i : nat) : option nat :=
  match l with
  | [] => None
  | r :: l => if cert_Equal r x509Authority then Some i else find_equal l x509Authority (S i)
  end.

(** append(s[:i], s[i+1:]...) for the index found. *)
Definition remove_equal (l : list Certificate) (x509Authority : Certificate) : list Certificate :=
  match find_equal l x509Authority 0 with
  | Some i => take i l ++ drop (S i) l
  | None => l
  end.

Definition RemoveX509Authority (b : Bundle) (x509Authority : Certificate) : Bundle :=
  mkBundle (trustDomain b) (remove_equal (x509Authorities b) x509Authority).

Definition HasX509Authority (b : Bundle) (x509Authority : Certificate) : bool :=
  has_equal (x509Authorities b) x509Authority.

Definition SetX509Authorities (b : Bundle) (certs : list Certificate) : Bundle :=
  mkBundle (trustDomain b) (CopyX509Authorities certs).

Definition Empty (b : Bundle) : bool := (length (x509Authorities b) =? 0)%nat.

Definition Clone (b : Bundle) : Bundle := FromX509Authorities (trustDomain b) (x509Authorities b).

(** Pointer arguments: None is nil. *)
Definition Equal (b other : option Bundle) : res bool :=
  match b, other with
  | None, None => Ok true
  | None, Some _ | Some _, None => Ok false
  | Some b, Some other =>
      if bool_decide (trustDomain b = trustDomain other)
      then CertsEqual (x509Authorities b) (x509Authorities other)
      else Ok false
  end.

Definition GetX509BundleForTrustDomain (b : Bundle) (td : TrustDomain) : res Bundle :=
  if negb (bool_decide (trustDomain b = td))
  then Err (wrapX509bundleErr
              (fmt_Errorf "no X.509 bundle found for trust domain: %q" [Arg_s (TrustDomain_String td)]))
  else Ok b.

Section codec.
Context {L : X509Lib}.

Definition Parse (td : TrustDomain) (b : string) : res Bundle :=
  if (String.length b =? 0)%nat then Ok (New td)
  else
    let! certs := wrap_err (λ err, wrapX509bundleErr (fmt_Errorf "cannot parse certificate: %v" [Arg_v (Some err)]))
                    (ParseCertificates b) in
    Ok (foldl AddX509Authority (New td) certs).

Definition ParseRaw (td : TrustDomain) (b : string) : res Bundle :=
  if (String.length b =? 0)%nat then Ok (New td)
  else
    let! certs := wrap_err (λ err, wrapX509bundleErr (fmt_Errorf "cannot parse certificate: %v" [Arg_v (Some err)]))
                    (of_lib (x509_ParseCertificates b)) in
    Ok (foldl AddX509Authority (New td) certs).

(** [os_ReadFile] is os.ReadFile on the file system at hand. *)
Definition Load (os_ReadFile : string → string + error) (td : TrustDomain) (path : string) : res Bundle :=
  let! fileBytes := wrap_err (λ err, wrapX509bundleErr
                      (fmt_Errorf "unable to load X.509 bundle file: %w" [Arg_w (Some err)]))
                    (of_lib (os_ReadFile path)) in
  Parse td fileBytes.

(** [r]: the outcome of io.ReadAll on the reader. *)
Definition Read (td : TrustDomain) (r : string + error) : res Bundle :=
  let! b := wrap_err (λ err, wrapX509bundleErr
              (fmt_Errorf "unable to read X.509 bundle: %v" [Arg_v (Some err)])) (of_lib r) in
  Parse td b.

Definition Marshal (b : Bundle) : res string := Ok (EncodeCertificates (x509Authorities b)).
End codec.

(** ** set.go *)
#[export] Instance Bundle_HasTrustDomain : HasTrustDomain Bundle := trustDomain.
Definition Set_ : Type := BundleSet.Set_ Bundle.
Definition NewSet (bundles : list (option Bundle)) : Set_ := BundleSet.NewSet bundles.
Definition Add (s : Set_) (bundle : option Bundle) : Set_ := Set_Add s bundle.
Definition Remove (s : Set_) (td : TrustDomain) : Set_ := Set_Remove s td.
Definition Has (s : Set_) (td : TrustDomain) : bool := Set_Has s td.
Definition Get (s : Set_) (td : TrustDomain) : option Bundle * bool := Set_Get s td.
Definition Bundles (s : Set_) : list Bundle := Set_Bundles s.
Definition Len (s : Set_) : nat := Set_Len s.
Definition Set_GetX509BundleForTrustDomain (s : Set_) (td : TrustDomain) : res Bundle :=
  Set_lookup wrapX509bundleErr "no X.509 bundle for trust domain %q" s td.

(** ** source.go: the interface the clients use. [GetX509] is the method of the
    Source interface on the value at hand. *)
Class Source (T : Type) := GetX509 : T → TrustDomain → res Bundle.
#[export] Instance Bundle_Source : Source Bundle := GetX509BundleForTrustDomain.
#[export] Instance Set_Source : Source Set_ := Set_GetX509BundleForTrustDomain.

(** What a source promises: the bundle it returns is for the trust domain asked. *)
Definition source_ok `{Source T} (s : T) : Prop := ∀ td b, GetX509 s td = Ok b → trustDomain b = td.

(** ** Lemmas *)
Lemma has_equal_true l c : has_equal l c = true ↔ Raw c ∈ (Raw <$> l).
Proof.
  induction l as [|r l IH]; simpl; [set_solver|]. rewrite elem_of_cons.
  destruct (cert_Equal r c) eqn:E; [apply cert_Equal_true in E; naive_solver|].
  assert (Raw r ≠ Raw c) by (intros H%cert_Equal_true; congruence). naive_solver.
Qed.

Lemma has_equal_false l c : has_equal l c = false ↔ Raw c ∉ (Raw <$> l).
Proof. rewrite <- has_equal_true. by destruct (has_equal l c). Qed.

Lemma find_equal_spec l c i :
  match find_equal l c i with
  | Some j => ∃ l1 c' l2, l = l1 ++ c' :: l2 ∧ j = i + length l1 ∧ Raw c' = Raw c ∧ (Raw c ∉ (Raw <$> l1))
  | None => Raw c ∉ (Raw <$> l)
  end.
Proof.
  revert i; induction l as [|r l IH]; intros i; simpl; [set_solver|].
  destruct (cert_Equal r c) eqn:E.
  - apply cert_Equal_true in E. exists [], r, l. repeat split; auto with lia. set_solver.
  - assert (Raw r ≠ Raw c) as Hne by (intros H%cert_Equal_true; congruence).
    specialize (IH (S i)). destruct (find_equal l c (S i)) as [j|].
    + destruct IH as (l1 & c' & l2 & -> & -> & Hc & Hn). exists (r :: l1), c', l2.
      repeat split; [simpl; lia|done|]. rewrite fmap_cons, elem_of_cons. intuition congruence.
    + rewrite elem_of_cons. intuition congruence.
Qed.

(** Removal deletes the first element equal to the argument, if any. *)
Lemma remove_equal_spec l c :
  (∃ l1 c' l2, l = l1 ++ c' :: l2 ∧ Raw c' = Raw c ∧ (Raw c ∉ (Raw <$> l1)) ∧
     remove_equal l c = l1 ++ l2) ∨
  ((Raw c ∉ (Raw <$> l)) ∧ remove_equal l c = l).
Proof.
  unfold remove_equal. pose proof (find_equal_spec l c 0) as H. destruct (find_equal l c 0) as [i|]; [left|by right].
  destruct H as (l1 & c' & l2 & -> & -> & Hc & Hn). exists l1, c', l2. repeat split; auto.
  rewrite Nat.add_0_l, take_app_length. f_equal.
  by rewrite cons_middle, app_assoc, drop_app_length' by (rewrite length_app; simpl; lia).
Qed.

Lemma add_bundle_authorities b c :
  x509Authorities (AddX509Authority b c) =
  x509Authorities b ++ (if has_equal (x509Authorities b) c then [] else [c]).
Proof. unfold AddX509Authority. destruct (has_equal _ _); [by rewrite app_nil_r|done]. Qed.

Definition distinct (b : Bundle) : Prop := NoDup (Raw <$> x509Authorities b).

Lemma AddX509Authority_distinct b c : distinct b → distinct (AddX509Authority b c).
Proof.
  unfold distinct. rewrite add_bundle_authorities, fmap_app. intros Hb.
  destruct (has_equal (x509Authorities b) c) eqn:E; [by rewrite app_nil_r|].
  apply has_equal_false in E. apply NoDup_app. repeat split; [done| |apply NoDup_singleton].
  intros x Hx ->%list_elem_of_singleton. done.
Qed.

Lemma RemoveX509Authority_distinct b c : distinct b → distinct (RemoveX509Authority b c).
Proof.
  unfold distinct, RemoveX509Authority; simpl.
  destruct (remove_equal_spec (x509Authorities b) c) as [(l1 & c' & l2 & -> & _ & _ & ->)|[_ ->]]; [|done].
  rewrite !fmap_app, fmap_cons. intros H. rewrite <- Permutation_middle in H. by apply NoDup_cons in H as [_ ?].
Qed.

Lemma foldl_Add_distinct certs b : distinct b → distinct (foldl AddX509Authority b certs).
Proof. revert b; induction certs as [|c certs IH]; intros b; simpl; auto using AddX509Authority_distinct. Qed.

Lemma AddX509Authority_td b c : trustDomain (AddX509Authority b c) = trustDomain b.
Proof. unfold AddX509Authority. by case_match. Qed.

Lemma foldl_Add_td certs b : trustDomain (foldl AddX509Authority b certs) = trustDomain b.
Proof. revert b; induction certs as [|c certs IH]; intros b; simpl; [done|]. by rewrite IH, AddX509Authority_td. Qed.

Lemma ParseRaw_td `{X509Lib} td s b : ParseRaw td s = Ok b → trustDomain b = td.
Proof.
  unfold ParseRaw. case_match; [by intros [= <-]|].
  intros (certs & _ & [= <-])%bind_Ok_inv. by rewrite foldl_Add_td.
Qed.

Lemma x509_ParseRaw_no_panic `{X509Lib} td s : no_panic (ParseRaw td s) = true.
Proof.
  unfold ParseRaw. case_match; [done|].
  apply bind_no_panic; [rewrite wrap_err_no_panic; apply of_lib_no_panic|done].
Qed.

(** Adding certificates that are new and pairwise distinct appends them. *)
Lemma foldl_Add_fresh certs b :
  NoDup (Raw <$> (x509Authorities b ++ certs)) →
  foldl AddX509Authority b certs = mkBundle (trustDomain b) (x509Authorities b ++ certs).
Proof.
  revert b; induction certs as [|c certs IH]; intros b Hnd; simpl.
  - rewrite app_nil_r. by destruct b.
  - assert (has_equal (x509Authorities b) c = false) as Hc.
    { apply has_equal_false. rewrite fmap_app, fmap_cons in Hnd. apply NoDup_app in Hnd as (_ & Hd & _).
      intros Hin. apply (Hd _ Hin). by left. }
    unfold AddX509Authority at 2. rewrite Hc. rewrite IH; simpl; by rewrite <- app_assoc.
Qed.

(** Every certificate offered is in the bundle afterwards, and nothing else is new. *)
Lemma foldl_Add_has certs b c :
  HasX509Authority (foldl AddX509Authority b certs) c = true ↔
  HasX509Authority b c = true ∨ Raw c ∈ (Raw <$> certs).
Proof.
  revert b; induction certs as [|c' certs IH]; intros b; simpl; [set_solver|].
  rewrite IH. unfold HasX509Authority. rewrite add_bundle_authorities, !has_equal_true.
  rewrite fmap_app, elem_of_app, elem_of_cons.
  destruct (has_equal (x509Authorities b) c') eqn:E; simpl.
  - apply has_equal_true in E. rewrite elem_of_nil. intuition congruence.
  - rewrite list_elem_of_singleton. tauto.
Qed.

Lemma GetX509BundleForTrustDomain_Ok b td b' :
  GetX509BundleForTrustDomain b td = Ok b' ↔ b' = b ∧ trustDomain b = td.
Proof. unfold GetX509BundleForTrustDomain. case_bool_decide; naive_solver. Qed.

Lemma x509_Bundle_source_ok (b : Bundle) : source_ok b.
Proof. by intros td b' [-> ?]%GetX509BundleForTrustDomain_Ok. Qed.

Lemma x509_Set_source_ok (s : Set_) : set_wf s → source_ok s.
Proof. intros Hs td b. by apply Set_lookup_td. Qed.
#[export] Hint Resolve x509_Bundle_source_ok x509_Set_source_ok : go.

Lemma Equal_spec b b' :
  Equal (Some b) (Some b') =
  Ok (bool_decide (trustDomain b = trustDomain b' ∧ Raw <$> x509Authorities b = Raw <$> x509Authorities b')).
Proof.
  unfold Equal. case_bool_decide as H; [|rewrite bool_decide_false; naive_solver].
  rewrite CertsEqual_spec. f_equal. apply bool_decide_ext. naive_solver.
Qed.

(** ** Properties *)

(** The operations that change a bundle, as steps. *)
Inductive bundle_op : Type :=
  | Op_AddX509 (c : Certificate)
  | Op_RemoveX509 (c : Certificate)
  | Op_SetX509 (certs : list Certificate).

Definition bundle_step (b : Bundle) (o : bundle_op) : Bundle :=
  match o with
  | Op_AddX509 c => AddX509Authority b c
  | Op_RemoveX509 c => RemoveX509Authority b c
  | Op_SetX509 certs => SetX509Authorities b certs
  end.

(** SetX509Authorities stores what it is given: it keeps the invariant only for
    slices without duplicates. *)
Definition op_distinct (o : bundle_op) : Prop :=
  match o with Op_SetX509 certs => NoDup (Raw <$> certs) | _ => True end.

Lemma bundle_step_distinct b o : distinct b → op_distinct o → distinct (bundle_step b o).
Proof.
  destruct o as [c|c|certs]; simpl; auto using AddX509Authority_distinct, RemoveX509Authority_distinct.
  intros _ H. unfold distinct, SetX509Authorities; simpl. by rewrite CopyX509Authorities_id.
Qed.

Lemma bundle_step_td b o : trustDomain (bundle_step b o) = trustDomain b.
Proof. destruct o; simpl; auto using AddX509Authority_td. Qed.

Lemma bundle_steps_inv b ops :
  distinct b → Forall op_distinct ops →
  distinct (foldl bundle_step b ops) ∧ trustDomain (foldl bundle_step b ops) = trustDomain b.
Proof.
  intros Hb Hops; revert b Hb; induction Hops as [|o ops Ho Hops IH]; intros b Hb; simpl; [done|].
  destruct (IH (bundle_step b o)) as [? ->]; auto using bundle_step_distinct, bundle_step_td.
Qed.

Lemma remove_equal_has l c c' :
  NoDup (Raw <$> l) →
  has_equal (remove_equal l c) c' = bool_decide (Raw c' ≠ Raw c) && has_equal l c'.
Proof.
  intros Hnd. apply eq_true_iff_eq. rewrite andb_true_iff, bool_decide_eq_true, !has_equal_true.
  destruct (remove_equal_spec l c) as [(l1 & c0 & l2 & -> & Hc & Hn & ->)|[Hn ->]].
  - rewrite !fmap_app, fmap_cons, Hc in *. rewrite !elem_of_app, elem_of_cons.
    apply NoDup_app in Hnd as (_ & Hd & [Hn2 _]%NoDup_cons).
    split; [|tauto]. intros Hin. split; [|tauto]. intros E. rewrite E in Hin. tauto.
  - split; [|tauto]. intros Hin. split; [|done]. congruence.
Qed.

Section x509bundle_properties.
Context {L : X509Lib} {LL : X509LibLaws L}.

(** The authorities of a bundle form a set, kept in order of insertion:
    starting from New and through any sequence of Add, Remove and duplicate-free
    Set, no certificate occurs twice; adding makes a certificate present and
    changes no other; removing makes it absent and changes no other; adding a
    present one or removing an absent one changes nothing. *)
Theorem x509_authorities_invariant (td : TrustDomain) (ops : list bundle_op) :
  Forall op_distinct ops →
  let b := foldl bundle_step (New td) ops in
  trustDomain b = td ∧ NoDup (Raw <$> X509Authorities b) ∧
  (∀ c c', HasX509Authority (AddX509Authority b c) c' =
             bool_decide (Raw c' = Raw c) || HasX509Authority b c') ∧
  (∀ c c', HasX509Authority (RemoveX509Authority b c) c' =
             bool_decide (Raw c' ≠ Raw c) && HasX509Authority b c') ∧
  (∀ c, HasX509Authority b c = true → AddX509Authority b c = b) ∧
  (∀ c, HasX509Authority b c = false → RemoveX509Authority b c = b).
Proof.
  intros Hops b. assert (distinct (New td)) as H0 by apply NoDup_nil_2.
  destruct (bundle_steps_inv _ _ H0 Hops) as [Hd Htd]. fold b in Hd, Htd. repeat split.
  - done.
  - unfold X509Authorities. by rewrite CopyX509Authorities_id.
  - intros c c'. apply eq_true_iff_eq. unfold HasX509Authority.
    rewrite add_bundle_authorities, orb_true_iff, bool_decide_eq_true, !has_equal_true, fmap_app, elem_of_app.
    destruct (has_equal (x509Authorities b) c) eqn:E; simpl; rewrite ?elem_of_nil, ?list_elem_of_singleton;
      [apply has_equal_true in E|]; intuition congruence.
  - intros c c'. by apply remove_equal_has.
  - intros c Hc. unfold AddX509Authority, HasX509Authority in *. by rewrite Hc.
  - intros c Hc%has_equal_false. unfold RemoveX509Authority.
    destruct (remove_equal_spec (x509Authorities b) c) as [(l1 & c0 & l2 & E & Hc0 & _)|[_ ->]].
    + destruct Hc. rewrite E, fmap_app, fmap_cons, Hc0. apply elem_of_app. right. by left.
    + by destruct b.
Qed.

(** Marshal and Parse: the PEM text of a bundle of parsed certificates
    parses to a bundle of the same trust domain holding each certificate once, in
    order of first occurrence; it is the bundle itself exactly when no certificate
    was duplicated, and the DER form given to ParseRaw behaves the same. *)
Theorem x509_Marshal_Parse (b : Bundle) :
  Forall parsed_cert (x509Authorities b) →
  ∃ bytes b', Marshal b = Ok bytes ∧
    Parse (trustDomain b) bytes = Ok b' ∧
    ParseRaw (trustDomain b) (ConcatRawCertsFromCerts (x509Authorities b)) = Ok b' ∧
    trustDomain b' = trustDomain b ∧ NoDup (Raw <$> x509Authorities b') ∧
    (∀ c, HasX509Authority b' c = HasX509Authority b c) ∧
    (b' = b ↔ NoDup (Raw <$> x509Authorities b)).
Proof.
  intros Hp. set (b' := foldl AddX509Authority (New (trustDomain b)) (x509Authorities b)).
  assert (distinct b') as Hd by apply foldl_Add_distinct, NoDup_nil_2.
  exists (EncodeCertificates (x509Authorities b)), b'. repeat split.
  - unfold Parse. destruct (x509Authorities b) as [|c l] eqn:El.
    + unfold b'. by rewrite EncodeCertificates_concat.
    + rewrite length_nonempty_0 by by apply EncodeCertificates_nonempty.
      by rewrite ParseCertificates_Encode.
  - unfold ParseRaw. rewrite ConcatRawCertsFromCerts_spec. destruct (String.length _ =? 0)%nat eqn:E0.
    + (* no bytes: no certificates, since the empty string parses to no certificate *)
      apply Nat.eqb_eq in E0. pose proof (x509_ParseCertificates_concat _ Hp) as Hc.
      pose proof (x509_ParseCertificates_concat [] (List.Forall_nil _)) as Hn.
      destruct (foldr _ _ _); [|done]. simpl in Hn. rewrite Hn in Hc. injection Hc as Hc.
      unfold b'. by rewrite <- Hc.
    + by rewrite (x509_ParseCertificates_concat _ Hp).
  - by unfold b'; rewrite foldl_Add_td.
  - done.
  - intros c. apply eq_true_iff_eq. unfold b'. rewrite foldl_Add_has.
    unfold HasX509Authority at 2. rewrite has_equal_true. split; [intros [?|?]|by right]; done.
  - intros E. by rewrite <- E.
  - intros Hnd. unfold b'. rewrite foldl_Add_fresh by done. by destruct b.
Qed.

(** Equal compares the trust domains and the DER contents in order, and
    never panics; on certificates out of the parser it is equality of bundles.
    Clone gives an equal bundle. *)
Theorem x509_Equal_spec (b b' : Bundle) :
  Equal (Some b) (Some b') =
    Ok (bool_decide (trustDomain b = trustDomain b' ∧
                     Raw <$> x509Authorities b = Raw <$> x509Authorities b')) ∧
  (Forall parsed_cert (x509Authorities b ++ x509Authorities b') →
     Equal (Some b) (Some b') = Ok true ↔ b = b') ∧
  Equal (Some b) (Some (Clone b)) = Ok true ∧
  Equal None (Some b) = Ok false ∧ Equal (Some b) None = Ok false ∧ Equal None None = Ok true.
Proof.
  repeat split; try done.
  - apply Equal_spec.
  - rewrite Equal_spec. intros [= [Ht Hr]%bool_decide_eq_true].
    apply Forall_app in H as [Hl Hl'].
    assert (x509Authorities b = x509Authorities b') by by apply parsed_certs_eq.
    destruct b, b'; simpl in *; by subst.
  - intros <-. rewrite Equal_spec. by rewrite bool_decide_true.
  - rewrite Equal_spec. unfold Clone, FromX509Authorities; simpl.
    by rewrite CopyX509Authorities_id, bool_decide_true.
Qed.
End x509bundle_properties.

Lemma x509_authorities_invariant_witness :
  NoDup (Raw <$> X509Authorities (foldl bundle_step (New (mkTrustDomain "example.org"))
    [Op_AddX509 caA; Op_AddX509 caA; Op_AddX509 caB; Op_RemoveX509 caA; Op_SetX509 [caB; caA]])).
Proof.
  eapply (x509_authorities_invariant (mkTrustDomain "example.org")
    [Op_AddX509 caA; Op_AddX509 caA; Op_AddX509 caB; Op_RemoveX509 caA; Op_SetX509 [caB; caA]]).
  repeat (constructor; [exact I || (apply (bool_decide_unpack _); by vm_compute)|]). constructor.
Defined.

Lemma x509_Marshal_Parse_witness :
  ∃ bytes b', Marshal (mkBundle (mkTrustDomain "example.org") [caA; caB; caA]) = Ok bytes ∧
    Parse (mkTrustDomain "example.org") bytes = Ok b' ∧ x509Authorities b' = [caA; caB].
Proof.
  destruct (x509_Marshal_Parse (mkBundle (mkTrustDomain "example.org") [caA; caB; caA]))
    as (bytes & b' & Hm & Hp & _).
  { repeat constructor; by apply sample_cert_parsed. }
  exists bytes, b'. split; [exact Hm|]. split; [exact Hp|].
  vm_compute in Hm. injection Hm as <-. vm_compute in Hp. by injection Hp as <-.
Defined.

Lemma x509_Equal_spec_witness :
  Equal (Some (mkBundle (mkTrustDomain "a") [caA])) (Some (mkBundle (mkTrustDomain "a") [caA])) = Ok true.
Proof.
  destruct (x509_Equal_spec (mkBundle (mkTrustDomain "a") [caA]) (mkBundle (mkTrustDomain "a") [caA]))
    as (_ & H & _).
  apply H; [repeat constructor; by apply sample_cert_parsed|done].
Defined.
