(* ===== verification/Memory.v ===== *)
(** * x509bundle in memory: slices, arrays and pointers

    X509Bundle.v models a bundle as a value. In the program it is an object that
    holds a slice of a backing array; AddX509Authority appends in place when there
    is capacity, RemoveX509Authority shifts the array in place, and a Set holds
    pointers to bundles that its callers hold as well. This file models
    src/bundle/x509bundle/bundle.go and set.go and src/internal/x509util/util.go over a
    heap of arrays, bundles and sets that the callers share, with callers that keep, write,
    cut and append to the slices they pass in and get back, and relates them to the values of
    X509Bundle.v. Certificates are never written, so a pointer to one is its value. *)

From S2P Require Import Prelude Path GoUrl ID Crypto X509 X509Sample Pem BundleSet X509Bundle.

Definition loc : Type := positive.

(** ** Slices *)

(** A slice header: backing array, offset, length and capacity; no array for nil. *)
Record slice : Type := mkSlice { s_arr : option loc; s_off : nat; s_len : nat; s_cap : nat }.

Definition nil_slice : slice := mkSlice None 0 0 0.

(** A bundle.Bundle; its mutex makes a method one step. *)
Record cell : Type := mkCell { c_trustDomain : TrustDomain; c_authorities : slice }.

(** The heap. A backing array has one element per slot, None for a nil pointer. *)
Record heap : Type := mkHeap {
  arrays : gmap loc (list (option Certificate));
  bundles : gmap loc cell;
  sets : gmap loc (gmap TrustDomain loc);
}.

Definition set_arrays a (h : heap) : heap := mkHeap a (bundles h) (sets h).
Definition set_bundles b (h : heap) : heap := mkHeap (arrays h) b (sets h).
Definition set_sets s (h : heap) : heap := mkHeap (arrays h) (bundles h) s.

(** Code over the heap; None is a panic. *)
Definition M (A : Type) : Type := heap → option (A * heap).
Definition ret {A} (a : A) : M A := λ h, Some (a, h).
Definition bind {A B} (m : M A) (k : A → M B) : M B := λ h, match m h with Some (a, h) => k a h | None => None end.
Definition panic {A} : M A := λ _, None.
Notation "'let*' x := m 'in' k" := (bind m (λ x, k)) (at level 10, x name, k at level 200).

(** What a slice reads. *)
Definition contents (h : heap) (s : slice) : list (option Certificate) :=
  match s_arr s with
  | None => []
  | Some l => take (s_len s) (drop (s_off s) (default [] (arrays h !! l)))
  end.

Definition elements (s : slice) : M (list (option Certificate)) := λ h, Some (contents h s, h).

Definition alloc_array (xs : list (option Certificate)) : M loc := λ h,
  let l := fresh (dom (arrays h)) in Some (l, set_arrays (<[l := xs]> (arrays h)) h).

(** make([]T, n). *)
Definition go_make (n : nat) : M slice :=
  let* l := alloc_array (replicate n None) in ret (mkSlice (Some l) 0 n n).

(** Overwrite the array of [s] from index [i] of the slice. *)
Definition write (s : slice) (i : nat) (xs : list (option Certificate)) : M unit := λ h,
  match s_arr s with
  | None => if bool_decide (xs = []) then Some (tt, h) else None
  | Some l =>
      match arrays h !! l with
      | None => None
      | Some a => Some (tt, set_arrays (<[l := take (s_off s + i) a ++ xs ++ drop (s_off s + i + length xs) a]> (arrays h)) h)
      end
  end.

(** copy(dst, src): the elements are read before they are written. *)
Definition go_copy (dst src : slice) : M unit :=
  let* xs := elements src in write dst 0 (take (s_len dst) xs).

(** s[lo:hi]. *)
Definition reslice (s : slice) (lo hi : nat) : M slice :=
  if ((lo <=? hi) && (hi <=? s_cap s))%nat then ret (mkSlice (s_arr s) (s_off s + lo) (hi - lo) (s_cap s - lo)) else panic.

(** The Go runtime chooses the capacity of the array append allocates; it is
    documented to be sufficient. *)
Class GoRuntime := growcap : nat → nat → nat.
Class GoRuntimeLaws (R : GoRuntime) : Prop := { growcap_enough oldcap needed : needed ≤ growcap oldcap needed }.

Section memory.
Context {R : GoRuntime}.

(** append(s, xs...). *)
Definition go_append (s : slice) (xs : list (option Certificate)) : M slice :=
  let n := (s_len s + length xs)%nat in
  if (n <=? s_cap s)%nat then
    let* _ := write s (s_len s) xs in ret (mkSlice (s_arr s) (s_off s) n (s_cap s))
  else
    let* old := elements s in
    let cap := growcap (s_cap s) n in
    let* l := alloc_array (old ++ xs ++ replicate (cap - n) None) in
    ret (mkSlice (Some l) 0 n cap).

(** ** util.go and bundle.go *)
Definition CopyX509Authorities (s : slice) : M slice :=
  let* copied := go_make (s_len s) in
  let* _ := go_copy copied s in
  ret copied.

(** c.Equal(other) of crypto/x509, nil pointers included. *)
Definition ptr_Equal (c other : option Certificate) : bool :=
  match c, other with
  | Some c, Some other => cert_Equal c other
  | None, None => true
  | _, _ => false
  end.

Fixpoint has_ptr (l : list (option Certificate)) (x : option Certificate) : bool :=
  match l with
  | [] => false
  | r :: l => if ptr_Equal r x then true else has_ptr l x
  end.

Fixpoint find_ptr (l : list (option Certificate)) (x : option Certificate) (i : nat) : option nat :=
  match l with
  | [] => None
  | r :: l => if ptr_Equal r x then Some i else find_ptr l x (S i)
  end.

Definition deref (b : loc) : M cell := λ h, match bundles h !! b with Some c => Some (c, h) | None => None end.
Definition store (b : loc) (c : cell) : M unit := λ h, Some (tt, set_bundles (<[b := c]> (bundles h)) h).
Definition alloc_bundle (c : cell) : M loc := λ h,
  let b := fresh (dom (bundles h)) in Some (b, set_bundles (<[b := c]> (bundles h)) h).

Definition New (td : TrustDomain) : M loc := alloc_bundle (mkCell td nil_slice).

Definition FromX509Authorities (td : TrustDomain) (authorities : slice) : M loc :=
  let* copied := CopyX509Authorities authorities in
  alloc_bundle (mkCell td copied).

Definition X509Authorities (b : loc) : M slice :=
  let* c := deref b in CopyX509Authorities (c_authorities c).

Definition AddX509Authority (b : loc) (x509Authority : option Certificate) : M unit :=
  let* c := deref b in
  let* rs := elements (c_authorities c) in
  if has_ptr rs x509Authority then ret tt
  else
    let* s := go_append (c_authorities c) [x509Authority] in
    store b (mkCell (c_trustDomain c) s).

Definition RemoveX509Authority (b : loc) (x509Authority : option Certificate) : M unit :=
  let* c := deref b in
  let* rs := elements (c_authorities c) in
  match find_ptr rs x509Authority 0 with
  | None => ret tt
  | Some i =>
      let* front := reslice (c_authorities c) 0 i in
      let* rest := reslice (c_authorities c) (i + 1) (s_len (c_authorities c)) in
      let* tail := elements rest in
      let* s := go_append front tail in
      store b (mkCell (c_trustDomain c) s)
  end.

Definition HasX509Authority (b : loc) (x509Authority : option Certificate) : M bool :=
  let* c := deref b in
  let* rs := elements (c_authorities c) in
  ret (has_ptr rs x509Authority).

Definition SetX509Authorities (b : loc) (authorities : slice) : M unit :=
  let* c := deref b in
  let* copied := CopyX509Authorities authorities in
  store b (mkCell (c_trustDomain c) copied).

Definition Clone (b : loc) : M loc :=
  let* c := deref b in FromX509Authorities (c_trustDomain c) (c_authorities c).

(** ** set.go: a set holds pointers; nil pointers are skipped. *)
Definition put_pointer (m : gmap TrustDomain loc) (b : option loc) : M (gmap TrustDomain loc) :=
  match b with
  | None => ret m
  | Some b => let* c := deref b in ret (<[c_trustDomain c := b]> m)
  end.

Fixpoint put_pointers (m : gmap TrustDomain loc) (bs : list (option loc)) : M (gmap TrustDomain loc) :=
  match bs with
  | [] => ret m
  | b :: bs => let* m := put_pointer m b in put_pointers m bs
  end.

Definition NewSet (bs : list (option loc)) : M loc :=
  let* m := put_pointers ∅ bs in
  λ h, let s := fresh (dom (sets h)) in Some (s, set_sets (<[s := m]> (sets h)) h).

Definition deref_set (s : loc) : M (gmap TrustDomain loc) := λ h, match sets h !! s with Some m => Some (m, h) | None => None end.
Definition store_set (s : loc) (m : gmap TrustDomain loc) : M unit := λ h, Some (tt, set_sets (<[s := m]> (sets h)) h).

Definition Add (s : loc) (b : option loc) : M unit :=
  let* m := deref_set s in let* m := put_pointer m b in store_set s m.

Definition Remove (s : loc) (td : TrustDomain) : M unit :=
  let* m := deref_set s in store_set s (delete td m).

Definition Get (s : loc) (td : TrustDomain) : M (option loc * bool) :=
  let* m := deref_set s in ret (m !! td, bool_decide (is_Some (m !! td))).

Definition Set_GetX509BundleForTrustDomain (s : loc) (td : TrustDomain) : M (res loc) :=
  let* m := deref_set s in
  ret (match m !! td with
       | None => Err (wrapX509bundleErr (fmt_Errorf "no X.509 bundle for trust domain %q" [Arg_s (TrustDomain_String td)]))
       | Some bundle => Ok bundle
       end).
End memory.

(** ** The machine: any interleaving of calls of the package and of its callers

    [held]: the slices callers hold, those of their own and those the package
    returned. *)
Record memory : Type := mkMemory { m_heap : heap; m_held : list slice }.

Inductive call : Type :=
  | Call_New (td : TrustDomain)
  | Call_From (td : TrustDomain) (s : slice)
  | Call_Authorities (b : loc)
  | Call_Add (b : loc) (c : Certificate)
  | Call_Remove (b : loc) (c : Certificate)
  | Call_Set (b : loc) (s : slice)
  | Call_Clone (b : loc)
  | Call_NewSet (bs : list (option loc))
  | Call_SetAdd (s : loc) (b : option loc)
  | Call_SetRemove (s : loc) (td : TrustDomain)
  | Client_literal (cs : list (option Certificate))
  | Client_write (s : slice) (i : nat) (c : option Certificate)
  | Client_reslice (s : slice) (lo hi : nat)
  | Client_append (s : slice) (cs : list (option Certificate)).

Section machine.
Context {R : GoRuntime}.

Definition keeps {A} (m : M A) (σ : memory) : option memory :=
  match m (m_heap σ) with Some (_, h) => Some (mkMemory h (m_held σ)) | None => None end.
Definition gives (m : M slice) (σ : memory) : option memory :=
  match m (m_heap σ) with Some (s, h) => Some (mkMemory h (s :: m_held σ)) | None => None end.

Definition literal (cs : list (option Certificate)) : M slice :=
  let* l := alloc_array cs in ret (mkSlice (Some l) 0 (length cs) (length cs)).

Definition step (c : call) : memory → option memory :=
  match c with
  | Call_New td => keeps (New td)
  | Call_From td s => keeps (FromX509Authorities td s)
  | Call_Authorities b => gives (X509Authorities b)
  | Call_Add b c => keeps (AddX509Authority b (Some c))
  | Call_Remove b c => keeps (RemoveX509Authority b (Some c))
  | Call_Set b s => keeps (SetX509Authorities b s)
  | Call_Clone b => keeps (Clone b)
  | Call_NewSet bs => keeps (NewSet bs)
  | Call_SetAdd s b => keeps (Add s b)
  | Call_SetRemove s td => keeps (Remove s td)
  | Client_literal cs => gives (literal cs)
  | Client_write s i c => keeps (write s i [c])
  | Client_reslice s lo hi => gives (reslice s lo hi)
  | Client_append s cs => gives (go_append s cs)
  end.

(** What a caller can do: it has slices it holds and pointers it was given, stays
    within the bounds of a slice, and passes no nil certificates to the package. *)
Definition no_nils (h : heap) (s : slice) : Prop := Forall is_Some (contents h s).

Definition allowed (σ : memory) (c : call) : Prop :=
  match c with
  | Call_New _ | Client_literal _ => True
  | Call_From _ s => s ∈ m_held σ ∧ no_nils (m_heap σ) s
  | Call_Authorities b | Call_Add b _ | Call_Remove b _ | Call_Clone b => is_Some (bundles (m_heap σ) !! b)
  | Call_Set b s => is_Some (bundles (m_heap σ) !! b) ∧ s ∈ m_held σ ∧ no_nils (m_heap σ) s
  | Call_NewSet bs => Forall (λ b, is_Some (bundles (m_heap σ) !! b)) (omap id bs)
  | Call_SetAdd s b => is_Some (sets (m_heap σ) !! s) ∧ (∀ b', b = Some b' → is_Some (bundles (m_heap σ) !! b'))
  | Call_SetRemove s _ => is_Some (sets (m_heap σ) !! s)
  | Client_write s i _ => s ∈ m_held σ ∧ i < s_len s
  | Client_reslice s lo hi => s ∈ m_held σ ∧ lo ≤ hi ≤ s_cap s
  | Client_append s _ => s ∈ m_held σ
  end.

Inductive reachable : memory → Prop :=
  | reach_init : reachable (mkMemory (mkHeap ∅ ∅ ∅) [nil_slice])
  | reach_step σ c σ' : reachable σ → allowed σ c → step c σ = Some σ' → reachable σ'.

(** ** The values behind the pointers *)
Definition certs (h : heap) (s : slice) : list Certificate := omap id (contents h s).
Definition value (h : heap) (c : cell) : X509Bundle.Bundle := mkBundle (c_trustDomain c) (certs h (c_authorities c)).
Definition values (h : heap) : gmap loc X509Bundle.Bundle := value h <$> bundles h.
Definition pointee (h : heap) (b : option loc) : option X509Bundle.Bundle := b ≫= λ b, values h !! b.
Definition set_value (h : heap) (m : gmap TrustDomain loc) : X509Bundle.Set_ := mkSet (omap (λ b, values h !! b) m).
Definition set_values (h : heap) : gmap loc X509Bundle.Set_ := set_value h <$> sets h.

(** The specification of a call, on the values. *)
Definition effect (h : heap) (c : call) (h' : heap) : Prop :=
  match c with
  | Call_New td => ∃ b, values h !! b = None ∧ values h' = <[b := X509Bundle.New td]> (values h)
  | Call_From td s => ∃ b, values h !! b = None ∧
      values h' = <[b := X509Bundle.FromX509Authorities td (certs h s)]> (values h)
  | Call_Add b c => ∃ v, values h !! b = Some v ∧ values h' = <[b := X509Bundle.AddX509Authority v c]> (values h)
  | Call_Remove b c => ∃ v, values h !! b = Some v ∧ values h' = <[b := X509Bundle.RemoveX509Authority v c]> (values h)
  | Call_Set b s => ∃ v, values h !! b = Some v ∧
      values h' = <[b := X509Bundle.SetX509Authorities v (certs h s)]> (values h)
  | Call_Clone b => ∃ v b', values h !! b = Some v ∧ values h !! b' = None ∧ values h' = <[b' := X509Bundle.Clone v]> (values h)
  | _ => values h' = values h
  end.

Definition set_effect (h : heap) (c : call) (h' : heap) : Prop :=
  match c with
  | Call_NewSet bs => ∃ s, set_values h !! s = None ∧ set_values h' = <[s := X509Bundle.NewSet (pointee h <$> bs)]> (set_values h)
  | Call_SetAdd s b => ∃ v, set_values h !! s = Some v ∧ set_values h' = <[s := X509Bundle.Add v (pointee h b)]> (set_values h)
  | Call_SetRemove s td => ∃ v, set_values h !! s = Some v ∧ set_values h' = <[s := X509Bundle.Remove v td]> (set_values h)
  | _ => sets h' = sets h
  end.

Definition of_client (c : call) : bool :=
  match c with Client_literal _ | Client_write _ _ _ | Client_reslice _ _ _ | Client_append _ _ => true | _ => false end.
End machine.

(** ** Slices: well formed, and what copying and appending do *)
Definition slice_ok (h : heap) (s : slice) : Prop :=
  s_len s ≤ s_cap s ∧
  match s_arr s with
  | None => s_cap s = 0
  | Some l => ∃ a, arrays h !! l = Some a ∧ s_off s + s_cap s ≤ length a
  end.

(** [s'] of [h'] was made from [s] of [h]: it has the array of [s] or a new one, and
    no other array has changed. *)
Record made (h : heap) (s : slice) (h' : heap) (s' : slice) : Prop := {
  made_ok : slice_ok h' s';
  made_bundles : bundles h' = bundles h;
  made_sets : sets h' = sets h;
  made_frame : ∀ l a, arrays h !! l = Some a → s_arr s ≠ Some l → arrays h' !! l = Some a;
  made_length : ∀ l a, arrays h !! l = Some a → ∃ a', arrays h' !! l = Some a' ∧ length a' = length a;
  made_arr : s_arr s' = s_arr s ∨ ∃ l, s_arr s' = Some l ∧ arrays h !! l = None;
}.

Lemma contents_length h s : slice_ok h s → length (contents h s) = s_len s.
Proof.
  intros [Hl Hs]. unfold contents. destruct (s_arr s) as [l|]; [|cbn; lia].
  destruct Hs as (a & -> & Ha). cbn. rewrite length_take, length_drop. lia.
Qed.

(** A slice reads the same when its array is as it was. *)
Lemma made_contents h s h' s' t :
  made h s h' s' → slice_ok h t → (∀ l, s_arr t = Some l → s_arr s ≠ Some l) → contents h' t = contents h t.
Proof.
  intros Hm [_ Ht] Hne. unfold contents. destruct (s_arr t) as [l|]; [|done].
  destruct Ht as (a & Ha & _). by rewrite (made_frame _ _ _ _ Hm _ _ Ha (Hne _ eq_refl)), Ha.
Qed.

Lemma made_slice_ok h s h' s' t : made h s h' s' → slice_ok h t → slice_ok h' t.
Proof.
  intros Hm [Hl Ht]. split; [done|]. destruct (s_arr t) as [l|]; [|done]. destruct Ht as (a & Ha & Hc).
  destruct (made_length _ _ _ _ Hm _ _ Ha) as (a' & ? & Hlen). exists a'. by rewrite Hlen.
Qed.

Lemma fresh_array h : arrays h !! fresh (dom (arrays h)) = None.
Proof. apply not_elem_of_dom, is_fresh. Qed.

(** A new array. *)
Lemma alloc_made h xs n :
  n ≤ length xs →
  let l := fresh (dom (arrays h)) in let h' := set_arrays (<[l := xs]> (arrays h)) h in
  let s' := mkSlice (Some l) 0 n (length xs) in made h nil_slice h' s' ∧ contents h' s' = take n xs.
Proof.
  intros Hn l h' s'. assert (∀ l' a, arrays h !! l' = Some a → arrays h' !! l' = Some a) as Hold.
  { intros l' a Ha. cbn. rewrite lookup_insert_ne; [done|]. intros Heq. rewrite <- Heq in Ha. pose proof (fresh_array h) as Hf. unfold l in Ha. congruence. }
  split.
  - split; cbn; try done; eauto.
    + split; [done|]. exists xs. cbn. rewrite lookup_insert_eq. by split; [|lia].
    + right. exists l. split; [done|]. apply fresh_array.
  - unfold contents. cbn. by rewrite lookup_insert_eq.
Qed.

(** Writing inside the capacity of a slice. *)
Lemma write_made h s i xs n :
  slice_ok h s → i + length xs ≤ s_cap s → n ≤ s_cap s → (s_arr s = None → xs = []) →
  ∃ h', write s i xs h = Some (tt, h') ∧ made h s h' (mkSlice (s_arr s) (s_off s) n (s_cap s)) ∧
    ∀ m, m ≤ i + length xs → i ≤ m → contents h' (mkSlice (s_arr s) (s_off s) m (s_cap s)) =
      take i (contents h (mkSlice (s_arr s) (s_off s) i (s_cap s))) ++ take (m - i) xs.
Proof.
  intros [Hl Hs] Hi Hn Hnil. unfold write, contents. destruct (s_arr s) as [l|] eqn:Harr.
  - destruct Hs as (a & Ha & Hc). rewrite Ha.
    set (a' := take (s_off s + i) a ++ xs ++ drop (s_off s + i + length xs) a).
    assert (length a' = length a) as Hlen.
    { unfold a'. rewrite !length_app, length_take, length_drop. lia. }
    eexists; split; [done|]. split.
    + split; try done; cbn; rewrite ?Harr.
      * split; [done|]. cbn. exists a'. rewrite lookup_insert_eq, Hlen. by split; [|lia].
      * intros l' b Hb Hne. rewrite lookup_insert_ne; [done|congruence].
      * intros l' b Hb. destruct (decide (l' = l)) as [->|]; [|rewrite lookup_insert_ne by done; eauto].
        exists a'. rewrite lookup_insert_eq. split; [done|congruence].
      * by left.
    + intros m Hm Him. cbn. rewrite lookup_insert_eq. cbn. unfold a'.
      assert (drop (s_off s) (take (s_off s + i) a) = take i (drop (s_off s) a)) as Hdt.
      { rewrite <- take_drop_commute. done. }
      rewrite drop_app_le by (rewrite length_take; lia). rewrite Hdt, take_take, Nat.min_id.
      assert (length (take i (drop (s_off s) a)) = i) as Hti by (rewrite length_take, length_drop; lia).
      rewrite take_app, Hti, take_ge, (take_app_le xs) by lia. by rewrite Ha.
  - assert (xs = []) as -> by auto. cbn in *. eexists; split; [done|]. split.
    + split; try done; cbn; rewrite ?Harr; eauto.
    + intros m Hm Him. by rewrite !take_nil.
Qed.

Section memory_lemmas.
Context {R : GoRuntime} {RL : GoRuntimeLaws R}.

Lemma go_append_made h s xs :
  slice_ok h s → ∃ s' h', go_append s xs h = Some (s', h') ∧ made h s h' s' ∧ contents h' s' = contents h s ++ xs.
Proof.
  intros Hok. pose proof (contents_length _ _ Hok) as Hlen. pose proof Hok as [Hl Hs].
  unfold go_append, bind, elements, ret, alloc_array. destruct (Nat.leb_spec (s_len s + length xs) (s_cap s)) as [Hfits|Hgrows].
  - destruct (write_made h s (s_len s) xs (s_len s + length xs) Hok) as (h' & -> & Hm & Hc); [lia|lia| |].
    { intros Hn. rewrite Hn in Hs. apply nil_length_inv. lia. }
    eexists _, h'. split; [done|]. split; [done|]. rewrite Hc by lia.
    assert (contents h (mkSlice (s_arr s) (s_off s) (s_len s) (s_cap s)) = contents h s) as -> by done.
    rewrite !take_ge by lia. done.
  - pose proof (growcap_enough (s_cap s) (s_len s + length xs)) as Hg.
    set (n := (s_len s + length xs)%nat) in *. set (cap := growcap (s_cap s) n) in *.
    set (new := contents h s ++ xs ++ replicate (cap - n) None).
    assert (length new = cap) as Hnew by (unfold new; rewrite !length_app, length_replicate; lia).
    destruct (alloc_made h new n ltac:(lia)) as [Hm Hc]. rewrite Hnew in *.
    eexists _, _. split; [done|]. split.
    + destruct Hm as [? ? ? Hfr ? Harr]. split; cbn in *; eauto. destruct Harr; [done|by right].
    + rewrite Hc. unfold new. rewrite (app_assoc (contents h s)), take_app_length'; [done|]. rewrite length_app. lia.
Qed.

Lemma CopyX509Authorities_made h s :
  slice_ok h s → ∃ s' h', CopyX509Authorities s h = Some (s', h') ∧ made h nil_slice h' s' ∧ contents h' s' = contents h s.
Proof.
  intros Hok. pose proof (contents_length _ _ Hok) as Hlen.
  unfold CopyX509Authorities, go_make, go_copy, bind, elements, ret, alloc_array. cbn [s_len].
  destruct (alloc_made h (replicate (s_len s) None) (s_len s)) as [Hm _]; [by rewrite length_replicate|].
  rewrite length_replicate in Hm. set (l := fresh (dom (arrays h))) in *. set (h1 := set_arrays _ h) in *.
  set (s1 := mkSlice (Some l) 0 (s_len s) (s_len s)) in *.
  assert (contents h1 s = contents h s) as Hs by (by eapply made_contents).
  rewrite Hs, (take_ge _ (s_len s)) by lia.
  destruct (write_made h1 s1 0 (contents h s) (s_len s) (made_ok _ _ _ _ Hm)) as (h2 & -> & Hm2 & Hc2); [cbn; lia..|done|].
  eexists _, h2. split; [done|]. split.
  - destruct Hm as [? Hb Hst Hfr Hle ?], Hm2 as [? Hb2 Hst2 Hfr2 Hle2 ?]. split; try congruence; try done.
    + intros l' a Ha Hne. apply Hfr2; [by apply Hfr|]. cbn. intros [= Heq].
      pose proof (fresh_array h) as Hf. fold l in Hf. congruence.
    + intros l' a Ha. destruct (Hle _ _ Ha) as (a1 & Ha1 & E1). destruct (Hle2 _ _ Ha1) as (a2 & Ha2 & E2).
      exists a2. split; [done|congruence].
  - etransitivity; [apply (Hc2 (s_len s)); lia|]. rewrite Nat.sub_0_r, !take_0, take_ge by lia. done.
Qed.

(** ** The invariant: no array of a bundle is reached from anywhere else. *)
Definition unowned (h : heap) (s : slice) : Prop :=
  ∀ b c l, bundles h !! b = Some c → s_arr s = Some l → s_arr (c_authorities c) ≠ Some l.

Record Inv (σ : memory) : Prop := {
  inv_cells : ∀ b c, bundles (m_heap σ) !! b = Some c →
    slice_ok (m_heap σ) (c_authorities c) ∧ no_nils (m_heap σ) (c_authorities c);
  inv_distinct : ∀ b1 b2 c1 c2 l, bundles (m_heap σ) !! b1 = Some c1 → bundles (m_heap σ) !! b2 = Some c2 →
    s_arr (c_authorities c1) = Some l → s_arr (c_authorities c2) = Some l → b1 = b2;
  inv_held : ∀ s, s ∈ m_held σ → slice_ok (m_heap σ) s ∧ unowned (m_heap σ) s;
  inv_sets : ∀ s m td b, sets (m_heap σ) !! s = Some m → m !! td = Some b →
    ∃ c, bundles (m_heap σ) !! b = Some c ∧ c_trustDomain c = td;
}.

(** A slice made by a caller's operation on slices it holds. *)
Lemma client_made h held s h' s' :
  Inv (mkMemory h held) → unowned h s → made h s h' s' →
  Inv (mkMemory h' (s' :: held)) ∧ values h' = values h.
Proof.
  intros [Hcells Hdist Hheld Hsets] Hun Hm. cbn in *.
  assert (∀ b c, bundles h !! b = Some c → contents h' (c_authorities c) = contents h (c_authorities c)) as Hsame.
  { intros b c Hb. eapply made_contents; [done|by apply (Hcells b)|]. intros l Hl Hs. by eapply Hun. }
  split; [split; cbn|].
  - rewrite (made_bundles _ _ _ _ Hm). intros b c Hb. destruct (Hcells _ _ Hb) as [Hok Hn].
    split; [by eapply made_slice_ok|]. unfold no_nils. by rewrite (Hsame _ _ Hb).
  - by rewrite (made_bundles _ _ _ _ Hm).
  - intros t Ht. unfold unowned. rewrite (made_bundles _ _ _ _ Hm). apply elem_of_cons in Ht as [->|Ht].
    + split; [apply Hm|]. intros b c l Hb Hl. destruct (made_arr _ _ _ _ Hm) as [Heq|(l' & Heq & Hfresh)].
      * rewrite Heq in Hl. by eapply Hun.
      * intros Hc. destruct (Hcells _ _ Hb) as [[_ Hok] _]. rewrite Hc in Hok. destruct Hok as (a & Ha & _). congruence.
    + destruct (Hheld _ Ht). split; [by eapply made_slice_ok|done].
  - by rewrite (made_sets _ _ _ _ Hm), (made_bundles _ _ _ _ Hm).
  - unfold values. rewrite (made_bundles _ _ _ _ Hm). apply map_fmap_ext. intros b c Hb.
    unfold value, certs. by rewrite (Hsame _ _ Hb).
Qed.

(** A bundle stored with a slice made from its own, or from none. *)
Definition owned_by (h : heap) (b : loc) (s : slice) : Prop :=
  ∀ l, s_arr s = Some l → ∃ c, bundles h !! b = Some c ∧ s_arr (c_authorities c) = Some l.

Lemma bundle_made h held s h1 s' b td :
  Inv (mkMemory h held) → made h s h1 s' → owned_by h b s →
  (∀ c, bundles h !! b = Some c → c_trustDomain c = td) → no_nils h1 s' →
  let h2 := set_bundles (<[b := mkCell td s']> (bundles h1)) h1 in
  Inv (mkMemory h2 held) ∧ values h2 = <[b := mkBundle td (certs h1 s')]> (values h) ∧
  (∀ t, t ∈ held → contents h2 t = contents h t) ∧ sets h2 = sets h.
Proof.
  intros [Hcells Hdist Hheld Hsets] Hm Hown Htd Hno h2. cbn in *.
  assert (∀ b' c, b' ≠ b → bundles h !! b' = Some c → contents h1 (c_authorities c) = contents h (c_authorities c)) as Hsame.
  { intros b' c Hne Hb. eapply made_contents; [done|by apply (Hcells b')|]. intros l Hl Hs.
    destruct (Hown _ Hs) as (c' & Hb' & Hl'). by apply Hne; eapply Hdist. }
  assert (∀ l b' c, s_arr s' = Some l → b' ≠ b → bundles h !! b' = Some c → s_arr (c_authorities c) ≠ Some l) as Hsep.
  { intros l b' c Hl Hne Hb Hc. destruct (made_arr _ _ _ _ Hm) as [Heq|(l' & Heq & Hfresh)].
    - rewrite Heq in Hl. destruct (Hown _ Hl) as (c' & Hb' & Hl'). by apply Hne; eapply Hdist.
    - destruct (Hcells _ _ Hb) as [[_ Hok] _]. rewrite Hc in Hok. destruct Hok as (a & Ha & _). congruence. }
  assert (∀ t, t ∈ held → ∀ l, s_arr t = Some l → s_arr s ≠ Some l) as Hdisj.
  { intros t Ht l Hl Hs. destruct (Hown _ Hs) as (c & Hb & Hc). by eapply (proj2 (Hheld _ Ht)). }
  pose proof (made_bundles _ _ _ _ Hm) as Hbs. split_and!.
  - split; cbn; rewrite ?Hbs.
    + intros b' c. rewrite lookup_insert_Some. intros [[<- <-]|[Hne Hb]]; [by split; [apply Hm|]|].
      destruct (Hcells _ _ Hb) as [Hok Hn]. split; [exact (made_slice_ok _ _ _ _ _ Hm Hok)|].
      unfold no_nils in *. change (contents h2 (c_authorities c)) with (contents h1 (c_authorities c)).
      by rewrite (Hsame b').
    + intros b1 b2 c1 c2 l. rewrite !lookup_insert_Some.
      intros [[<- <-]|[Hn1 H1]] [[<- <-]|[Hn2 H2]] Hl1 Hl2; [done|..|by eapply Hdist].
      * exfalso. by eapply Hsep.
      * exfalso. by eapply (Hsep l b1).
    + intros t Ht. destruct (Hheld _ Ht) as [Hok Hun]. split; [exact (made_slice_ok _ _ _ _ _ Hm Hok)|].
      intros b' c l. cbn. rewrite Hbs, lookup_insert_Some. intros [[<- <-]|[Hne Hb]] Hl; [|by eapply Hun]. cbn. intros Hs'.
      destruct (made_arr _ _ _ _ Hm) as [Heq|(l' & Heq & Hfresh)].
      * rewrite Heq in Hs'. by eapply Hdisj.
      * destruct Hok as [_ Hok]. rewrite Hl in Hok. destruct Hok as (a & Ha & _). congruence.
    + rewrite (made_sets _ _ _ _ Hm). intros i m td' b' Hi Hb'. destruct (Hsets _ _ _ _ Hi Hb') as (c & Hc & <-).
      destruct (decide (b' = b)) as [->|]; [|rewrite lookup_insert_ne by done; eauto].
      rewrite lookup_insert_eq. eexists; split; [done|]. symmetry. by apply Htd.
  - unfold values, h2. cbn. rewrite Hbs, fmap_insert. apply map_eq. intros b'.
    destruct (decide (b' = b)) as [->|]; [by rewrite !lookup_insert_eq|]. rewrite !lookup_insert_ne, !lookup_fmap by done.
    destruct (bundles h !! b') as [c|] eqn:Hb; [|done]. cbn. unfold value, certs. f_equal. f_equal.
    f_equal. by apply (Hsame b').
  - intros t Ht. exact (made_contents h s h1 s' t Hm (proj1 (Hheld _ Ht)) (Hdisj _ Ht)).
  - apply Hm.
Qed.

(** ** The operations, on the values *)
Lemma no_nils_certs h s : no_nils h s → contents h s = Some <$> certs h s.
Proof.
  unfold no_nils, certs. induction (contents h s) as [|x l IH]; [done|]. intros [[c ->] Hl]%Forall_cons. cbn.
  by rewrite <- IH.
Qed.

Lemma certs_of h s l : contents h s = Some <$> l → certs h s = l ∧ no_nils h s.
Proof.
  unfold no_nils, certs. intros ->. split; [|by apply Forall_fmap, Forall_forall; eauto].
  induction l as [|c l IH]; [done|]. cbn. by f_equal.
Qed.

Lemma has_ptr_Some l c : has_ptr (Some <$> l) (Some c) = has_equal l c.
Proof. induction l as [|r l IH]; [done|]. cbn. by rewrite IH. Qed.

Lemma find_ptr_Some l c i : find_ptr (Some <$> l) (Some c) i = find_equal l c i.
Proof. revert i; induction l as [|r l IH]; intros i; [done|]. cbn. by rewrite IH. Qed.

Lemma lookup_values h b c : bundles h !! b = Some c → values h !! b = Some (value h c).
Proof. intros Hb. unfold values. by rewrite lookup_fmap, Hb. Qed.

Lemma fresh_bundle h : bundles h !! fresh (dom (bundles h)) = None.
Proof. apply not_elem_of_dom, is_fresh. Qed.

Lemma fresh_value h : values h !! fresh (dom (bundles h)) = None.
Proof. unfold values. by rewrite lookup_fmap, fresh_bundle. Qed.

(** What a call of the package on a bundle leaves alone. *)
Definition unchanged (held : list slice) (h h' : heap) : Prop :=
  Inv (mkMemory h' held) ∧ (∀ t, t ∈ held → contents h' t = contents h t) ∧ sets h' = sets h.

Lemma nil_made h : made h nil_slice h nil_slice.
Proof. split; try done; eauto. Qed.

Lemma owned_by_nil h b : owned_by h b nil_slice.
Proof. by intros l. Qed.

Lemma New_spec h held td :
  Inv (mkMemory h held) → ∃ b h', New td h = Some (b, h') ∧ unchanged held h h' ∧
    values h !! b = None ∧ values h' = <[b := X509Bundle.New td]> (values h).
Proof.
  intros HI. destruct (bundle_made h held nil_slice h nil_slice (fresh (dom (bundles h))) td HI (nil_made h)
    (owned_by_nil _ _)) as (HI' & Hv & Hh & Hs); [by rewrite fresh_bundle|by apply Forall_nil|].
  eexists _, _. split; [done|]. split_and!; [done..|apply fresh_value|exact Hv].
Qed.

Lemma From_spec h held td s :
  Inv (mkMemory h held) → slice_ok h s → no_nils h s → ∃ b h', FromX509Authorities td s h = Some (b, h') ∧ unchanged held h h' ∧
    values h !! b = None ∧ values h' = <[b := X509Bundle.FromX509Authorities td (certs h s)]> (values h).
Proof.
  intros HI Hok Hno. destruct (CopyX509Authorities_made h s Hok) as (s' & h1 & Hcopy & Hm & Hc).
  rewrite (no_nils_certs _ _ Hno) in Hc. apply certs_of in Hc as [Hc Hno'].
  unfold FromX509Authorities, bind. rewrite Hcopy. unfold alloc_bundle. rewrite (made_bundles _ _ _ _ Hm).
  destruct (bundle_made h held nil_slice h1 s' (fresh (dom (bundles h))) td HI Hm (owned_by_nil _ _)) as (HI' & Hv & Hh & Hs);
    [by rewrite fresh_bundle|done|].
  rewrite (made_bundles _ _ _ _ Hm) in *. eexists _, _. split; [done|]. split_and!; [done..|apply fresh_value|].
  rewrite Hv, Hc. unfold X509Bundle.FromX509Authorities. by rewrite X509.CopyX509Authorities_id.
Qed.

Lemma Authorities_spec h held b c :
  Inv (mkMemory h held) → bundles h !! b = Some c → ∃ s h', X509Authorities b h = Some (s, h') ∧
    Inv (mkMemory h' (s :: held)) ∧ (∀ t, t ∈ held → contents h' t = contents h t) ∧ sets h' = sets h ∧ values h' = values h ∧
    contents h' s = Some <$> X509Bundle.X509Authorities (value h c).
Proof.
  intros HI Hb. destruct (inv_cells _ HI _ _ Hb) as [Hok Hno].
  destruct (CopyX509Authorities_made h _ Hok) as (s' & h1 & Hcopy & Hm & Hc).
  unfold X509Authorities, bind, deref. rewrite Hb. exists s', h1. split; [done|].
  destruct (client_made h held nil_slice h1 s' HI) as [HI' Hv]; [by intros ???|done|].
  split_and!; [done|..|apply Hm|done|].
  - intros t Ht. eapply made_contents; [done|by apply (inv_held _ HI)|done].
  - rewrite Hc. unfold X509Bundle.X509Authorities. rewrite X509.CopyX509Authorities_id. by apply no_nils_certs.
Qed.

Lemma owned_by_own h b c : bundles h !! b = Some c → owned_by h b (c_authorities c).
Proof. intros Hb l Hl. by exists c. Qed.

Lemma Add_spec h held b c x :
  Inv (mkMemory h held) → bundles h !! b = Some c → ∃ h', AddX509Authority b (Some x) h = Some (tt, h') ∧ unchanged held h h' ∧
    values h' = <[b := X509Bundle.AddX509Authority (value h c) x]> (values h).
Proof.
  intros HI Hb. destruct (inv_cells _ HI _ _ Hb) as [Hok Hno]. pose proof (no_nils_certs _ _ Hno) as Hcs. cbn in Hcs.
  unfold AddX509Authority, bind, deref, elements. rewrite Hb, Hcs, has_ptr_Some.
  unfold X509Bundle.AddX509Authority. cbn [x509Authorities value]. destruct (has_equal _ x) eqn:Hhas.
  { exists h. split_and!; try done. rewrite insert_id; [done|by apply lookup_values]. }
  destruct (go_append_made h _ [Some x] Hok) as (s' & h1 & -> & Hm & Hc). rewrite Hcs in Hc.
  change [Some x] with (Some <$> [x]) in Hc. rewrite <- fmap_app in Hc.
  apply certs_of in Hc as [Hc Hno'].
  destruct (bundle_made h held (c_authorities c) h1 s' b (c_trustDomain c) HI Hm (owned_by_own _ _ _ Hb)) as (HI' & Hv & Hh & Hs);
    [congruence|done|].
  eexists. split; [done|]. split_and!; [done..|]. by rewrite Hv, Hc.
Qed.

Lemma reslice_front_made h s i :
  slice_ok h s → i ≤ s_len s → ∃ front, reslice s 0 i h = Some (front, h) ∧ slice_ok h front ∧ s_arr front = s_arr s ∧
    contents h front = take i (contents h s).
Proof.
  intros [Hl Hs] Hi. unfold reslice. destruct (Nat.leb_spec i (s_cap s)); [|lia]. cbn.
  eexists; split; [done|]. rewrite Nat.add_0_r, !Nat.sub_0_r. split_and!; [|done|].
  - split; [done|]. exact Hs.
  - unfold contents. cbn. destruct (s_arr s); [|by rewrite take_nil]. rewrite take_take, Nat.min_l by lia. done.
Qed.

Lemma reslice_rest h s i :
  slice_ok h s → i ≤ s_len s → ∃ rest, reslice s i (s_len s) h = Some (rest, h) ∧ contents h rest = drop i (contents h s).
Proof.
  intros [Hl Hs] Hi. unfold reslice. destruct (Nat.leb_spec i (s_len s)), (Nat.leb_spec (s_len s) (s_cap s)); [|lia..]. cbn.
  eexists; split; [done|]. unfold contents. cbn. destruct (s_arr s); [|by rewrite drop_nil].
  rewrite skipn_firstn_comm, drop_drop. done.
Qed.

Lemma find_equal_bound l c i : find_equal l c 0 = Some i → i < length l.
Proof.
  intros Hf. pose proof (find_equal_spec l c 0) as Hs. rewrite Hf in Hs. destruct Hs as (l1 & c' & l2 & -> & -> & _).
  rewrite length_app. cbn. lia.
Qed.

Lemma Remove_spec h held b c x :
  Inv (mkMemory h held) → bundles h !! b = Some c → ∃ h', RemoveX509Authority b (Some x) h = Some (tt, h') ∧
    unchanged held h h' ∧ values h' = <[b := X509Bundle.RemoveX509Authority (value h c) x]> (values h).
Proof.
  intros HI Hb. destruct (inv_cells _ HI _ _ Hb) as [Hok Hno]. pose proof (no_nils_certs _ _ Hno) as Hcs. cbn in Hcs, Hok.
  unfold RemoveX509Authority, bind, deref, elements, store. rewrite Hb, Hcs, find_ptr_Some.
  unfold X509Bundle.RemoveX509Authority, remove_equal. cbn [x509Authorities value trustDomain].
  destruct (find_equal _ x 0) as [i|] eqn:Hf.
  2: { exists h. split_and!; try done. rewrite insert_id; [done|by apply lookup_values]. }
  apply find_equal_bound in Hf as Hi. pose proof (contents_length _ _ Hok) as Hlen. rewrite Hcs, length_fmap in Hlen.
  destruct (reslice_front_made h _ i Hok) as (front & -> & Hfok & Hfarr & Hfc); [lia|].
  destruct (reslice_rest h _ (i + 1) Hok) as (rest & -> & Hrc); [lia|].
  destruct (go_append_made h front (contents h rest) Hfok) as (s' & h1 & -> & Hm & Hc).
  rewrite Hfc, Hrc, Hcs, <- fmap_take, <- fmap_drop, <- fmap_app in Hc. apply certs_of in Hc as [Hc Hno'].
  destruct (bundle_made h held front h1 s' b (c_trustDomain c) HI Hm) as (HI' & Hv & Hh & Hs);
    [|congruence|done|].
  { intros l Hl. apply (owned_by_own _ _ _ Hb). congruence. }
  eexists. split; [done|]. split_and!; [done..|]. rewrite Hv, Hc. by rewrite Nat.add_1_r.
Qed.

Lemma Set_spec h held b c s :
  Inv (mkMemory h held) → bundles h !! b = Some c → slice_ok h s → no_nils h s →
  ∃ h', SetX509Authorities b s h = Some (tt, h') ∧ unchanged held h h' ∧
    values h' = <[b := X509Bundle.SetX509Authorities (value h c) (certs h s)]> (values h).
Proof.
  intros HI Hb Hok Hno. destruct (CopyX509Authorities_made h s Hok) as (s' & h1 & Hcopy & Hm & Hc).
  rewrite (no_nils_certs _ _ Hno) in Hc. apply certs_of in Hc as [Hc Hno'].
  unfold SetX509Authorities, bind, deref, store. rewrite Hb, Hcopy.
  destruct (bundle_made h held nil_slice h1 s' b (c_trustDomain c) HI Hm (owned_by_nil _ _)) as (HI' & Hv & Hh & Hs);
    [congruence|done|].
  eexists. split; [done|]. split_and!; [done..|].
  rewrite Hv, Hc. unfold X509Bundle.SetX509Authorities. by rewrite X509.CopyX509Authorities_id.
Qed.

Lemma Clone_spec h held b c :
  Inv (mkMemory h held) → bundles h !! b = Some c → ∃ b' h', Clone b h = Some (b', h') ∧ unchanged held h h' ∧
    values h !! b' = None ∧ values h' = <[b' := X509Bundle.Clone (value h c)]> (values h).
Proof.
  intros HI Hb. destruct (inv_cells _ HI _ _ Hb) as [Hok Hno]. unfold Clone, bind, deref. rewrite Hb.
  exact (From_spec h held (c_trustDomain c) _ HI Hok Hno).
Qed.

(** ** The sets *)
Definition pointers_ok (h : heap) (m : gmap TrustDomain loc) : Prop :=
  ∀ td b, m !! td = Some b → ∃ c, bundles h !! b = Some c ∧ c_trustDomain c = td.

Lemma put_pointer_spec h m b :
  pointers_ok h m → (∀ b', b = Some b' → is_Some (bundles h !! b')) →
  ∃ m', put_pointer m b h = Some (m', h) ∧ pointers_ok h m' ∧ set_value h m' = X509Bundle.Add (set_value h m) (pointee h b).
Proof.
  intros Hm Hb. destruct b as [b|]; [|by exists m].
  destruct (Hb b eq_refl) as [c Hc]. unfold put_pointer, bind, deref, ret. rewrite Hc. eexists; split; [done|]. split.
  - intros td b'. rewrite lookup_insert_Some. intros [[<- <-]|[_ Hl]]; [eauto|by apply Hm].
  - unfold X509Bundle.Add, Set_Add, set_value, pointee. cbn. rewrite (lookup_values _ _ _ Hc). cbn.
    by rewrite (omap_insert_Some _ _ _ _ (value h c)) by by apply lookup_values.
Qed.

Lemma put_pointers_spec h bs m :
  pointers_ok h m → Forall (λ b, is_Some (bundles h !! b)) (omap id bs) →
  ∃ m', put_pointers m bs h = Some (m', h) ∧ pointers_ok h m' ∧
    set_value h m' = mkSet (foldl put_bundle (BundleSet.bundles (set_value h m)) (pointee h <$> bs)).
Proof.
  revert m; induction bs as [|b bs IH]; intros m Hm Hbs; [by exists m|].
  destruct (put_pointer_spec h m b Hm) as (m1 & Hp & Hm1 & Hv).
  { intros b' ->. by apply Forall_cons in Hbs as [? _]. }
  destruct (IH m1 Hm1) as (m2 & Hp2 & Hm2 & Hv2).
  { destruct b; [by apply Forall_cons in Hbs as [_ ?]|done]. }
  exists m2. cbn [put_pointers]. unfold bind. rewrite Hp. split_and!; [done..|]. rewrite Hv2, Hv. done.
Qed.

Lemma set_stored h held s m :
  Inv (mkMemory h held) → pointers_ok h m →
  let h' := set_sets (<[s := m]> (sets h)) h in
  Inv (mkMemory h' held) ∧ values h' = values h ∧ (∀ t, contents h' t = contents h t) ∧
  set_values h' = <[s := set_value h m]> (set_values h).
Proof.
  intros [Hcells Hdist Hheld Hsets] Hm h'. split_and!; [|done..|].
  - split; cbn in *; try done. intros i m' td b. rewrite lookup_insert_Some. intros [[<- <-]|[_ Hi]]; [by apply Hm|by eapply Hsets].
  - unfold set_values. by rewrite <- fmap_insert.
Qed.

Lemma lookup_set_values h s m : sets h !! s = Some m → set_values h !! s = Some (set_value h m).
Proof. intros Hs. unfold set_values. by rewrite lookup_fmap, Hs. Qed.

Lemma fresh_set h : set_values h !! fresh (dom (sets h)) = None.
Proof. unfold set_values. rewrite lookup_fmap. by rewrite (proj1 (not_elem_of_dom _ _) (is_fresh _)). Qed.

(** What a call on a set does. *)
Definition set_call (held : list slice) (h h' : heap) (s : loc) (v : X509Bundle.Set_) : Prop :=
  Inv (mkMemory h' held) ∧ values h' = values h ∧ (∀ t, contents h' t = contents h t) ∧
  set_values h' = <[s := v]> (set_values h).

Lemma NewSet_spec h held bs :
  Inv (mkMemory h held) → Forall (λ b, is_Some (bundles h !! b)) (omap id bs) →
  ∃ s h', NewSet bs h = Some (s, h') ∧ set_values h !! s = None ∧ set_call held h h' s (X509Bundle.NewSet (pointee h <$> bs)).
Proof.
  intros HI Hbs. destruct (put_pointers_spec h bs ∅) as (m & Hp & Hm & Hv); [by intros ??; rewrite lookup_empty|done|].
  unfold NewSet, bind. rewrite Hp. eexists _, _. split; [done|]. split; [apply fresh_set|].
  unfold set_call. change (X509Bundle.NewSet (pointee h <$> bs)) with (mkSet (foldl put_bundle ∅ (pointee h <$> bs))).
  cbn [set_value BundleSet.bundles] in Hv. rewrite omap_empty in Hv. rewrite <- Hv. by apply set_stored.
Qed.

Lemma SetAdd_spec h held s m b :
  Inv (mkMemory h held) → sets h !! s = Some m → (∀ b', b = Some b' → is_Some (bundles h !! b')) →
  ∃ h', Add s b h = Some (tt, h') ∧ set_call held h h' s (X509Bundle.Add (set_value h m) (pointee h b)).
Proof.
  intros HI Hs Hb. destruct (put_pointer_spec h m b) as (m' & Hp & Hm & Hv);
    [by intros td b' Hl; eapply (inv_sets _ HI)|done|].
  unfold Add, bind, deref_set, store_set. rewrite Hs, Hp. eexists; split; [done|]. unfold set_call. rewrite <- Hv. by apply set_stored.
Qed.

Lemma SetRemove_spec h held s m td :
  Inv (mkMemory h held) → sets h !! s = Some m →
  ∃ h', Remove s td h = Some (tt, h') ∧ set_call held h h' s (X509Bundle.Remove (set_value h m) td).
Proof.
  intros HI Hs. unfold Remove, bind, deref_set, store_set. rewrite Hs. eexists; split; [done|].
  unfold set_call, X509Bundle.Remove, Set_Remove. cbn [set_value BundleSet.bundles].
  assert (mkSet (delete td (omap (λ b, values h !! b) m)) = set_value h (delete td m)) as ->.
  { unfold set_value. by rewrite omap_delete. }
  apply set_stored; [done|]. intros td' b'. rewrite lookup_delete_Some. intros [_ Hl]. by eapply (inv_sets _ HI).
Qed.

(** ** The callers *)
Lemma Inv_drop h t held : Inv (mkMemory h (t :: held)) → Inv (mkMemory h held).
Proof. intros [? ? Hheld ?]. split; try done. intros s Hs. apply Hheld. by right. Qed.

(** What an operation of a caller on its slices does. *)
Lemma client_spec σ c :
  Inv σ → of_client c → allowed σ c →
  ∃ σ', step c σ = Some σ' ∧ Inv σ' ∧ values (m_heap σ') = values (m_heap σ) ∧ sets (m_heap σ') = sets (m_heap σ).
Proof.
  destruct σ as [h held]. intros HI Hc Ha.
  assert (∀ (s : slice) h' s', unowned h s → made h s h' s' →
    Inv (mkMemory h' (s' :: held)) ∧ values h' = values h ∧ sets h' = sets h) as Hmade.
  { intros s h' s' Hun Hm. destruct (client_made _ _ _ _ _ HI Hun Hm). split_and!; [done..|apply Hm]. }
  destruct c; try by destruct Hc. all: cbn in Ha |- *.
  - destruct (alloc_made h cs (length cs)) as [Hm _]; [done|]. eexists. split; [done|]. by eapply (Hmade nil_slice); [intros ???|].
  - destruct Ha as [Hs Hi]. destruct (inv_held _ HI _ Hs) as [Hok Hun]. destruct (write_made h s i [c] 0 Hok) as (h' & Hw & Hm & _);
      [cbn; destruct Hok; lia|lia| |].
    { intros Hn. destruct Hok as [Hl Hcap]. rewrite Hn in Hcap. lia. }
    unfold keeps. cbn [m_heap m_held]. rewrite Hw. eexists. split; [done|].
    destruct (Hmade _ _ _ Hun Hm) as (HI' & ? & ?). by apply Inv_drop in HI'.
  - destruct Ha as [Hs [Hlo Hhi]]. destruct (inv_held _ HI _ Hs) as [[Hl Hcap] Hun].
    unfold gives, reslice. cbn [m_heap m_held]. destruct (Nat.leb_spec lo hi), (Nat.leb_spec hi (s_cap s)); [|lia..]. cbn.
    eexists. split; [done|]. apply (Hmade s); [done|]. split; try done; [|eauto|by left]. split; cbn; [lia|].
    destruct (s_arr s); [|lia]. destruct Hcap as (a & ? & ?). exists a. split; [done|lia].
  - destruct (inv_held _ HI _ Ha) as [Hok Hun]. destruct (go_append_made h s cs Hok) as (s' & h' & Hap & Hm & _).
    unfold gives. cbn [m_heap m_held]. rewrite Hap. eexists. split; [done|]. by eapply Hmade.
Qed.

(** What a call of the package does. *)
Definition call_spec (σ : memory) (c : call) (σ' : memory) : Prop :=
  effect (m_heap σ) c (m_heap σ') ∧ set_effect (m_heap σ) c (m_heap σ') ∧
  (∀ t, t ∈ m_held σ → contents (m_heap σ') t = contents (m_heap σ) t) ∧
  (∀ b, c = Call_Authorities b → ∃ v s, values (m_heap σ) !! b = Some v ∧ m_held σ' = s :: m_held σ ∧
    contents (m_heap σ') s = Some <$> X509Bundle.X509Authorities v).

Lemma package_spec σ c :
  Inv σ → ¬ of_client c → allowed σ c → ∃ σ', step c σ = Some σ' ∧ Inv σ' ∧ call_spec σ c σ'.
Proof.
  destruct σ as [h held]. intros HI Hc Ha. destruct c; try (by exfalso; apply Hc); cbn in Ha; unfold step, keeps, gives; cbn [m_heap m_held].
  - destruct (New_spec h held td HI) as (b & h' & -> & (HI' & Hh & Hs) & Hb & Hv).
    eexists; split_and!; [done..|]. split_and!; [by exists b|done..].
  - destruct Ha as [Hin Hno]. destruct (From_spec h held td s HI (proj1 (inv_held _ HI _ Hin)) Hno) as (b & h' & -> & (HI' & Hh & Hs) & Hb & Hv).
    eexists; split_and!; [done..|]. split_and!; [by exists b|done..].
  - destruct Ha as [c Hb]. destruct (Authorities_spec h held b c HI Hb) as (s & h' & -> & HI' & Hh & Hs & Hv & Hcs).
    eexists; split_and!; [done..|]. split_and!; [done..|]. intros b' [= <-]. exists (value h c), s. split_and!; [by apply lookup_values|done..].
  - destruct Ha as [cl Hb]. destruct (Add_spec h held b cl c HI Hb) as (h' & -> & (HI' & Hh & Hs) & Hv).
    eexists; split_and!; [done..|]. split_and!; [|done..]. exists (value h cl). by split; [apply lookup_values|].
  - destruct Ha as [cl Hb]. destruct (Remove_spec h held b cl c HI Hb) as (h' & -> & (HI' & Hh & Hs) & Hv).
    eexists; split_and!; [done..|]. split_and!; [|done..]. exists (value h cl). by split; [apply lookup_values|].
  - destruct Ha as ([cl Hb] & Hin & Hno).
    destruct (Set_spec h held b cl s HI Hb (proj1 (inv_held _ HI _ Hin)) Hno) as (h' & -> & (HI' & Hh & Hs) & Hv).
    eexists; split_and!; [done..|]. split_and!; [|done..]. exists (value h cl). by split; [apply lookup_values|].
  - destruct Ha as [cl Hb]. destruct (Clone_spec h held b cl HI Hb) as (b' & h' & -> & (HI' & Hh & Hs) & Hb' & Hv).
    eexists; split_and!; [done..|]. split_and!; [|done..]. exists (value h cl), b'. split_and!; [by apply lookup_values|done..].
  - destruct (NewSet_spec h held bs HI Ha) as (s & h' & -> & Hs & HI' & Hv & Hh & Hsv).
    eexists; split_and!; [done..|]. split_and!; [done|by exists s|done..].
  - destruct Ha as [[m Hm] Hb]. destruct (SetAdd_spec h held s m b HI Hm Hb) as (h' & -> & HI' & Hv & Hh & Hsv).
    eexists; split_and!; [done..|]. split_and!; [done|exists (set_value h m)|done..]. by split; [apply lookup_set_values|].
  - destruct Ha as [m Hm]. destruct (SetRemove_spec h held s m td HI Hm) as (h' & -> & HI' & Hv & Hh & Hsv).
    eexists; split_and!; [done..|]. split_and!; [done|exists (set_value h m)|done..]. by split; [apply lookup_set_values|].
Qed.

Lemma reachable_Inv σ : reachable σ → Inv σ.
Proof.
  induction 1 as [|σ c σ' _ IH Ha Hs].
  - split; cbn; intros *; rewrite ?lookup_empty; try done. intros ->%list_elem_of_singleton. split; [done|]. by intros ???.
  - destruct (decide (of_client c)) as [Hc|Hc].
    + destruct (client_spec _ _ IH Hc Ha) as (σ1 & Hs1 & HI & _). congruence.
    + destruct (package_spec _ _ IH Hc Ha) as (σ1 & Hs1 & HI & _). congruence.
Qed.

(** [C25] Bundles in memory are the bundles of X509Bundle.v. Whatever callers do with the
    slices they hold - those they passed in and those they got back - no bundle and no
    set changes. No call of the package panics; a call changes the value of the bundle
    it is called on (or makes a new one) as its function on values says, and no other
    bundle; and it changes nothing of what any slice held outside reads, although it
    appends to and shifts arrays in place: a slice returned earlier is a snapshot. *)
Theorem bundles_in_memory σ c :
  reachable σ → allowed σ c →
  ∃ σ', step c σ = Some σ' ∧
    (of_client c → values (m_heap σ') = values (m_heap σ) ∧ sets (m_heap σ') = sets (m_heap σ)) ∧
    (¬ of_client c → call_spec σ c σ').
Proof.
  intros Hr%reachable_Inv Ha. destruct (decide (of_client c)) as [Hc|Hc].
  - destruct (client_spec _ _ Hr Hc Ha) as (σ' & Hs & _ & Hv & Hst). by exists σ'.
  - destruct (package_spec _ _ Hr Hc Ha) as (σ' & Hs & _ & Hspec). by exists σ'.
Qed.

(** Sets hold pointers. In every reachable memory a set answers as the set of the
    current values of its bundles does, for a trust domain with a bundle of that trust
    domain; a change of a bundle through any pointer to it is seen through the set, which
    stays well formed. *)
Theorem sets_in_memory σ s m td :
  reachable σ → sets (m_heap σ) !! s = Some m →
  set_wf (set_value (m_heap σ) m) ∧
  (∃ r, Set_GetX509BundleForTrustDomain s td (m_heap σ) = Some (r, m_heap σ) ∧
    match r with
    | Ok b => ∃ v, values (m_heap σ) !! b = Some v ∧ trustDomain v = td ∧
        X509Bundle.Set_GetX509BundleForTrustDomain (set_value (m_heap σ) m) td = Ok v ∧
        ∀ c, ∃ σ', step (Call_Add b c) σ = Some σ' ∧ sets (m_heap σ') !! s = Some m ∧
          X509Bundle.Set_GetX509BundleForTrustDomain (set_value (m_heap σ') m) td = Ok (X509Bundle.AddX509Authority v c)
    | Err e => X509Bundle.Set_GetX509BundleForTrustDomain (set_value (m_heap σ) m) td = Err e
    | Panic _ => False
    end).
Proof.
  intros Hr%reachable_Inv Hs. assert (pointers_ok (m_heap σ) m) as Hm by (intros td' b; by apply (inv_sets _ Hr s)).
  split.
  - intros td' v Hv. cbn in Hv. apply lookup_omap_Some in Hv as (b & Hl & Hb). destruct (Hm _ _ Hb) as (c & Hc & <-).
    rewrite (lookup_values _ _ _ Hc) in Hl. by injection Hl as <-.
  - unfold Set_GetX509BundleForTrustDomain, bind, deref_set, ret. rewrite Hs. eexists; split; [done|].
    unfold X509Bundle.Set_GetX509BundleForTrustDomain, Set_lookup. cbn [set_value BundleSet.bundles].
    rewrite lookup_omap. destruct (m !! td) as [b|] eqn:Hb; cbn; [|done].
    destruct (Hm _ _ Hb) as (c & Hc & Htd). rewrite (lookup_values _ _ _ Hc). exists (value (m_heap σ) c). split_and!; try done.
    intros x. destruct (package_spec σ (Call_Add b x) Hr) as (σ' & Hst & _ & (v & Hv & Hv') & Hse & _); [by intros []|by exists c|].
    exists σ'. split_and!; [done|by rewrite Hse|]. rewrite lookup_omap, Hb. cbn. rewrite Hv', lookup_insert_eq.
    rewrite (lookup_values _ _ _ Hc) in Hv. by injection Hv as <-.
Qed.
End memory_lemmas.

(** ** Witnesses: a bundle whose slice was handed out, then changed in place, and a
    set that shares it. *)
#[export] Instance sample_runtime : GoRuntime := λ _ needed, (2 * needed)%nat.
#[export] Instance sample_runtime_laws : GoRuntimeLaws sample_runtime.
Proof. split. intros. unfold growcap, sample_runtime. lia. Qed.

Fixpoint steps (cs : list call) (σ : memory) : option memory :=
  match cs with [] => Some σ | c :: cs => step c σ ≫= steps cs end.

(** The calls of a list are allowed one after the other. *)
Fixpoint all_allowed (cs : list call) (σ : memory) : Prop :=
  match cs with
  | [] => True
  | c :: cs => allowed σ c ∧ match step c σ with Some σ => all_allowed cs σ | None => False end
  end.

Lemma steps_reachable cs σ : reachable σ → all_allowed cs σ → ∃ σ', steps cs σ = Some σ' ∧ reachable σ'.
Proof.
  revert σ; induction cs as [|c cs IH]; intros σ Hr Ha; [by exists σ|]. destruct Ha as [Hc Ha].
  cbn. destruct (step c σ) as [σ1|] eqn:Hs; [|done]. apply IH; [by eapply reach_step|done].
Qed.

Definition sample_calls : list call :=
  [Call_New (mkTrustDomain "example.org"); Call_Add 1%positive caA; Call_Add 1%positive caB; Call_Authorities 1%positive;
   Call_NewSet [Some 1%positive; None]].
Definition sample_memory : memory :=
  default (mkMemory (mkHeap ∅ ∅ ∅) [nil_slice]) (steps sample_calls (mkMemory (mkHeap ∅ ∅ ∅) [nil_slice])).

Lemma sample_memory_reachable : reachable sample_memory.
Proof.
  destruct (steps_reachable sample_calls (mkMemory (mkHeap ∅ ∅ ∅) [nil_slice])) as (σ' & Hs & Hr); [apply reach_init| |].
  - vm_compute. by split_and!; try eexists; repeat constructor; eexists.
  - unfold sample_memory. by rewrite Hs.
Qed.

Lemma bundles_in_memory_witness :
  ∃ σ' s, step (Call_Remove 1%positive caA) sample_memory = Some σ' ∧ s ∈ m_held sample_memory ∧
    contents (m_heap σ') s = [Some caA; Some caB] ∧
    values (m_heap σ') !! 1%positive = Some (mkBundle (mkTrustDomain "example.org") [caB]).
Proof.
  destruct (bundles_in_memory sample_memory (Call_Remove 1%positive caA) sample_memory_reachable) as (σ' & Hs & _ & Hp).
  { cbn. vm_compute. by eexists. }
  destruct Hp as ((v & Hv & Hv') & _ & Hheld & _); [by intros []|].
  exists σ', (hd nil_slice (m_held sample_memory)).
  assert (hd nil_slice (m_held sample_memory) ∈ m_held sample_memory) as Hin by (vm_compute; left).
  split_and!; [done..| |].
  - rewrite (Hheld _ Hin). by vm_compute.
  - rewrite Hv', lookup_insert_eq. vm_compute in Hv. injection Hv as <-. by vm_compute.
Defined.

Lemma sets_in_memory_witness :
  ∃ m b, sets (m_heap sample_memory) !! 1%positive = Some m ∧
    Set_GetX509BundleForTrustDomain 1%positive (mkTrustDomain "example.org") (m_heap sample_memory) = Some (Ok b, m_heap sample_memory) ∧
    X509Bundle.Set_GetX509BundleForTrustDomain (set_value (m_heap sample_memory) m) (mkTrustDomain "example.org") =
      Ok (mkBundle (mkTrustDomain "example.org") [caA; caB]).
Proof.
  destruct (sets (m_heap sample_memory) !! 1%positive) as [m|] eqn:Hm; [|by vm_compute in Hm].
  destruct (sets_in_memory sample_memory 1%positive m (mkTrustDomain "example.org") sample_memory_reachable Hm)
    as (_ & [b| |] & Hget & Hr); [|by vm_compute in Hget..].
  destruct Hr as (v & Hv & _ & Hset & _). exists m, b. split_and!; [done..|]. rewrite Hset.
  vm_compute in Hget. injection Hget as <-. vm_compute in Hv. by injection Hv as <-.
Defined.
