(* ===== verification/Jose.v ===== *)
(** * JSON Web Key Sets

    The documents the bundle packages read and write: go-jose's JSONWebKey (the
    fields the sources use) and JSONWebKeySet, and the document of
    src/bundle/spiffebundle/bundle.go that embeds a key set. Their JSON text is
    produced and read by encoding/json and go-jose: the interface [JoseLib]. *)

From S2P Require Import Prelude GoUrl Crypto X509 X509Sample.

Record JSONWebKey : Type := mkJSONWebKey {
  Key : PublicKey;
  Certificates : list Certificate;
  KeyID : string;
  Use : string;
}.

(** A nil slice of keys (a missing or null "keys" member) is None. *)
Record JSONWebKeySet : Type := mkJSONWebKeySet { Keys : option (list JSONWebKey) }.

(** bundleDoc of spiffebundle: pointers are options; the sequence number is a
    uint64 and the refresh hint an int64. *)
Record bundleDoc : Type := mkBundleDoc {
  doc_JSONWebKeySet : JSONWebKeySet;
  doc_SequenceNumber : option Z;
  doc_RefreshHint : option Z;
}.

Class JoseLib := {
  json_Unmarshal_JWKS : string → JSONWebKeySet + error;
  json_Marshal_JWKS : JSONWebKeySet → string + error;
  json_Unmarshal_bundleDoc : string → bundleDoc + error;
  json_Marshal_bundleDoc : bundleDoc → string + error;
}.

(** Strings that JSON text carries unchanged: here, those of ASCII characters
    (encoding/json replaces invalid UTF-8). *)
Definition ascii_text (s : string) : bool := all_bytes (λ c, (N_of_ascii c <? 128)%N) s.

(** A key that is read back as it was written: a supported key type and, when
    there are certificates, the key of the first of them. *)
Definition portable_key `{X509Lib} (k : JSONWebKey) : Prop :=
  supported_key (Key k) ∧ Forall parsed_cert (Certificates k) ∧
  ascii_text (KeyID k) = true ∧ ascii_text (Use k) = true ∧
  (∀ c, head (Certificates k) = Some c → cert_PublicKey c = Key k).

Definition portable_keys `{X509Lib} (ks : JSONWebKeySet) : Prop :=
  ∀ l, Keys ks = Some l → Forall portable_key l.

Definition uint64_ok (z : Z) : Prop := (0 ≤ z < 2 ^ 64)%Z.

Definition keyIDs_ascii (m : gmap string PublicKey) : Prop := map_Forall (λ k _, ascii_text k = true) m.

(** The first entry with an empty key ID, in the order of the document. *)
Lemma split_empty_ID (order : list (string * PublicKey)) :
  Forall (λ kv, kv.1 ≠ "") order ∨
  ∃ l1 k l2, order = l1 ++ ("", k) :: l2 ∧ Forall (λ kv, kv.1 ≠ "") l1.
Proof.
  induction order as [|[i k] order IH]; [by left|].
  destruct (decide (i = "")) as [->|Hne]; [right; by exists [], k, order|].
  destruct IH as [?|(l1 & k' & l2 & -> & ?)]; [left; by constructor|].
  right. exists ((i, k) :: l1), k', l2. split; [done|by constructor].
Qed.

Class JoseLaws (J : JoseLib) {L : X509Lib} : Prop := {
  json_JWKS_roundtrip ks bs :
    portable_keys ks → json_Marshal_JWKS ks = inl bs → json_Unmarshal_JWKS bs = inl ks;
  json_bundleDoc_roundtrip d bs :
    portable_keys (doc_JSONWebKeySet d) →
    (∀ n, doc_SequenceNumber d = Some n → uint64_ok n) →
    (∀ n, doc_RefreshHint d = Some n → int64_ok n) →
    json_Marshal_bundleDoc d = inl bs → json_Unmarshal_bundleDoc bs = inl d;
}.

(** ** A concrete instance, for the witnesses: fields are escaped and
    concatenated, numbers are written in unary, keys must be Ed25519 keys. *)
Definition cert_of_raw (raw : string) : option Certificate :=
  match sample_ParseCertificate raw with inl c => Some c | inr _ => None end.

Definition sample_json_err : error := extern_error "encoding/json" "unsupported value".

(** Readers: the value and the rest of the text. *)
Definition reader (A : Type) : Type := string → option (A * string).

Fixpoint enc_list {A} (enc : A → string) (l : list A) : string :=
  match l with
  | [] => "e"
  | a :: l => "c" +:+ (enc a +:+ enc_list enc l)
  end.

Fixpoint dec_list {A} (dec : reader A) (fuel : nat) (s : string) : option (list A * string) :=
  match fuel with
  | O => None
  | S fuel =>
      match s with
      | String "e" s => Some ([], s)
      | String "c" s => '(a, s) ← dec s; '(l, s) ← dec_list dec fuel s; Some (a :: l, s)
      | _ => None
      end
  end.

(** [dec] reads back what [enc] wrote, whatever follows. *)
Definition reads_back {A} (enc : A → string) (dec : reader A) (a : A) : Prop :=
  ∀ rest, dec (enc a +:+ rest) = Some (a, rest).

Lemma dec_list_enc {A} (enc : A → string) (dec : reader A) l fuel rest :
  Forall (reads_back enc dec) l → length l < fuel →
  dec_list dec fuel (enc_list enc l +:+ rest) = Some (l, rest).
Proof.
  intros Hl; revert fuel; induction Hl as [|a l Ha Hl IH]; intros [|fuel] Hf;
    try (simpl in Hf; lia); [done|].
  cbn [enc_list]. rewrite !app_str_assoc, app_str_cons, app_str_nil_l. cbn [dec_list].
  rewrite Ha; cbn [mbind option_bind]. rewrite IH by (simpl in Hf; lia). done.
Qed.

Definition enc_cert (c : Certificate) : string := sample_escape (Raw c).
Definition dec_cert : reader Certificate := λ s,
  '(raw, s) ← sample_unescape s; c ← cert_of_raw raw; Some (c, s).

Lemma enc_cert_reads c : parsed_cert c → reads_back enc_cert dec_cert c.
Proof.
  intros Hc rest. unfold dec_cert, enc_cert. rewrite sample_unescape_escape; cbn [mbind option_bind].
  unfold cert_of_raw. pose proof (parsed_cert_Raw c Hc) as E. cbn in E. by rewrite E.
Qed.

Definition ed25519_bytes (k : PublicKey) : option string :=
  match k with Ed25519_PublicKey bs => Some bs | _ => None end.

Definition enc_key (k : JSONWebKey) : string :=
  sample_escape (default "" (ed25519_bytes (Key k))) +:+
  (enc_list enc_cert (Certificates k) +:+ (sample_escape (KeyID k) +:+ sample_escape (Use k))).
Definition dec_key : reader JSONWebKey := λ s,
  '(bs, s1) ← sample_unescape s; '(cs, s2) ← dec_list dec_cert (S (String.length s)) s1;
  '(kid, s3) ← sample_unescape s2; '(use, s4) ← sample_unescape s3;
  Some (mkJSONWebKey (Ed25519_PublicKey bs) cs kid use, s4).

Lemma enc_list_length {A} (enc : A → string) l : length l < String.length (enc_list enc l).
Proof.
  induction l as [|a l IH]; cbn [enc_list]; [simpl; lia|].
  rewrite !length_app_str. simpl length. simpl String.length at 1. lia.
Qed.

Lemma enc_key_reads k :
  Forall parsed_cert (Certificates k) → is_Some (ed25519_bytes (Key k)) → reads_back enc_key dec_key k.
Proof.
  intros Hcs Hk rest. destruct k as [key cs kid use]; simpl in *.
  destruct key; destruct Hk as [? Hk]; try done. simplify_eq/=.
  unfold dec_key, enc_key; cbn [Key Certificates KeyID Use ed25519_bytes default from_option id].
  rewrite !app_str_assoc, sample_unescape_escape; cbn [mbind option_bind].
  rewrite dec_list_enc; cbn [mbind option_bind].
  - by rewrite sample_unescape_escape; cbn [mbind option_bind];
      rewrite sample_unescape_escape; cbn [mbind option_bind].
  - eapply Forall_impl; [exact Hcs|]. apply enc_cert_reads.
  - rewrite !length_app_str. pose proof (enc_list_length enc_cert cs). lia.
Qed.

Definition enc_nat (n : nat) : string := sample_escape (String.string_of_list_ascii (replicate n "1"%char)).
Definition dec_nat : reader nat := λ s, '(ones, s) ← sample_unescape s; Some (String.length ones, s).

Lemma enc_nat_reads n : reads_back enc_nat dec_nat n.
Proof.
  intros rest. unfold dec_nat, enc_nat. rewrite sample_unescape_escape; cbn [mbind option_bind].
  do 2 f_equal. induction n; simpl; congruence.
Qed.

Definition key_encodable (k : JSONWebKey) : bool := bool_decide (is_Some (ed25519_bytes (Key k))).

(** Numbers are written as lists of at most one natural; keys as a list of at
    most one list. *)
Definition opt_list {A} (o : option A) : list A := match o with Some a => [a] | None => [] end.

Definition enc_keys (ks : list JSONWebKey) : string := enc_list enc_key ks.
Definition dec_keys : reader (list JSONWebKey) := λ s, dec_list dec_key (S (String.length s)) s.

Lemma enc_keys_reads l :
  Forall portable_key l → forallb key_encodable l = true → reads_back enc_keys dec_keys l.
Proof.
  intros Hp He rest. unfold dec_keys, enc_keys. apply dec_list_enc.
  - rewrite Forall_forall in *. intros k Hk. destruct (Hp k Hk) as (_ & ? & _).
    apply enc_key_reads; [done|]. rewrite forallb_forall in He.
    apply (bool_decide_eq_true_1 _), He. by apply list_elem_of_In.
  - rewrite length_app_str. pose proof (enc_list_length enc_key l). lia.
Qed.

Definition dec_opt {A} (dec : reader A) : reader (option A) := λ s,
  '(l, s) ← dec_list dec 2 s; Some (head l, s).

Lemma dec_opt_enc {A} (enc : A → string) dec (o : option A) rest :
  (∀ a, o = Some a → reads_back enc dec a) →
  dec_opt dec (enc_list enc (opt_list o) +:+ rest) = Some (o, rest).
Proof.
  intros Ho. unfold dec_opt. rewrite (dec_list_enc enc dec).
  - by destruct o.
  - destruct o; repeat constructor. by apply Ho.
  - destruct o; simpl; lia.
Qed.

Definition doc_encodable (d : bundleDoc) : bool :=
  forallb key_encodable (default [] (Keys (doc_JSONWebKeySet d)))
  && (0 <=? default 0 (doc_SequenceNumber d))%Z && (0 <=? default 0 (doc_RefreshHint d))%Z.

Definition sample_Marshal_doc (d : bundleDoc) : string + error :=
  if doc_encodable d
  then inl (enc_list enc_nat (opt_list (Z.to_nat <$> doc_SequenceNumber d)) +:+
            (enc_list enc_nat (opt_list (Z.to_nat <$> doc_RefreshHint d)) +:+
             enc_list enc_keys (opt_list (Keys (doc_JSONWebKeySet d)))))
  else inr sample_json_err.

Definition dec_doc : reader bundleDoc := λ s,
  '(seq, s) ← dec_opt dec_nat s; '(hint, s) ← dec_opt dec_nat s; '(ks, s) ← dec_opt dec_keys s;
  Some (mkBundleDoc (mkJSONWebKeySet ks) (Z.of_nat <$> seq) (Z.of_nat <$> hint), s).

Definition sample_Unmarshal_doc (s : string) : bundleDoc + error :=
  match dec_doc s with
  | Some (d, "") => inl d
  | _ => inr (extern_error "encoding/json" "invalid character")
  end.

Definition jwks_doc (ks : JSONWebKeySet) : bundleDoc := mkBundleDoc ks None None.

#[export] Instance sample_JoseLib : JoseLib := {|
  json_Unmarshal_JWKS s :=
    match sample_Unmarshal_doc s with inl d => inl (doc_JSONWebKeySet d) | inr e => inr e end;
  json_Marshal_JWKS ks := sample_Marshal_doc (jwks_doc ks);
  json_Unmarshal_bundleDoc := sample_Unmarshal_doc;
  json_Marshal_bundleDoc := sample_Marshal_doc;
|}.

Lemma opt_nat_Z (o : option Z) : (0 <=? default 0 o)%Z = true → Z.of_nat <$> (Z.to_nat <$> o) = o.
Proof. destruct o; simpl; [|done]. intros ?%Z.leb_le. by rewrite Z2Nat.id. Qed.

Lemma sample_doc_roundtrip d bs :
  portable_keys (doc_JSONWebKeySet d) → sample_Marshal_doc d = inl bs → sample_Unmarshal_doc bs = inl d.
Proof.
  unfold sample_Marshal_doc. destruct (doc_encodable d) eqn:He; [|done]. intros Hp [= <-].
  unfold doc_encodable in He. apply andb_prop in He as [[He Hs]%andb_prop Hh].
  unfold sample_Unmarshal_doc, dec_doc. rewrite ?app_str_assoc.
  rewrite (dec_opt_enc enc_nat dec_nat) by (intros; apply enc_nat_reads); cbn [mbind option_bind].
  rewrite (dec_opt_enc enc_nat dec_nat) by (intros; apply enc_nat_reads); cbn [mbind option_bind].
  rewrite <- (app_str_nil_r (enc_list enc_keys _)).
  rewrite (dec_opt_enc enc_keys dec_keys); cbn [mbind option_bind].
  - rewrite !opt_nat_Z by done. by destruct d as [[] ? ?].
  - intros l Hl. rewrite Hl in He. apply enc_keys_reads; [by apply Hp|done].
Qed.

#[export] Instance sample_JoseLaws : JoseLaws sample_JoseLib.
Proof.
  split.
  - intros ks bs Hp Hm. cbn in Hm |- *. by rewrite (sample_doc_roundtrip (jwks_doc ks) bs Hp Hm).
  - intros d bs Hp _ _ Hm. by apply sample_doc_roundtrip.
Qed.
