(* ===== verification/JwtBundle.v ===== *)
(** * jwtbundle: bundles of JWT authorities

    Models src/bundle/jwtbundle/bundle.go and its set.go (an instance of
    BundleSet.v). A bundle is its trust domain and its map from key IDs to keys;
    each method runs under the bundle's mutex and is one atomic step. *)

From S2P Require Import Prelude Path GoUrl ID Crypto X509 X509Sample BundleSet Jose.

Record Bundle : Type := mkBundle {
  trustDomain : TrustDomain;
  jwtAuthorities : gmap string PublicKey;
}.

Definition wrapJwtbundleErr (err : error) : error := fmt_Errorf "jwtbundle: %w" [Arg_w (Some err)].

Definition New (td : TrustDomain) : Bundle := mkBundle td ∅.

Definition FromJWTAuthorities (td : TrustDomain) (m : gmap string PublicKey) : Bundle :=
  mkBundle td (CopyJWTAuthorities m).

Definition Bundle_TrustDomain (b : Bundle) : TrustDomain := trustDomain b.

Definition JWTAuthorities (b : Bundle) : gmap string PublicKey := CopyJWTAuthorities (jwtAuthorities b).

Definition FindJWTAuthority (b : Bundle) (keyID : string) : option PublicKey * bool :=
  match jwtAuthorities b !! keyID with Some k => (Some k, true) | None => (None, false) end.

Definition HasJWTAuthority (b : Bundle) (keyID : string) : bool :=
  bool_decide (is_Some (jwtAuthorities b !! keyID)).

Definition AddJWTAuthority (b : Bundle) (keyID : string) (jwtAuthority : PublicKey) : res Bundle :=
  if bool_decide (keyID = "") then Err (wrapJwtbundleErr (errors_New "keyID cannot be empty"))
  else Ok (mkBundle (trustDomain b) (<[keyID:=jwtAuthority]> (jwtAuthorities b))).

Definition RemoveJWTAuthority (b : Bundle) (keyID : string) : Bundle :=
  mkBundle (trustDomain b) (delete keyID (jwtAuthorities b)).

Definition SetJWTAuthorities (b : Bundle) (m : gmap string PublicKey) : Bundle :=
  mkBundle (trustDomain b) (CopyJWTAuthorities m).

Definition Empty (b : Bundle) : bool := (size (jwtAuthorities b) =? 0)%nat.

Definition Clone (b : Bundle) : Bundle := FromJWTAuthorities (trustDomain b) (jwtAuthorities b).

(** Pointer arguments: None is nil. *)
Definition Equal (b other : option Bundle) : bool :=
  match b, other with
  | None, None => true
  | None, Some _ | Some _, None => false
  | Some b, Some other =>
      bool_decide (trustDomain b = trustDomain other)
      && JWTAuthoritiesEqual (jwtAuthorities b) (jwtAuthorities other)
  end.

Definition GetJWTBundleForTrustDomain (b : Bundle) (td : TrustDomain) : res Bundle :=
  if negb (bool_decide (trustDomain b = td))
  then Err (wrapJwtbundleErr (fmt_Errorf "no JWT bundle for trust domain %q" [Arg_s (TrustDomain_String td)]))
  else Ok b.

Section codec.
Context {J : JoseLib}.

Fixpoint Parse_loop (bundle : Bundle) (i : nat) (keys : list JSONWebKey) : res Bundle :=
  match keys with
  | [] => Ok bundle
  | key :: keys =>
      let! bundle := wrap_err (λ err, wrapJwtbundleErr
          (fmt_Errorf "error adding authority %d of JWKS: %v" [Arg_d (Z.of_nat i); Arg_v (errors_Unwrap err)]))
          (AddJWTAuthority bundle (KeyID key) (Key key)) in
      Parse_loop bundle (S i) keys
  end.

Definition Parse (td : TrustDomain) (bundleBytes : string) : res Bundle :=
  let! jwks := wrap_err (λ err, wrapJwtbundleErr (fmt_Errorf "unable to parse JWKS: %v" [Arg_v (Some err)]))
                 (of_lib (json_Unmarshal_JWKS bundleBytes)) in
  Parse_loop (New td) 0 (default [] (Keys jwks)).

Definition Load (os_ReadFile : string → string + error) (td : TrustDomain) (path : string) : res Bundle :=
  let! bundleBytes := wrap_err (λ err, wrapJwtbundleErr
                        (fmt_Errorf "unable to read JWT bundle: %w" [Arg_w (Some err)]))
                      (of_lib (os_ReadFile path)) in
  Parse td bundleBytes.

(** [r]: the outcome of io.ReadAll on the reader. *)
Definition Read (td : TrustDomain) (r : string + error) : res Bundle :=
  let! b := wrap_err (λ err, wrapJwtbundleErr (fmt_Errorf "unable to read: %v" [Arg_v (Some err)])) (of_lib r) in
  Parse td b.

(** The keys of the document, for an order of the map iteration. *)
Definition Marshal_keys (order : list (string * PublicKey)) : list JSONWebKey :=
  foldl (λ keys kv, keys ++ [mkJSONWebKey kv.2 [] kv.1 ""]) [] order.

Definition Marshal_in (order : list (string * PublicKey)) : res string :=
  of_lib (json_Marshal_JWKS (mkJSONWebKeySet (Some (Marshal_keys order)))).

Definition Marshal (b : Bundle) : res string := Marshal_in (map_to_list (jwtAuthorities b)).
End codec.

(** ** set.go *)
#[export] Instance Bundle_HasTrustDomain : HasTrustDomain Bundle := trustDomain.
Definition Set_ : Type := BundleSet.Set_ Bundle.
Definition NewSet (bundles : list (option Bundle)) : Set_ := BundleSet.NewSet bundles.
Definition Add (s : Set_) (bundle : option Bundle) : Set_ := Set_Add s bundle.
Definition Remove (s : Set_) (td : TrustDomain) : Set_ := Set_Remove s td.
Definition Has (s : Set_) (td : TrustDomain) : bool := Set_Has s td.
Definition Get (s : Set_) (td : TrustDomain) : option Bundle * bool := Set_Get s td.
Definition Bundles (s : Set_) : list Bundle := Set_Bundles s.
Definition Len (s : Set_) : nat := Set_Len s.
Definition Set_GetJWTBundleForTrustDomain (s : Set_) (td : TrustDomain) : res Bundle :=
  Set_lookup wrapJwtbundleErr "no JWT bundle for trust domain %q" s td.

(** ** source.go *)
Class Source (T : Type) := GetJWT : T → TrustDomain → res Bundle.
#[export] Instance Bundle_Source : Source Bundle := GetJWTBundleForTrustDomain.
#[export] Instance Set_Source : Source Set_ := Set_GetJWTBundleForTrustDomain.

(** What a source promises: the bundle it returns is for the trust domain asked. *)
Definition source_ok `{Source T} (s : T) : Prop := ∀ td b, GetJWT s td = Ok b → trustDomain b = td.

(** ** Lemmas *)
Lemma jwt_Bundle_source_ok (b : Bundle) : source_ok b.
Proof.
  intros td b'. unfold GetJWT, Bundle_Source, GetJWTBundleForTrustDomain.
  case_bool_decide; simpl; naive_solver.
Qed.

Lemma jwt_Set_source_ok (s : Set_) : set_wf s → source_ok s.
Proof. intros Hs td b. by apply Set_lookup_td. Qed.
#[export] Hint Resolve jwt_Bundle_source_ok jwt_Set_source_ok : go.

(** The loop succeeds exactly when no key ID is empty; later entries win. *)
Lemma jwt_Parse_loop_Ok keys b i :
  Forall (λ key, KeyID key ≠ "") keys →
  Parse_loop b i keys = Ok (mkBundle (trustDomain b)
    (foldl (λ m kv, <[kv.1:=kv.2]> m) (jwtAuthorities b) ((λ key, (KeyID key, Key key)) <$> keys))).
Proof.
  intros Hk; revert b i; induction Hk as [|key keys Hne Hk IH]; intros b i; simpl; [by destruct b|].
  unfold AddJWTAuthority. rewrite bool_decide_false by done. simpl. by rewrite IH.
Qed.

Lemma jwt_Parse_loop_empty_ID l1 key l2 b i :
  Forall (λ key, KeyID key ≠ "") l1 → KeyID key = "" →
  Parse_loop b i (l1 ++ key :: l2) =
  Err (wrapJwtbundleErr (fmt_Errorf "error adding authority %d of JWKS: %v"
         [Arg_d (Z.of_nat (i + length l1)); Arg_v (Some (errors_New "keyID cannot be empty"))])).
Proof.
  intros Hk He; revert b i; induction Hk as [|key' keys Hne Hk IH]; intros b i; simpl.
  - unfold AddJWTAuthority. rewrite bool_decide_true by done. simpl. by rewrite Nat.add_0_r.
  - unfold AddJWTAuthority. rewrite bool_decide_false by done. simpl. rewrite IH.
    by rewrite Nat.add_succ_r.
Qed.

Lemma jwt_Parse_loop_td keys b i b' : Parse_loop b i keys = Ok b' → trustDomain b' = trustDomain b.
Proof.
  revert b i; induction keys as [|key keys IH]; intros b i; simpl; [by intros [= <-]|].
  intros (b1 & Hb%wrap_err_Ok & H)%bind_Ok_inv. unfold AddJWTAuthority in Hb.
  case_bool_decide; [done|]. simplify_eq/=. by apply IH in H.
Qed.

Lemma jwt_Parse_td `{JoseLib} td s b : Parse td s = Ok b → trustDomain b = td.
Proof. intros (ks & _ & Hl)%bind_Ok_inv. by apply jwt_Parse_loop_td in Hl. Qed.

Lemma jwt_Parse_loop_no_panic keys b i : no_panic (Parse_loop b i keys) = true.
Proof.
  revert b i; induction keys as [|key keys IH]; intros b i; simpl; [done|].
  apply bind_no_panic; [|auto]. rewrite wrap_err_no_panic. unfold AddJWTAuthority. by case_bool_decide.
Qed.

Lemma jwt_Parse_no_panic `{JoseLib} td s : no_panic (Parse td s) = true.
Proof.
  apply bind_no_panic; [rewrite wrap_err_no_panic; apply of_lib_no_panic|]. intros ks _. apply jwt_Parse_loop_no_panic.
Qed.

Lemma jwt_Marshal_keys_fmap order : Marshal_keys order = (λ kv, mkJSONWebKey kv.2 [] kv.1 "") <$> order.
Proof. apply (foldl_snoc_fmap (λ kv, mkJSONWebKey kv.2 [] kv.1 "") order []). Qed.

(** ** Properties *)
Section jwtbundle_properties.
Context {L : X509Lib} {J : JoseLib} {JL : JoseLaws J}.

(** Marshal and Parse: whatever order Marshal visits the map in, its
    document parses to the same bundle when no key ID is empty; an empty key ID,
    which FromJWTAuthorities and SetJWTAuthorities let in, makes Parse fail with
    the error of AddJWTAuthority. *)
Theorem jwt_Marshal_Parse (b : Bundle) order bytes :
  all_supported (jwtAuthorities b) → keyIDs_ascii (jwtAuthorities b) →
  range_of (jwtAuthorities b) order → Marshal_in order = Ok bytes →
  if HasJWTAuthority b ""
  then ∃ i, Parse (trustDomain b) bytes =
    Err (wrapJwtbundleErr (fmt_Errorf "error adding authority %d of JWKS: %v"
           [Arg_d i; Arg_v (Some (errors_New "keyID cannot be empty"))]))
  else Parse (trustDomain b) bytes = Ok b.
Proof.
  intros Hsup Hasc Ho Hm. unfold Marshal_in in Hm.
  destruct (json_Marshal_JWKS _) as [bs|] eqn:Hj; simpl in Hm; simplify_eq.
  assert (Parse (trustDomain b) bytes = Parse_loop (New (trustDomain b)) 0 (Marshal_keys order)) as ->.
  { unfold Parse. rewrite (json_JWKS_roundtrip _ _) with (2 := Hj); [done|].
    intros l [= <-]. rewrite jwt_Marshal_keys_fmap. apply Forall_fmap, Forall_forall.
    intros [k key] Hk%(range_of_lookup (jwtAuthorities b)); [|done].
    repeat split; try done; [by apply (Hsup _ _ Hk)|by apply (Hasc _ _ Hk)]. }
  rewrite jwt_Marshal_keys_fmap. destruct (split_empty_ID order) as [Hne|(l1 & k & l2 & -> & Hne)].
  - assert (HasJWTAuthority b "" = false) as ->.
    { unfold HasJWTAuthority. apply bool_decide_eq_false. intros [k Hk].
      apply (range_of_lookup _ order) in Hk; [|done]. rewrite Forall_forall in Hne. by apply (Hne _ Hk). }
    rewrite jwt_Parse_loop_Ok by by apply Forall_fmap. simpl. rewrite <- list_fmap_compose. unfold compose.
    simpl. replace ((λ x, (x.1, x.2)) <$> order) with order
      by (rewrite <- (list_fmap_id order) at 1; apply list_fmap_ext; by intros ? []).
    pose proof (CopyJWTAuthorities_any_order _ _ Ho) as Hc. unfold CopyJWTAuthorities_loop in Hc.
    rewrite Hc. by destruct b.
  - assert (HasJWTAuthority b "" = true) as ->.
    { apply bool_decide_eq_true. exists k. apply (range_of_lookup _ _ _ _ Ho), elem_of_app. right. by left. }
    rewrite fmap_app, fmap_cons. rewrite jwt_Parse_loop_empty_ID; [|by apply Forall_fmap|done]. by eexists.
Qed.

(** The JWT authorities of a bundle: Add stores the key under its
    non-empty ID and touches no other, an empty ID is refused and nothing
    changes; Remove deletes one ID; Find, Has and Empty agree with the contents;
    Equal is equality on supported keys and Clone is equal to its original. *)
Theorem jwt_authorities_spec (b b' : Bundle) (keyID : string) (k : PublicKey) :
  (match AddJWTAuthority b keyID k with
   | Ok b1 => keyID ≠ "" ∧ trustDomain b1 = trustDomain b ∧
       ∀ i, FindJWTAuthority b1 i = if decide (i = keyID) then (Some k, true) else FindJWTAuthority b i
   | Err e => keyID = "" ∧ errors_Unwrap e = Some (errors_New "keyID cannot be empty")
   | Panic _ => False
   end) ∧
  (∀ i, FindJWTAuthority (RemoveJWTAuthority b keyID) i =
     if decide (i = keyID) then (None, false) else FindJWTAuthority b i) ∧
  (∀ i, (FindJWTAuthority b i).2 = HasJWTAuthority b i) ∧
  (Empty b = true ↔ ∀ i, HasJWTAuthority b i = false) ∧
  (Equal (Some b) (Some b') = true ↔ b = b' ∧ all_supported (jwtAuthorities b)) ∧
  Clone b = b.
Proof.
  split_and!.
  - unfold AddJWTAuthority. case_bool_decide; [by split|]. repeat split; [done..|].
    intros i. unfold FindJWTAuthority; simpl. case_decide; subst;
      [by rewrite lookup_insert_eq|by rewrite lookup_insert_ne].
  - intros i. unfold FindJWTAuthority; simpl. case_decide; subst;
      [by rewrite lookup_delete_eq|by rewrite lookup_delete_ne].
  - intros i. unfold FindJWTAuthority, HasJWTAuthority.
    destruct (_ !! i); [by rewrite bool_decide_true|rewrite bool_decide_false; [done|by intros []]].
  - unfold Empty. split.
    + intros He%Nat.eqb_eq i. apply bool_decide_eq_false.
      apply map_size_empty_iff in He. rewrite He, lookup_empty. by intros [].
    + intros Hn. apply Nat.eqb_eq, map_size_empty_iff, map_eq. intros i.
      specialize (Hn i). apply bool_decide_eq_false in Hn. rewrite lookup_empty. by apply eq_None_not_Some.
  - simpl. rewrite andb_true_iff, bool_decide_eq_true, JWTAuthoritiesEqual_true.
    destruct b, b'; simpl. naive_solver.
  - unfold Clone, FromJWTAuthorities. rewrite CopyJWTAuthorities_id. by destruct b.
Qed.
End jwtbundle_properties.

Definition sample_authorities : gmap string PublicKey :=
  <["k1" := Ed25519_PublicKey "a"]> (<["k2" := Ed25519_PublicKey "b"]> ∅).
Definition sample_jwt_bundle : Bundle := mkBundle (mkTrustDomain "example.org") sample_authorities.

Lemma sample_authorities_ok : all_supported sample_authorities ∧ keyIDs_ascii sample_authorities.
Proof. split; unfold all_supported, keyIDs_ascii; apply (bool_decide_unpack _); by vm_compute. Qed.

Lemma jwt_Marshal_Parse_witness :
  ∃ bytes, Marshal sample_jwt_bundle = Ok bytes ∧
    Parse (mkTrustDomain "example.org") bytes = Ok sample_jwt_bundle.
Proof.
  destruct (Marshal sample_jwt_bundle) as [bytes| |] eqn:Hm; try (by vm_compute in Hm).
  exists bytes. split; [done|].
  exact (jwt_Marshal_Parse sample_jwt_bundle _ bytes (proj1 sample_authorities_ok)
    (proj2 sample_authorities_ok) (range_of_map_to_list _) Hm).
Defined.
