(* ===== verification/SpiffeBundle.v ===== *)
(** * spiffebundle: bundles of every kind of authority

    Models src/bundle/spiffebundle/bundle.go and set.go (an instance of
    BundleSet.v with the three projections to the other bundle types). Durations
    are int64 nanoseconds, sequence numbers uint64; the arithmetic on refresh
    hints wraps as in Go. Each method is one atomic step under the bundle's
    mutex (Locks.v treats the locking itself, and the methods that lock twice). *)

From S2P Require Import Prelude Path GoUrl ID Crypto X509 X509Sample Pem BundleSet X509Bundle Jose JwtBundle WitBundle.

Definition x509SVIDUse : string := "x509-svid".
Definition jwtSVIDUse : string := "jwt-svid".
Definition witSVIDUse : string := "wit-svid".

(** time.Second *)
Definition Second : Z := 1000000000.

Record Bundle : Type := mkBundle {
  trustDomain : TrustDomain;
  refreshHint : option Z;
  sequenceNumber : option Z;
  jwtAuthorities : gmap string PublicKey;
  witAuthorities : gmap string PublicKey;
  x509Authorities : list Certificate;
}.

Definition wrapSpiffebundleErr (err : error) : error := fmt_Errorf "spiffebundle: %w" [Arg_w (Some err)].

(** ** Construction *)
Definition New (td : TrustDomain) : Bundle := mkBundle td None None ∅ ∅ [].

(** Field assignments. *)
Definition with_hint (b : Bundle) (h : option Z) : Bundle :=
  mkBundle (trustDomain b) h (sequenceNumber b) (jwtAuthorities b) (witAuthorities b) (x509Authorities b).
Definition with_seq (b : Bundle) (n : option Z) : Bundle :=
  mkBundle (trustDomain b) (refreshHint b) n (jwtAuthorities b) (witAuthorities b) (x509Authorities b).
Definition with_jwt (b : Bundle) (m : gmap string PublicKey) : Bundle :=
  mkBundle (trustDomain b) (refreshHint b) (sequenceNumber b) m (witAuthorities b) (x509Authorities b).
Definition with_wit (b : Bundle) (m : gmap string PublicKey) : Bundle :=
  mkBundle (trustDomain b) (refreshHint b) (sequenceNumber b) (jwtAuthorities b) m (x509Authorities b).
Definition with_x509 (b : Bundle) (l : list Certificate) : Bundle :=
  mkBundle (trustDomain b) (refreshHint b) (sequenceNumber b) (jwtAuthorities b) (witAuthorities b) l.

(** A nil argument panics (b.TrustDomain() dereferences it). *)
Definition FromX509Bundle (x509Bundle : option X509Bundle.Bundle) : res Bundle :=
  match x509Bundle with
  | None => Panic "nil pointer dereference"
  | Some b => Ok (with_x509 (New (X509Bundle.trustDomain b)) (X509Bundle.X509Authorities b))
  end.

Definition FromJWTBundle (jwtBundle : option JwtBundle.Bundle) : res Bundle :=
  match jwtBundle with
  | None => Panic "nil pointer dereference"
  | Some b => Ok (with_jwt (New (JwtBundle.trustDomain b)) (JwtBundle.JWTAuthorities b))
  end.

Definition FromWITBundle (witBundle : option WitBundle.Bundle) : res Bundle :=
  match witBundle with
  | None => Panic "nil pointer dereference"
  | Some b => Ok (with_wit (New (WitBundle.trustDomain b)) (WitBundle.WITAuthorities b))
  end.

Definition FromX509Authorities (td : TrustDomain) (certs : list Certificate) : Bundle :=
  with_x509 (New td) (CopyX509Authorities certs).
Definition FromJWTAuthorities (td : TrustDomain) (m : gmap string PublicKey) : Bundle :=
  with_jwt (New td) (CopyJWTAuthorities m).
Definition FromWITAuthorities (td : TrustDomain) (m : gmap string PublicKey) : Bundle :=
  with_wit (New td) (CopyJWTAuthorities m).

(** ** X.509 authorities *)
Definition Bundle_TrustDomain (b : Bundle) : TrustDomain := trustDomain b.

Definition X509Authorities (b : Bundle) : list Certificate := CopyX509Authorities (x509Authorities b).

Definition AddX509Authority (b : Bundle) (c : Certificate) : Bundle :=
  if has_equal (x509Authorities b) c then b else with_x509 b (x509Authorities b ++ [c]).

Definition RemoveX509Authority (b : Bundle) (c : Certificate) : Bundle :=
  with_x509 b (remove_equal (x509Authorities b) c).

Definition HasX509Authority (b : Bundle) (c : Certificate) : bool := has_equal (x509Authorities b) c.

Definition SetX509Authorities (b : Bundle) (certs : list Certificate) : Bundle :=
  with_x509 b (CopyX509Authorities certs).

(** ** JWT authorities *)
Definition JWTAuthorities (b : Bundle) : gmap string PublicKey := CopyJWTAuthorities (jwtAuthorities b).

Definition FindJWTAuthority (b : Bundle) (keyID : string) : option PublicKey * bool :=
  (jwtAuthorities b !! keyID, bool_decide (is_Some (jwtAuthorities b !! keyID))).

Definition HasJWTAuthority (b : Bundle) (keyID : string) : bool :=
  bool_decide (is_Some (jwtAuthorities b !! keyID)).

Definition AddJWTAuthority (b : Bundle) (keyID : string) (k : PublicKey) : res Bundle :=
  if bool_decide (keyID = "") then Err (wrapSpiffebundleErr (errors_New "keyID cannot be empty"))
  else Ok (with_jwt b (<[keyID:=k]> (jwtAuthorities b))).

Definition RemoveJWTAuthority (b : Bundle) (keyID : string) : Bundle :=
  with_jwt b (delete keyID (jwtAuthorities b)).

Definition SetJWTAuthorities (b : Bundle) (m : gmap string PublicKey) : Bundle :=
  with_jwt b (CopyJWTAuthorities m).

(** ** WIT authorities *)
Definition WITAuthorities (b : Bundle) : gmap string PublicKey := CopyJWTAuthorities (witAuthorities b).

Definition FindWITAuthority (b : Bundle) (keyID : string) : option PublicKey * bool :=
  (witAuthorities b !! keyID, bool_decide (is_Some (witAuthorities b !! keyID))).

Definition HasWITAuthority (b : Bundle) (keyID : string) : bool :=
  bool_decide (is_Some (witAuthorities b !! keyID)).

Definition AddWITAuthority (b : Bundle) (keyID : string) (k : PublicKey) : res Bundle :=
  if bool_decide (keyID = "") then Err (wrapSpiffebundleErr (errors_New "keyID cannot be empty"))
  else Ok (with_wit b (<[keyID:=k]> (witAuthorities b))).

Definition RemoveWITAuthority (b : Bundle) (keyID : string) : Bundle :=
  with_wit b (delete keyID (witAuthorities b)).

Definition SetWITAuthorities (b : Bundle) (m : gmap string PublicKey) : Bundle :=
  with_wit b (CopyJWTAuthorities m).

Definition Empty (b : Bundle) : bool :=
  (length (x509Authorities b) =? 0)%nat && (size (jwtAuthorities b) =? 0)%nat
  && (size (witAuthorities b) =? 0)%nat.

(** ** Refresh hint and sequence number *)
Definition RefreshHint (b : Bundle) : Z * bool :=
  match refreshHint b with Some h => (h, true) | None => (0%Z, false) end.
Definition SetRefreshHint (b : Bundle) (h : Z) : Bundle := with_hint b (Some h).
Definition ClearRefreshHint (b : Bundle) : Bundle := with_hint b None.

Definition SequenceNumber (b : Bundle) : Z * bool :=
  match sequenceNumber b with Some n => (n, true) | None => (0%Z, false) end.
Definition SetSequenceNumber (b : Bundle) (n : Z) : Bundle := with_seq b (Some n).
Definition ClearSequenceNumber (b : Bundle) : Bundle := with_seq b None.

(** ** Copying, comparing, projecting *)
Definition copyRefreshHint (h : option Z) : option Z :=
  match h with None => None | Some copied => Some copied end.
Definition copySequenceNumber (n : option Z) : option Z :=
  match n with None => None | Some copied => Some copied end.

Definition Clone (b : Bundle) : Bundle :=
  mkBundle (trustDomain b) (copyRefreshHint (refreshHint b)) (copySequenceNumber (sequenceNumber b))
    (CopyJWTAuthorities (jwtAuthorities b)) (CopyJWTAuthorities (witAuthorities b))
    (CopyX509Authorities (x509Authorities b)).

Definition X509Bundle_ (b : Bundle) : X509Bundle.Bundle :=
  X509Bundle.FromX509Authorities (trustDomain b) (x509Authorities b).
Definition JWTBundle (b : Bundle) : JwtBundle.Bundle :=
  JwtBundle.FromJWTAuthorities (trustDomain b) (jwtAuthorities b).
Definition WITBundle (b : Bundle) : WitBundle.Bundle :=
  WitBundle.FromWITAuthorities (trustDomain b) (witAuthorities b).

(** The guard shared by the four Get...ForTrustDomain methods. *)
Definition for_trust_domain {A} (b : Bundle) (td : TrustDomain) (msg : string) (a : A) : res A :=
  if negb (bool_decide (trustDomain b = td))
  then Err (wrapSpiffebundleErr (fmt_Errorf msg [Arg_s (TrustDomain_String td)]))
  else Ok a.

Definition GetBundleForTrustDomain (b : Bundle) (td : TrustDomain) : res Bundle :=
  for_trust_domain b td "no SPIFFE bundle for trust domain %q" b.
Definition GetX509BundleForTrustDomain (b : Bundle) (td : TrustDomain) : res X509Bundle.Bundle :=
  for_trust_domain b td "no X.509 bundle for trust domain %q" (X509Bundle_ b).
Definition GetJWTBundleForTrustDomain (b : Bundle) (td : TrustDomain) : res JwtBundle.Bundle :=
  for_trust_domain b td "no JWT bundle for trust domain %q" (JWTBundle b).
Definition GetWITBundleForTrustDomain (b : Bundle) (td : TrustDomain) : res WitBundle.Bundle :=
  for_trust_domain b td "no WIT bundle for trust domain %q" (WITBundle b).

Definition refreshHintEqual (a b : option Z) : bool :=
  match a, b with
  | None, None => true
  | None, Some _ | Some _, None => false
  | Some x, Some y => (x =? y)%Z
  end.
Definition sequenceNumberEqual (a b : option Z) : bool :=
  match a, b with
  | None, None => true
  | None, Some _ | Some _, None => false
  | Some x, Some y => (x =? y)%Z
  end.

Definition Equal (b other : option Bundle) : res bool :=
  match b, other with
  | None, None => Ok true
  | None, Some _ | Some _, None => Ok false
  | Some b, Some other =>
      if bool_decide (trustDomain b = trustDomain other)
         && refreshHintEqual (refreshHint b) (refreshHint other)
         && sequenceNumberEqual (sequenceNumber b) (sequenceNumber other)
         && JWTAuthoritiesEqual (jwtAuthorities b) (jwtAuthorities other)
         && JWTAuthoritiesEqual (witAuthorities b) (witAuthorities other)
      then CertsEqual (x509Authorities b) (x509Authorities other)
      else Ok false
  end.

(** ** Documents *)

(** int64((hint + (time.Second - 1)) / time.Second): Go's division truncates. *)
Definition hint_seconds (h : Z) : Z := Z.quot (wrap_int64 (h + (Second - 1))) Second.

(** time.Second * time.Duration(hint). *)
Definition hint_duration (secs : Z) : Z := wrap_int64 (Second * secs).

Section codec.
Context {J : JoseLib}.

Fixpoint Parse_loop (bundle : Bundle) (i : nat) (keys : list JSONWebKey) : res Bundle :=
  match keys with
  | [] => Ok bundle
  | key :: keys =>
      let! bundle :=
        if bool_decide (Use key = x509SVIDUse) then
          match Certificates key with
          | [c] => Ok (AddX509Authority bundle c)
          | cs => Err (wrapSpiffebundleErr
                    (fmt_Errorf "expected a single certificate in %s entry %d; got %d"
                       [Arg_s x509SVIDUse; Arg_d (Z.of_nat i); Arg_d (Z.of_nat (length cs))]))
          end
        else if bool_decide (Use key = jwtSVIDUse) then
          wrap_err (λ err, wrapSpiffebundleErr (fmt_Errorf "error adding authority %d of JWKS: %w"
                      [Arg_d (Z.of_nat i); Arg_w (errors_Unwrap err)]))
            (AddJWTAuthority bundle (KeyID key) (Key key))
        else if bool_decide (Use key = witSVIDUse) then
          wrap_err (λ err, wrapSpiffebundleErr (fmt_Errorf "error adding WIT authority %d of JWKS: %w"
                      [Arg_d (Z.of_nat i); Arg_w (errors_Unwrap err)]))
            (AddWITAuthority bundle (KeyID key) (Key key))
        else Ok bundle in
      Parse_loop bundle (S i) keys
  end.

(** The bundle before its keys are read. *)
Definition Parse_header (td : TrustDomain) (jwks : bundleDoc) : Bundle :=
  let bundle := New td in
  let bundle := match doc_RefreshHint jwks with
                | Some h => SetRefreshHint bundle (hint_duration h) | None => bundle end in
  match doc_SequenceNumber jwks with Some n => SetSequenceNumber bundle n | None => bundle end.

Definition Parse (td : TrustDomain) (bundleBytes : string) : res Bundle :=
  let! jwks := wrap_err (λ err, wrapSpiffebundleErr (fmt_Errorf "unable to parse JWKS: %v" [Arg_v (Some err)]))
                 (of_lib (json_Unmarshal_bundleDoc bundleBytes)) in
  let bundle := Parse_header td jwks in
  match Keys (doc_JSONWebKeySet jwks) with
  | None => Err (wrapSpiffebundleErr (errors_New "no authorities found"))
  | Some keys => Parse_loop bundle 0 keys
  end.

Definition Load (os_ReadFile : string → string + error) (td : TrustDomain) (path : string) : res Bundle :=
  let! bundleBytes := wrap_err (λ err, wrapSpiffebundleErr
                        (fmt_Errorf "unable to read SPIFFE bundle: %w" [Arg_w (Some err)]))
                      (of_lib (os_ReadFile path)) in
  Parse td bundleBytes.

(** [r]: the outcome of io.ReadAll on the reader. *)
Definition Read (td : TrustDomain) (r : string + error) : res Bundle :=
  let! b := wrap_err (λ err, wrapSpiffebundleErr (fmt_Errorf "unable to read: %v" [Arg_v (Some err)]))
              (of_lib r) in
  Parse td b.

(** append on a possibly nil slice: nil only when nothing was appended. *)
Definition append_key (keys : option (list JSONWebKey)) (k : JSONWebKey) : option (list JSONWebKey) :=
  Some (default [] keys ++ [k]).

Definition x509_key (c : Certificate) : JSONWebKey := mkJSONWebKey (cert_PublicKey c) [c] "" x509SVIDUse.
Definition jwt_key (kv : string * PublicKey) : JSONWebKey := mkJSONWebKey kv.2 [] kv.1 jwtSVIDUse.
Definition wit_key (kv : string * PublicKey) : JSONWebKey := mkJSONWebKey kv.2 [] kv.1 witSVIDUse.

(** The document, for an order of each map iteration. *)
Definition Marshal_doc (b : Bundle) (jwt_order wit_order : list (string * PublicKey)) : bundleDoc :=
  let keys := foldl (λ keys c, append_key keys (x509_key c)) None (x509Authorities b) in
  let keys := foldl (λ keys kv, append_key keys (jwt_key kv)) keys jwt_order in
  let keys := foldl (λ keys kv, append_key keys (wit_key kv)) keys wit_order in
  mkBundleDoc (mkJSONWebKeySet keys) (sequenceNumber b) (hint_seconds <$> refreshHint b).

Definition Marshal_in (b : Bundle) (jwt_order wit_order : list (string * PublicKey)) : res string :=
  of_lib (json_Marshal_bundleDoc (Marshal_doc b jwt_order wit_order)).

Definition Marshal (b : Bundle) : res string :=
  Marshal_in b (map_to_list (jwtAuthorities b)) (map_to_list (witAuthorities b)).
End codec.

(** ** set.go *)
#[export] Instance Bundle_HasTrustDomain : HasTrustDomain Bundle := trustDomain.
Definition Set_ : Type := BundleSet.Set_ Bundle.
Definition NewSet (bundles : list (option Bundle)) : Set_ := BundleSet.NewSet bundles.
Definition Add (s : Set_) (bundle : option Bundle) : Set_ := Set_Add s bundle.
Definition Remove (s : Set_) (td : TrustDomain) : Set_ := Set_Remove s td.
Definition Has (s : Set_) (td : TrustDomain) : bool := Set_Has s td.
Definition Get (s : Set_) (td : TrustDomain) : option Bundle * bool := Set_Get s td.
Definition Bundles (s : Set_) : list Bundle := Set_Bundles s.
Definition Len (s : Set_) : nat := Set_Len s.
Definition Set_GetBundleForTrustDomain (s : Set_) (td : TrustDomain) : res Bundle :=
  Set_lookup wrapSpiffebundleErr "no SPIFFE bundle for trust domain %q" s td.
Definition Set_GetX509BundleForTrustDomain (s : Set_) (td : TrustDomain) : res X509Bundle.Bundle :=
  let! bundle := Set_lookup wrapSpiffebundleErr "no X.509 bundle for trust domain %q" s td in
  Ok (X509Bundle_ bundle).
Definition Set_GetJWTBundleForTrustDomain (s : Set_) (td : TrustDomain) : res JwtBundle.Bundle :=
  let! bundle := Set_lookup wrapSpiffebundleErr "no JWT bundle for trust domain %q" s td in
  Ok (JWTBundle bundle).
Definition Set_GetWITBundleForTrustDomain (s : Set_) (td : TrustDomain) : res WitBundle.Bundle :=
  let! bundle := Set_lookup wrapSpiffebundleErr "no WIT bundle for trust domain %q" s td in
  Ok (WITBundle bundle).

(** ** source.go, and the sources of the other kinds of bundles *)
Class Source (T : Type) := GetBundle : T → TrustDomain → res Bundle.
#[export] Instance Bundle_Source : Source Bundle := GetBundleForTrustDomain.
#[export] Instance Set_Source : Source Set_ := Set_GetBundleForTrustDomain.
#[export] Instance Bundle_X509Source : X509Bundle.Source Bundle := GetX509BundleForTrustDomain.
#[export] Instance Set_X509Source : X509Bundle.Source Set_ := Set_GetX509BundleForTrustDomain.
#[export] Instance Bundle_JWTSource : JwtBundle.Source Bundle := GetJWTBundleForTrustDomain.
#[export] Instance Set_JWTSource : JwtBundle.Source Set_ := Set_GetJWTBundleForTrustDomain.
#[export] Instance Bundle_WITSource : WitBundle.Source Bundle := GetWITBundleForTrustDomain.
#[export] Instance Set_WITSource : WitBundle.Source Set_ := Set_GetWITBundleForTrustDomain.

(** ** Lemmas *)
Lemma for_trust_domain_Ok {A} b td msg (a a' : A) :
  for_trust_domain b td msg a = Ok a' ↔ a' = a ∧ trustDomain b = td.
Proof. unfold for_trust_domain. case_bool_decide; simpl; naive_solver. Qed.

Lemma foldl_append_key {A} (f : A → JSONWebKey) l keys :
  foldl (λ keys a, append_key keys (f a)) keys l =
  match l with [] => keys | _ => Some (default [] keys ++ (f <$> l)) end.
Proof.
  revert keys; induction l as [|a l IH]; intros keys; [done|].
  simpl foldl. rewrite IH. unfold append_key. simpl.
  destruct l; [done|]. by rewrite <- app_assoc.
Qed.

(** The keys of the document: absent exactly when the bundle is empty. *)
Lemma Marshal_doc_keys b jo wo :
  Keys (doc_JSONWebKeySet (Marshal_doc b jo wo)) =
  let l := (x509_key <$> x509Authorities b) ++ (jwt_key <$> jo) ++ (wit_key <$> wo) in
  match l with [] => None | _ => Some l end.
Proof.
  unfold Marshal_doc; cbn [Keys doc_JSONWebKeySet]. rewrite !foldl_append_key.
  destruct (x509Authorities b), jo, wo; simpl; by rewrite <- ?app_assoc, ?app_nil_r.
Qed.

Lemma Marshal_doc_keys_Some b jo wo l :
  Keys (doc_JSONWebKeySet (Marshal_doc b jo wo)) = Some l →
  l = (x509_key <$> x509Authorities b) ++ (jwt_key <$> jo) ++ (wit_key <$> wo).
Proof. rewrite Marshal_doc_keys. cbv zeta. case_match; [done|]. congruence. Qed.

Lemma Parse_loop_app l1 l2 b i :
  Parse_loop b i (l1 ++ l2) = let! b' := Parse_loop b i l1 in Parse_loop b' (i + length l1) l2.
Proof.
  revert b i; induction l1 as [|key l1 IH]; intros b i.
  - cbn. by rewrite Nat.add_0_r.
  - cbn [app Parse_loop].
    match goal with |- context [mbind (λ bundle, Parse_loop bundle (S i) (l1 ++ l2)) ?m] => destruct m end;
      cbn [mbind res_bind]; [|done..].
    rewrite IH. simpl. by rewrite Nat.add_succ_r.
Qed.

Lemma Parse_loop_x509 cs b i :
  NoDup (Raw <$> (x509Authorities b ++ cs)) →
  Parse_loop b i (x509_key <$> cs) = Ok (with_x509 b (x509Authorities b ++ cs)).
Proof.
  revert b i; induction cs as [|c cs IH]; intros b i Hnd; cbn [fmap list_fmap Parse_loop].
  - rewrite app_nil_r. by destruct b.
  - rewrite bool_decide_true by done. cbn [x509_key Certificates mbind res_bind].
    unfold AddX509Authority. assert (has_equal (x509Authorities b) c = false) as ->.
    { apply has_equal_false. rewrite fmap_app in Hnd. apply NoDup_app in Hnd as (_ & Hd & _).
      intros Hin. apply (Hd _ Hin). by left. }
    rewrite IH by (simpl; by rewrite <- app_assoc). simpl. by rewrite <- app_assoc.
Qed.

Lemma Parse_loop_jwt order b i :
  Forall (λ kv, kv.1 ≠ "") order →
  Parse_loop b i (jwt_key <$> order) = Ok (with_jwt b (foldl (λ m kv, <[kv.1:=kv.2]> m) (jwtAuthorities b) order)).
Proof.
  intros Ho; revert b i; induction Ho as [|kv order Hne Ho IH]; intros b i; cbn [fmap list_fmap Parse_loop].
  - by destruct b.
  - rewrite bool_decide_false, bool_decide_true by done.
    unfold AddJWTAuthority at 1. rewrite bool_decide_false by done. cbn [wrap_err mbind res_bind]. by rewrite IH.
Qed.

Lemma Parse_loop_wit order b i :
  Forall (λ kv, kv.1 ≠ "") order →
  Parse_loop b i (wit_key <$> order) = Ok (with_wit b (foldl (λ m kv, <[kv.1:=kv.2]> m) (witAuthorities b) order)).
Proof.
  intros Ho; revert b i; induction Ho as [|kv order Hne Ho IH]; intros b i; cbn [fmap list_fmap Parse_loop].
  - by destruct b.
  - rewrite bool_decide_false, bool_decide_false, bool_decide_true by done.
    unfold AddWITAuthority at 1. rewrite bool_decide_false by done. cbn [wrap_err mbind res_bind]. by rewrite IH.
Qed.

(** A map of keys that survives the document: supported types, ASCII and
    non-empty IDs. *)
Definition portable_map (m : gmap string PublicKey) : Prop :=
  map_Forall (λ k v, supported_key v ∧ ascii_text k = true ∧ k ≠ "") m.

Record portable `{X509Lib} (b : Bundle) : Prop := {
  portable_x509 : Forall (λ c, parsed_cert c ∧ supported_key (cert_PublicKey c)) (x509Authorities b);
  portable_distinct : NoDup (Raw <$> x509Authorities b);
  portable_jwt : portable_map (jwtAuthorities b);
  portable_wit : portable_map (witAuthorities b);
  portable_hint : ∀ h, refreshHint b = Some h → int64_ok h;
  portable_seq : ∀ n, sequenceNumber b = Some n → uint64_ok n;
}.

Lemma portable_map_order m order (P : string * PublicKey → Prop) :
  portable_map m → range_of m order →
  (∀ kv, supported_key kv.2 → ascii_text kv.1 = true → kv.1 ≠ "" → P kv) → Forall P order.
Proof.
  intros Hm Ho HP. apply Forall_forall. intros [k v] Hin%(range_of_lookup m); [|done].
  destruct (Hm _ _ Hin) as (? & ? & ?). by apply HP.
Qed.

Lemma portable_map_IDs m order :
  portable_map m → range_of m order → Forall (λ kv, kv.1 ≠ "") order.
Proof. intros Hm Ho. by eapply portable_map_order. Qed.

Lemma hint_seconds_ok h : int64_ok (hint_seconds h).
Proof.
  unfold hint_seconds, int64_ok, Second.
  pose proof (wrap_int64_ok (h + (1000000000 - 1))) as Hw. unfold int64_ok in Hw.
  set (w := wrap_int64 _) in *. pose proof (Z.quot_rem' w 1000000000) as Hq.
  pose proof (Z.rem_bound_abs w 1000000000 ltac:(lia)) as Hr. lia.
Qed.

Lemma range_of_nil {V} (m : gmap string V) order : range_of m order → (order = [] ↔ size m = 0).
Proof.
  intros Ho. rewrite map_size_empty_iff. split.
  - intros ->. apply map_eq. intros k. rewrite lookup_empty. apply eq_None_not_Some. intros [v Hv].
    apply (range_of_lookup _ _ _ _ Ho) in Hv. by apply not_elem_of_nil in Hv.
  - intros ->. unfold range_of in Ho. rewrite map_to_list_empty in Ho. by apply Permutation_nil_r.
Qed.

Lemma Empty_doc b jo wo :
  range_of (jwtAuthorities b) jo → range_of (witAuthorities b) wo →
  Empty b = true ↔ Keys (doc_JSONWebKeySet (Marshal_doc b jo wo)) = None.
Proof.
  intros Hj Hw. rewrite Marshal_doc_keys. unfold Empty.
  rewrite !andb_true_iff, !Nat.eqb_eq, <- (range_of_nil _ _ Hj), <- (range_of_nil _ _ Hw).
  destruct (x509Authorities b), jo, wo; simpl; naive_solver.
Qed.

(** ** Properties *)
Section spiffebundle_properties.
Context {L : X509Lib} {J : JoseLib} {JL : JoseLaws J}.

(** The document of a portable bundle is one that JSON carries faithfully. *)
Lemma Marshal_doc_roundtrip b jo wo bs :
  portable b → range_of (jwtAuthorities b) jo → range_of (witAuthorities b) wo →
  json_Marshal_bundleDoc (Marshal_doc b jo wo) = inl bs →
  json_Unmarshal_bundleDoc bs = inl (Marshal_doc b jo wo).
Proof.
  intros [Hx _ Hj Hw Hh Hs] Hjo Hwo. apply json_bundleDoc_roundtrip.
  - intros l ->%Marshal_doc_keys_Some.
    rewrite !Forall_app, !Forall_fmap. split_and!.
    + eapply Forall_impl; [exact Hx|]. intros c [Hp Hk]. split_and!; try done; simpl; [by repeat constructor|].
      by intros c' [= <-].
    + eapply portable_map_order; [exact Hj|done|]. intros kv ???. by split_and!.
    + eapply portable_map_order; [exact Hw|done|]. intros kv ???. by split_and!.
  - exact Hs.
  - intros n Hn. simpl in Hn. destruct (refreshHint b) as [h|]; simplify_eq/=. apply hint_seconds_ok.
Qed.

Lemma Marshal_in_Parse (b : Bundle) jo wo bytes :
  portable b → range_of (jwtAuthorities b) jo → range_of (witAuthorities b) wo →
  Marshal_in b jo wo = Ok bytes →
  Parse (trustDomain b) bytes =
    if Empty b then Err (wrapSpiffebundleErr (errors_New "no authorities found"))
    else Ok (with_hint b ((λ h, hint_duration (hint_seconds h)) <$> refreshHint b)).
Proof.
  intros Hb Hjo Hwo Hm. pose proof Hb as [_ Hnd Hj Hw _ _].
  unfold Marshal_in in Hm. destruct (json_Marshal_bundleDoc _) as [bs|] eqn:Hjs; simpl in Hm; simplify_eq.
  unfold Parse. rewrite (Marshal_doc_roundtrip b jo wo) by done. cbn [of_lib wrap_err mbind res_bind].
  pose proof (Empty_doc b jo wo Hjo Hwo) as He.
  destruct (Keys (doc_JSONWebKeySet (Marshal_doc b jo wo))) as [l|] eqn:Hl.
  - destruct (Empty b) eqn:HE; [by pose proof (proj1 He eq_refl)|]. apply Marshal_doc_keys_Some in Hl as ->.
    rewrite Parse_loop_app, Parse_loop_x509.
    2: { unfold Parse_header. by repeat case_match. }
    cbn [mbind res_bind].
    rewrite Parse_loop_app, Parse_loop_jwt by by apply (portable_map_IDs (jwtAuthorities b)).
    cbn [mbind res_bind]. rewrite Parse_loop_wit by by apply (portable_map_IDs (witAuthorities b)).
    unfold Parse_header, Marshal_doc; cbn [doc_RefreshHint doc_SequenceNumber].
    pose proof (CopyJWTAuthorities_any_order _ _ Hjo) as Cj. pose proof (CopyJWTAuthorities_any_order _ _ Hwo) as Cw.
    unfold CopyJWTAuthorities_loop in Cj, Cw.
    destruct b as [td [h|] [n|] jm wm xs]; cbn in *; by rewrite Cj, Cw.
  - by rewrite (proj2 He eq_refl).
Qed.

(** Refresh hints in documents: a non-negative hint comes back as the
    least whole number of seconds that is not below it, as long as it is at most
    one second short of the largest duration; above that the addition in Marshal
    overflows and the document carries a negative hint. A hint read from a
    document wraps around unless its number of seconds fits a duration. *)
Lemma refresh_hint_rounding (h : Z) :
  int64_ok h →
  ((0 ≤ h ≤ 2 ^ 63 - Second)%Z →
     let d := hint_duration (hint_seconds h) in
     (d mod Second = 0 ∧ h ≤ d < h + Second)%Z) ∧
  ((2 ^ 63 - Second < h)%Z → (hint_seconds h < 0)%Z) ∧
  (hint_duration h = Second * h ↔ int64_ok (Second * h))%Z.
Proof.
  unfold hint_duration, hint_seconds, int64_ok, Second. intros Hh. split_and!.
  - intros Hr. rewrite (wrap_int64_id (h + _)) by (unfold int64_ok; lia).
    rewrite Z.quot_div_nonneg by lia.
    assert (0 ≤ 1000000000 * ((h + 999999999) / 1000000000) < 2 ^ 63)%Z as Hd.
    { pose proof (Z.mul_div_le (h + 999999999) 1000000000 eq_refl).
      assert (0 ≤ (h + 999999999) / 1000000000)%Z by (apply Z.div_pos; lia). lia. }
    replace (1000000000 - 1)%Z with 999999999%Z by lia.
    rewrite wrap_int64_id by (unfold int64_ok; lia). split.
    + rewrite Z.mul_comm. by rewrite Z.mod_mul.
    + pose proof (Z.div_mod (h + 999999999) 1000000000 ltac:(lia)).
      pose proof (Z.mod_pos_bound (h + 999999999) 1000000000 eq_refl). lia.
  - intros Hr. assert (wrap_int64 (h + (1000000000 - 1)) = h + 999999999 - 2 ^ 64)%Z as ->.
    2: { set (w := (h + 999999999 - 2 ^ 64)%Z). pose proof (Z.quot_rem' w 1000000000).
      pose proof (Z.rem_bound_abs w 1000000000 ltac:(lia)). lia. }
    unfold wrap_int64. replace (h + (1000000000 - 1) + 2 ^ 63)%Z with (h + 999999999 - 2 ^ 63 + 1 * 2 ^ 64)%Z by lia.
    rewrite Z.mod_add, Z.mod_small; lia.
  - split; [|by apply wrap_int64_id]. intros <-. apply wrap_int64_ok.
Qed.

(** [C32] Marshal and Parse: whatever order the two maps are visited in, the
    document of a portable bundle parses to the same bundle with its refresh hint
    rounded to whole seconds, except that the document of an empty bundle has a
    null "keys" member, which Parse refuses. A non-negative hint comes back as the least
    whole number of seconds that is not below it, as long as it is at most one second
    short of the largest duration; above that the addition in Marshal overflows and the
    document carries a negative hint. A hint read from a document wraps around unless its
    number of seconds fits a duration. *)
Theorem spiffe_Marshal_Parse (b : Bundle) jo wo bytes :
  portable b → range_of (jwtAuthorities b) jo → range_of (witAuthorities b) wo →
  Marshal_in b jo wo = Ok bytes →
  Parse (trustDomain b) bytes =
    (if Empty b then Err (wrapSpiffebundleErr (errors_New "no authorities found"))
     else Ok (with_hint b ((λ h, hint_duration (hint_seconds h)) <$> refreshHint b))) ∧
  (∀ h, refreshHint b = Some h →
     ((0 ≤ h ≤ 2 ^ 63 - Second)%Z →
        let d := hint_duration (hint_seconds h) in (d mod Second = 0 ∧ h ≤ d < h + Second)%Z) ∧
     ((2 ^ 63 - Second < h)%Z → (hint_seconds h < 0)%Z)) ∧
  (∀ n, int64_ok n → (hint_duration n = Second * n ↔ int64_ok (Second * n))%Z).
Proof.
  intros Hb Hjo Hwo Hm. split_and!; [by eapply Marshal_in_Parse| |].
  - intros h Hh. destruct (refresh_hint_rounding h) as (? & ? & _); [by eapply portable_hint|done].
  - intros n Hn. by apply refresh_hint_rounding.
Qed.

(** Authorities of a type PublicKeyEqual does not know are equal to nothing. *)
Definition same_authorities (m m' : gmap string PublicKey) : Prop := m = m' ∧ all_supported m.
#[export] Instance same_authorities_dec m m' : Decision (same_authorities m m').
Proof. unfold same_authorities, all_supported. apply _. Defined.

Lemma Equal_decides (b b' : Bundle) :
  Equal (Some b) (Some b') = Ok (bool_decide (trustDomain b = trustDomain b' ∧
    refreshHint b = refreshHint b' ∧ sequenceNumber b = sequenceNumber b' ∧
    same_authorities (jwtAuthorities b) (jwtAuthorities b') ∧
    same_authorities (witAuthorities b) (witAuthorities b') ∧
    Raw <$> x509Authorities b = Raw <$> x509Authorities b')).
Proof.
  unfold Equal. destruct (_ && _) eqn:E.
  - rewrite CertsEqual_spec. f_equal. apply bool_decide_ext.
    rewrite !andb_true_iff, bool_decide_eq_true, !JWTAuthoritiesEqual_true in E. unfold same_authorities.
    destruct b as [? [] [] ???], b' as [? [] [] ???]; simpl in *; try naive_solver;
      rewrite ?Z.eqb_eq in E; naive_solver.
  - f_equal. symmetry. apply bool_decide_eq_false. intros (H1 & H2 & H3 & [H4 H4'] & [H5 H5'] & _).
    revert E. apply not_false_iff_true. rewrite !andb_true_iff, bool_decide_eq_true, !JWTAuthoritiesEqual_true.
    rewrite H2, H3. split_and!; try done.
    + destruct (refreshHint b'); simpl; [apply Z.eqb_refl|done].
    + destruct (sequenceNumber b'); simpl; [apply Z.eqb_refl|done].
Qed.

(** Equal never panics and, for bundles of parsed certificates and
    supported keys, is equality of all the components; Clone is equal to its
    original. *)
Theorem spiffe_Equal_spec {LL : X509LibLaws L} (b b' : Bundle) :
  Forall parsed_cert (x509Authorities b ++ x509Authorities b') →
  all_supported (jwtAuthorities b) → all_supported (witAuthorities b) →
  (∃ eq, Equal (Some b) (Some b') = Ok eq ∧ (eq = true ↔ b = b')) ∧ Clone b = b.
Proof.
  intros Hp Hj Hw.
  split.
  - rewrite Equal_decides. eexists. split; [done|]. rewrite bool_decide_eq_true. unfold same_authorities. split; [|by intros <-].
    intros (H1 & H2 & H3 & [H4 _] & [H5 _] & H6). apply Forall_app in Hp as [? ?].
    assert (x509Authorities b = x509Authorities b') by by apply parsed_certs_eq.
    destruct b, b'; simpl in *; by subst.
  - unfold Clone. rewrite !CopyJWTAuthorities_id, CopyX509Authorities_id.
    destruct b as [? [] [] ???]; done.
Qed.

(** Projections: a SPIFFE bundle made from an X.509, JWT or WIT bundle
    gives that bundle back; a bundle and a set answer a request for a trust domain
    with (the projection of) the bundle of that trust domain and no other, and
    refuse any other trust domain. *)
Theorem spiffe_projections (b : Bundle) (s : Set_) (td : TrustDomain) :
  set_wf s →
  (∀ x, X509Bundle_ <$> FromX509Bundle (Some x) = Ok x) ∧
  (∀ j, JWTBundle <$> FromJWTBundle (Some j) = Ok j) ∧
  (∀ w, WITBundle <$> FromWITBundle (Some w) = Ok w) ∧
  (∀ b', GetBundle b td = Ok b' ↔ b' = b ∧ trustDomain b = td) ∧
  X509Bundle.source_ok b ∧ JwtBundle.source_ok b ∧ WitBundle.source_ok b ∧
  (∀ b', GetBundle s td = Ok b' → trustDomain b' = td) ∧
  X509Bundle.source_ok s ∧ JwtBundle.source_ok s ∧ WitBundle.source_ok s.
Proof.
  intros Hs. split_and!.
  - intros [td' l]. unfold FromX509Bundle, X509Bundle.X509Authorities. rewrite CopyX509Authorities_id.
    cbn [fmap res_fmap]. unfold X509Bundle_, X509Bundle.FromX509Authorities. by rewrite CopyX509Authorities_id.
  - intros [td' m]. unfold FromJWTBundle, JwtBundle.JWTAuthorities. rewrite CopyJWTAuthorities_id.
    cbn [fmap res_fmap]. unfold JWTBundle, JwtBundle.FromJWTAuthorities. by rewrite CopyJWTAuthorities_id.
  - intros [td' m]. unfold FromWITBundle, WitBundle.WITAuthorities. rewrite CopyJWTAuthorities_id.
    cbn [fmap res_fmap]. unfold WITBundle, WitBundle.FromWITAuthorities. by rewrite CopyJWTAuthorities_id.
  - intros b'. apply for_trust_domain_Ok.
  - intros td' b' [-> ?]%for_trust_domain_Ok. done.
  - intros td' b' [-> ?]%for_trust_domain_Ok. done.
  - intros td' b' [-> ?]%for_trust_domain_Ok. done.
  - intros b'. by apply Set_lookup_td.
  - intros td' b' (b1 & Hb & [= <-])%bind_Ok_inv. by apply (Set_lookup_td _ _ _ _ _ Hs Hb).
  - intros td' b' (b1 & Hb & [= <-])%bind_Ok_inv. by apply (Set_lookup_td _ _ _ _ _ Hs Hb).
  - intros td' b' (b1 & Hb & [= <-])%bind_Ok_inv. by apply (Set_lookup_td _ _ _ _ _ Hs Hb).
Qed.
End spiffebundle_properties.

Definition sample_spiffe_bundle : Bundle :=
  mkBundle (mkTrustDomain "example.org") (Some 1500000000%Z) (Some 7%Z)
    (<["j" := Ed25519_PublicKey "a"]> ∅) (<["w" := Ed25519_PublicKey "b"]> ∅) [caA; caB].

Lemma sample_spiffe_portable : portable sample_spiffe_bundle.
Proof.
  split; simpl.
  - repeat constructor; by apply sample_cert_parsed.
  - apply (bool_decide_unpack _). by vm_compute.
  - unfold portable_map. apply (bool_decide_unpack _). by vm_compute.
  - unfold portable_map. apply (bool_decide_unpack _). by vm_compute.
  - intros h [= <-]. unfold int64_ok. lia.
  - intros n [= <-]. unfold uint64_ok. lia.
Qed.

Lemma spiffe_Marshal_Parse_witness :
  ∃ bytes, Marshal sample_spiffe_bundle = Ok bytes ∧
    Parse (mkTrustDomain "example.org") bytes =
      Ok (SetRefreshHint sample_spiffe_bundle 2000000000) ∧
    (hint_duration (2 ^ 62) = Second * 2 ^ 62 ↔ int64_ok (Second * 2 ^ 62))%Z.
Proof.
  destruct (Marshal sample_spiffe_bundle) as [bytes| |] eqn:Hm; try (by vm_compute in Hm).
  destruct (spiffe_Marshal_Parse sample_spiffe_bundle _ _ bytes sample_spiffe_portable
    (range_of_map_to_list _) (range_of_map_to_list _) Hm) as (Hp & _ & Hn).
  exists bytes. split_and!; [done|exact Hp|]. apply Hn. unfold int64_ok. lia.
Defined.

Lemma spiffe_Equal_spec_witness :
  ∃ eq, Equal (Some sample_spiffe_bundle) (Some sample_spiffe_bundle) = Ok eq ∧
    (eq = true ↔ sample_spiffe_bundle = sample_spiffe_bundle).
Proof.
  apply (spiffe_Equal_spec sample_spiffe_bundle sample_spiffe_bundle).
  - repeat constructor; by apply sample_cert_parsed.
  - unfold all_supported. apply (bool_decide_unpack _). by vm_compute.
  - unfold all_supported. apply (bool_decide_unpack _). by vm_compute.
Defined.

Lemma spiffe_projections_witness :
  GetBundle sample_spiffe_bundle (mkTrustDomain "example.org") = Ok sample_spiffe_bundle.
Proof.
  eapply (spiffe_projections sample_spiffe_bundle (NewSet []) (mkTrustDomain "example.org")).
  - apply NewSet_wf.
  - done.
Defined.
