(* ===== verification/X509Svid.v ===== *)
(** * svid/x509svid: X509-SVIDs

    Models src/svid/x509svid/svid.go and verify.go. Path building is
    crypto/x509's Certificate.Verify: the interface [X509Verifier], with the
    documented shape of the chains it returns in [VerifierLaws]. *)

From S2P Require Import Prelude Path GoUrl ID Crypto X509 X509Sample Pem BundleSet X509Bundle.

(** PrivateKey is a crypto.Signer; Hint is set by the Workload API client. *)
Record SVID : Type := mkSVID {
  svid_ID : ID.ID;
  svid_Certificates : list Certificate;
  svid_PrivateKey : PrivateKey;
  Hint : string;
}.

Definition wrapX509svidErr (err : error) : error := fmt_Errorf "x509svid: %w" [Arg_w (Some err)].

(** ** Key matching *)
Definition rsaPublicKeyEqual (E N E' N' : Z) : bool := (E =? E')%Z && (N =? N')%Z.
Definition ecdsaPublicKeyEqual (curve : string) (X Y : Z) (curve' : string) (X' Y' : Z) : bool :=
  bool_decide (curve = curve') && (X =? X')%Z && (Y =? Y')%Z.

Definition keyMatches (privateKey : PrivateKey) (publicKey : PublicKey) : res bool :=
  match privateKey with
  | RSA_PrivateKey E N _ =>
      Ok (match publicKey with RSA_PublicKey E' N' => rsaPublicKeyEqual E N E' N' | _ => false end)
  | ECDSA_PrivateKey c X Y _ =>
      Ok (match publicKey with ECDSA_PublicKey c' X' Y' => ecdsaPublicKeyEqual c X Y c' X' Y' | _ => false end)
  | Ed25519_PrivateKey public _ =>
      Ok (match publicKey with Ed25519_PublicKey bs => bool_decide (public = bs) | _ => false end)
  | Other_PrivateKey _ _ => Err (fmt_Errorf "unsupported private key type %T" [Arg_s (dynamic_type privateKey)])
  end.

(** The dynamic types implementing crypto.Signer. *)
Definition is_Signer (k : PrivateKey) : bool :=
  match k with Other_PrivateKey _ b => b | _ => true end.

Definition validatePrivateKey (privateKey : option PrivateKey) (leaf : Certificate) : res PrivateKey :=
  match privateKey with
  | None => Err (errors_New "no private key found")
  | Some privateKey =>
      let! matched := keyMatches privateKey (cert_PublicKey leaf) in
      if negb matched then Err (errors_New "leaf certificate does not match private key")
      else if negb (is_Signer privateKey) then Err (fmt_Errorf "expected crypto.Signer; got %T" [Arg_s (dynamic_type privateKey)])
      else Ok privateKey
  end.

(** ** Certificate validation *)
Definition validateKeyUsage (leaf : Certificate) : res unit :=
  if (Z.land (KeyUsage leaf) KeyUsageDigitalSignature =? 0)%Z
  then Err (errors_New "leaf certificate must have 'digitalSignature' set as key usage")
  else if (0 <? Z.land (KeyUsage leaf) KeyUsageCertSign)%Z
  then Err (errors_New "leaf certificate must not have 'keyCertSign' set as key usage")
  else if (0 <? Z.land (KeyUsage leaf) KeyUsageCRLSign)%Z
  then Err (errors_New "leaf certificate must not have 'cRLSign' set as key usage")
  else Ok ().

Fixpoint validateSigningCertificates (signingCerts : list Certificate) : res unit :=
  match signingCerts with
  | [] => Ok ()
  | cert :: signingCerts =>
      if negb (IsCA cert) then Err (errors_New "signing certificate must have CA flag set to true")
      else if (Z.land (KeyUsage cert) KeyUsageCertSign =? 0)%Z
      then Err (errors_New "signing certificate must have 'keyCertSign' set as key usage")
      else validateSigningCertificates signingCerts
  end.

(** ** Verification options *)
Record verifyConfig : Type := mkVerifyConfig { now : Z }.   (* 0: the zero time *)
Definition VerifyOption : Type := verifyConfig → verifyConfig.
Definition WithTime (t : Z) : VerifyOption := λ config, mkVerifyConfig t.
Definition apply_options (opts : list VerifyOption) : verifyConfig :=
  foldl (λ config opt, opt config) (mkVerifyConfig 0) opts.

(** x509.VerifyOptions, the fields set by the code. *)
Record VerifyOptions : Type := mkVerifyOptions {
  Roots : CertPool;
  Intermediates : CertPool;
  KeyUsages : list string;
  CurrentTime : Z;
}.

Class X509Verifier := { cert_Verify : Certificate → VerifyOptions → list (list Certificate) + error }.

(** Each chain starts at the leaf and ends at one of the given roots; there is
    at least one chain when there is no error. *)
Class VerifierLaws (V : X509Verifier) : Prop := {
  verify_chains leaf opts chains :
    cert_Verify leaf opts = inl chains →
    chains ≠ [] ∧
    Forall (λ chain, head chain = Some leaf ∧
      ∃ root r, last chain = Some root ∧ r ∈ Roots opts ∧ Raw r = Raw root) chains;
}.

Section svid_defs.
Context {C : Charset} {L : X509Lib}.

Definition IDFromCert (cert : Certificate) : res ID.ID :=
  match URIs cert with
  | [] => Err (errors_New "certificate contains no URI SAN")
  | [uri] => FromURI uri
  | _ => Err (errors_New "certificate contains more than one URI SAN")
  end.

Definition validateLeafCertificate (leaf : Certificate) : res ID.ID :=
  let! leafID := wrap_err (λ err, fmt_Errorf "cannot get leaf certificate SPIFFE ID: %v" [Arg_v (Some err)])
                   (IDFromCert leaf) in
  let! path := ID.Path leafID in
  if bool_decide (path = "") then Err (errors_New "leaf certificate SPIFFE ID must have a non-root path")
  else if IsCA leaf then Err (errors_New "leaf certificate must not have CA flag set to true")
  else check! validateKeyUsage leaf; Ok leafID.

Definition validateCertificates (certificates : list Certificate) : res ID.ID :=
  match certificates with
  | [] => Err (errors_New "no certificates found")
  | leaf :: signing =>
      let! leafID := validateLeafCertificate leaf in
      check! validateSigningCertificates signing;
      Ok leafID
  end.

Definition newSVID (certificates : list Certificate) (privateKey : option PrivateKey) : res SVID :=
  let! spiffeID := wrap_err (λ err, wrapX509svidErr
                     (fmt_Errorf "certificate validation failed: %v" [Arg_v (Some err)]))
                   (validateCertificates certificates) in
  match certificates with
  | [] => Panic "index out of range"
  | leaf :: _ =>
      let! signer := wrap_err (λ err, wrapX509svidErr
                       (fmt_Errorf "private key validation failed: %v" [Arg_v (Some err)]))
                     (validatePrivateKey privateKey leaf) in
      Ok (mkSVID spiffeID certificates signer "")
  end.

Definition Parse (certBytes keyBytes : string) : res SVID :=
  let! certs := wrap_err (λ err, wrapX509svidErr
                  (fmt_Errorf "cannot parse PEM encoded certificate: %v" [Arg_v (Some err)]))
                (ParseCertificates certBytes) in
  let! privateKey := wrap_err (λ err, wrapX509svidErr
                       (fmt_Errorf "cannot parse PEM encoded private key: %v" [Arg_v (Some err)]))
                     (ParsePrivateKey keyBytes) in
  newSVID certs privateKey.

Definition ParseRaw (certBytes keyBytes : string) : res SVID :=
  let! certificates := wrap_err (λ err, wrapX509svidErr
                         (fmt_Errorf "cannot parse DER encoded certificate: %v" [Arg_v (Some err)]))
                       (of_lib (x509_ParseCertificates certBytes)) in
  let! privateKey := wrap_err (λ err, wrapX509svidErr
                       (fmt_Errorf "cannot parse DER encoded private key: %v" [Arg_v (Some err)]))
                     (of_lib (x509_ParsePKCS8PrivateKey keyBytes)) in
  newSVID certificates (Some privateKey).

Definition Load (os_ReadFile : string → string + error) (certFile keyFile : string) : res SVID :=
  let! certBytes := wrap_err (λ err, wrapX509svidErr
                      (fmt_Errorf "cannot read certificate file: %w" [Arg_w (Some err)]))
                    (of_lib (os_ReadFile certFile)) in
  let! keyBytes := wrap_err (λ err, wrapX509svidErr
                     (fmt_Errorf "cannot read key file: %w" [Arg_w (Some err)]))
                   (of_lib (os_ReadFile keyFile)) in
  Parse certBytes keyBytes.

Definition Marshal (s : SVID) : res (string * string) :=
  if (length (svid_Certificates s) =? 0)%nat
  then Err (wrapX509svidErr (errors_New "no certificates to marshal"))
  else
    let certBytes := EncodeCertificates (svid_Certificates s) in
    let! keyBytes := wrap_err (λ err, wrapX509svidErr
                       (fmt_Errorf "cannot encode private key: %v" [Arg_v (Some err)]))
                     (EncodePKCS8PrivateKey (svid_PrivateKey s)) in
    Ok (certBytes, keyBytes).

Definition MarshalRaw (s : SVID) : res (string * string) :=
  let! key := wrap_err (λ err, wrapX509svidErr
                (fmt_Errorf "cannot marshal private key: %v" [Arg_v (Some err)]))
              (of_lib (x509_MarshalPKCS8PrivateKey (svid_PrivateKey s))) in
  if (length (svid_Certificates s) =? 0)%nat
  then Err (wrapX509svidErr (errors_New "no certificates to marshal"))
  else Ok (ConcatRawCertsFromCerts (svid_Certificates s), key).

Definition GetX509SVID (s : SVID) : res SVID := Ok s.
End svid_defs.

(** ** verify.go *)
Section verify_defs.
Context {C : Charset} {L : X509Lib} {V : X509Verifier} {T : Type} {S : X509Bundle.Source T}.

(** The results: the ID is returned along with most errors; a nil source is
    None. *)
Definition Verify (certs : list Certificate) (bundleSource : option T) (opts : list VerifyOption)
    : ID.ID * res (list (list Certificate)) :=
  let config := apply_options opts in
  match certs, bundleSource with
  | [], _ => (zero_ID, Err (wrapX509svidErr (errors_New "empty certificates chain")))
  | _, None => (zero_ID, Err (wrapX509svidErr (errors_New "bundleSource is required")))
  | leaf :: intermediates, Some bundleSource =>
      match IDFromCert leaf with
      | Panic why => (zero_ID, Panic why)
      | Err err => (zero_ID, Err (wrapX509svidErr (fmt_Errorf "could not get leaf SPIFFE ID: %w" [Arg_w (Some err)])))
      | Ok id =>
          (id,
           if IsCA leaf then Err (wrapX509svidErr (errors_New "leaf certificate with CA flag set to true"))
           else if (0 <? Z.land (KeyUsage leaf) KeyUsageCertSign)%Z
           then Err (wrapX509svidErr (errors_New "leaf certificate with KeyCertSign key usage"))
           else if (0 <? Z.land (KeyUsage leaf) KeyUsageCRLSign)%Z
           then Err (wrapX509svidErr (errors_New "leaf certificate with KeyCrlSign key usage"))
           else
             let! td := ID_TrustDomain id in
             let! bundle := wrap_err (λ err, wrapX509svidErr
                              (fmt_Errorf "could not get X509 bundle: %w" [Arg_w (Some err)]))
                            (X509Bundle.GetX509 bundleSource td) in
             wrap_err (λ err, wrapX509svidErr
                 (fmt_Errorf "could not verify leaf certificate: %w" [Arg_w (Some err)]))
               (of_lib (cert_Verify leaf
                 (mkVerifyOptions (NewCertPool (X509Bundle.X509Authorities bundle))
                    (NewCertPool intermediates) ["ExtKeyUsageAny"] (now config)))))
      end
  end.

Definition ParseAndVerify (rawCerts : list string) (bundleSource : option T) (opts : list VerifyOption)
    : ID.ID * res (list (list Certificate)) :=
  match forM (λ rawCert, wrap_err (λ err, wrapX509svidErr
                (fmt_Errorf "unable to parse certificate: %w" [Arg_w (Some err)]))
              (of_lib (x509_ParseCertificate rawCert))) rawCerts with
  | Ok certs => Verify certs bundleSource opts
  | Err err => (zero_ID, Err err)
  | Panic why => (zero_ID, Panic why)
  end.
End verify_defs.

(** source.go *)
Class Source (T : Type) := GetX509SVID_ : T → res SVID.
#[export] Instance SVID_Source : Source SVID := GetX509SVID.

(** ** Lemmas *)
Lemma land_bit (u n : Z) : (0 ≤ n)%Z →
  Z.land u (Z.shiftl 1 n) = if Z.testbit u n then (2 ^ n)%Z else 0%Z.
Proof.
  intros Hn. rewrite Z.shiftl_1_l. apply Z.bits_inj'. intros m Hm.
  rewrite Z.land_spec, Z.pow2_bits_eqb by done.
  destruct (Z.eqb_spec n m) as [->|Hne].
  - rewrite andb_true_r. destruct (Z.testbit u m); [by rewrite Z.pow2_bits_true|by rewrite Z.bits_0].
  - rewrite andb_false_r. destruct (Z.testbit u n); [by rewrite Z.pow2_bits_false|by rewrite Z.bits_0].
Qed.

Definition digitalSignature (c : Certificate) : bool := Z.testbit (KeyUsage c) 0.
Definition keyCertSign (c : Certificate) : bool := Z.testbit (KeyUsage c) 5.
Definition cRLSign (c : Certificate) : bool := Z.testbit (KeyUsage c) 6.

Lemma no_digitalSignature c : (Z.land (KeyUsage c) KeyUsageDigitalSignature =? 0)%Z = negb (digitalSignature c).
Proof. unfold KeyUsageDigitalSignature, digitalSignature. rewrite land_bit by lia. by case_match. Qed.
Lemma no_keyCertSign c : (Z.land (KeyUsage c) KeyUsageCertSign =? 0)%Z = negb (keyCertSign c).
Proof. unfold KeyUsageCertSign, keyCertSign. rewrite land_bit by lia. by case_match. Qed.
Lemma has_keyCertSign c : (0 <? Z.land (KeyUsage c) KeyUsageCertSign)%Z = keyCertSign c.
Proof. unfold KeyUsageCertSign, keyCertSign. rewrite land_bit by lia. by case_match. Qed.
Lemma has_cRLSign c : (0 <? Z.land (KeyUsage c) KeyUsageCRLSign)%Z = cRLSign c.
Proof. unfold KeyUsageCRLSign, cRLSign. rewrite land_bit by lia. by case_match. Qed.

(** The public key of a private key of a supported type. *)
Definition public_of (k : PrivateKey) : option PublicKey :=
  match k with
  | RSA_PrivateKey E N _ => Some (RSA_PublicKey E N)
  | ECDSA_PrivateKey c X Y _ => Some (ECDSA_PublicKey c X Y)
  | Ed25519_PrivateKey p _ => Some (Ed25519_PublicKey p)
  | Other_PrivateKey _ _ => None
  end.

Lemma keyMatches_spec k pub :
  keyMatches k pub =
  match public_of k with
  | Some p => Ok (bool_decide (p = pub))
  | None => Err (fmt_Errorf "unsupported private key type %T" [Arg_s (dynamic_type k)])
  end.
Proof.
  destruct k as [E N s|c X Y s|p s|t b]; simpl; [| | |done]; f_equal; apply eq_true_iff_eq;
    rewrite (bool_decide_eq_true (_ = pub)); destruct pub; simpl;
    unfold rsaPublicKeyEqual, ecdsaPublicKeyEqual;
    rewrite ?andb_true_iff, ?Z.eqb_eq, ?bool_decide_eq_true; naive_solver.
Qed.

Lemma validatePrivateKey_Ok k leaf k' :
  validatePrivateKey k leaf = Ok k' ↔ k = Some k' ∧ public_of k' = Some (cert_PublicKey leaf).
Proof.
  destruct k as [k|]; simpl; [|naive_solver]. rewrite keyMatches_spec.
  destruct k as [E N s|c X Y s|p s|t b]; cbn [public_of mbind res_bind]; [| | |naive_solver];
    case_bool_decide as Hk; cbn [negb is_Signer];
    (split; [first [done|intros [= <-]; by rewrite <- Hk]
            |intros [[= <-] Hp]; cbn [public_of] in Hp; congruence]).
Qed.

Lemma validateKeyUsage_Ok leaf :
  validateKeyUsage leaf = Ok () ↔
  digitalSignature leaf = true ∧ keyCertSign leaf = false ∧ cRLSign leaf = false.
Proof.
  unfold validateKeyUsage. rewrite no_digitalSignature, has_keyCertSign, has_cRLSign.
  destruct (digitalSignature leaf), (keyCertSign leaf), (cRLSign leaf); simpl; naive_solver.
Qed.

Definition signing_cert (c : Certificate) : Prop := IsCA c = true ∧ keyCertSign c = true.

Lemma validateSigningCertificates_Ok cs :
  validateSigningCertificates cs = Ok () ↔ Forall signing_cert cs.
Proof.
  induction cs as [|c cs IH]; simpl; [done|].
  rewrite Forall_cons, no_keyCertSign. unfold signing_cert at 1.
  destruct (IsCA c), (keyCertSign c); simpl; naive_solver.
Qed.

Section svid_lemmas.
Context {C : Charset} {CL : CharsetLaws C} {L : X509Lib}.

Lemma IDFromCert_Ok cert id :
  IDFromCert cert = Ok id ↔ ∃ uri, URIs cert = [uri] ∧ FromURI uri = Ok id.
Proof. unfold IDFromCert. destruct (URIs cert) as [|uri [|]]; naive_solver. Qed.

Lemma IDFromCert_parts cert id :
  IDFromCert cert = Ok id → ∃ td path, id_parts id td path.
Proof. intros (uri & _ & (td & path & ? & _)%FromString_Ok)%IDFromCert_Ok. eauto. Qed.

Lemma IDFromCert_no_panic cert : no_panic (IDFromCert cert) = true.
Proof. unfold IDFromCert. repeat case_match; auto. apply FromString_no_panic. Qed.

(** What a leaf certificate must satisfy to carry the ID [id]. *)
Definition leaf_for (leaf : Certificate) (id : ID.ID) : Prop :=
  IDFromCert leaf = Ok id ∧ ID.Path id ≠ Ok "" ∧ IsCA leaf = false ∧
  digitalSignature leaf = true ∧ keyCertSign leaf = false ∧ cRLSign leaf = false.

Lemma validateLeafCertificate_Ok leaf id :
  validateLeafCertificate leaf = Ok id ↔ leaf_for leaf id.
Proof.
  unfold validateLeafCertificate, leaf_for. destruct (IDFromCert leaf) as [i|e|w] eqn:Hid; simpl; [|naive_solver..].
  destruct (IDFromCert_parts _ _ Hid) as (td & path & Hp). rewrite (id_parts_Path _ _ _ Hp); simpl.
  case_bool_decide as Hpath; [split; [done|]; intros ([= <-] & Hn & _); rewrite (id_parts_Path _ _ _ Hp) in Hn; congruence|].
  destruct (IsCA leaf); [naive_solver|]. rewrite check_Ok_inv, validateKeyUsage_Ok.
  split.
  - intros [? [= <-]]. rewrite (id_parts_Path _ _ _ Hp). naive_solver.
  - naive_solver.
Qed.

Lemma newSVID_Ok certs key s :
  newSVID certs key = Ok s ↔
  ∃ leaf signing k id, certs = leaf :: signing ∧ key = Some k ∧ leaf_for leaf id ∧
    Forall signing_cert signing ∧ public_of k = Some (cert_PublicKey leaf) ∧ s = mkSVID id certs k "".
Proof.
  unfold newSVID, validateCertificates. destruct certs as [|leaf signing]; [naive_solver|]. split.
  - intros (id & Hv%wrap_err_Ok & (k & Hk%wrap_err_Ok & [= <-])%bind_Ok_inv)%bind_Ok_inv.
    apply bind_Ok_inv in Hv as (id' & Hl%validateLeafCertificate_Ok & [Hs [= <-]]%check_Ok_inv).
    apply validateSigningCertificates_Ok in Hs. apply validatePrivateKey_Ok in Hk as [-> Hk]. eauto 10.
  - intros (leaf' & signing' & k & id & [= <- <-] & -> & Hl%validateLeafCertificate_Ok & Hs & Hk & ->).
    rewrite Hl; cbn [mbind res_bind]. rewrite (proj2 (validateSigningCertificates_Ok _)) by done.
    cbn [mbind res_bind wrap_err].
    by rewrite (proj2 (validatePrivateKey_Ok (Some k) leaf k)).
Qed.

Lemma newSVID_no_panic certs key : no_panic (newSVID certs key) = true.
Proof.
  apply bind_no_panic.
  - rewrite wrap_err_no_panic. destruct certs as [|leaf signing]; [done|]. apply bind_no_panic.
    + apply bind_no_panic; [rewrite wrap_err_no_panic; apply IDFromCert_no_panic|].
      intros id (td & path & Hp)%wrap_err_Ok%IDFromCert_parts. rewrite (id_parts_Path _ _ _ Hp); simpl.
      repeat case_match; try done. unfold validateKeyUsage. by repeat case_match.
    + intros id _. apply bind_no_panic; [|done]. clear. induction signing; simpl; repeat case_match; auto.
  - intros id Hv. destruct certs as [|leaf signing]; [done|]. apply bind_no_panic; [|done].
    rewrite wrap_err_no_panic. destruct key as [k|]; simpl; [|done]. rewrite keyMatches_spec.
    destruct (public_of k); simpl; by repeat case_match.
Qed.

Lemma svid_ParseRaw_no_panic cb kb : no_panic (ParseRaw cb kb) = true.
Proof.
  apply bind_no_panic; [rewrite wrap_err_no_panic; apply of_lib_no_panic|]. intros certs _.
  apply bind_no_panic; [rewrite wrap_err_no_panic; apply of_lib_no_panic|]. intros key _.
  apply newSVID_no_panic.
Qed.
End svid_lemmas.

Section x509svid_properties.
Context {C : Charset} {CL : CharsetLaws C} {L : X509Lib} {LL : X509LibLaws L}.

(** [C34] An X509-SVID is made from a chain and a key exactly when the leaf has
    one URI SAN that is a SPIFFE ID with a path, is no CA and may sign
    (digitalSignature) but not certify (keyCertSign, cRLSign); every other
    certificate is a CA that may certify; and the key is the leaf's. Its ID is
    then the leaf's, the chain and the key are kept as given; and the code never
    panics, whatever it is given. *)
Theorem newSVID_iff (certs : list Certificate) (key : option PrivateKey) (s : SVID) :
  (newSVID certs key = Ok s ↔
   ∃ leaf signing k id, certs = leaf :: signing ∧ key = Some k ∧ leaf_for leaf id ∧
     Forall signing_cert signing ∧ public_of k = Some (cert_PublicKey leaf) ∧ s = mkSVID id certs k "") ∧
  no_panic (newSVID certs key) = true.
Proof.
  split; [apply newSVID_Ok|apply newSVID_no_panic].
Qed.

(** Marshal and Parse, MarshalRaw and ParseRaw: an SVID of parsed
    certificates that marshals is read back with the same ID, chain and key; the
    hint, which has no place in the files, is lost. An SVID without certificates
    is refused. *)
Theorem x509svid_Marshal_Parse (s : SVID) :
  Forall parsed_cert (svid_Certificates s) →
  newSVID (svid_Certificates s) (Some (svid_PrivateKey s)) = Ok (mkSVID (svid_ID s) (svid_Certificates s) (svid_PrivateKey s) "") →
  (∀ cb kb, Marshal s = Ok (cb, kb) →
     Parse cb kb = Ok (mkSVID (svid_ID s) (svid_Certificates s) (svid_PrivateKey s) "")) ∧
  (∀ cb kb, MarshalRaw s = Ok (cb, kb) →
     ParseRaw cb kb = Ok (mkSVID (svid_ID s) (svid_Certificates s) (svid_PrivateKey s) "")) ∧
  (is_Ok (Marshal s) = is_Ok (MarshalRaw s)).
Proof.
  destruct s as [id certs k h]; simpl. intros Hp Hn.
  pose proof Hn as (leaf & signing & k' & id' & E & _)%newSVID_Ok.
  assert (certs ≠ []) as Hne by by rewrite E.
  unfold Marshal, MarshalRaw; simpl. replace (length certs =? 0)%nat with false by (by rewrite E).
  unfold EncodePKCS8PrivateKey. split_and!.
  - intros cb kb (kb' & (der & Hk & [= <-])%wrap_err_Ok%bind_Ok_inv & [= <- <-])%bind_Ok_inv.
    unfold Parse. rewrite ParseCertificates_Encode by done. cbn [wrap_err mbind res_bind].
    rewrite (parseBlocks_Encode_key k der); [done|]. by destruct (x509_MarshalPKCS8PrivateKey k); simplify_eq/=.
  - intros cb kb (der & Hk%wrap_err_Ok & [= <- <-])%bind_Ok_inv.
    unfold ParseRaw. rewrite ConcatRawCertsFromCerts_spec, (x509_ParseCertificates_concat _ Hp).
    cbn [of_lib wrap_err mbind res_bind].
    rewrite (x509_PKCS8_roundtrip k der); [done|]. by destruct (x509_MarshalPKCS8PrivateKey k); simplify_eq/=.
  - by destruct (x509_MarshalPKCS8PrivateKey k).
Qed.
End x509svid_properties.

Section verify_properties.
Context {C : Charset} {CL : CharsetLaws C} {L : X509Lib} {V : X509Verifier} {VL : VerifierLaws V}.
Context {T : Type} {S : X509Bundle.Source T}.

(** Path building for a leaf and the rest of its chain, from the authorities of a bundle. *)
Definition path_building (leaf : Certificate) (others : list Certificate) (bundle : X509Bundle.Bundle)
    (opts : list VerifyOption) : list (list Certificate) + error :=
  cert_Verify leaf (mkVerifyOptions (NewCertPool (x509Authorities bundle)) (NewCertPool others)
    ["ExtKeyUsageAny"] (now (apply_options opts))).

Lemma Verify_Ok_inv (certs : list Certificate) (source : option T) opts id chains :
  Verify certs source opts = (id, Ok chains) →
  ∃ src leaf others td path bundle,
    source = Some src ∧ certs = leaf :: others ∧ IDFromCert leaf = Ok id ∧ id_parts id td path ∧
    IsCA leaf = false ∧ keyCertSign leaf = false ∧ cRLSign leaf = false ∧
    X509Bundle.GetX509 src td = Ok bundle ∧ path_building leaf others bundle opts = inl chains.
Proof.
  unfold Verify. destruct certs as [|leaf others]; [by destruct source|]. destruct source as [src|]; [|done].
  destruct (IDFromCert leaf) as [i| |] eqn:Hid; [|done..]. intros [= <- Hv].
  destruct (IDFromCert_parts _ _ Hid) as (td & path & Hp).
  rewrite has_keyCertSign, has_cRLSign in Hv.
  destruct (IsCA leaf) eqn:Hca; [done|]. destruct (keyCertSign leaf) eqn:Hks; [done|].
  destruct (cRLSign leaf) eqn:Hcs; [done|]. rewrite (id_parts_TrustDomain _ _ _ Hp) in Hv. cbn [mbind res_bind] in Hv.
  apply bind_Ok_inv in Hv as (bundle & Hb%wrap_err_Ok & Hv%wrap_err_Ok).
  unfold X509Bundle.X509Authorities in Hv. rewrite CopyX509Authorities_id in Hv.
  exists src, leaf, others, td, path, bundle. unfold path_building.
  destruct (cert_Verify _ _) as [chains'|] eqn:Hc; by simplify_eq/=.
Qed.

Lemma Verify_complete (src : T) leaf others opts id td path bundle chains :
  IDFromCert leaf = Ok id → id_parts id td path →
  IsCA leaf = false → keyCertSign leaf = false → cRLSign leaf = false →
  X509Bundle.GetX509 src td = Ok bundle → path_building leaf others bundle opts = inl chains →
  Verify (leaf :: others) (Some src) opts = (id, Ok chains).
Proof.
  intros Hid Hp Hca Hks Hcs Hb Hc. unfold Verify, path_building in *.
  rewrite Hid, Hca, has_keyCertSign, Hks, has_cRLSign, Hcs, (id_parts_TrustDomain _ _ _ Hp).
  cbn [mbind res_bind]. rewrite Hb. cbn [wrap_err mbind res_bind].
  unfold X509Bundle.X509Authorities. by rewrite CopyX509Authorities_id, Hc.
Qed.

Lemma path_building_chains leaf others bundle opts chains :
  path_building leaf others bundle opts = inl chains →
  chains ≠ [] ∧
  Forall (λ chain, head chain = Some leaf ∧
    ∃ root, last chain = Some root ∧ X509Bundle.HasX509Authority bundle root = true) chains.
Proof.
  intros Hc. pose proof (verify_chains _ _ _ Hc) as [Hne Hall]. split; [done|].
  eapply Forall_impl; [exact Hall|]. intros chain [Hh (root & r & Hl & Hr & Heq)]. split; [done|].
  exists root. split; [done|]. apply has_equal_true. cbn [Roots] in Hr.
  destruct (proj1 (NewCertPool_spec (x509Authorities bundle) r)) as (c & Hc' & E); [by exists r|].
  rewrite <- Heq, <- E. by apply list_elem_of_fmap_2.
Qed.

Lemma Verify_Ok (certs : list Certificate) (src : T) opts id chains :
  X509Bundle.source_ok src →
  Verify certs (Some src) opts = (id, Ok chains) →
  ∃ leaf others td path bundle,
    certs = leaf :: others ∧ IDFromCert leaf = Ok id ∧ id_parts id td path ∧
    IsCA leaf = false ∧ keyCertSign leaf = false ∧ cRLSign leaf = false ∧
    X509Bundle.GetX509 src td = Ok bundle ∧ X509Bundle.trustDomain bundle = td ∧
    path_building leaf others bundle opts = inl chains ∧ chains ≠ [] ∧
    Forall (λ chain, head chain = Some leaf ∧
      ∃ root, last chain = Some root ∧ X509Bundle.HasX509Authority bundle root = true) chains.
Proof.
  intros Hsrc (src' & leaf & others & td & path & bundle & [= <-] & -> & H)%Verify_Ok_inv.
  destruct H as (? & ? & ? & ? & ? & Hg & Hc). pose proof (path_building_chains _ _ _ _ _ Hc) as [? ?].
  exists leaf, others, td, path, bundle. split_and!; try done. by apply Hsrc.
Qed.

(** [C1] Verify returns an ID and chains exactly when it is given a source and the
    leaf has that SPIFFE ID, is not a CA and may not certify or sign revocation lists,
    the source has a bundle for the ID's trust domain and path building succeeds, with
    those chains, from exactly that bundle's authorities with the other certificates as
    intermediates, at the configured time. From a source that returns the bundles it is
    asked for, there is then at least one chain and each leads from the leaf to an
    authority of the ID's own trust domain. *)
Theorem Verify_iff (certs : list Certificate) (source : option T) opts id chains :
  (Verify certs source opts = (id, Ok chains) ↔
   ∃ src leaf others td path bundle,
     source = Some src ∧ certs = leaf :: others ∧ IDFromCert leaf = Ok id ∧ id_parts id td path ∧
     IsCA leaf = false ∧ keyCertSign leaf = false ∧ cRLSign leaf = false ∧
     X509Bundle.GetX509 src td = Ok bundle ∧ path_building leaf others bundle opts = inl chains) ∧
  (∀ src, source = Some src → X509Bundle.source_ok src → Verify certs source opts = (id, Ok chains) →
   ∃ leaf others td path bundle,
     certs = leaf :: others ∧ id_parts id td path ∧
     X509Bundle.GetX509 src td = Ok bundle ∧ X509Bundle.trustDomain bundle = td ∧ chains ≠ [] ∧
     Forall (λ chain, head chain = Some leaf ∧
       ∃ root, last chain = Some root ∧ X509Bundle.HasX509Authority bundle root = true) chains).
Proof.
  split; [split; [apply Verify_Ok_inv|]|].
  - intros (src & leaf & others & td & path & bundle & -> & -> & ? & ? & ? & ? & ? & ? & ?).
    by eapply Verify_complete.
  - intros src -> Hsrc Hv. apply (Verify_Ok _ _ _ _ _ Hsrc) in Hv as (leaf & others & td & path & bundle & H).
    exists leaf, others, td, path, bundle. by destruct_and!.
Qed.

(** Verify's errors: an empty chain, a missing source and a leaf without a
    well-formed ID give the zero ID; every later failure comes with the leaf's ID;
    ParseAndVerify is Verify on the parsed certificates; neither panics on a source
    that does not. *)
Theorem Verify_errors (src : T) opts (leaf : Certificate) others raws :
  (∀ td, no_panic (X509Bundle.GetX509 src td) = true) →
  Verify [] (Some src) opts = (zero_ID, Err (wrapX509svidErr (errors_New "empty certificates chain"))) ∧
  Verify (leaf :: others) (None : option T) opts =
    (zero_ID, Err (wrapX509svidErr (errors_New "bundleSource is required"))) ∧
  (Verify (leaf :: others) (Some src) opts).1 = match IDFromCert leaf with Ok id => id | _ => zero_ID end ∧
  no_panic (Verify (leaf :: others) (Some src) opts).2 = true ∧
  (ParseAndVerify raws (Some src) opts =
     match forM (λ raw, of_lib (x509_ParseCertificate raw)) raws with
     | Ok certs => Verify certs (Some src) opts
     | Err e => (zero_ID, Err (wrapX509svidErr (fmt_Errorf "unable to parse certificate: %w" [Arg_w (Some e)])))
     | Panic why => (zero_ID, Panic why)
     end).
Proof.
  intros Hsrc. split_and!; [done|done| | |].
  - simpl. by destruct (IDFromCert leaf).
  - simpl. pose proof (IDFromCert_no_panic leaf) as Hnp. destruct (IDFromCert leaf) as [id| |] eqn:Hid; [|done..].
    destruct (IDFromCert_parts _ _ Hid) as (td & path & Hp). simpl. rewrite (id_parts_TrustDomain _ _ _ Hp).
    repeat case_match; try done. cbn [mbind res_bind]. apply bind_no_panic; [by rewrite wrap_err_no_panic|].
    intros bundle _. rewrite wrap_err_no_panic. apply of_lib_no_panic.
  - unfold ParseAndVerify.
    assert (∀ w, forM (λ raw, wrap_err w (of_lib (x509_ParseCertificate raw))) raws =
                 wrap_err w (forM (λ raw, of_lib (x509_ParseCertificate raw)) raws)) as ->.
    { intros w. induction raws as [|raw raws IH]; simpl; [done|].
      destruct (x509_ParseCertificate raw); simpl; [|done]. rewrite IH.
      by destruct (forM (λ raw, of_lib (x509_ParseCertificate raw)) raws). }
    by destruct (forM (λ raw, of_lib (x509_ParseCertificate raw)) raws).
Qed.
End verify_properties.

(** ** A concrete verifier and the witnesses: a leaf chains to each root whose
    key is the Ed25519 key "a". *)
#[export] Instance sample_verifier : X509Verifier := {|
  cert_Verify leaf opts :=
    let roots := filter (λ r, cert_PublicKey r = Ed25519_PublicKey "a") (Roots opts) in
    if bool_decide (roots = []) then inr (extern_error "crypto/x509" "certificate signed by unknown authority")
    else inl ((λ r, [leaf; r]) <$> roots) |}.

#[export] Instance sample_verifier_laws : VerifierLaws sample_verifier.
Proof.
  split. intros leaf opts chains. cbn.
  case_bool_decide as Hne; [done|]. intros [= <-]. split; [by intros ?%fmap_nil_inv|].
  apply Forall_fmap, Forall_forall. intros r [_ Hr]%list_elem_of_filter. split; [done|]. by exists r, r.
Qed.

Definition sample_x509_bundle : X509Bundle.Bundle := X509Bundle.mkBundle (mkTrustDomain "example.org") [caA].
Definition workload_id : ID.ID := mkID "spiffe://example.org/workload" 20.
Definition sample_svid : SVID := mkSVID workload_id [leafL; caA] sample_key "hint".

Lemma x509svid_Marshal_Parse_witness :
  ∃ cb kb, Marshal sample_svid = Ok (cb, kb) ∧
    Parse (C := charset_deny) cb kb = Ok (mkSVID workload_id [leafL; caA] sample_key "").
Proof.
  destruct (Marshal sample_svid) as [[cb kb]| |] eqn:Hm; try (by vm_compute in Hm).
  exists cb, kb. split; [done|].
  eapply (x509svid_Marshal_Parse (C := charset_deny) sample_svid); [| |exact Hm].
  - repeat constructor; by apply sample_cert_parsed.
  - by vm_compute.
Defined.

Lemma Verify_iff_witness :
  Verify (C := charset_deny) [leafL] (Some sample_x509_bundle) [] = (workload_id, Ok [[leafL; caA]]) ∧
  ∃ td, X509Bundle.GetX509 sample_x509_bundle td = Ok sample_x509_bundle.
Proof.
  destruct (Verify_iff (C := charset_deny) [leafL] (Some sample_x509_bundle) [] workload_id [[leafL; caA]])
    as [Hiff Hsound].
  assert (Verify (C := charset_deny) [leafL] (Some sample_x509_bundle) [] = (workload_id, Ok [[leafL; caA]])) as Hv.
  { apply Hiff. exists sample_x509_bundle, leafL, [], (mkTrustDomain "example.org"), "/workload", sample_x509_bundle.
    split_and!; first [done | by vm_compute]. }
  split; [exact Hv|].
  destruct (Hsound _ eq_refl (X509Bundle.x509_Bundle_source_ok sample_x509_bundle) Hv)
    as (leaf & others & td & path & bundle & _ & _ & Hg & _).
  exists td. unfold X509Bundle.GetX509, X509Bundle.Bundle_Source, X509Bundle.GetX509BundleForTrustDomain in *.
  by destruct (negb _).
Defined.

Lemma Verify_errors_witness :
  (Verify (C := charset_deny) [leafL] (Some sample_x509_bundle) []).1 = workload_id.
Proof.
  destruct (Verify_errors (C := charset_deny) sample_x509_bundle [] leafL [] [])
    as (_ & _ & H & _).
  - intros td. unfold X509Bundle.GetX509, X509Bundle.Bundle_Source, X509Bundle.GetX509BundleForTrustDomain.
    by destruct (negb _).
  - rewrite H. by vm_compute.
Defined.

Lemma newSVID_iff_witness :
  newSVID (C := charset_deny) [leafL; caA] (Some sample_key) = Ok (mkSVID workload_id [leafL; caA] sample_key "").
Proof.
  apply (newSVID_iff (C := charset_deny)).
  exists leafL, [caA], sample_key, workload_id.
  split_and!; first [done|by vm_compute|by repeat constructor].
Defined.
