(* ===== verification/Jwt.v ===== *)
(** * The JWT library

    What the SVID packages use of go-jose's jwt package: a parsed token's
    headers, its claims with and without signature verification, and the
    validation of the standard claims, as the interface [JwtLib] with documented
    behaviour in [JwtLaws]. A JSON value decoded into interface{} is a [json]. *)

From S2P Require Import Prelude GoUrl Crypto X509.

(** Values of encoding/json decoded into interface{}; a number keeps its text. *)
#[warnings="-register-all"]
Inductive json : Type :=
  | JNull
  | JBool (b : bool)
  | JNumber (text : string)
  | JString (s : string)
  | JArray (l : list json)
  | JObject (members : list (string * json)).

(** A map[string]interface{}, its members in some order. *)
Definition claims_map : Type := list (string * json).

Fixpoint member (m : claims_map) (k : string) : option json :=
  match m with
  | [] => None
  | (k', v) :: m => if bool_decide (k = k') then Some v else member m k
  end.

(** The header of a signature: kid, and the extra header "typ". *)
Record Header : Type := mkHeader { hdr_KeyID : string; hdr_Type : option json }.

(** jwt.Claims; dates are seconds since the epoch. *)
Record Claims : Type := mkClaims {
  Subject : string;
  Audience : list string;
  Expiry : option Z;
  NotBefore : option Z;
}.

Record Expected : Type := mkExpected { AnyAudience : list string; Time : Z }.

(** jwt.DefaultLeeway: one minute. *)
Definition DefaultLeeway : Z := 60.

Definition ErrExpired : error := extern_error "jwt" "ErrExpired".
Definition ErrInvalidAudience : error := extern_error "jwt" "ErrInvalidAudience".
Definition ErrNotValidYet : error := extern_error "jwt" "ErrNotValidYet".

Definition is_extern (e : error) (name : string) : bool :=
  match e with extern_error "jwt" n => bool_decide (n = name) | _ => false end.

Class JwtLib := {
  JSONWebToken : Type;
  Headers : JSONWebToken → list Header;
  jwt_ParseSigned : string → list string → JSONWebToken + error;
  UnsafeClaims : JSONWebToken → Claims + error;               (* into a jwt.Claims *)
  UnsafeClaimsMap : JSONWebToken → claims_map + error;        (* into a map *)
  tok_Claims : PublicKey → JSONWebToken → claims_map + error; (* verified, into a map *)
  ValidateWithLeeway : Claims → Expected → Z → option error;
}.

Class JwtLaws (J : JwtLib) : Prop := {
  (* a compact token has exactly one signature *)
  one_header token algs tok : jwt_ParseSigned token algs = inl tok → ∃ h, Headers tok = [h];
  (* verification does not change the payload *)
  verified_payload k tok m : tok_Claims k tok = inl m → UnsafeClaimsMap tok = inl m;
  (* the documented checks of Validate *)
  validated_time c e leeway exp :
    ValidateWithLeeway c e leeway = None → Expiry c = Some exp → (Time e ≤ exp + leeway)%Z;
  validated_audience c e leeway :
    ValidateWithLeeway c e leeway = None → AnyAudience e ≠ [] → ∃ a, a ∈ AnyAudience e ∧ a ∈ Audience c;
}.

(** Validate: ValidateWithLeeway with the default leeway. *)
Definition Validate `{JwtLib} (c : Claims) (e : Expected) : option error := ValidateWithLeeway c e DefaultLeeway.

(** RS256 to PS512: the algorithms both SVID packages allow. *)
Definition allowedSignatureAlgorithms : list string :=
  ["RS256"; "RS384"; "RS512"; "ES256"; "ES384"; "ES512"; "PS256"; "PS384"; "PS512"].

(** ** A concrete instance for the witnesses: the text of a token is its first
    byte, looked up in a table of tokens; the second byte names the signing key. *)
Record sample_token : Type := mkSampleToken {
  st_header : Header;
  st_claims : Claims;
  st_map : claims_map;
  st_key : string;
}.

Definition sample_jwk : json := JObject [("alg", JString "ES256"); ("kty", JString "EC")].
Definition sample_cnf : json := JObject [("jwk", sample_jwk)].

Definition sample_tokens (s : string) : option sample_token :=
  let c aud := mkClaims "spiffe://example.org/workload" aud (Some 1000%Z) None in
  match s with
  | "J" => Some (mkSampleToken (mkHeader "k1" (Some (JString "JWT"))) (c ["aud1"; "aud2"])
             [("sub", JString "spiffe://example.org/workload")] "a")
  | "W" => Some (mkSampleToken (mkHeader "k1" (Some (JString "wit+jwt"))) (c [])
             [("sub", JString "spiffe://example.org/workload"); ("cnf", sample_cnf)] "a")
  | _ => None
  end.

Definition sample_validate (c : Claims) (e : Expected) (leeway : Z) : option error :=
  if negb (bool_decide (AnyAudience e = [])) && negb (existsb (λ a, bool_decide (a ∈ Audience c)) (AnyAudience e))
  then Some ErrInvalidAudience
  else match Expiry c with
       | Some exp => if (exp + leeway <? Time e)%Z then Some ErrExpired else None
       | None => None
       end.

#[export] Instance sample_JwtLib : JwtLib := {|
  JSONWebToken := sample_token;
  Headers t := [st_header t];
  jwt_ParseSigned s _ :=
    match sample_tokens s with Some t => inl t | None => inr (extern_error "jose" "compact JWS format") end;
  UnsafeClaims t := inl (st_claims t);
  UnsafeClaimsMap t := inl (st_map t);
  tok_Claims k t :=
    if bool_decide (k = Ed25519_PublicKey (st_key t)) then inl (st_map t)
    else inr (extern_error "jose" "error in cryptographic primitive");
  ValidateWithLeeway := sample_validate;
|}.

#[export] Instance sample_JwtLaws : JwtLaws sample_JwtLib.
Proof.
  split.
  - intros token algs tok _. by eexists.
  - intros k tok m. cbn. case_bool_decide; congruence.
  - intros c e leeway exp. cbn. unfold sample_validate. case_match; [done|]. intros Hv He. rewrite He in Hv.
    destruct (Z.ltb_spec (exp + leeway) (Time e)); [done|lia].
  - intros c e leeway. cbn. unfold sample_validate. destruct (_ && _) eqn:E; [done|]. intros _ Hne.
    rewrite bool_decide_false in E by done. simpl in E. apply negb_false_iff, existsb_exists in E as (a & Ha & Hc).
    exists a. split; [by apply list_elem_of_In|by apply bool_decide_eq_true in Hc].
Qed.
