(* ===== verification/JwtSvid.v ===== *)
(** * svid/jwtsvid: JWT-SVIDs

    Models src/svid/jwtsvid/svid.go and source.go over the JWT library of Jwt.v.
    time.Now is an argument; the claims validator passed to parse is a function
    argument, as in the source. *)

From S2P Require Import Prelude Path GoUrl ID Crypto X509 X509Sample BundleSet Jose JwtBundle Jwt.

Record SVID : Type := mkSVID {
  svid_ID : ID.ID;
  svid_Audience : list string;
  svid_Expiry : Z;
  svid_Claims : claims_map;
  Hint : string;
  token : string;
}.

Definition wrapJwtsvidErr (err : error) : error := fmt_Errorf "jwtsvid: %w" [Arg_w (Some err)].

(** source.go *)
Record Params : Type := mkParams {
  param_Audience : string;
  ExtraAudiences : list string;
  param_Subject : ID.ID;
}.
Class Source (T : Type) := FetchJWTSVID_ : T → Params → res SVID.

Definition Marshal (s : SVID) : string := token s.

Section svid_defs.
Context {C : Charset} {J : JwtLib}.

Definition tokenValidator : Type := JSONWebToken → TrustDomain → res claims_map.

(** tok.Headers[0] *)
Definition header0 (tok : JSONWebToken) : res Header :=
  match Headers tok with [] => Panic "index out of range" | h :: _ => Ok h end.

(** The typ header is absent, or the string "JOSE" or "JWT". *)
Definition typ_ok (typ : option json) : bool :=
  match typ with
  | None => true
  | Some (JString s) => bool_decide (s = "JOSE") || bool_decide (s = "JWT")
  | Some _ => false
  end.

(** The errors of claims.Validate the code rewrites. *)
Definition pretty_error (audience : list string) (claims : Claims) (err : error) : error :=
  if is_extern err "ErrExpired" then wrapJwtsvidErr (errors_New "token has expired")
  else if is_extern err "ErrInvalidAudience"
  then wrapJwtsvidErr (fmt_Errorf "expected audience in %q (audience=%q)"
         ((Arg_s <$> audience) ++ (Arg_s <$> Audience claims)))
  else err.

Definition parse (now : Z) (token : string) (audience : list string) (getClaims : tokenValidator) : res SVID :=
  let! tok := wrap_err (λ _, wrapJwtsvidErr (errors_New "unable to parse JWT token"))
                (of_lib (jwt_ParseSigned token allowedSignatureAlgorithms)) in
  let! h := header0 tok in
  if negb (typ_ok (hdr_Type h))
  then Err (wrapJwtsvidErr (errors_New "token header type not equal to either JWT or JOSE"))
  else
    let! claims := wrap_err (λ err, wrapJwtsvidErr
                     (fmt_Errorf "unable to get claims from token: %v" [Arg_v (Some err)]))
                   (of_lib (UnsafeClaims tok)) in
    if bool_decide (Subject claims = "") then Err (wrapJwtsvidErr (errors_New "token missing subject claim"))
    else
      match Expiry claims with
      | None => Err (wrapJwtsvidErr (errors_New "token missing exp claim"))
      | Some expiry =>
          let! spiffeID := wrap_err (λ err, wrapJwtsvidErr
                             (fmt_Errorf "token has an invalid subject claim: %v" [Arg_v (Some err)]))
                           (FromString (Subject claims)) in
          let! td := ID_TrustDomain spiffeID in
          let! claimsMap := getClaims tok td in
          match Validate claims (mkExpected audience now) with
          | Some err => Err (pretty_error audience claims err)
          | None => Ok (mkSVID spiffeID (Audience claims) expiry claimsMap "" token)
          end
      end.

(** The validator of ParseAndValidate. *)
Definition bundle_validator {T} {S : JwtBundle.Source T} (bundles : T) : tokenValidator := λ tok trustDomain,
  let! h := header0 tok in
  let keyID := hdr_KeyID h in
  if bool_decide (keyID = "") then Err (wrapJwtsvidErr (errors_New "token header missing key id"))
  else
    let! bundle := wrap_err (λ _, wrapJwtsvidErr
                     (fmt_Errorf "no bundle found for trust domain %q" [Arg_s (TrustDomain_String trustDomain)]))
                   (GetJWT bundles trustDomain) in
    match FindJWTAuthority bundle keyID with
    | (Some authority, true) =>
        wrap_err (λ err, wrapJwtsvidErr (fmt_Errorf "unable to get claims from token: %v" [Arg_v (Some err)]))
          (of_lib (tok_Claims authority tok))
    | _ => Err (wrapJwtsvidErr (fmt_Errorf "no JWT authority %q found for trust domain %q"
                 [Arg_s keyID; Arg_s (TrustDomain_String trustDomain)]))
    end.

Definition ParseAndValidate {T} {S : JwtBundle.Source T} (now : Z) (token : string) (bundles : T)
    (audience : list string) : res SVID :=
  parse now token audience (bundle_validator bundles).

Definition insecure_validator : tokenValidator := λ tok td,
  wrap_err (λ err, wrapJwtsvidErr (fmt_Errorf "unable to get claims from token: %v" [Arg_v (Some err)]))
    (of_lib (UnsafeClaimsMap tok)).

Definition ParseInsecure (now : Z) (token : string) (audience : list string) : res SVID :=
  parse now token audience insecure_validator.
End svid_defs.

Section jwtsvid_lemmas.
Context {C : Charset} {CL : CharsetLaws C} {J : JwtLib}.

(** What parse requires of a token, whatever the validator. *)
Lemma jwtsvid_parse_Ok now token audience getClaims s :
  parse now token audience getClaims = Ok s ↔
  ∃ tok h claims exp td path m,
    jwt_ParseSigned token allowedSignatureAlgorithms = inl tok ∧ head (Headers tok) = Some h ∧
    typ_ok (hdr_Type h) = true ∧ UnsafeClaims tok = inl claims ∧
    Expiry claims = Some exp ∧ id_parts (svid_ID s) td path ∧ id_ (svid_ID s) = Subject claims ∧
    getClaims tok td = Ok m ∧ Validate claims (mkExpected audience now) = None ∧
    s = mkSVID (svid_ID s) (Audience claims) exp m "" token.
Proof.
  unfold parse, header0. split.
  - intros (tok & Ht%wrap_err_Ok & (h & Hh & H)%bind_Ok_inv)%bind_Ok_inv.
    destruct (jwt_ParseSigned _ _) as [tok'|] eqn:Hp; simplify_eq/=.
    destruct (Headers tok) as [|h' hs] eqn:Hhs; simplify_eq/=.
    destruct (typ_ok (hdr_Type h)) eqn:Htyp; [|done].
    apply bind_Ok_inv in H as (claims & Hc%wrap_err_Ok & H).
    destruct (UnsafeClaims tok) as [claims'|] eqn:Huc; simplify_eq/=. case_bool_decide as Hs; [done|].
    destruct (Expiry claims) as [exp|] eqn:He; [|done].
    apply bind_Ok_inv in H as (i & Hi%wrap_err_Ok & (td & Htd & (m & Hm & H)%bind_Ok_inv)%bind_Ok_inv).
    destruct (Validate _ _) eqn:Hv; [done|]. simplify_eq/=.
    apply FromString_Ok in Hi as (td' & path & Hparts & Hid).
    rewrite (id_parts_TrustDomain _ _ _ Hparts) in Htd. simplify_eq/=.
    exists tok, h, claims, exp, td, path, m. by rewrite Hhs.
  - intros (tok & h & claims & exp & td & path & m & Hp & Hh & Htyp & Huc & He & Hparts & Hid & Hm & Hv & ->).
    rewrite Hp; cbn [of_lib wrap_err mbind res_bind].
    destruct (Headers tok) as [|h' hs]; simplify_eq/=. rewrite Htyp; cbn [negb].
    rewrite Huc; cbn [of_lib wrap_err mbind res_bind].
    rewrite bool_decide_false.
    2: { rewrite <- Hid. destruct Hparts as (_ & _ & _ & E). by rewrite E. }
    rewrite He.
    rewrite (proj2 (FromString_Ok (Subject claims) (svid_ID s))) by eauto. cbn [wrap_err mbind res_bind].
    rewrite (id_parts_TrustDomain _ _ _ Hparts). cbn [mbind res_bind]. rewrite Hm. cbn [mbind res_bind]. by rewrite Hv.
Qed.

Lemma bundle_validator_Ok {T} {S : JwtBundle.Source T} (bundles : T) tok td m :
  bundle_validator bundles tok td = Ok m ↔
  ∃ h bundle k, head (Headers tok) = Some h ∧ hdr_KeyID h ≠ "" ∧ GetJWT bundles td = Ok bundle ∧
    FindJWTAuthority bundle (hdr_KeyID h) = (Some k, true) ∧ tok_Claims k tok = inl m.
Proof.
  unfold bundle_validator, header0. destruct (Headers tok) as [|h hs]; cbn [mbind res_bind head]; [naive_solver|].
  case_bool_decide as Hk; [naive_solver|]. split.
  - intros (bundle & Hb%wrap_err_Ok & H)%bind_Ok_inv.
    destruct (FindJWTAuthority bundle (hdr_KeyID h)) as [[k|] []] eqn:Hf; try done.
    destruct (tok_Claims k tok) eqn:Hc; simplify_eq/=. by exists h, bundle, k.
  - intros (h' & bundle & k & [= <-] & _ & -> & Hf & Hc). cbn [wrap_err mbind res_bind]. by rewrite Hf, Hc.
Qed.
End jwtsvid_lemmas.

Section jwtsvid_properties.
Context {C : Charset} {CL : CharsetLaws C} {J : JwtLib} {JL : JwtLaws J}.
Context {T : Type} {S : JwtBundle.Source T}.

(** [C8] A validated JWT-SVID: ParseAndValidate succeeds exactly when the token
    parses under the allowed algorithms, its typ is JWT, JOSE or absent, its
    subject is a SPIFFE ID and it has an expiry; the source has a bundle for that
    ID's trust domain holding a key under the token's non-empty key ID that
    verifies the signature; and the claims validate now for the audience. The
    result then carries the subject's ID and the token itself, the token has not
    expired (up to the leeway) and is meant for one of the audiences. *)
Theorem ParseAndValidate_iff (now : Z) (tokn : string) (bundles : T) audience s :
  (ParseAndValidate now tokn bundles audience = Ok s ↔
   ∃ tok h claims exp td path m bundle k,
     jwt_ParseSigned tokn allowedSignatureAlgorithms = inl tok ∧ Headers tok = [h] ∧
     typ_ok (hdr_Type h) = true ∧ UnsafeClaims tok = inl claims ∧ Expiry claims = Some exp ∧
     id_parts (svid_ID s) td path ∧ id_ (svid_ID s) = Subject claims ∧
     hdr_KeyID h ≠ "" ∧ GetJWT bundles td = Ok bundle ∧
     FindJWTAuthority bundle (hdr_KeyID h) = (Some k, true) ∧ tok_Claims k tok = inl m ∧
     Validate claims (mkExpected audience now) = None ∧
     s = mkSVID (svid_ID s) (Audience claims) exp m "" tokn) ∧
  (ParseAndValidate now tokn bundles audience = Ok s →
   Marshal s = tokn ∧ (now ≤ svid_Expiry s + DefaultLeeway)%Z ∧
   (audience ≠ [] → ∃ a, a ∈ audience ∧ a ∈ svid_Audience s) ∧
   ParseInsecure now tokn audience = Ok s).
Proof.
  unfold ParseAndValidate, ParseInsecure. rewrite !jwtsvid_parse_Ok. split.
  - split.
    + intros (tok & h & claims & exp & td & path & m & Hp & Hh & Htyp & Huc & He & Hparts & Hid & Hm & Hv & Hs).
      apply bundle_validator_Ok in Hm as (h' & bundle & k & Hh' & Hne & Hb & Hf & Hc).
      destruct (one_header _ _ _ Hp) as [h0 E]. rewrite E in Hh, Hh'. injection Hh as <-. injection Hh' as <-.
      exists tok, h0, claims, exp, td, path, m, bundle, k. by rewrite E.
    + intros (tok & h & claims & exp & td & path & m & bundle & k & Hp & Hh & Htyp & Huc & He & Hparts & Hid
        & Hne & Hb & Hf & Hc & Hv & Hs).
      exists tok, h, claims, exp, td, path, m. rewrite Hh. split_and!; try done.
      apply bundle_validator_Ok. exists h, bundle, k. by rewrite Hh.
  - intros (tok & h & claims & exp & td & path & m & Hp & Hh & Htyp & Huc & He & Hparts & Hid & Hm & Hv & Hs).
    rewrite Hs. split_and!; simpl.
    + done.
    + exact (validated_time _ _ _ _ Hv He).
    + intros Hne. exact (validated_audience _ _ _ Hv Hne).
    + exists tok, h, claims, exp, td, path, m. split_and!; try done.
      apply bundle_validator_Ok in Hm as (_ & _ & k & _ & _ & _ & _ & Hc).
      unfold insecure_validator. by rewrite (verified_payload _ _ _ Hc).
Qed.
End jwtsvid_properties.

Definition sample_key_bundle : JwtBundle.Bundle :=
  mkBundle (mkTrustDomain "example.org") (<["k1" := Ed25519_PublicKey "a"]> ∅).

Lemma ParseAndValidate_iff_witness :
  ∃ s, ParseAndValidate (C := charset_deny) 900 "J" sample_key_bundle ["aud2"] = Ok s ∧
    Marshal s = "J" ∧ (900 ≤ svid_Expiry s + DefaultLeeway)%Z.
Proof.
  destruct (ParseAndValidate (C := charset_deny) 900 "J" sample_key_bundle ["aud2"]) as [s| |] eqn:Hs;
    try (by vm_compute in Hs).
  exists s. split; [done|].
  destruct (proj2 (ParseAndValidate_iff (C := charset_deny) 900 "J" sample_key_bundle ["aud2"] s) Hs)
    as (Hm & He & _).
  by split.
Defined.
