(* ===== verification/WitSvid.v ===== *)
(** * exp/svid/witsvid: WIT-SVIDs

    Models src/exp/svid/witsvid/svid.go and source.go over the JWT library of
    Jwt.v; re-encoding the cnf.jwk claim and reading it as a JSON Web Key are the
    interface [JwkLib]. *)

From S2P Require Import Prelude Path GoUrl ID Crypto X509 X509Sample BundleSet Jose WitBundle Jwt.

(** The algorithms a WIT-SVID may be signed with, and its cnf key may name. *)
Definition allowedSignatureAlgorithms : list string :=
  ["RS256"; "RS384"; "RS512"; "ES256"; "ES384"; "ES512"; "PS256"; "PS384"; "PS512"].

(** A nil private key is None. *)
Record SVID : Type := mkSVID {
  svid_ID : ID.ID;
  svid_Expiry : Z;
  svid_PublicKey : PublicKey;
  svid_KeyID : string;
  svid_PrivateKey : option PrivateKey;
  Hint : string;
  token : string;
}.

Definition wrapErr (err : error) : error := fmt_Errorf "witsvid: %w" [Arg_w (Some err)].

Class JwkLib := {
  JWK : Type;                                  (* jose.JSONWebKey *)
  json_Marshal : json → string + error;
  jwk_UnmarshalJSON : string → JWK + error;
  IsPublic : JWK → bool;
  jwk_Key : JWK → PublicKey;
}.

(** source.go *)
Class Source (T : Type) := GetWITSVIDForID_ : T → ID.ID → res SVID.

Definition Marshal (s : SVID) : string := token s.

(** ** The cnf.jwk claim *)
Section cnf.
Context {K : JwkLib}.

(** m[k] with a type assertion to map[string]any. *)
Definition object_member (m : claims_map) (k : string) (missing not_object : string) : res claims_map :=
  match member m k with
  | None => Err (wrapErr (errors_New missing))
  | Some (JObject o) => Ok o
  | Some _ => Err (wrapErr (errors_New not_object))
  end.

Definition extractCnfJWK (claims : claims_map) : res PublicKey :=
  let! cnfMap := object_member claims "cnf" "token missing cnf claim" "cnf claim is not an object" in
  let! jwkMap := object_member cnfMap "jwk" "cnf claim missing jwk field" "cnf.jwk is not an object" in
  match member jwkMap "alg" with
  | None => Err (wrapErr (errors_New "cnf.jwk missing alg field"))
  | Some (JString algStr) =>
      if negb (bool_decide (algStr ∈ allowedSignatureAlgorithms))
      then Err (wrapErr (fmt_Errorf "cnf.jwk alg %q is not supported" [Arg_s algStr]))
      else
        let! data := wrap_err (λ err, wrapErr (fmt_Errorf "unable to marshal cnf.jwk: %v" [Arg_v (Some err)]))
                       (of_lib (json_Marshal (JObject jwkMap))) in
        let! jwk := wrap_err (λ err, wrapErr (fmt_Errorf "unable to parse cnf.jwk: %v" [Arg_v (Some err)]))
                      (of_lib (jwk_UnmarshalJSON data)) in
        if negb (IsPublic jwk) then Err (wrapErr (errors_New "cnf.jwk must be a public key"))
        else Ok (jwk_Key jwk)
  | Some _ => Err (wrapErr (errors_New "cnf.jwk alg field is not a string"))
  end.
End cnf.

(** ** Parsing *)
Section svid_defs.
Context {C : Charset} {J : JwtLib} {K : JwkLib}.

Definition verifyFn : Type := JSONWebToken → TrustDomain → string → res unit.

Definition header0 (tok : JSONWebToken) : res Header :=
  match Headers tok with [] => Panic "index out of range" | h :: _ => Ok h end.

(** The type assertion to string: "" when absent or not a string. *)
Definition typ_string (typ : option json) : string :=
  match typ with Some (JString s) => s | _ => "" end.

Definition pretty_error (err : error) : error :=
  if is_extern err "ErrExpired" then wrapErr (errors_New "token has expired")
  else if is_extern err "ErrNotValidYet" then wrapErr (errors_New "token is not yet valid")
  else wrapErr err.

(** The checks on the claims up to the binding key. *)
Definition parse_claims (tok : JSONWebToken) : res (Claims * Z * ID.ID * PublicKey) :=
  let! stdClaims := wrap_err (λ err, wrapErr (fmt_Errorf "unable to parse standard claims: %v" [Arg_v (Some err)]))
                      (of_lib (UnsafeClaims tok)) in
  if bool_decide (Subject stdClaims = "") then Err (wrapErr (errors_New "token missing subject claim"))
  else
    match Expiry stdClaims with
    | None => Err (wrapErr (errors_New "token missing exp claim"))
    | Some expiry =>
        if (0 <? length (Audience stdClaims))%nat
        then Err (wrapErr (errors_New "WIT-SVID must not contain aud claim"))
        else
          let! spiffeID := wrap_err (λ err, wrapErr
                             (fmt_Errorf "token has an invalid subject claim: %v" [Arg_v (Some err)]))
                           (FromString (Subject stdClaims)) in
          let! rawClaims := wrap_err (λ err, wrapErr (fmt_Errorf "unable to parse claims: %v" [Arg_v (Some err)]))
                              (of_lib (UnsafeClaimsMap tok)) in
          let! publicKey := extractCnfJWK rawClaims in
          Ok (stdClaims, expiry, spiffeID, publicKey)
    end.

Definition parse (now : Z) (token : string) (verify : verifyFn) : res SVID :=
  let! tok := wrap_err (λ _, wrapErr (errors_New "unable to parse WIT-SVID token"))
                (of_lib (jwt_ParseSigned token allowedSignatureAlgorithms)) in
  let! h := header0 tok in
  let typ := typ_string (hdr_Type h) in
  if negb (bool_decide (typ = "wit+jwt"))
  then Err (wrapErr (fmt_Errorf "token header type must be %q, got %q" [Arg_s "wit+jwt"; Arg_s typ]))
  else
    let keyID := hdr_KeyID h in
    if bool_decide (keyID = "") then Err (wrapErr (errors_New "token header missing key id"))
    else
      let! r := parse_claims tok in
      let '(stdClaims, expiry, spiffeID, publicKey) := r in
      match ValidateWithLeeway stdClaims (mkExpected [] now) DefaultLeeway with
      | Some err => Err (pretty_error err)
      | None =>
          let! td := ID_TrustDomain spiffeID in
          check! verify tok td keyID;
          Ok (mkSVID spiffeID expiry publicKey keyID None "" token)
      end.

Definition bundle_verify {T} {S : WitBundle.Source T} (bundles : T) : verifyFn := λ tok trustDomain keyID,
  let! bundle := wrap_err (λ _, wrapErr
                   (fmt_Errorf "no WIT bundle found for trust domain %q" [Arg_s (TrustDomain_String trustDomain)]))
                 (GetWIT bundles trustDomain) in
  match FindWITAuthority bundle keyID with
  | (Some authority, true) =>
      let! _ := wrap_err (λ err, wrapErr (fmt_Errorf "signature verification failed: %w" [Arg_w (Some err)]))
                  (of_lib (tok_Claims authority tok)) in
      Ok ()
  | _ => Err (wrapErr (fmt_Errorf "no WIT authority %q found for trust domain %q"
               [Arg_s keyID; Arg_s (TrustDomain_String trustDomain)]))
  end.

Definition ParseAndValidate {T} {S : WitBundle.Source T} (now : Z) (token : string) (bundles : T) : res SVID :=
  parse now token (bundle_verify bundles).

Definition ParseInsecure (now : Z) (token : string) : res SVID := parse now token (λ _ _ _, Ok ()).
End svid_defs.

(** ** Lemmas *)
Section witsvid_lemmas.
Context {C : Charset} {CL : CharsetLaws C} {J : JwtLib} {K : JwkLib}.

Lemma object_member_Ok m k e1 e2 o :
  object_member m k e1 e2 = Ok o ↔ member m k = Some (JObject o).
Proof. unfold object_member. destruct (member m k) as [[]|]; naive_solver. Qed.

(** The binding key of a claims set: the public key read from cnf.jwk. *)
Definition binds (m : claims_map) (pub : PublicKey) : Prop :=
  ∃ cnf jwk alg data key,
    member m "cnf" = Some (JObject cnf) ∧ member cnf "jwk" = Some (JObject jwk) ∧
    member jwk "alg" = Some (JString alg) ∧ alg ∈ allowedSignatureAlgorithms ∧
    json_Marshal (JObject jwk) = inl data ∧ jwk_UnmarshalJSON data = inl key ∧
    IsPublic key = true ∧ pub = jwk_Key key.

Lemma extractCnfJWK_Ok m pub : extractCnfJWK m = Ok pub ↔ binds m pub.
Proof.
  unfold extractCnfJWK, binds. split.
  - intros (cnf & Hc%object_member_Ok & (jwk & Hj%object_member_Ok & H)%bind_Ok_inv)%bind_Ok_inv.
    destruct (member jwk "alg") as [[| | |alg| |]|] eqn:Ha; try done.
    case_bool_decide as Hin; [|done]. cbn [negb] in H.
    apply bind_Ok_inv in H as (data & Hd%wrap_err_Ok & (key & Hk%wrap_err_Ok & H)%bind_Ok_inv).
    destruct (json_Marshal _) eqn:Hm; simplify_eq/=. destruct (jwk_UnmarshalJSON _) eqn:Hu; simplify_eq/=.
    destruct (IsPublic key) eqn:Hp; simplify_eq/=. by eauto 15.
  - intros (cnf & jwk & alg & data & key & Hc & Hj & Ha & Hin & Hm & Hu & Hp & ->).
    rewrite (proj2 (object_member_Ok _ _ _ _ _) Hc); cbn [mbind res_bind].
    rewrite (proj2 (object_member_Ok _ _ _ _ _) Hj); cbn [mbind res_bind].
    rewrite Ha, bool_decide_true by done. cbn [negb]. rewrite Hm; cbn [of_lib wrap_err mbind res_bind].
    rewrite Hu; cbn [of_lib wrap_err mbind res_bind]. by rewrite Hp.
Qed.

Lemma parse_claims_Ok tok c exp i pub :
  parse_claims tok = Ok (c, exp, i, pub) ↔
  ∃ td path m, UnsafeClaims tok = inl c ∧ Expiry c = Some exp ∧ Audience c = [] ∧
    id_parts i td path ∧ id_ i = Subject c ∧ UnsafeClaimsMap tok = inl m ∧ binds m pub.
Proof.
  unfold parse_claims. split.
  - intros (c' & Hc%wrap_err_Ok & H)%bind_Ok_inv.
    destruct (UnsafeClaims tok) as [c''|] eqn:Huc; simplify_eq/=. case_bool_decide; [done|].
    destruct (Expiry c') as [exp'|] eqn:He; [|done].
    destruct (Nat.ltb_spec 0 (length (Audience c'))); [done|].
    apply bind_Ok_inv in H as (i' & Hi%wrap_err_Ok & (m & Hm%wrap_err_Ok & H)%bind_Ok_inv).
    apply bind_Ok_inv in H as (pub' & Hpub%extractCnfJWK_Ok & H).
    destruct (UnsafeClaimsMap tok) eqn:Hum; simplify_eq/=.
    apply FromString_Ok in Hi as (td & path & Hparts & Hid). exists td, path, m. split_and!; try done.
    destruct (Audience c); [done|simpl in *; lia].
  - intros (td & path & m & Huc & He & Ha & Hparts & Hid & Hm & Hpub%extractCnfJWK_Ok).
    rewrite Huc; cbn [of_lib wrap_err mbind res_bind]. rewrite bool_decide_false.
    2: { rewrite <- Hid. destruct Hparts as (_ & _ & _ & E). by rewrite E. }
    rewrite He, Ha; simpl. rewrite (proj2 (FromString_Ok (Subject c) i)) by eauto. cbn [wrap_err mbind res_bind].
    rewrite Hm; cbn [of_lib wrap_err mbind res_bind]. by rewrite Hpub.
Qed.

Lemma witsvid_parse_Ok now tokn verify s :
  parse now tokn verify = Ok s ↔
  ∃ tok h claims td path m,
    jwt_ParseSigned tokn allowedSignatureAlgorithms = inl tok ∧ head (Headers tok) = Some h ∧
    hdr_Type h = Some (JString "wit+jwt") ∧ hdr_KeyID h ≠ "" ∧
    UnsafeClaims tok = inl claims ∧ Expiry claims = Some (svid_Expiry s) ∧ Audience claims = [] ∧
    id_parts (svid_ID s) td path ∧ id_ (svid_ID s) = Subject claims ∧
    UnsafeClaimsMap tok = inl m ∧ binds m (svid_PublicKey s) ∧
    ValidateWithLeeway claims (mkExpected [] now) DefaultLeeway = None ∧
    verify tok td (hdr_KeyID h) = Ok () ∧
    s = mkSVID (svid_ID s) (svid_Expiry s) (svid_PublicKey s) (hdr_KeyID h) None "" tokn.
Proof.
  unfold parse, header0. split.
  - intros (tok & Ht%wrap_err_Ok & (h & Hh & H)%bind_Ok_inv)%bind_Ok_inv.
    destruct (jwt_ParseSigned _ _) as [tok'|] eqn:Hp; simplify_eq/=.
    destruct (Headers tok) as [|h' hs] eqn:Hhs; simplify_eq/=.
    case_bool_decide as Htyp; [|done]. case_bool_decide as Hk; [done|]. cbn [negb] in H.
    apply bind_Ok_inv in H as ([[[c exp] i] pub] & Hc & H).
    apply parse_claims_Ok in Hc as (td & path & m & ? & ? & ? & Hparts & ? & ? & ?).
    destruct (ValidateWithLeeway _ _ _) eqn:Hv; [done|].
    rewrite (id_parts_TrustDomain _ _ _ Hparts) in H. cbn [mbind res_bind] in H.
    apply check_Ok_inv in H as [Hver [= <-]]. exists tok, h, c, td, path, m. rewrite Hhs. split_and!; try done.
    destruct (hdr_Type h) as [[]|]; simpl in Htyp; congruence.
  - intros (tok & h & claims & td & path & m & Hp & Hh & Htyp & Hk & Huc & He & Ha & Hparts & Hid & Hm & Hb & Hv & Hver & ->).
    rewrite Hp; cbn [of_lib wrap_err mbind res_bind].
    destruct (Headers tok) as [|h' hs]; simplify_eq/=. rewrite Htyp, bool_decide_true by done. cbn [negb].
    rewrite bool_decide_false by done.
    rewrite (proj2 (parse_claims_Ok tok claims _ _ _)) by eauto 10. cbn [mbind res_bind].
    rewrite Hv, (id_parts_TrustDomain _ _ _ Hparts). cbn [mbind res_bind]. by rewrite Hver.
Qed.

Lemma extractCnfJWK_no_panic m : no_panic (extractCnfJWK m) = true.
Proof.
  apply bind_no_panic; [unfold object_member; by repeat case_match|]. intros cnf _.
  apply bind_no_panic; [unfold object_member; by repeat case_match|]. intros jwk _.
  destruct (member jwk "alg") as [[]|]; try done. case_bool_decide; [|done]. cbn [negb].
  apply bind_no_panic; [rewrite wrap_err_no_panic; apply of_lib_no_panic|]. intros data _.
  apply bind_no_panic; [rewrite wrap_err_no_panic; apply of_lib_no_panic|]. intros key _.
  by case_match.
Qed.

Lemma parse_no_panic {JL : JwtLaws J} now tokn verify :
  (∀ tok td k, no_panic (verify tok td k) = true) → no_panic (parse now tokn verify) = true.
Proof.
  intros Hver. apply bind_no_panic; [rewrite wrap_err_no_panic; apply of_lib_no_panic|].
  intros tok Ht%wrap_err_Ok. destruct (jwt_ParseSigned _ _) eqn:Hp; simplify_eq/=.
  destruct (one_header _ _ _ Hp) as [h Hh]. unfold header0. rewrite Hh; cbn [mbind res_bind].
  case_bool_decide; cbn [negb]; [|done]. case_bool_decide; [done|]. apply bind_no_panic.
  - unfold parse_claims. apply bind_no_panic; [rewrite wrap_err_no_panic; apply of_lib_no_panic|]. intros c _.
    case_bool_decide; [done|]. case_match; [|done]. case_match; [done|].
    apply bind_no_panic; [rewrite wrap_err_no_panic; apply FromString_no_panic|]. intros i _.
    apply bind_no_panic; [rewrite wrap_err_no_panic; apply of_lib_no_panic|]. intros m _.
    apply bind_no_panic; [apply extractCnfJWK_no_panic|done].
  - intros [[[c exp] i] pub] (td & path & m & _ & _ & _ & Hparts & _)%parse_claims_Ok.
    case_match; [done|]. rewrite (id_parts_TrustDomain _ _ _ Hparts); cbn [mbind res_bind].
    apply bind_no_panic; [apply Hver|done].
Qed.

Lemma bundle_verify_Ok {T} {S : WitBundle.Source T} (bundles : T) tok td keyID :
  bundle_verify bundles tok td keyID = Ok () ↔
  ∃ bundle k m, GetWIT bundles td = Ok bundle ∧ FindWITAuthority bundle keyID = (Some k, true) ∧
    tok_Claims k tok = inl m.
Proof.
  unfold bundle_verify. split.
  - intros (bundle & Hb%wrap_err_Ok & H)%bind_Ok_inv.
    destruct (FindWITAuthority bundle keyID) as [[k|] []] eqn:Hf; try done.
    destruct (tok_Claims k tok) as [m|] eqn:Hc; simplify_eq/=. by exists bundle, k, m.
  - intros (bundle & k & m & -> & Hf & Hc). cbn [wrap_err mbind res_bind]. by rewrite Hf, Hc.
Qed.
End witsvid_lemmas.

Section witsvid_properties.
Context {C : Charset} {CL : CharsetLaws C} {J : JwtLib} {JL : JwtLaws J} {K : JwkLib}.
Context {T : Type} {S : WitBundle.Source T}.

(** [C9] A validated WIT-SVID: ParseAndValidate succeeds exactly when the token
    parses under the allowed algorithms with typ wit+jwt and a key ID, carries a
    SPIFFE ID as subject, an expiry and no audience, binds a public key in
    cnf.jwk, is valid now, and its signature is verified by the key of that ID in
    the source's bundle for the subject's trust domain. The result is bound to that
    public key, has no private key, and is what ParseInsecure gives. *)
Theorem wit_ParseAndValidate_iff (now : Z) (tokn : string) (bundles : T) s :
  (ParseAndValidate now tokn bundles = Ok s ↔
   ∃ tok h claims td path m bundle k m',
     jwt_ParseSigned tokn allowedSignatureAlgorithms = inl tok ∧ Headers tok = [h] ∧
     hdr_Type h = Some (JString "wit+jwt") ∧ hdr_KeyID h ≠ "" ∧
     UnsafeClaims tok = inl claims ∧ Expiry claims = Some (svid_Expiry s) ∧ Audience claims = [] ∧
     id_parts (svid_ID s) td path ∧ id_ (svid_ID s) = Subject claims ∧
     UnsafeClaimsMap tok = inl m ∧ binds m (svid_PublicKey s) ∧
     ValidateWithLeeway claims (mkExpected [] now) DefaultLeeway = None ∧
     GetWIT bundles td = Ok bundle ∧ FindWITAuthority bundle (hdr_KeyID h) = (Some k, true) ∧
     tok_Claims k tok = inl m' ∧
     s = mkSVID (svid_ID s) (svid_Expiry s) (svid_PublicKey s) (hdr_KeyID h) None "" tokn) ∧
  (ParseAndValidate now tokn bundles = Ok s →
   Marshal s = tokn ∧ svid_PrivateKey s = None ∧ (now ≤ svid_Expiry s + DefaultLeeway)%Z ∧
   ParseInsecure now tokn = Ok s).
Proof.
  unfold ParseAndValidate, ParseInsecure. rewrite !witsvid_parse_Ok. split.
  - split.
    + intros (tok & h & claims & td & path & m & Hp & Hh & Htyp & Hk & Huc & He & Ha & Hparts & Hid & Hm & Hb & Hv & Hver & Hs).
      apply bundle_verify_Ok in Hver as (bundle & k & m' & ? & ? & ?).
      destruct (one_header _ _ _ Hp) as [h0 E]. rewrite E in Hh. injection Hh as <-.
      exists tok, h0, claims, td, path, m, bundle, k, m'. by rewrite E.
    + intros (tok & h & claims & td & path & m & bundle & k & m' & Hp & Hh & Htyp & Hk & Huc & He & Ha & Hparts
        & Hid & Hm & Hb & Hv & Hg & Hf & Hc & Hs).
      exists tok, h, claims, td, path, m. rewrite Hh. split_and!; try done.
      apply bundle_verify_Ok. by exists bundle, k, m'.
  - intros (tok & h & claims & td & path & m & Hp & Hh & Htyp & Hk & Huc & He & Ha & Hparts & Hid & Hm & Hb & Hv & Hver & Hs).
    split_and!; [by rewrite Hs|by rewrite Hs| |].
    + exact (validated_time _ _ _ _ Hv He).
    + exists tok, h, claims, td, path, m. by split_and!.
Qed.
End witsvid_properties.

(** A concrete reader of keys for the witness. *)
#[export] Instance sample_JwkLib : JwkLib := {|
  JWK := PublicKey * bool;
  json_Marshal j := inl "jwk";
  jwk_UnmarshalJSON s := inl (ECDSA_PublicKey "P-256" 1 2, bool_decide (s = "jwk"));
  IsPublic k := k.2;
  jwk_Key k := k.1;
|}.

Definition sample_wit_key_bundle : WitBundle.Bundle :=
  mkBundle (mkTrustDomain "example.org") (<["k1" := Ed25519_PublicKey "a"]> ∅).

Lemma wit_ParseAndValidate_iff_witness :
  ∃ s, ParseAndValidate (C := charset_deny) 900 "W" sample_wit_key_bundle = Ok s ∧
    svid_PrivateKey s = None ∧ ParseInsecure (C := charset_deny) 900 "W" = Ok s.
Proof.
  destruct (ParseAndValidate (C := charset_deny) 900 "W" sample_wit_key_bundle) as [s| |] eqn:Hs;
    try (by vm_compute in Hs).
  exists s. split; [done|].
  destruct (proj2 (wit_ParseAndValidate_iff (C := charset_deny) 900 "W" sample_wit_key_bundle s) Hs)
    as (_ & Hk & _ & Hi).
  by split.
Defined.
