(* ===== verification/Backoff.v ===== *)
(** * workloadapi: backoff

    Models src/workloadapi/backoff.go. A BackoffStrategy makes backoffs; a
    [Backoff] is an object with Next and Reset, here a state with two functions.
    The linear backoff computes in float64 from whole numbers of seconds: with
    delays below 2^53 seconds every value is represented exactly, and from the
    count at which a float64 would round the minimum is the maximum delay, so the
    integer computation gives the same results. *)

From S2P Require Import Prelude.

(** time.Second *)
Definition Second : Z := 1000000000.

Record linearBackoff : Type := mkLinearBackoff {
  initialDelay : Z;
  maxDelay : Z;
  n : Z;
}.

Definition newLinearBackoff : linearBackoff := mkLinearBackoff Second (30 * Second) 0.

(** The delay and the new state: initialDelay.Seconds() * (n + 1) capped at
    maxDelay.Seconds(), truncated to whole seconds; n++ wraps. *)
Definition Next (b : linearBackoff) : Z * linearBackoff :=
  let d := Z.min (initialDelay b * (n b + 1)) (maxDelay b) in
  (wrap_int64 (Z.quot d Second * Second), mkLinearBackoff (initialDelay b) (maxDelay b) (wrap_int64 (n b + 1))).

Definition Reset (b : linearBackoff) : linearBackoff := mkLinearBackoff (initialDelay b) (maxDelay b) 0.

(** The interface Backoff: a strategy supplies the states and operations. *)
Class BackoffStrategy := {
  Backoff : Type;
  NewBackoff : Backoff;
  backoff_Next : Backoff → Z * Backoff;
  backoff_Reset : Backoff → Backoff;
}.

Definition defaultBackoffStrategy : BackoffStrategy := {|
  Backoff := linearBackoff;
  NewBackoff := newLinearBackoff;
  backoff_Next := Next;
  backoff_Reset := Reset;
|}.

(** The delays of [k] consecutive calls of Next. *)
Fixpoint Next_n (k : nat) (b : linearBackoff) : list Z * linearBackoff :=
  match k with
  | O => ([], b)
  | S k => let '(d, b) := Next b in let '(ds, b) := Next_n k b in (d :: ds, b)
  end.

(** A backoff made by the default strategy after [k] failures in a row. *)
Definition after_failures (b : linearBackoff) (k : nat) : Prop :=
  b = mkLinearBackoff Second (30 * Second) (Z.of_nat k).

(** The documented policy: one more second each time, up to thirty. *)
Definition linear_delay (k : nat) : Z := (Z.min (Z.of_nat k + 1) 30 * Second)%Z.

Lemma Next_after_failures b k :
  (Z.of_nat k < 2 ^ 63 - 1)%Z → after_failures b k →
  (Next b).1 = linear_delay k ∧ after_failures (Next b).2 (S k).
Proof.
  intros Hk ->. unfold after_failures, Next, linear_delay, Second; simpl.
  assert (Z.quot (Z.min (1000000000 * (Z.of_nat k + 1)) (30 * 1000000000)) 1000000000
          = Z.min (Z.of_nat k + 1) 30)%Z as ->.
  { destruct (Z.le_ge_cases (Z.of_nat k + 1) 30).
    - rewrite (Z.min_l (1000000000 * _)), (Z.min_l (Z.of_nat k + 1)) by lia.
      rewrite Z.mul_comm. by rewrite Z.quot_mul.
    - rewrite (Z.min_r (1000000000 * _)), (Z.min_r (Z.of_nat k + 1)) by lia. done. }
  rewrite !wrap_int64_id by (unfold int64_ok; lia). split; [done|]. f_equal. lia.
Qed.

Lemma Reset_after_failures b k : after_failures b k → after_failures (Reset b) 0.
Proof. by intros ->. Qed.

(** The i-th delay of a run of failures is min(i + 1, 30) seconds: delays start
    at one second, never decrease, and stay between one and thirty seconds; a
    reset starts the sequence again. *)
Theorem linear_backoff_spec (k : nat) :
  (Z.of_nat k < 2 ^ 63)%Z →
  (Next_n k newLinearBackoff).1 = linear_delay <$> seq 0 k ∧
  Reset (Next_n k newLinearBackoff).2 = newLinearBackoff ∧
  Forall (λ d, Second ≤ d ≤ 30 * Second)%Z (Next_n k newLinearBackoff).1.
Proof.
  assert (∀ j b, after_failures b j → (Z.of_nat (j + k) < 2 ^ 63)%Z →
    (Next_n k b).1 = linear_delay <$> seq j k ∧ after_failures (Next_n k b).2 (j + k)) as Hrun.
  { clear. induction k as [|k IH]; intros j b Hb Hj; cbn [Next_n].
    - by rewrite Nat.add_0_r.
    - destruct (Next_after_failures b j) as [Hd Hn]; [lia|done|].
      destruct (Next b) as [d b']. cbn [fst snd] in *.
      destruct (IH (S j) b' Hn) as [Hds Hb']; [lia|].
      destruct (Next_n k b') as [ds b'']. cbn [fst snd] in *. rewrite Hd, Hds. split; [reflexivity|].
      by replace (j + S k) with (S (j + k)) by lia. }
  intros Hk. destruct (Hrun 0 newLinearBackoff) as [Hd Hb]; [reflexivity|simpl; lia|].
  split_and!; [done| |].
  - rewrite Hb. reflexivity.
  - rewrite Hd. apply Forall_fmap, Forall_forall. intros i _. unfold compose, linear_delay, Second. lia.
Qed.

Lemma linear_backoff_spec_witness :
  (Next_n 3 newLinearBackoff).1 = [1 * Second; 2 * Second; 3 * Second]%Z ∧
  Reset (Next_n 3 newLinearBackoff).2 = newLinearBackoff.
Proof.
  destruct (linear_backoff_spec 3) as (Hd & Hr & _); [lia|]. split; [|exact Hr].
  rewrite Hd. reflexivity.
Defined.
