(* ===== verification/Addr.v ===== *)
(** * workloadapi: client configuration and endpoint addresses

    Models src/workloadapi/addr.go, addr_posix.go, addr_windows.go, the address
    part of client_posix.go and client_windows.go, and the client options of
    option.go and option_windows.go. The two build variants are the two values of
    the interface [Platform]. url.Parse, net.ParseIP, the environment and
    filepath.Join are arguments ([AddrLib]). *)

From S2P Require Import Prelude Logger GoUrl Backoff.

(** url.Parse gives a URL or the text of its error; net.ParseIP the canonical
    text of the address. *)
Class AddrLib := {
  url_Parse : string → URL + string;
  net_ParseIP : string → option string;
  os_LookupEnv : string → option string;
  filepath_Join : list string → string;
}.

(** ** net/url and net: host and port of a URL *)
Open Scope char_scope.
Definition is_digit (c : ascii) : bool := byte_le "0" c && byte_le c "9".

(** validOptionalPort *)
Definition validOptionalPort (port : string) : bool :=
  match port with
  | EmptyString => true
  | String ":" digits => all_bytes is_digit digits
  | _ => false
  end.

(** strings.LastIndexByte(s, ':') *)
Fixpoint last_colon (s : string) : option nat :=
  match s with
  | EmptyString => None
  | String c s =>
      match last_colon s with
      | Some i => Some (S i)
      | None => if bool_decide (c = ":") then Some O else None
      end
  end.

Definition strip_brackets (host : string) : string :=
  match host with
  | String "[" rest =>
      let n := String.length rest in
      match String.get (n - 1) rest with
      | Some "]" => String.substring 0 (n - 1) rest
      | _ => host
      end
  | _ => host
  end.
Close Scope char_scope.

Definition splitHostPort (hostPort : string) : string * string :=
  let '(host, port) :=
    match last_colon hostPort with
    | Some colon =>
        let tail := String.substring colon (String.length hostPort - colon) hostPort in
        if validOptionalPort tail
        then (String.substring 0 colon hostPort, String.substring 1 (String.length tail - 1) tail)
        else (hostPort, "")
    | None => (hostPort, "")
    end in
  (strip_brackets host, port).

Definition url_Hostname (u : URL) : string := (splitHostPort (Host u)).1.
Definition url_Port (u : URL) : string := (splitHostPort (Host u)).2.

Definition net_JoinHostPort (host port : string) : string :=
  if strings_Contains host ":" then "[" +:+ (host +:+ ("]:" +:+ port)) else host +:+ (":" +:+ port).

(** ** Client configuration (option.go): dial options are opaque. *)
Record clientConfig : Type := mkClientConfig {
  address : string;
  namedPipeName : string;
  dialOptions : list string;
  log : Logger;
  backoffStrategy : BackoffStrategy;
}.

Definition ClientOption : Type := clientConfig → clientConfig.

Definition WithAddr (addr : string) : ClientOption := λ c,
  mkClientConfig addr (namedPipeName c) (dialOptions c) (log c) (backoffStrategy c).
Definition WithDialOptions (options : list string) : ClientOption := λ c,
  mkClientConfig (address c) (namedPipeName c) (dialOptions c ++ options) (log c) (backoffStrategy c).
Definition WithLogger (logger : Logger) : ClientOption := λ c,
  mkClientConfig (address c) (namedPipeName c) (dialOptions c) logger (backoffStrategy c).
Definition WithBackoffStrategy (s : BackoffStrategy) : ClientOption := λ c,
  mkClientConfig (address c) (namedPipeName c) (dialOptions c) (log c) s.
(** option_windows.go *)
Definition WithNamedPipeName (pipeName : string) : ClientOption := λ c,
  mkClientConfig (address c) pipeName (dialOptions c) (log c) (backoffStrategy c).

Definition defaultClientConfig : clientConfig := mkClientConfig "" "" [] Null defaultBackoffStrategy.

(** ** Addresses *)
Definition dq : string := String (ascii_of_nat 34) "".
Definition ErrInvalidEndpointScheme_posix : error :=
  errors_New ("workload endpoint socket URI must have a " +:+ dq +:+ "tcp" +:+ dq +:+ " or " +:+ dq
              +:+ "unix" +:+ dq +:+ " scheme").
Definition ErrInvalidEndpointScheme_windows : error :=
  errors_New ("workload endpoint socket URI must have a " +:+ dq +:+ "tcp" +:+ dq +:+ " or " +:+ dq
              +:+ "npipe" +:+ dq +:+ " scheme").

Definition SocketEnv : string := "SPIFFE_ENDPOINT_SOCKET".

Section addr_defs.
Context {A : AddrLib}.

Definition GetDefaultAddress : string * bool :=
  match os_LookupEnv SocketEnv with Some v => (v, true) | None => ("", false) end.

(** addr_posix.go *)
Definition parseTargetFromURLAddrOS_posix (u : URL) : res string :=
  if bool_decide (Scheme u = "unix") then
    if negb (bool_decide (Opaque u = ""))
    then Err (errors_New "workload endpoint unix socket URI must not be opaque")
    else if bool_decide (is_Some (User u))
    then Err (errors_New "workload endpoint unix socket URI must not include user info")
    else if bool_decide (Host u = "") && bool_decide (Path u = "")
    then Err (errors_New "workload endpoint unix socket URI must include a path")
    else if negb (bool_decide (RawQuery u = ""))
    then Err (errors_New "workload endpoint unix socket URI must not include query values")
    else if negb (bool_decide (Fragment u = ""))
    then Err (errors_New "workload endpoint unix socket URI must not include a fragment")
    else Ok (URL_String u)
  else Err ErrInvalidEndpointScheme_posix.

(** client_windows.go *)
Definition namedPipeTarget (pipeName : string) : string :=
  "\\.\" +:+ filepath_Join ["pipe"; pipeName].

(** addr_windows.go *)
Definition parseTargetFromURLAddrOS_windows (u : URL) : res string :=
  if bool_decide (Scheme u = "npipe") then
    if bool_decide (Opaque u = "") && negb (bool_decide (Host u = ""))
    then Err (errors_New "workload endpoint named pipe URI must be opaque")
    else if bool_decide (Opaque u = "")
    then Err (errors_New "workload endpoint named pipe URI must include an opaque part")
    else if negb (bool_decide (RawQuery u = ""))
    then Err (errors_New "workload endpoint named pipe URI must not include query values")
    else if negb (bool_decide (Fragment u = ""))
    then Err (errors_New "workload endpoint named pipe URI must not include a fragment")
    else Ok (namedPipeTarget (Opaque u))
  else Err ErrInvalidEndpointScheme_windows.

Definition parseTargetFromURLAddr (parseTargetFromURLAddrOS : URL → res string) (u : URL) : res string :=
  if bool_decide (Scheme u = "tcp") then
    if negb (bool_decide (Opaque u = ""))
    then Err (errors_New "workload endpoint tcp socket URI must not be opaque")
    else if bool_decide (is_Some (User u))
    then Err (errors_New "workload endpoint tcp socket URI must not include user info")
    else if bool_decide (Host u = "")
    then Err (errors_New "workload endpoint tcp socket URI must include a host")
    else if negb (bool_decide (Path u = ""))
    then Err (errors_New "workload endpoint tcp socket URI must not include a path")
    else if negb (bool_decide (RawQuery u = ""))
    then Err (errors_New "workload endpoint tcp socket URI must not include query values")
    else if negb (bool_decide (Fragment u = ""))
    then Err (errors_New "workload endpoint tcp socket URI must not include a fragment")
    else
      match net_ParseIP (url_Hostname u) with
      | None => Err (errors_New "workload endpoint tcp socket URI host component must be an IP:port")
      | Some ip =>
          let port := url_Port u in
          if bool_decide (port = "")
          then Err (errors_New "workload endpoint tcp socket URI host component must include a port")
          else Ok (net_JoinHostPort ip port)
      end
  else parseTargetFromURLAddrOS u.
End addr_defs.

(** The two build variants. *)
Class Platform `{AddrLib} := {
  parseTargetFromURLAddrOS : URL → res string;
  appendDialOptionsOS : clientConfig → clientConfig;
  setAddress_named_pipe : clientConfig → option (res clientConfig);
  setAddress_dial : clientConfig → clientConfig;
}.

Section platforms.
Context {A : AddrLib}.

Definition set_address (c : clientConfig) (addr : string) : clientConfig := WithAddr addr c.

(** client_posix.go: named pipes are refused. *)
Definition posix : Platform := {|
  parseTargetFromURLAddrOS := parseTargetFromURLAddrOS_posix;
  appendDialOptionsOS := λ c, c;
  setAddress_named_pipe := λ c,
    if bool_decide (namedPipeName c = "") then None
    else Some (Err (errors_New "named pipes not supported in this platform"));
  setAddress_dial := λ c, c;
|}.

(** client_windows.go: a named pipe is dialled with winio's dialer. *)
Definition winio_dialer : string := "grpc.WithContextDialer(winio.DialPipeContext)".

Definition windows : Platform := {|
  parseTargetFromURLAddrOS := parseTargetFromURLAddrOS_windows;
  appendDialOptionsOS := λ c,
    if bool_decide (namedPipeName c = "") then c else WithDialOptions [winio_dialer] c;
  setAddress_named_pipe := λ c,
    if bool_decide (namedPipeName c = "") then None
    else if negb (bool_decide (address c = ""))
    then Some (Err (errors_New "only one of WithAddr or WithNamedPipeName options can be used, not both"))
    else Some (Ok (set_address c (namedPipeTarget (namedPipeName c))));
  setAddress_dial := λ c,
    if strings_HasPrefix (address c) "npipe:" then WithDialOptions [winio_dialer] c else c;
|}.
End platforms.

Section client_address.
Context {A : AddrLib} {P : Platform}.

Definition TargetFromAddress (addr : string) : res string :=
  match url_Parse addr with
  | inr text => Err (errors_New ("workload endpoint socket is not a valid URI: " +:+ text))
  | inl u => parseTargetFromURLAddr parseTargetFromURLAddrOS u
  end.

Definition ValidateAddress (addr : string) : res unit :=
  let! _ := TargetFromAddress addr in Ok ().

(** The method of the two variants: only the steps above differ. *)
Definition setAddress (c : clientConfig) : res clientConfig :=
  match setAddress_named_pipe c with
  | Some r => r
  | None =>
      let! c :=
        if bool_decide (address c = "") then
          match GetDefaultAddress with
          | (addr, true) => Ok (set_address c addr)
          | (_, false) => Err (errors_New "workload endpoint socket address is not configured")
          end
        else Ok c in
      let c := setAddress_dial c in
      let! target := TargetFromAddress (address c) in
      Ok (set_address c target)
  end.

(** New up to the connection: options in order, then the address. *)
Definition configure (options : list ClientOption) : res clientConfig :=
  setAddress (foldl (λ c opt, opt c) defaultClientConfig options).
End client_address.

(** ** Properties *)

(** The URL is one the tcp branch accepts, for the target [t]. *)
Definition tcp_target `{AddrLib} (u : URL) (t : string) : Prop :=
  Scheme u = "tcp" ∧ Opaque u = "" ∧ User u = None ∧ Host u ≠ "" ∧ Path u = "" ∧ RawQuery u = "" ∧
  Fragment u = "" ∧ ∃ ip, net_ParseIP (url_Hostname u) = Some ip ∧ url_Port u ≠ "" ∧
  t = net_JoinHostPort ip (url_Port u).

Definition unix_target (u : URL) (t : string) : Prop :=
  Scheme u = "unix" ∧ Opaque u = "" ∧ User u = None ∧ (Host u ≠ "" ∨ Path u ≠ "") ∧ RawQuery u = "" ∧
  Fragment u = "" ∧ t = URL_String u.

Definition npipe_target `{AddrLib} (u : URL) (t : string) : Prop :=
  Scheme u = "npipe" ∧ Opaque u ≠ "" ∧ RawQuery u = "" ∧ Fragment u = "" ∧ t = namedPipeTarget (Opaque u).

Section addr_properties.
Context {A : AddrLib}.

Lemma user_None (u : URL) : ¬ is_Some (User u) ↔ User u = None.
Proof. by rewrite eq_None_not_Some. Qed.

Lemma parseTarget_posix_Ok u t : parseTargetFromURLAddrOS_posix u = Ok t ↔ unix_target u t.
Proof.
  unfold parseTargetFromURLAddrOS_posix, unix_target. rewrite <- user_None.
  repeat (case_bool_decide; simpl); naive_solver.
Qed.

Lemma parseTarget_windows_Ok u t : parseTargetFromURLAddrOS_windows u = Ok t ↔ npipe_target u t.
Proof.
  unfold parseTargetFromURLAddrOS_windows, npipe_target.
  repeat (case_bool_decide; simpl); naive_solver.
Qed.

Lemma parseTargetFromURLAddr_Ok os u t :
  parseTargetFromURLAddr os u = Ok t ↔ tcp_target u t ∨ (Scheme u ≠ "tcp" ∧ os u = Ok t).
Proof.
  unfold parseTargetFromURLAddr, tcp_target. rewrite <- user_None.
  case_bool_decide as Hs; [|naive_solver].
  destruct (net_ParseIP (url_Hostname u)) as [ip|]; repeat (case_bool_decide; simpl); naive_solver.
Qed.

(** Dial targets: an address is accepted exactly when it is a tcp URI of just
    an IP address and a port, or, on the platform, a unix socket URI with a path
    (respectively a named pipe URI with an opaque part), without user info, query or
    fragment; the target is then IP:port, the URI itself, or the pipe's path. *)
Theorem TargetFromAddress_spec (addr t : string) :
  (TargetFromAddress (P := posix) addr = Ok t ↔
   ∃ u, url_Parse addr = inl u ∧ (tcp_target u t ∨ unix_target u t)) ∧
  (TargetFromAddress (P := windows) addr = Ok t ↔
   ∃ u, url_Parse addr = inl u ∧ (tcp_target u t ∨ npipe_target u t)).
Proof.
  unfold TargetFromAddress. destruct (url_Parse addr) as [u|e]; [|naive_solver].
  rewrite !parseTargetFromURLAddr_Ok; simpl. rewrite parseTarget_posix_Ok, parseTarget_windows_Ok.
  split; split.
  - naive_solver.
  - intros (u' & [= <-] & [?|Hu]); [by left|]. right. split; [|done]. destruct Hu as [-> _]. done.
  - naive_solver.
  - intros (u' & [= <-] & [?|Hu]); [by left|]. right. split; [|done]. destruct Hu as [-> _]. done.
Qed.

(** Configuring a client: the address used is the one of the last WithAddr, or
    the one in the environment when there is none (or it is empty); without
    either, and for an address that is no dial target, New fails before
    connecting. On Windows a named pipe excludes an address. *)
Theorem configure_spec (options : list ClientOption) :
  let c := foldl (λ c opt, opt c) defaultClientConfig options in
  let addr := if decide (address c = "") then GetDefaultAddress else (address c, true) in
  (namedPipeName c = "" →
     configure (P := posix) options =
       if addr.2 then set_address c <$> TargetFromAddress (P := posix) addr.1
       else Err (errors_New "workload endpoint socket address is not configured")) ∧
  (namedPipeName c ≠ "" → address c ≠ "" → is_Err (configure (P := windows) options) = true) ∧
  (namedPipeName c ≠ "" → address c = "" →
     configure (P := windows) options = Ok (set_address c (namedPipeTarget (namedPipeName c)))) ∧
  (namedPipeName c ≠ "" → is_Err (configure (P := posix) options) = true).
Proof.
  intros c addr. unfold configure. fold c. unfold setAddress.
  cbn [setAddress_named_pipe setAddress_dial posix windows]. split_and!.
  - intros Hn. rewrite bool_decide_true by done. subst addr. case_decide as Ha.
    + rewrite bool_decide_true by done. destruct GetDefaultAddress as [a []]; [|done].
      cbn [mbind res_bind fst snd].
      change (address (set_address c a)) with a.
      by destruct (TargetFromAddress (P := posix) a).
    + rewrite bool_decide_false by done. cbn [mbind res_bind fst snd].
      by destruct (TargetFromAddress (P := posix) (address c)).
  - intros Hn Ha. rewrite !bool_decide_false by done. done.
  - intros Hn Ha. rewrite bool_decide_false, bool_decide_true by done. done.
  - intros Hn. by rewrite bool_decide_false.
Qed.
End addr_properties.
