(* ===== verification/Client.v ===== *)
(** * workloadapi: responses of the Workload API and the fetch methods

    Models the parse functions and the Fetch methods of
    src/workloadapi/client.go, and x509context.go. The messages are those of the
    generated package proto/spiffe/workload; the service is an argument
    ([WorkloadAPI]): for each method the outcome of opening the call and of
    receiving the first message. A map field of a message is a [go_map]: the map with the
    order, which may be any, in which the code's loop visits it. *)

From S2P Require Import Prelude Path GoUrl ID Crypto X509 X509Sample Pem BundleSet X509Bundle Jose JwtBundle WitBundle X509Svid Jwt JwtSvid WitSvid.

(** ** Messages (proto/spiffe/workload/workload.proto) *)
Record X509SVID : Type := mkX509SVID {
  x_SpiffeId : string; x_X509Svid : string; x_X509SvidKey : string; x_Bundle : string; x_Hint : string;
}.
Record X509SVIDResponse : Type := mkX509SVIDResponse {
  x_Svids : list X509SVID;
  x_FederatedBundles : go_map string;
}.
Record JWTSVID : Type := mkJWTSVID { j_SpiffeId : string; j_Svid : string; j_Hint : string }.
Record WITSVID : Type := mkWITSVID {
  w_SpiffeId : string; w_WitSvid : string; w_WitSvidKey : string; w_Hint : string;
}.

(** ** X509Context *)
Record X509Context : Type := mkX509Context {
  SVIDs : list X509Svid.SVID;
  ctx_Bundles : X509Bundle.Set_;
}.

Definition DefaultSVID (x : X509Context) : res X509Svid.SVID :=
  match SVIDs x with [] => Panic "index out of range" | svid :: _ => Ok svid end.

(** ** The loops of the parse functions *)

(** SVIDs with hints: a later message with a non-empty hint already seen is
    skipped; the first failure ends the loop. [hints] is the map of hints seen. *)
Fixpoint parse_svids {M A} (hint : M → string) (parse : M → res A) (hints : gset string) (msgs : list M)
    : res (list A) :=
  match msgs with
  | [] => Ok []
  | m :: msgs =>
      if bool_decide (hint m ∈ hints) && negb (bool_decide (hint m = ""))
      then parse_svids hint parse hints msgs
      else
        let! svid := parse m in
        let! svids := parse_svids hint parse ({[hint m]} ∪ hints) msgs in
        Ok (svid :: svids)
  end.

(** n messages, or the first one only; none at all is an error. *)
Definition svids_to_parse {M} (firstOnly : bool) (msgs : list M) : list M :=
  if firstOnly then take 1 msgs else msgs.

(** One bundle per entry of a map from trust domains to encoded bundles. *)
Definition parse_bundle_entry `{Charset} {B} (parse : TrustDomain → string → res B) (entry : string * string) : res B :=
  let! td := TrustDomainFromString entry.1 in
  parse td entry.2.

(** JSON Web Keys holding private keys. *)
Class JwkPrivateLib `{JwkLib} := {
  jwk_PrivateKey : JWK → PrivateKey;          (* the Key field of a non-public JWK *)
}.

Section parse_defs.
Context {C : Charset} {L : X509Lib} {J : JoseLib} {T : JwtLib} {K : JwkLib} {KP : JwkPrivateLib}.

Definition with_X509_hint (h : string) (s : X509Svid.SVID) : X509Svid.SVID :=
  X509Svid.mkSVID (X509Svid.svid_ID s) (svid_Certificates s) (X509Svid.svid_PrivateKey s) h.
Definition with_JWT_hint (h : string) (s : JwtSvid.SVID) : JwtSvid.SVID :=
  JwtSvid.mkSVID (JwtSvid.svid_ID s) (svid_Audience s) (JwtSvid.svid_Expiry s) (svid_Claims s) h (JwtSvid.token s).
Definition with_WIT_key (k : PrivateKey) (h : string) (s : WitSvid.SVID) : WitSvid.SVID :=
  WitSvid.mkSVID (WitSvid.svid_ID s) (WitSvid.svid_Expiry s) (svid_PublicKey s) (svid_KeyID s) (Some k) h
    (WitSvid.token s).

(** The body of the loop of parseX509SVIDs. *)
Definition parse_X509SVID (svid : X509SVID) : res X509Svid.SVID :=
  with_X509_hint (x_Hint svid) <$> X509Svid.ParseRaw (x_X509Svid svid) (x_X509SvidKey svid).

Definition parseX509SVIDs (resp : X509SVIDResponse) (firstOnly : bool) : res (list X509Svid.SVID) :=
  if (length (x_Svids resp) =? 0)%nat then Err (errors_New "no SVIDs in response")
  else parse_svids x_Hint parse_X509SVID ∅ (svids_to_parse firstOnly (x_Svids resp)).

Definition parse_JWTSVID (now : Z) (audience : list string) (svid : JWTSVID) : res JwtSvid.SVID :=
  with_JWT_hint (j_Hint svid) <$> JwtSvid.ParseInsecure now (j_Svid svid) audience.

Definition parseJWTSVIDs (now : Z) (svids : list JWTSVID) (audience : list string) (firstOnly : bool)
    : res (list JwtSvid.SVID) :=
  if (length svids =? 0)%nat then Err (errors_New "there were no SVIDs in the response")
  else parse_svids j_Hint (parse_JWTSVID now audience) ∅ (svids_to_parse firstOnly svids).

Definition parseJWKPrivateKey (jwkStr : string) : res PrivateKey :=
  let! jwkKey := wrap_err (λ err, fmt_Errorf "unable to parse private key JWK: %w" [Arg_w (Some err)])
                   (of_lib (jwk_UnmarshalJSON jwkStr)) in
  if IsPublic jwkKey then Err (errors_New "expected private key JWK, got public key")
  else Ok (jwk_PrivateKey jwkKey).

Definition parse_WITSVID (now : Z) (s : WITSVID) : res WitSvid.SVID :=
  if bool_decide (w_WitSvidKey s = "")
  then Err (fmt_Errorf "missing private key for SVID with SPIFFE ID %q" [Arg_s (w_SpiffeId s)])
  else
    let! svid := WitSvid.ParseInsecure now (w_WitSvid s) in
    let! privKey := parseJWKPrivateKey (w_WitSvidKey s) in
    Ok (with_WIT_key privKey (w_Hint s) svid).

Definition parseWITSVIDs (now : Z) (svids : list WITSVID) (firstOnly : bool) : res (list WitSvid.SVID) :=
  if (length svids =? 0)%nat then Err (errors_New "no WIT-SVIDs in response")
  else parse_svids w_Hint (parse_WITSVID now) ∅ (svids_to_parse firstOnly svids).

(** *** Bundles *)
Definition parseX509Bundle (spiffeID bundle : string) : res X509Bundle.Bundle :=
  let! td := TrustDomainFromString spiffeID in
  let! certs := of_lib (x509_ParseCertificates bundle) in
  Ok (X509Bundle.FromX509Authorities td certs).

Definition parseX509Bundles (resp : X509SVIDResponse) : res X509Bundle.Set_ :=
  let! own := forM (λ svid, parseX509Bundle (x_SpiffeId svid) (x_Bundle svid)) (x_Svids resp) in
  let! federated := forM (λ entry, parseX509Bundle entry.1 entry.2) (gm_order (x_FederatedBundles resp)) in
  Ok (X509Bundle.NewSet (Some <$> (own ++ federated))).

Definition parseX509Context (resp : X509SVIDResponse) : res X509Context :=
  let! svids := parseX509SVIDs resp false in
  let! bundles := parseX509Bundles resp in
  Ok (mkX509Context svids bundles).

Definition parseX509BundlesResponse (resp : go_map string) : res X509Bundle.Set_ :=
  let! bundles := forM (parse_bundle_entry X509Bundle.ParseRaw) (gm_order resp) in
  Ok (X509Bundle.NewSet (Some <$> bundles)).

Definition parseJWTSVIDBundles (resp : go_map string) : res JwtBundle.Set_ :=
  let! bundles := forM (parse_bundle_entry JwtBundle.Parse) (gm_order resp) in
  Ok (JwtBundle.NewSet (Some <$> bundles)).

Definition parseWITBundles (resp : go_map string) : res WitBundle.Set_ :=
  let! bundles := forM (parse_bundle_entry WitBundle.Parse) (gm_order resp) in
  Ok (WitBundle.NewSet (Some <$> bundles)).
End parse_defs.

(** ** The service *)

(** Outgoing metadata of a call. *)
Definition metadata : Type := list (string * string).

(** withHeader replaces the outgoing metadata. *)
Definition withHeader (md : metadata) : metadata := [("workload.spiffe.io", "true")].

(** The outcome of a call: opening it, then receiving the first message. *)
Definition Call (R : Type) : Type := (R + error) + error.

Definition recv {R} (c : Call R) : res R :=
  match c with
  | inr err => Err err
  | inl (inr err) => Err err
  | inl (inl resp) => Ok resp
  end.

(** The generated client stub, at one moment. *)
Record WorkloadAPI : Type := mkWorkloadAPI {
  wl_FetchX509SVID : metadata → Call X509SVIDResponse;
  wl_FetchX509Bundles : metadata → Call (go_map string);
  wl_FetchJWTSVID : metadata → string → list string → Call (list JWTSVID);
  wl_FetchJWTBundles : metadata → Call (go_map string);
  wl_ValidateJWTSVID : metadata → string → string → Call unit;
  wl_FetchWITSVID : metadata → string → Call (list WITSVID);
  wl_FetchWITBundles : metadata → Call (go_map string);
}.

(** svids[0] *)
Definition index0 {A} (l : list A) : res A :=
  match l with [] => Panic "index out of range" | a :: _ => Ok a end.

Section fetch_defs.
Context {C : Charset} {L : X509Lib} {J : JoseLib} {T : JwtLib} {K : JwkLib} {KP : JwkPrivateLib}.
Variable wl : WorkloadAPI.
Variable now : Z.
Implicit Types (md : metadata).

Definition FetchX509SVID md : res X509Svid.SVID :=
  let! resp := recv (wl_FetchX509SVID wl (withHeader md)) in
  let! svids := parseX509SVIDs resp true in
  index0 svids.

Definition FetchX509SVIDs md : res (list X509Svid.SVID) :=
  let! resp := recv (wl_FetchX509SVID wl (withHeader md)) in
  parseX509SVIDs resp false.

Definition FetchX509Bundles md : res X509Bundle.Set_ :=
  let! resp := recv (wl_FetchX509Bundles wl (withHeader md)) in
  parseX509BundlesResponse resp.

Definition FetchX509Context md : res X509Context :=
  let! resp := recv (wl_FetchX509SVID wl (withHeader md)) in
  parseX509Context resp.

Definition params_audience (params : Params) : list string := [param_Audience params] ++ ExtraAudiences params.

Definition FetchJWTSVID md (params : Params) : res JwtSvid.SVID :=
  let audience := params_audience params in
  let! resp := recv (wl_FetchJWTSVID wl (withHeader md) (ID_String (param_Subject params)) audience) in
  let! svids := parseJWTSVIDs now resp audience true in
  index0 svids.

Definition FetchJWTSVIDs md (params : Params) : res (list JwtSvid.SVID) :=
  let audience := params_audience params in
  let! resp := recv (wl_FetchJWTSVID wl (withHeader md) (ID_String (param_Subject params)) audience) in
  parseJWTSVIDs now resp audience false.

Definition FetchJWTBundles md : res JwtBundle.Set_ :=
  let! resp := recv (wl_FetchJWTBundles wl (withHeader md)) in
  parseJWTSVIDBundles resp.

Definition ValidateJWTSVID md (token audience : string) : res JwtSvid.SVID :=
  let! _ := recv (wl_ValidateJWTSVID wl (withHeader md) token audience) in
  JwtSvid.ParseInsecure now token [audience].

Definition fetchWITSVIDs md (spiffeID : string) (firstOnly : bool) : res (list WitSvid.SVID) :=
  let! resp := recv (wl_FetchWITSVID wl (withHeader md) spiffeID) in
  parseWITSVIDs now resp firstOnly.

Definition FetchWITSVID md (spiffeID : string) : res WitSvid.SVID :=
  let! svids := fetchWITSVIDs md spiffeID true in
  index0 svids.

Definition FetchWITSVIDs md (spiffeID : string) : res (list WitSvid.SVID) :=
  fetchWITSVIDs md spiffeID false.

Definition FetchWITBundles md : res WitBundle.Set_ :=
  let! resp := recv (wl_FetchWITBundles wl (withHeader md)) in
  parseWITBundles resp.
End fetch_defs.

(** ** Lemmas: hints *)

(** The messages the loops keep: each hint seen for the first time, and every
    message without a hint. *)
Fixpoint kept {M} (hint : M → string) (hints : gset string) (msgs : list M) : list M :=
  match msgs with
  | [] => []
  | m :: msgs =>
      if bool_decide (hint m ∈ hints ∧ hint m ≠ "") then kept hint hints msgs
      else m :: kept hint ({[hint m]} ∪ hints) msgs
  end.

Section kept_lemmas.
Context {M : Type} (hint : M → string).

(** No two kept messages have the same non-empty hint. *)
Lemma kept_fresh hints msgs h : h ≠ "" → h ∈ hints → h ∉ (hint <$> kept hint hints msgs).
Proof.
  intros Hne; revert hints; induction msgs as [|m msgs IH]; intros hints Hin; cbn [kept]; [apply not_elem_of_nil|].
  case_bool_decide as Hd; [by apply IH|]. rewrite fmap_cons, elem_of_cons. intros [->|Hk]; [tauto|].
  revert Hk. apply IH. set_solver.
Qed.

Lemma kept_NoDup hints msgs : NoDup (filter (λ h, h ≠ "") (hint <$> kept hint hints msgs)).
Proof.
  revert hints; induction msgs as [|m msgs IH]; intros hints; cbn [kept]; [constructor|].
  case_bool_decide as Hd; [apply IH|]. rewrite fmap_cons, filter_cons. case_decide as Hne; [|apply IH].
  constructor; [|apply IH]. rewrite list_elem_of_filter. intros [_ Hin]. revert Hin.
  apply kept_fresh; [done|set_solver].
Qed.

(** Every hint offered is kept, unless it was seen before. *)
Lemma kept_complete hints msgs m :
  m ∈ msgs → hint m ∉ hints → ∃ m', m' ∈ kept hint hints msgs ∧ hint m' = hint m.
Proof.
  revert hints; induction msgs as [|m0 msgs IH]; intros hints Hin Hn; [by apply not_elem_of_nil in Hin|].
  cbn [kept]. destruct (decide (hint m0 = hint m)) as [E|Hne].
  - rewrite bool_decide_false by (rewrite E; tauto). exists m0. split; [by left|done].
  - apply elem_of_cons in Hin as [->|Hin]; [done|]. case_bool_decide; [by apply IH|].
    destruct (IH ({[hint m0]} ∪ hints) Hin) as (m' & ? & ?); [set_solver|]. exists m'. split; [by right|done].
Qed.

Lemma kept_head m msgs : kept hint ∅ (m :: msgs) = m :: kept hint ({[hint m]} ∪ ∅) msgs.
Proof. cbn [kept]. by rewrite bool_decide_false by set_solver. Qed.

End kept_lemmas.

Section parse_svids_lemmas.
Context {M A : Type} (hint : M → string) (parse : M → res A).

Lemma parse_svids_kept hints msgs : parse_svids hint parse hints msgs = forM parse (kept hint hints msgs).
Proof.
  revert hints; induction msgs as [|m msgs IH]; intros hints; cbn [parse_svids kept]; [done|].
  assert (bool_decide (hint m ∈ hints) && negb (bool_decide (hint m = "")) =
          bool_decide (hint m ∈ hints ∧ hint m ≠ "")) as ->.
  { apply eq_true_iff_eq. rewrite andb_true_iff, negb_true_iff, bool_decide_eq_false, !bool_decide_eq_true. done. }
  case_bool_decide; [apply IH|]. cbn [forM]. by rewrite IH.
Qed.

(** What the callers rely on: the first message is the default, parsing it alone
    gives the same, and the result has no repeated hint. *)
Lemma parse_svids_Ok msgs svids :
  msgs ≠ [] → parse_svids hint parse ∅ msgs = Ok svids →
  ∃ m rest s svids', msgs = m :: rest ∧ parse m = Ok s ∧ svids = s :: svids' ∧
    parse_svids hint parse ∅ (take 1 msgs) = Ok [s] ∧
    Forall2 (λ m s, parse m = Ok s) (kept hint ∅ msgs) svids.
Proof.
  intros Hne. rewrite !parse_svids_kept. destruct msgs as [|m msgs]; [done|].
  rewrite kept_head. intros Hf. pose proof Hf as Hall%forM_Ok.
  cbn [forM] in Hf. apply bind_Ok_inv in Hf as (s & Hs & (svids' & _ & [= <-])%bind_Ok_inv).
  exists m, msgs, s, svids'. split_and!; try done. cbn [take]. rewrite kept_head. cbn. by rewrite Hs.
Qed.

Lemma parse_svids_from hints msgs svids svid :
  parse_svids hint parse hints msgs = Ok svids → svid ∈ svids → ∃ m, parse m = Ok svid.
Proof.
  rewrite parse_svids_kept, forM_Ok. intros Hall (i & Hi)%list_elem_of_lookup.
  destruct (Forall2_lookup_r _ _ _ _ _ Hall Hi) as (m & _ & ?). by exists m.
Qed.

Lemma parse_svids_no_panic msgs hints :
  (∀ m, no_panic (parse m) = true) → no_panic (parse_svids hint parse hints msgs) = true.
Proof. intros Hp. rewrite parse_svids_kept. by apply forM_no_panic. Qed.
End parse_svids_lemmas.

(** ** Lemmas: maps of bundles *)
Section bundle_map_lemmas.
Context {C : Charset} {B : Type} {HB : HasTrustDomain B} (parse : TrustDomain → string → res B).
Hypothesis parse_td : ∀ td s b, parse td s = Ok b → trustDomain_of b = td.

(** The keys of the map are texts of different trust domains. *)
Definition distinct_keys (order : list (string * string)) : Prop :=
  ∀ e e' td, e ∈ order → e' ∈ order →
    TrustDomainFromString e.1 = Ok td → TrustDomainFromString e'.1 = Ok td → e = e'.

Lemma parse_bundle_entry_Ok e b :
  parse_bundle_entry parse e = Ok b → TrustDomainFromString e.1 = Ok (trustDomain_of b).
Proof. intros (td & Htd & Hb)%bind_Ok_inv. by rewrite (parse_td _ _ _ Hb). Qed.

Lemma parsed_NoDup order bs :
  NoDup order → distinct_keys order → Forall2 (λ e b, parse_bundle_entry parse e = Ok b) order bs →
  NoDup (trustDomain_of <$> bs).
Proof.
  intros Hnd Hd Hall. induction Hall as [|e b order bs Hb Hall IH]; [constructor|].
  apply NoDup_cons in Hnd as [Hn Hnd]. rewrite fmap_cons. apply NoDup_cons. split.
  - intros (b' & E & (i & Hi)%list_elem_of_lookup)%list_elem_of_fmap. destruct Hn.
    destruct (Forall2_lookup_r _ _ _ _ _ Hall Hi) as (e' & He' & Hb').
    apply parse_bundle_entry_Ok in Hb, Hb'. rewrite <- E in Hb'. apply list_elem_of_lookup_2 in He'.
    by rewrite (Hd e e' _ (list_elem_of_here _ _) (list_elem_of_further _ _ _ He') Hb Hb').
  - apply IH; [done|]. intros e1 e2 td ??. by apply Hd; right.
Qed.

Lemma bundle_map_order order order' s :
  NoDup order → distinct_keys order → order ≡ₚ order' →
  (let! bs := forM (parse_bundle_entry parse) order in Ok (BundleSet.NewSet (Some <$> bs))) = Ok s →
  (let! bs := forM (parse_bundle_entry parse) order' in Ok (BundleSet.NewSet (Some <$> bs))) = Ok s.
Proof.
  intros Hnd Hd Hp (bs & Hbs & [= <-])%bind_Ok_inv.
  destruct (forM_perm _ _ _ _ Hp Hbs) as (bs' & Hbs' & Hpb). rewrite Hbs'; cbn [mbind res_bind]. f_equal.
  symmetry. apply NewSet_perm; [|done]. apply (parsed_NoDup order); [done..|by apply forM_Ok].
Qed.
End bundle_map_lemmas.

Lemma length_nonzero {A} (l : list A) : length l ≠ 0 → l ≠ [].
Proof. by intros Hl ->. Qed.

Lemma range_of_NoDup_pairs {V} (m : gmap string V) order : range_of m order → NoDup order.
Proof. intros Ho. eapply NoDup_fmap_1. by eapply range_of_NoDup. Qed.

(** ** Lemmas: no response makes the parse functions panic *)
Section no_panic_lemmas.
Context {C : Charset} {CL : CharsetLaws C} {L : X509Lib} {J : JoseLib} {T : JwtLib} {TL : JwtLaws T}.
Context {K : JwkLib} {KP : JwkPrivateLib}.

Lemma parseX509SVIDs_no_panic resp b : no_panic (parseX509SVIDs resp b) = true.
Proof.
  unfold parseX509SVIDs. case_match; [done|]. apply parse_svids_no_panic.
  intros m. unfold parse_X509SVID. pose proof (X509Svid.svid_ParseRaw_no_panic (x_X509Svid m) (x_X509SvidKey m)).
  by destruct (X509Svid.ParseRaw _ _).
Qed.

Lemma parseX509Bundle_no_panic i b : no_panic (parseX509Bundle i b) = true.
Proof.
  apply bind_no_panic; [apply TrustDomainFromString_no_panic|]. intros td _.
  apply bind_no_panic; [apply of_lib_no_panic|done].
Qed.

Lemma parseX509Context_no_panic resp : no_panic (parseX509Context resp) = true.
Proof.
  apply bind_no_panic; [apply parseX509SVIDs_no_panic|]. intros svids _. apply bind_no_panic; [|done].
  apply bind_no_panic; [apply forM_no_panic; intros; apply parseX509Bundle_no_panic|]. intros own _.
  apply bind_no_panic; [apply forM_no_panic; intros; apply parseX509Bundle_no_panic|done].
Qed.

(** What a parsed context holds: at least one SVID, and bundles filed under their
    own trust domains. *)
Lemma parseX509Context_delivered resp ctx :
  parseX509Context resp = Ok ctx → SVIDs ctx ≠ [] ∧ set_wf (ctx_Bundles ctx).
Proof.
  intros (svids & Hs & (bundles & (own & _ & (fed & _ & [= <-])%bind_Ok_inv)%bind_Ok_inv & [= <-])%bind_Ok_inv)%bind_Ok_inv.
  split; [|apply NewSet_wf]. unfold parseX509SVIDs in Hs.
  destruct (Nat.eqb_spec (length (x_Svids resp)) 0) as [E|E]; [done|].
  apply parse_svids_Ok in Hs as (m & rest & s & svids' & _ & _ & -> & _); [done|by apply length_nonzero].
Qed.

Lemma parseJWTSVIDBundles_delivered m set : parseJWTSVIDBundles m = Ok set → set_wf set.
Proof. intros (bs & _ & [= <-])%bind_Ok_inv. apply NewSet_wf. Qed.

Lemma parseWITBundles_delivered m set : parseWITBundles m = Ok set → set_wf set.
Proof. intros (bs & _ & [= <-])%bind_Ok_inv. apply NewSet_wf. Qed.

(** A WIT-SVID of a response is its parsed token with the key and the hint of the message. *)
Lemma parse_WITSVID_Ok now m svid :
  parse_WITSVID now m = Ok svid ↔
  ∃ s k, w_WitSvidKey m ≠ "" ∧ WitSvid.ParseInsecure now (w_WitSvid m) = Ok s ∧
    parseJWKPrivateKey (w_WitSvidKey m) = Ok k ∧ svid = with_WIT_key k (w_Hint m) s.
Proof.
  unfold parse_WITSVID. case_bool_decide as Hk; [naive_solver|]. split.
  - intros (s & Hs & (k & Hp & [= <-])%bind_Ok_inv)%bind_Ok_inv. by exists s, k.
  - intros (s & k & _ & -> & Hp & ->). cbn [mbind res_bind]. by rewrite Hp.
Qed.

Lemma parse_entries_no_panic {B} (parse : TrustDomain → string → res B) order :
  (∀ td s, no_panic (parse td s) = true) → no_panic (forM (parse_bundle_entry parse) order) = true.
Proof.
  intros Hp. apply forM_no_panic. intros e. apply bind_no_panic; [apply TrustDomainFromString_no_panic|auto].
Qed.

Lemma parseX509BundlesResponse_no_panic m : no_panic (parseX509BundlesResponse m) = true.
Proof. apply bind_no_panic; [apply parse_entries_no_panic, X509Bundle.x509_ParseRaw_no_panic|done]. Qed.
Lemma parseJWTSVIDBundles_no_panic m : no_panic (parseJWTSVIDBundles m) = true.
Proof. apply bind_no_panic; [apply parse_entries_no_panic, JwtBundle.jwt_Parse_no_panic|done]. Qed.
Lemma parseWITBundles_no_panic m : no_panic (parseWITBundles m) = true.
Proof. apply bind_no_panic; [apply parse_entries_no_panic, WitBundle.wit_Parse_no_panic|done]. Qed.

Lemma parseWITSVIDs_no_panic now resp b : no_panic (parseWITSVIDs now resp b) = true.
Proof.
  unfold parseWITSVIDs. case_match; [done|]. apply parse_svids_no_panic.
  intros m. unfold parse_WITSVID. case_bool_decide; [done|].
  apply bind_no_panic; [by apply WitSvid.parse_no_panic|]. intros s _.
  apply bind_no_panic; [|done]. apply bind_no_panic; [rewrite wrap_err_no_panic; apply of_lib_no_panic|].
  intros k _. by case_match.
Qed.
End no_panic_lemmas.

(** ** Properties *)
Section client_properties.
Context {C : Charset} {CL : CharsetLaws C} {L : X509Lib} {J : JoseLib} {T : JwtLib} {K : JwkLib} {KP : JwkPrivateLib}.

(** The X509-SVIDs of a response: on success there is at least one, the first
    is the first message's, a non-empty hint occurs at most once and belongs to
    the first message with it, every hint offered is present, and asking for the
    first SVID only gives exactly the head of the list. An empty response is an
    error. *)
Theorem parseX509SVIDs_spec (resp : X509SVIDResponse) (svids : list X509Svid.SVID) :
  parseX509SVIDs resp false = Ok svids →
  ∃ m rest s svids', x_Svids resp = m :: rest ∧ svids = s :: svids' ∧
    parse_X509SVID m = Ok s ∧ parseX509SVIDs resp true = Ok [s] ∧
    NoDup (filter (λ h, h ≠ "") (X509Svid.Hint <$> svids)) ∧
    (∀ m', m' ∈ x_Svids resp → ∃ s', s' ∈ svids ∧ X509Svid.Hint s' = x_Hint m') ∧
    Forall2 (λ m s, X509Svid.Hint s = x_Hint m ∧
                    X509Svid.ParseRaw (x_X509Svid m) (x_X509SvidKey m) = Ok (with_X509_hint "" s))
      (kept x_Hint ∅ (x_Svids resp)) svids.
Proof.
  unfold parseX509SVIDs. destruct (Nat.eqb_spec (length (x_Svids resp)) 0) as [E|E]; [done|].
  intros (m & rest & s & svids' & Hm & Hs & -> & Htake & Hall)%parse_svids_Ok.
  2: { by apply length_nonzero. }
  assert (Forall2 (λ m s, X509Svid.Hint s = x_Hint m ∧
      X509Svid.ParseRaw (x_X509Svid m) (x_X509SvidKey m) = Ok (with_X509_hint "" s))
    (kept x_Hint ∅ (x_Svids resp)) (s :: svids')) as Hk.
  { eapply Forall2_impl; [exact Hall|]. clear -CL. intros m s. unfold parse_X509SVID.
    destruct (X509Svid.ParseRaw _ _) as [s0| |] eqn:Hp; [|done..]. intros [= <-]. split; [done|].
    assert (X509Svid.Hint s0 = "") as Hh.
    { unfold X509Svid.ParseRaw in Hp. apply bind_Ok_inv in Hp as (? & _ & (? & _ & Hn)%bind_Ok_inv).
      by apply newSVID_Ok in Hn as (? & ? & ? & ? & _ & _ & _ & _ & _ & ->). }
    destruct s0; simpl in *. by rewrite Hh. }
  assert (X509Svid.Hint <$> (s :: svids') = x_Hint <$> kept x_Hint ∅ (x_Svids resp)) as Hh.
  { clear -Hk. induction Hk as [|m' s0 ?? [Hs _] _ IH]; [done|]. rewrite !fmap_cons. by rewrite Hs, IH. }
  exists m, rest, s, svids'. split_and!; try done.
  - rewrite Hh. apply kept_NoDup.
  - intros m' Hm'. destruct (kept_complete x_Hint ∅ _ m' Hm') as (m0 & Hin & Heq); [set_solver|].
    assert (x_Hint m0 ∈ X509Svid.Hint <$> (s :: svids')) as (s' & E' & Hs')%list_elem_of_fmap
      by (rewrite Hh; by apply list_elem_of_fmap_2).
    exists s'. split; [done|congruence].
Qed.

(** Two orders of one map of federated bundles. *)
Lemma parseX509Bundles_order resp resp' bundles :
  x_Svids resp' = x_Svids resp → gm_map (x_FederatedBundles resp') = gm_map (x_FederatedBundles resp) →
  parseX509Bundles resp = Ok bundles →
  ∃ own federated federated', federated ≡ₚ federated' ∧
    bundles = X509Bundle.NewSet (Some <$> (own ++ federated)) ∧
    Forall2 (λ e b, parseX509Bundle e.1 e.2 = Ok b) (gm_order (x_FederatedBundles resp)) federated ∧
    Forall2 (λ e b, parseX509Bundle e.1 e.2 = Ok b) (gm_order (x_FederatedBundles resp')) federated' ∧
    parseX509Bundles resp' = Ok (X509Bundle.NewSet (Some <$> (own ++ federated'))).
Proof.
  intros Hsv Hm (own & Ho & (fed & Hf & [= <-])%bind_Ok_inv)%bind_Ok_inv.
  destruct (forM_perm _ _ _ _ (go_map_perm _ _ (eq_sym Hm)) Hf) as (fed' & Hf' & Hp).
  exists own, fed, fed'. split_and!; [done|done|by apply forM_Ok|by apply forM_Ok|].
  unfold parseX509Bundles. rewrite Hsv, Ho. cbn [mbind res_bind]. by rewrite Hf'.
Qed.

Lemma parseX509Bundle_entry e b :
  parseX509Bundle e.1 e.2 = Ok b → TrustDomainFromString e.1 = Ok (X509Bundle.trustDomain b).
Proof. intros (td & Htd & (certs & _ & [= <-])%bind_Ok_inv)%bind_Ok_inv. done. Qed.

Lemma federated_NoDup (order : list (string * string)) (federated : list X509Bundle.Bundle) :
  NoDup order → distinct_keys order → Forall2 (λ e b, parseX509Bundle e.1 e.2 = Ok b) order federated →
  NoDup (X509Bundle.trustDomain <$> federated).
Proof.
  intros Hnd Hd Hall.
  refine (parsed_NoDup (HB := X509Bundle.Bundle_HasTrustDomain)
    (λ td s, let! certs := of_lib (x509_ParseCertificates s) in Ok (X509Bundle.FromX509Authorities td certs)) _
    order federated Hnd Hd Hall).
  by intros td s b (certs & _ & [= <-])%bind_Ok_inv.
Qed.

(** The bundle kept for a trust domain, when some come before all others. *)
Lemma NewSet_own_perm (own federated federated' : list X509Bundle.Bundle) :
  NoDup (X509Bundle.trustDomain <$> federated) → federated ≡ₚ federated' →
  X509Bundle.NewSet (Some <$> (own ++ federated)) = X509Bundle.NewSet (Some <$> (own ++ federated')).
Proof.
  intros Hnd Hp.
  assert (∀ td, last (filter (λ b, trustDomain_of b = td) federated) = last (filter (λ b, trustDomain_of b = td) federated')) as E.
  { intros td. rewrite <- !NewSet_lookup_last. by rewrite (NewSet_perm (HB := X509Bundle.Bundle_HasTrustDomain) federated federated' Hnd Hp). }
  assert (BundleSet.bundles (X509Bundle.NewSet (Some <$> (own ++ federated))) =
    BundleSet.bundles (X509Bundle.NewSet (Some <$> (own ++ federated')))) as Eb.
  { apply map_eq. intros td. unfold X509Bundle.NewSet. by rewrite !NewSet_lookup_last, !filter_app, !last_app, E. }
  unfold X509Bundle.NewSet, BundleSet.NewSet in *. simpl in Eb. by rewrite Eb.
Qed.

(** An order of a map that visits a given entry last. *)
Lemma order_with_last (g : go_map string) e :
  e ∈ gm_order g → ∃ g' before, gm_map g' = gm_map g ∧ gm_order g' = before ++ [e].
Proof.
  intros (l1 & l2 & E)%list_elem_of_split.
  assert (range_of (gm_map g) ((l1 ++ l2) ++ [e])) as Hr.
  { pose proof (gm_range g) as H. unfold range_of in *. rewrite <- H, E. rewrite <- app_assoc.
    apply Permutation_app_head. apply Permutation_app_comm. }
  by exists (mkGoMap (gm_map g) _ Hr), (l1 ++ l2).
Qed.

(** [C35] The X.509 context of a response, whatever the order in which the loop visits
    its map of federated bundles: on success the default SVID exists (the first of the
    list, and the one FetchX509SVID returns), the bundles are filed under their own trust
    domains, every trust domain named by an SVID or a federated bundle has one, and when
    several are given for a trust domain the one kept is the last in order of the SVIDs,
    then of the visit of the map. Whether the response parses, and the SVIDs, never depend
    on that order. The bundles do not either when the keys of the map name different trust
    domains; otherwise every bundle of the map is, in some order, the one kept for its
    trust domain. *)
Theorem parseX509Context_spec (resp : X509SVIDResponse) (ctx : X509Context) :
  parseX509Context resp = Ok ctx →
  (∃ s rest, SVIDs ctx = s :: rest ∧ DefaultSVID ctx = Ok s ∧ parseX509SVIDs resp true = Ok [s]) ∧
  set_wf (ctx_Bundles ctx) ∧
  (∃ own federated,
    Forall2 (λ m b, parseX509Bundle (x_SpiffeId m) (x_Bundle m) = Ok b) (x_Svids resp) own ∧
    Forall2 (λ e b, parseX509Bundle e.1 e.2 = Ok b) (gm_order (x_FederatedBundles resp)) federated ∧
    ∀ td, (X509Bundle.Get (ctx_Bundles ctx) td).1 =
            last (filter (λ b, X509Bundle.trustDomain b = td) (own ++ federated))) ∧
  (∀ resp', x_Svids resp' = x_Svids resp → gm_map (x_FederatedBundles resp') = gm_map (x_FederatedBundles resp) →
     ∃ ctx', parseX509Context resp' = Ok ctx' ∧ SVIDs ctx' = SVIDs ctx ∧
       (distinct_keys (gm_order (x_FederatedBundles resp)) → ctx' = ctx)) ∧
  (∀ key text, gm_map (x_FederatedBundles resp) !! key = Some text →
     ∃ resp' ctx' b, x_Svids resp' = x_Svids resp ∧ gm_map (x_FederatedBundles resp') = gm_map (x_FederatedBundles resp) ∧
       parseX509Context resp' = Ok ctx' ∧ parseX509Bundle key text = Ok b ∧
       (X509Bundle.Get (ctx_Bundles ctx') (X509Bundle.trustDomain b)).1 = Some b).
Proof.
  intros (svids & Hs & (bundles & Hb & [= <-])%bind_Ok_inv)%bind_Ok_inv.
  assert (∀ resp', x_Svids resp' = x_Svids resp → parseX509SVIDs resp' false = Ok svids) as Hsv.
  { intros resp' E. unfold parseX509SVIDs in *. by rewrite E. }
  split_and!.
  - unfold parseX509SVIDs in *. destruct (Nat.eqb_spec (length (x_Svids resp)) 0) as [E|E]; [done|].
    apply parse_svids_Ok in Hs as (m & rest & s & svids' & Hm & Hs & -> & Htake & _);
      [|by apply length_nonzero].
    exists s, svids'. split_and!; try done.
  - apply bind_Ok_inv in Hb as (own & _ & (fed & _ & [= <-])%bind_Ok_inv). apply NewSet_wf.
  - apply bind_Ok_inv in Hb as (own & Ho & (fed & Hf & [= <-])%bind_Ok_inv).
    exists own, fed. apply forM_Ok in Ho, Hf. split_and!; try done.
    intros td. simpl. unfold X509Bundle.Get, X509Bundle.NewSet. rewrite Set_Get_Has; cbn [fst].
    apply (NewSet_lookup_last (own ++ fed) td).
  - intros resp' E Em. destruct (parseX509Bundles_order _ _ _ E Em Hb) as (own & fed & fed' & Hp & -> & Hf & _ & Hb').
    eexists. split_and!; [unfold parseX509Context; rewrite (Hsv _ E); cbn [mbind res_bind]; by rewrite Hb'|done|].
    intros Hd. f_equal. symmetry. apply NewSet_own_perm; [|done].
    eapply federated_NoDup; [|exact Hd|exact Hf]. eapply range_of_NoDup_pairs, gm_range.
  - intros key text Hk. apply (range_of_lookup _ _ _ _ (gm_range _)) in Hk.
    destruct (order_with_last _ _ Hk) as (g & before & Hg & Ho).
    set (resp' := mkX509SVIDResponse (x_Svids resp) g).
    destruct (parseX509Bundles_order resp resp' _ eq_refl Hg Hb) as (own & fed & fed' & _ & _ & _ & Hf' & Hb').
    cbn [resp' x_FederatedBundles] in Hf'. rewrite Ho in Hf'.
    apply Forall2_app_inv_l in Hf' as (fed1 & fed2 & _ & H2 & ->).
    apply Forall2_cons_inv_l in H2 as (b & nil & Hpb & ->%Forall2_nil_inv_l & ->). eexists resp', _, b. split_and!; [done|done| |done|].
    + unfold parseX509Context. rewrite (Hsv resp' eq_refl). cbn [mbind res_bind]. by rewrite Hb'.
    + cbn [ctx_Bundles]. unfold X509Bundle.Get, X509Bundle.NewSet. rewrite Set_Get_Has; cbn [fst].
      rewrite NewSet_lookup_last, !filter_app, !last_app, filter_cons, decide_True by done. done.
Qed.

(** Bundle responses do not depend on the order of the map they arrive in, as
    long as its keys name different trust domains; then each bundle is filed under
    the trust domain of its key. *)
Theorem bundle_response_order (m m' : go_map string) :
  gm_map m = gm_map m' → distinct_keys (gm_order m) →
  (∀ s, parseX509BundlesResponse m = Ok s ↔ parseX509BundlesResponse m' = Ok s) ∧
  (∀ s, parseJWTSVIDBundles m = Ok s ↔ parseJWTSVIDBundles m' = Ok s) ∧
  (∀ s, parseWITBundles m = Ok s ↔ parseWITBundles m' = Ok s).
Proof.
  intros E Hd. pose proof (go_map_perm _ _ E) as Hp. assert (gm_order m' ≡ₚ gm_order m) as Hp' by by rewrite Hp.
  pose proof (range_of_NoDup_pairs _ _ (gm_range m)) as Hnd. pose proof (range_of_NoDup_pairs _ _ (gm_range m')) as Hnd'.
  assert (distinct_keys (gm_order m')) as Hd' by (intros e e' td; rewrite <- Hp; apply Hd).
  split_and!; intros s; (split; [eapply bundle_map_order|eapply bundle_map_order]; try done).
  all: try exact X509Bundle.ParseRaw_td; try exact JwtBundle.jwt_Parse_td; exact WitBundle.wit_Parse_td.
Qed.

(** Fetching never panics on a response: the default SVIDs are the heads of
    what the plural methods return, and the header the Workload API requires is
    the whole outgoing metadata, whatever the caller's was. *)
Theorem FetchX509SVID_spec (wl : WorkloadAPI) (md : metadata) :
  no_panic (FetchX509SVID wl md) = true ∧ no_panic (FetchX509SVIDs wl md) = true ∧
  (∀ s rest, FetchX509SVIDs wl md = Ok (s :: rest) → FetchX509SVID wl md = Ok s) ∧
  FetchX509SVIDs wl md ≠ Ok [] ∧
  (∀ md', FetchX509SVID wl md' = FetchX509SVID wl md) ∧
  (∀ ctx, FetchX509Context wl md = Ok ctx → FetchX509SVIDs wl md = Ok (SVIDs ctx)).
Proof.
  pose proof parseX509SVIDs_no_panic as Hnp.
  assert (∀ resp svids, parseX509SVIDs resp true = Ok svids → ∃ s, svids = [s]) as H1.
  { intros resp svids. unfold parseX509SVIDs. destruct (Nat.eqb_spec (length (x_Svids resp)) 0) as [E|E]; [done|].
    destruct (x_Svids resp) as [|m msgs]; [done|]. cbn [svids_to_parse take].
    rewrite parse_svids_kept, kept_head. cbn [kept forM].
    intros (s & _ & (l & [= <-] & [= <-])%bind_Ok_inv)%bind_Ok_inv. by exists s. }
  unfold FetchX509SVID, FetchX509SVIDs, FetchX509Context.
  change (withHeader md) with [("workload.spiffe.io" : string, "true" : string)].
  destruct (recv (wl_FetchX509SVID wl _)) as [resp|e|w] eqn:Hr; cbn [mbind res_bind].
  2: { split_and!; try done. intros md'.
    change (withHeader md') with [("workload.spiffe.io" : string, "true" : string)]. by rewrite Hr. }
  2: { exfalso. revert Hr. unfold recv. by repeat case_match. }
  split_and!.
  - apply bind_no_panic; [apply Hnp|]. intros svids Hs. by destruct (H1 _ _ Hs) as [s ->].
  - apply Hnp.
  - intros s rest Hs. unfold parseX509SVIDs in *.
    destruct (Nat.eqb_spec (length (x_Svids resp)) 0) as [E|E]; [done|].
    apply parse_svids_Ok in Hs as (m & rest' & s' & svids' & _ & _ & [= -> _] & Htake & _);
      [|by apply length_nonzero].
    change (svids_to_parse true (x_Svids resp)) with (take 1 (svids_to_parse false (x_Svids resp))).
    by rewrite Htake.
  - unfold parseX509SVIDs. destruct (Nat.eqb_spec (length (x_Svids resp)) 0) as [E|E]; [done|].
    intros Hs%parse_svids_Ok; [|by apply length_nonzero]. naive_solver.
  - intros md'. change (withHeader md') with [("workload.spiffe.io" : string, "true" : string)].
    by rewrite Hr.
  - intros ctx (svids & Hs & (bundles & _ & [= <-])%bind_Ok_inv)%bind_Ok_inv. done.
Qed.
End client_properties.

(** A map with two texts of one trust domain. *)
Definition ambiguous_bundles : gmap string string :=
  <["example.org" := "A"]> (<["spiffe://example.org" := "B"]> ∅).

(** When a response names one trust domain by two texts, the bundle that
    survives is the one the map iteration visits last: two runs of the loop on the
    same response give sets that differ at that trust domain. *)
Theorem bundle_response_order_dependence :
  ∃ resp resp' s s',
    gm_map resp = ambiguous_bundles ∧ gm_map resp' = ambiguous_bundles ∧
    parseX509BundlesResponse (C := charset_deny) resp = Ok s ∧
    parseX509BundlesResponse (C := charset_deny) resp' = Ok s' ∧
    (X509Bundle.Get s (mkTrustDomain "example.org")).1 ≠ (X509Bundle.Get s' (mkTrustDomain "example.org")).1.
Proof.
  assert (range_of ambiguous_bundles [("example.org", "A"); ("spiffe://example.org", "B")]) as H.
  { unfold range_of, ambiguous_bundles. by rewrite !map_to_list_insert, map_to_list_empty by by vm_compute. }
  assert (range_of ambiguous_bundles [("spiffe://example.org", "B"); ("example.org", "A")]) as H'.
  { unfold range_of in *. rewrite <- H. constructor. }
  exists (mkGoMap _ _ H), (mkGoMap _ _ H'). do 2 eexists. split_and!; [done|done|reflexivity|reflexivity|by vm_compute].
Qed.

(** ** Witnesses *)
#[export] Instance sample_JwkPrivateLib : JwkPrivateLib := {| jwk_PrivateKey _ := sample_key |}.

Definition sample_response : X509SVIDResponse :=
  mkX509SVIDResponse
    [mkX509SVID "spiffe://example.org/workload" "LA" "ksecret" "A" "internal";
     mkX509SVID "spiffe://example.org/other" "MA" "ksecret" "A" "internal";
     mkX509SVID "spiffe://example.org/other" "MA" "ksecret" "A" ""]
    (listed (<["domain.test" := "B"]> ∅)).

Lemma parseX509SVIDs_spec_witness :
  ∃ svids, parseX509SVIDs (C := charset_deny) sample_response false = Ok svids ∧
    X509Svid.Hint <$> svids = ["internal"; ""] ∧
    ∃ s, parseX509SVIDs (C := charset_deny) sample_response true = Ok [s].
Proof.
  destruct (parseX509SVIDs (C := charset_deny) sample_response false) as [svids| |] eqn:Hs; try (by vm_compute in Hs).
  exists svids. split; [done|].
  destruct (parseX509SVIDs_spec (C := charset_deny) _ _ Hs) as (m & rest & s & svids' & _ & _ & _ & Ht & _).
  split; [vm_compute in Hs; by injection Hs as <-|]. by exists s.
Defined.

(** A response whose map names one trust domain twice: each of the two bundles is the one
    kept, in some order. *)
Definition ambiguous_response : X509SVIDResponse :=
  mkX509SVIDResponse (x_Svids sample_response) (listed ambiguous_bundles).

Lemma parseX509Context_spec_witness :
  ∃ ctx, parseX509Context (C := charset_deny) ambiguous_response = Ok ctx ∧ set_wf (ctx_Bundles ctx) ∧
    is_Ok (DefaultSVID ctx) = true ∧
    ∀ key text, (key, text) ∈ [("example.org", "A"); ("spiffe://example.org", "B")] →
      ∃ resp' ctx' b, gm_map (x_FederatedBundles resp') = ambiguous_bundles ∧
        parseX509Context (C := charset_deny) resp' = Ok ctx' ∧ parseX509Bundle (C := charset_deny) key text = Ok b ∧
        (X509Bundle.Get (ctx_Bundles ctx') (X509Bundle.trustDomain b)).1 = Some b.
Proof.
  destruct (parseX509Context (C := charset_deny) ambiguous_response) as [ctx| |] eqn:Hs; try (by vm_compute in Hs).
  exists ctx. split; [done|].
  destruct (parseX509Context_spec (C := charset_deny) _ _ Hs) as ((s & rest & _ & Hd & _) & Hwf & _ & _ & Hany).
  split_and!; [exact Hwf|by rewrite Hd|]. intros key text Hin.
  destruct (Hany key text) as (resp' & ctx' & b & _ & Hm & Hc & Hb & Hg);
    [|exact (ex_intro _ resp' (ex_intro _ ctx' (ex_intro _ b (conj Hm (conj Hc (conj Hb Hg))))))].
  rewrite !elem_of_cons, elem_of_nil in Hin. by destruct Hin as [[= -> ->]|[[= -> ->]|[]]]; vm_compute.
Defined.

Definition sample_bundle_map : gmap string string := <["example.org" := "A"]> (<["domain.test" := "B"]> ∅).

Lemma sample_bundle_order_ok : range_of sample_bundle_map [("domain.test", "B"); ("example.org", "A")].
Proof.
  unfold range_of, sample_bundle_map. rewrite !map_to_list_insert, map_to_list_empty by by vm_compute. constructor.
Qed.

Definition sample_bundles_visited : go_map string := mkGoMap _ _ sample_bundle_order_ok.

Lemma bundle_response_order_witness :
  ∃ s, parseX509BundlesResponse (C := charset_deny) sample_bundles_visited = Ok s ∧
    parseX509BundlesResponse (C := charset_deny) (listed sample_bundle_map) = Ok s.
Proof.
  destruct (bundle_response_order (C := charset_deny) sample_bundles_visited (listed sample_bundle_map) eq_refl) as (Hx & _).
  { intros e e' td. cbn [gm_order sample_bundles_visited]. rewrite !elem_of_cons, !elem_of_nil.
    intros [->|[->|[]]] [->|[->|[]]]; vm_compute; intros; first [reflexivity|congruence]. }
  destruct (parseX509BundlesResponse (C := charset_deny) sample_bundles_visited) as [s| |] eqn:Hs; [|by vm_compute in Hs..].
  exists s. split; [reflexivity|]. exact (proj1 (Hx s) eq_refl).
Defined.
