(* ===== verification/Watch.v ===== *)
(** * workloadapi: the watch loops

    Models WatchX509Context, WatchJWTBundles, WatchX509Bundles, WatchWITSVIDs,
    WatchWITBundles, their stream loops and handleWatchError
    (src/workloadapi/client.go). The environment is a script: one [round] per
    iteration of the outer loop, with what the stream delivers before it fails and
    whether the retry timer fires or the context is done first. A watch that is
    still running when the script ends has no result yet. Watcher callbacks, retry
    delays and log lines are the observable actions. *)

From S2P Require Import Prelude Logger Path GoUrl ID Crypto X509 X509Sample Pem BundleSet X509Bundle Jose JwtBundle WitBundle X509Svid Jwt JwtSvid WitSvid Backoff Client.

(** ** gRPC status codes: the ones the code tests *)
Inductive code : Type :=
  | codes_OK
  | codes_Canceled
  | codes_InvalidArgument
  | codes_Unimplemented
  | codes_other (c : Z).

#[export] Instance code_eq_dec : EqDecision code.
Proof. solve_decision. Defined.

(** status.Code *)
Class GrpcStatus := status_Code : error → code.

(** ** Environment and observations *)

(** One stream: opening it fails with an error, or it delivers messages until
    Recv fails. *)
Inductive session (R : Type) : Type :=
  | Open_failed (err : error)
  | Streamed (msgs : list R) (err : error).
Arguments Open_failed {R} err.
Arguments Streamed {R} msgs err.

(** [waited]: None when the retry timer fires, Some (ctx.Err()) when the
    context is done first. *)
Record round (R : Type) : Type := mkRound { stream : session R; waited : option error }.
Arguments mkRound {R} stream waited.
Arguments stream {R} r.
Arguments waited {R} r.

Inductive action (U : Type) : Type :=
  | OnUpdate (u : U)
  | OnWatchError (err : error)
  | RetryIn (d : Z)
  | Log (e : log_entry).
Arguments OnUpdate {U} u.
Arguments OnWatchError {U} err.
Arguments RetryIn {U} d.
Arguments Log {U} e.

Definition session_error {R} (s : session R) : error :=
  match s with Open_failed e => e | Streamed _ e => e end.

(** The texts a watch logs: when it opens its stream, when a message does not parse,
    and, for the WIT watches, when the server does not know the call. *)
Record watch_texts : Type := mkTexts {
  watching : string;
  parse_failed : string;
  unsupported : option string;
}.

Section watch_defs.
Context {R U : Type} {BS : BackoffStrategy} {GS : GrpcStatus}.
Variable log : Logger.
Variable texts : watch_texts.
Variable parse : R → res U.

(** The inner loop: every message resets the backoff; a message that does not
    parse is logged, reported and skipped. *)
Fixpoint watch_stream_loop (msgs : list R) (backoff : Backoff) : res (list (action U) * Backoff) :=
  match msgs with
  | [] => Ok ([], backoff)
  | resp :: msgs =>
      let backoff := backoff_Reset backoff in
      match parse resp with
      | Panic why => Panic why
      | Err err =>
          let! l := Errorf log (parse_failed texts) [Arg_v (Some err)] in
          let! r := watch_stream_loop msgs backoff in
          Ok (map Log l ++ OnWatchError err :: r.1, r.2)
      | Ok u =>
          let! r := watch_stream_loop msgs backoff in
          Ok (OnUpdate u :: r.1, r.2)
      end
  end.

(** The stream function: actions, backoff, and the error it returns. *)
Definition watch_stream (s : session R) (backoff : Backoff) : res (list (action U) * Backoff * error) :=
  let! l := Debugf log (watching texts) [] in
  match s with
  | Open_failed err => Ok (map Log l, backoff, err)
  | Streamed msgs err =>
      let! r := watch_stream_loop msgs backoff in
      Ok (map Log l ++ r.1, r.2, err)
  end.

(** handleWatchError: the actions, the backoff and the error that ends the watch. *)
Definition handleWatchError (err : error) (backoff : Backoff) (waited : option error)
    : res (list (action U) * Backoff * option error) :=
  let c := status_Code err in
  if bool_decide (c = codes_Canceled) then Ok ([], backoff, Some err)
  else if bool_decide (c = codes_InvalidArgument) then
    let! l := Errorf log "Canceling watch: %v" [Arg_v (Some err)] in
    Ok (map Log l, backoff, Some err)
  else
    let! l := Errorf log "Failed to watch the Workload API: %v" [Arg_v (Some err)] in
    let '(retryAfter, backoff) := backoff_Next backoff in
    let! l' := Debugf log "Retrying watch in %s" [Arg_d retryAfter] in
    Ok (map Log l ++ map Log l' ++ [RetryIn retryAfter], backoff, waited).

(** The check of the WIT watches before handleWatchError: what they log when they
    return at once. *)
Definition profile_unsupported (err : error) : res (option (list log_entry)) :=
  match unsupported texts with
  | Some text =>
      if bool_decide (status_Code err = codes_Unimplemented)
      then let! l := Errorf log text [Arg_v (Some err)] in Ok (Some l)
      else Ok None
  | None => Ok None
  end.

(** The outer loop; the result is None while the watch is running. *)
Fixpoint watch_rounds (script : list (round R)) (backoff : Backoff) : res (list (action U) * option error) :=
  match script with
  | [] => Ok ([], None)
  | r :: script =>
      let! '(acts, backoff, err) := watch_stream (stream r) backoff in
      let acts := acts ++ [OnWatchError err] in
      let! stop := profile_unsupported err in
      match stop with
      | Some l => Ok (acts ++ map Log l, Some err)
      | None =>
          let! '(acts', backoff, result) := handleWatchError err backoff (waited r) in
          match result with
          | Some err => Ok (acts ++ acts', Some err)
          | None =>
              let! rest := watch_rounds script backoff in
              Ok (acts ++ acts' ++ rest.1, rest.2)
          end
      end
  end.

Definition watch (script : list (round R)) : res (list (action U) * option error) :=
  watch_rounds script NewBackoff.
End watch_defs.

(** ** The five watches *)
Section watches.
Context {C : Charset} {L : X509Lib} {J : JoseLib} {T : JwtLib} {K : JwkLib} {KP : JwkPrivateLib}.
Context {BS : BackoffStrategy} {GS : GrpcStatus}.

Variable log : Logger.

Definition X509Context_texts : watch_texts :=
  mkTexts "Watching X.509 contexts" "Failed to parse X509-SVID response: %v" None.
Definition JWTBundles_texts : watch_texts :=
  mkTexts "Watching JWT bundles" "Failed to parse JWT bundle response: %v" None.
Definition X509Bundles_texts : watch_texts :=
  mkTexts "Watching X.509 bundles" "Failed to parse X.509 bundle response: %v" None.
Definition WITSVIDs_texts : watch_texts :=
  mkTexts "Watching WIT-SVIDs" "Failed to parse WIT-SVID response: %v"
    (Some "WIT-SVID profile not supported by server: %v").
Definition WITBundles_texts : watch_texts :=
  mkTexts "Watching WIT bundles" "Failed to parse WIT bundle response: %v"
    (Some "WIT bundle profile not supported by server: %v").

(** A WIT-SVID response, with the time at which it is parsed. *)
Definition parseWITSVIDs_at (resp : Z * list WITSVID) : res (list WitSvid.SVID) := parseWITSVIDs resp.1 resp.2 false.

Definition watchX509Context := watch_stream log X509Context_texts parseX509Context.
Definition watchJWTBundles := watch_stream log JWTBundles_texts parseJWTSVIDBundles.
Definition watchX509Bundles := watch_stream log X509Bundles_texts parseX509BundlesResponse.
Definition watchWITSVIDs := watch_stream log WITSVIDs_texts parseWITSVIDs_at.
Definition watchWITBundles := watch_stream log WITBundles_texts parseWITBundles.

Definition WatchX509Context (script : list (round X509SVIDResponse)) :=
  watch log X509Context_texts parseX509Context script.
Definition WatchJWTBundles (script : list (round (go_map string))) :=
  watch log JWTBundles_texts parseJWTSVIDBundles script.
Definition WatchX509Bundles (script : list (round (go_map string))) :=
  watch log X509Bundles_texts parseX509BundlesResponse script.
Definition WatchWITSVIDs (script : list (round (Z * list WITSVID))) :=
  watch log WITSVIDs_texts parseWITSVIDs_at script.
Definition WatchWITBundles (script : list (round (go_map string))) :=
  watch log WITBundles_texts parseWITBundles script.
End watches.

(** ** Specification: a watch as a count of consecutive failures *)
Section watch_spec.
Context {R U : Type} {GS : GrpcStatus}.
Variable log : Logger.
Variable texts : watch_texts.
Variable parse : R → res U.

Definition msgs_of (s : session R) : list R :=
  match s with Open_failed _ => [] | Streamed msgs _ => msgs end.

Definition say (l : level) (format : string) (args : list farg) : list (action U) := map Log (logs log l format args).

(** One notification per message, after the log line for one that does not parse. *)
Definition notify (resp : R) : list (action U) :=
  match parse resp with
  | Ok u => [OnUpdate u]
  | Err e => say ERROR (parse_failed texts) [Arg_v (Some e)] ++ [OnWatchError e]
  | Panic w => []
  end.

(** The errors that end the watch, and what is logged then. *)
Definition fatal (err : error) : bool :=
  match status_Code err with
  | codes_Canceled | codes_InvalidArgument => true
  | codes_Unimplemented => bool_decide (is_Some (unsupported texts))
  | _ => false
  end.

Definition last_words (err : error) : list (action U) :=
  match status_Code err, unsupported texts with
  | codes_InvalidArgument, _ => say ERROR "Canceling watch: %v" [Arg_v (Some err)]
  | codes_Unimplemented, Some text => say ERROR text [Arg_v (Some err)]
  | _, _ => []
  end.

(** What a round reports, whatever follows. *)
Definition reports (r : round R) : list (action U) :=
  say DEBUG (watching texts) [] ++ (msgs_of (stream r) ≫= notify) ++ [OnWatchError (session_error (stream r))].

Definition retries (err : error) (d : Z) : list (action U) :=
  say ERROR "Failed to watch the Workload API: %v" [Arg_v (Some err)] ++
  say DEBUG "Retrying watch in %s" [Arg_d d] ++ [RetryIn d].

(** [k] rounds have failed since the last message. *)
Fixpoint watch_spec (k : nat) (script : list (round R)) : list (action U) * option error :=
  match script with
  | [] => ([], None)
  | r :: script =>
      let k := match msgs_of (stream r) with [] => k | _ => 0 end in
      let err := session_error (stream r) in
      if fatal err then (reports r ++ last_words err, Some err)
      else
        let acts := reports r ++ retries err (linear_delay k) in
        match waited r with
        | Some e => (acts, Some e)
        | None => let '(rest, result) := watch_spec (S k) script in (acts ++ rest, result)
        end
  end.
End watch_spec.

Section watch_lemmas.
Context {R U : Type} {GS : GrpcStatus}.
Variables (log : Logger) (texts : watch_texts) (parse : R → res U).
Hypothesis log_not_nil : log ≠ nil_logger.
Hypothesis parse_no_panic : ∀ m, no_panic (parse m) = true.

#[local] Existing Instance defaultBackoffStrategy.

Lemma watch_stream_loop_spec msgs b k :
  after_failures b k →
  ∃ b', watch_stream_loop log texts parse msgs b = Ok (msgs ≫= notify log texts parse, b') ∧
    after_failures b' (match msgs with [] => k | _ => 0 end).
Proof.
  revert b k; induction msgs as [|m msgs IH]; intros b k Hb; cbn [watch_stream_loop].
  - by exists b.
  - pose proof (Reset_after_failures _ _ Hb) as H0.
    destruct (IH (Reset b) 0 H0) as (b' & Hrun & Hb'). cbn [backoff_Reset defaultBackoffStrategy].
    pose proof (parse_no_panic m) as Hp. rewrite bind_cons. unfold notify at 1.
    destruct (parse m) as [u|e|w] eqn:Hm; [| |done]; rewrite ?(Errorf_logs log) by done; cbn [mbind res_bind];
      rewrite Hrun; cbn [mbind res_bind fst snd]; (exists b'; split; [by rewrite <- ?app_assoc|by destruct msgs]).
Qed.

Lemma watch_stream_spec s b k :
  after_failures b k →
  ∃ b', watch_stream log texts parse s b =
      Ok (say log DEBUG (watching texts) [] ++ (msgs_of s ≫= notify log texts parse), b', session_error s) ∧
    after_failures b' (match msgs_of s with [] => k | _ => 0 end).
Proof.
  intros Hb. unfold watch_stream. rewrite (Debugf_logs log) by done. destruct s as [err|msgs err]; cbn [msgs_of session_error].
  - exists b. by rewrite app_nil_r.
  - destruct (watch_stream_loop_spec msgs b k Hb) as (b' & Hrun & Hb'). cbn [mbind res_bind] in *. rewrite Hrun. by exists b'.
Qed.

(** A round's end: the watch stops on a fatal error and retries otherwise. *)
Lemma profile_unsupported_spec err :
  profile_unsupported log texts err =
    Ok (match status_Code err, unsupported texts with
        | codes_Unimplemented, Some text => Some (logs log ERROR text [Arg_v (Some err)]) | _, _ => None end).
Proof.
  unfold profile_unsupported. destruct (unsupported texts) as [text|]; [|by destruct (status_Code err)].
  rewrite (Errorf_logs log) by done. by destruct (status_Code err).
Qed.

Lemma handleWatchError_spec err b k waited :
  (Z.of_nat (S k) < 2 ^ 63)%Z → after_failures b k →
  ∃ b', after_failures b' (S k) ∧ handleWatchError (U := U) log err b waited =
    match status_Code err with
    | codes_Canceled => Ok ([], b, Some err)
    | codes_InvalidArgument => Ok (say log ERROR "Canceling watch: %v" [Arg_v (Some err)], b, Some err)
    | _ => Ok (retries log err (linear_delay k), b', waited)
    end.
Proof.
  intros Hk Hb. destruct (Next_after_failures b k) as [Hd Hn]; [lia|done|].
  unfold handleWatchError. rewrite !(Errorf_logs log) by done. cbn [backoff_Next defaultBackoffStrategy mbind res_bind].
  destruct (Next b) as [d b'] eqn:E. cbn [fst snd] in Hd, Hn. subst d. rewrite (Debugf_logs log) by done.
  exists b'. split; [done|]. by destruct (status_Code err).
Qed.

(** The loop with the default backoff behaves as the specification. *)
Lemma watch_rounds_spec script b k :
  (Z.of_nat (k + length script) < 2 ^ 63)%Z → after_failures b k →
  watch_rounds log texts parse script b = Ok (watch_spec log texts parse k script).
Proof.
  revert b k; induction script as [|r script IH]; intros b k Hk Hb; cbn [watch_rounds watch_spec]; [done|].
  destruct (watch_stream_spec (stream r) b k Hb) as (b' & Hrun & Hb'). rewrite Hrun; cbn [mbind res_bind].
  set (k' := match msgs_of (stream r) with [] => k | _ => 0 end) in *.
  assert (k' ≤ k) as Hle by (unfold k'; case_match; lia). cbn [length] in Hk.
  rewrite profile_unsupported_spec; cbn [mbind res_bind].
  destruct (handleWatchError_spec (session_error (stream r)) b' k' (waited r)) as (b'' & Hb'' & ->); [lia|done|].
  rewrite <- (app_assoc (say log DEBUG _ _)). fold (reports log texts parse r).
  unfold fatal, last_words.
  destruct (status_Code (session_error (stream r))); cbn [mbind res_bind]; try (by rewrite ?app_nil_r).
  2: destruct (unsupported texts) as [text|]; [by rewrite bool_decide_true|].
  all: rewrite ?bool_decide_false by (by intros [? ?]); destruct (waited r); cbn [mbind res_bind]; [done|].
  all: rewrite (IH b'' (S k')) by (done || lia); cbn [mbind res_bind].
  all: destruct (watch_spec _ _ parse (S k') script) as [rest result]; cbn [fst snd]; by rewrite <- ?app_assoc.
Qed.
End watch_lemmas.

Section watch_properties.
Context {C : Charset} {CL : CharsetLaws C} {L : X509Lib} {J : JoseLib} {T : JwtLib} {TL : JwtLaws T}.
Context {K : JwkLib} {KP : JwkPrivateLib} {GS : GrpcStatus}.


(** [C16] The five watches refine their specification: with the default backoff and
    any logger but a nil one each message is reported exactly once, as an update or as
    a logged parse error, each stream failure is reported once, and the retry delay
    depends only on the number of failures since the last message. None of them
    panics. *)
Theorem watches_refine log (ctxs : list (round X509SVIDResponse))
    (maps : list (round (go_map string))) (wits : list (round (Z * list WITSVID))) :
  log ≠ nil_logger →
  (Z.of_nat (length ctxs) < 2 ^ 63)%Z → (Z.of_nat (length maps) < 2 ^ 63)%Z → (Z.of_nat (length wits) < 2 ^ 63)%Z →
  WatchX509Context (BS := defaultBackoffStrategy) log ctxs = Ok (watch_spec log X509Context_texts parseX509Context 0 ctxs) ∧
  WatchJWTBundles (BS := defaultBackoffStrategy) log maps = Ok (watch_spec log JWTBundles_texts parseJWTSVIDBundles 0 maps) ∧
  WatchX509Bundles (BS := defaultBackoffStrategy) log maps =
    Ok (watch_spec log X509Bundles_texts parseX509BundlesResponse 0 maps) ∧
  WatchWITSVIDs (BS := defaultBackoffStrategy) log wits = Ok (watch_spec log WITSVIDs_texts parseWITSVIDs_at 0 wits) ∧
  WatchWITBundles (BS := defaultBackoffStrategy) log maps = Ok (watch_spec log WITBundles_texts parseWITBundles 0 maps).
Proof.
  intros Hlog Hc Hm Hw. split_and!; apply watch_rounds_spec; try done.
  - apply parseX509Context_no_panic.
  - apply parseJWTSVIDBundles_no_panic.
  - apply parseX509BundlesResponse_no_panic.
  - intros resp. apply parseWITSVIDs_no_panic.
  - apply parseWITBundles_no_panic.
Qed.
End watch_properties.

(** The updates among some actions, and the delays. *)
Definition updates {U} (acts : list (action U)) : list U :=
  omap (λ a, match a with OnUpdate u => Some u | _ => None end) acts.
Definition delays {U} (acts : list (action U)) : list Z :=
  omap (λ a, match a with RetryIn d => Some d | _ => None end) acts.

(** The messages that parse. *)
Definition parsed {R U} (parse : R → res U) (msgs : list R) : list U :=
  omap (λ m, match parse m with Ok u => Some u | _ => None end) msgs.

Section watch_stop_lemmas.
Context {R U : Type} {GS : GrpcStatus} (log : Logger) (texts : watch_texts) (parse : R → res U).

Lemma updates_app (l1 l2 : list (action U)) : updates (l1 ++ l2) = updates l1 ++ updates l2.
Proof. apply omap_app. Qed.
Lemma delays_app (l1 l2 : list (action U)) : delays (l1 ++ l2) = delays l1 ++ delays l2.
Proof. apply omap_app. Qed.

Lemma say_updates l format args : updates (say (U := U) log l format args) = [].
Proof. by destruct log. Qed.
Lemma say_delays l format args : delays (say (U := U) log l format args) = [].
Proof. by destruct log. Qed.

Lemma notify_updates msgs : updates (msgs ≫= notify log texts parse) = parsed parse msgs.
Proof.
  induction msgs as [|m msgs IH]; [done|]. rewrite bind_cons, updates_app, IH. unfold parsed. cbn [omap list_omap].
  unfold notify. destruct (parse m); [done| |done]. by rewrite updates_app, say_updates.
Qed.
Lemma notify_delays msgs : delays (msgs ≫= notify log texts parse) = [].
Proof.
  induction msgs as [|m msgs IH]; [done|]. rewrite bind_cons, delays_app, IH, app_nil_r.
  unfold notify. destruct (parse m); [done| |done]. by rewrite delays_app, say_delays.
Qed.

Lemma reports_updates r : updates (reports log texts parse r) = parsed parse (msgs_of (stream r)).
Proof. unfold reports. by rewrite !updates_app, say_updates, notify_updates, app_nil_r. Qed.
Lemma reports_delays r : delays (reports log texts parse r) = [].
Proof. unfold reports. by rewrite !delays_app, say_delays, notify_delays. Qed.
Lemma last_words_silent err : updates (last_words (U := U) log texts err) = [] ∧ delays (last_words (U := U) log texts err) = [].
Proof. unfold last_words. repeat case_match; rewrite ?say_updates, ?say_delays; done. Qed.
Lemma retries_updates err d : updates (retries (U := U) log err d) = [].
Proof. unfold retries. by rewrite !updates_app, !say_updates. Qed.
Lemma retries_delays err d : delays (retries (U := U) log err d) = [d].
Proof. unfold retries. by rewrite !delays_app, !say_delays. Qed.

(** A round that is followed by a retry. *)
Definition retried (r : round R) : Prop := fatal texts (session_error (stream r)) = false ∧ waited r = None.

(** The actions of one round that ran: its parsable messages are delivered, its error is
    reported, and it ends with its one delay, of one to thirty seconds, unless the error
    was fatal, in which case there is none. *)
Definition round_ran (r : round R) (acts : list (action U)) : Prop :=
  updates acts = parsed parse (msgs_of (stream r)) ∧ OnWatchError (session_error (stream r)) ∈ acts ∧
  if fatal texts (session_error (stream r)) then delays acts = []
  else ∃ d, delays acts = [d] ∧ last acts = Some (RetryIn d) ∧ (Backoff.Second ≤ d ≤ 30 * Backoff.Second)%Z.

Lemma linear_delay_bounds k : (Backoff.Second ≤ linear_delay k ≤ 30 * Backoff.Second)%Z.
Proof. unfold linear_delay, Backoff.Second; lia. Qed.

Lemma reports_error r : OnWatchError (session_error (stream r)) ∈ reports log texts parse r.
Proof. unfold reports. rewrite !elem_of_app. right; right. by left. Qed.

Lemma fatal_round_ran r :
  fatal texts (session_error (stream r)) = true →
  round_ran r (reports log texts parse r ++ last_words log texts (session_error (stream r))).
Proof.
  intros Hf. destruct (last_words_silent (session_error (stream r))) as [Hu Hd]. unfold round_ran.
  rewrite Hf, updates_app, delays_app, reports_updates, reports_delays, Hu, Hd, app_nil_r, elem_of_app.
  split_and!; [done|left; apply reports_error|done].
Qed.

Lemma retried_round_ran r k :
  fatal texts (session_error (stream r)) = false →
  round_ran r (reports log texts parse r ++ retries log (session_error (stream r)) (linear_delay k)).
Proof.
  intros Hf. unfold round_ran. rewrite Hf, updates_app, delays_app, reports_updates, reports_delays,
    retries_updates, retries_delays, app_nil_r, elem_of_app. split_and!; [done|left; apply reports_error|].
  exists (linear_delay k). split_and!; [done| |apply linear_delay_bounds..].
  unfold retries. by rewrite !app_assoc, last_snoc.
Qed.

Lemma rounds_updates run acts :
  Forall2 round_ran run acts → updates (concat acts) = parsed parse (concat ((λ r, msgs_of (stream r)) <$> run)).
Proof.
  induction 1 as [|r a run acts (Hu & _) _ IH]; [done|]. rewrite fmap_cons. cbn [concat].
  rewrite updates_app, Hu, IH. symmetry. apply omap_app.
Qed.

Lemma watch_spec_stops k script acts result :
  watch_spec log texts parse k script = (acts, result) →
  ∃ run rest ran, script = run ++ rest ∧ acts = concat ran ∧ Forall2 round_ran run ran ∧
    match result with
    | None => rest = [] ∧ Forall retried run
    | Some e => ∃ before r, run = before ++ [r] ∧ Forall retried before ∧
        ((fatal texts (session_error (stream r)) = true ∧ e = session_error (stream r)) ∨
         (fatal texts (session_error (stream r)) = false ∧ waited r = Some e))
    end.
Proof.
  revert k acts result; induction script as [|r script IH]; intros k acts result; cbn [watch_spec].
  { intros [= <- <-]. exists [], [], []. by split_and!. }
  set (k' := match msgs_of (stream r) with [] => k | _ => 0 end).
  destruct (fatal texts (session_error (stream r))) eqn:Hf.
  { intros [= <- <-]. eexists [r], script, [_]. cbn [concat]. rewrite app_nil_r. split_and!; [done|done| |].
    - constructor; [by apply fatal_round_ran|constructor].
    - exists [], r. split_and!; [done|constructor|by left]. }
  destruct (waited r) as [e|] eqn:Hw.
  { intros [= <- <-]. eexists [r], script, [_]. cbn [concat]. rewrite app_nil_r. split_and!; [done|done| |].
    - constructor; [by apply retried_round_ran|constructor].
    - exists [], r. split_and!; [done|constructor|by right]. }
  destruct (watch_spec log texts parse (S k') script) as [acts' result'] eqn:Hs. intros [= <- <-].
  destruct (IH _ _ _ Hs) as (run & rest & ran & -> & -> & Hran & Hres). eexists (r :: run), rest, (_ :: ran).
  split_and!; [done|done|constructor; [by apply retried_round_ran|done]|].
  assert (retried r) by done. destruct result' as [e|].
  - destruct Hres as (before & r' & -> & Hb & Hend). exists (r :: before), r'. by split_and!; [|constructor|].
  - destruct Hres as [-> Hall]. by split; [|constructor].
Qed.
End watch_stop_lemmas.

Section watch_stop_properties.
Context {R U : Type} {GS : GrpcStatus} (log : Logger) (texts : watch_texts) (parse : R → res U).

(** [C40] When a watch ends and what it did: the rounds run are a prefix of the script,
    and the actions of the watch are those of these rounds, one after the other. Each of
    them delivers exactly the round's parsable messages, in order, reports its error and,
    unless the error is fatal, ends with exactly one delay, of one to thirty seconds;
    after it the next round follows, so all rounds but the last were retried. The watch
    returns only an error whose status is Canceled or InvalidArgument (or Unimplemented,
    for the WIT watches), or the context's error when the context is done while
    waiting. *)
Theorem watch_stops (script : list (round R)) acts result :
  log ≠ nil_logger → (∀ m, no_panic (parse m) = true) → (Z.of_nat (length script) < 2 ^ 63)%Z →
  watch (BS := defaultBackoffStrategy) log texts parse script = Ok (acts, result) →
  ∃ run rest ran, script = run ++ rest ∧ acts = concat ran ∧ Forall2 (round_ran texts parse) run ran ∧
    updates acts = parsed parse (concat ((λ r, msgs_of (stream r)) <$> run)) ∧
    match result with
    | None => rest = [] ∧ Forall (retried texts) run
    | Some e => ∃ before r, run = before ++ [r] ∧ Forall (retried texts) before ∧
        ((fatal texts (session_error (stream r)) = true ∧ e = session_error (stream r)) ∨
         (fatal texts (session_error (stream r)) = false ∧ waited r = Some e))
    end.
Proof.
  intros Hlog Hp Hl. unfold watch. rewrite (watch_rounds_spec log texts parse Hlog Hp script newLinearBackoff 0) by done.
  intros Hw. destruct (watch_spec_stops log texts parse 0 script acts result) as (run & rest & ran & ? & -> & Hran & Hres);
    [congruence|]. exists run, rest, ran. split_and!; try done. by eapply rounds_updates.
Qed.
End watch_stop_properties.

(** ** Witnesses *)
#[export] Instance sample_status : GrpcStatus := λ e,
  match e with
  | extern_error "grpc" "Canceled" => codes_Canceled
  | extern_error "grpc" "InvalidArgument" => codes_InvalidArgument
  | extern_error "grpc" "Unimplemented" => codes_Unimplemented
  | _ => codes_other 14
  end.

Definition unavailable : error := extern_error "grpc" "Unavailable".
Definition sample_script : list (round X509SVIDResponse) :=
  [mkRound (Open_failed unavailable) None;
   mkRound (Open_failed unavailable) None;
   mkRound (Streamed [sample_response; mkX509SVIDResponse [] (listed ∅)] unavailable) None;
   mkRound (Open_failed (extern_error "grpc" "Canceled")) None].

Definition sample_logger : Logger := other_logger "log".

Lemma watches_refine_witness :
  ∃ acts, WatchX509Context (C := charset_deny) (BS := defaultBackoffStrategy) sample_logger sample_script =
      Ok (acts, Some (extern_error "grpc" "Canceled")) ∧
    delays acts = [1 * Backoff.Second; 2 * Backoff.Second; 1 * Backoff.Second]%Z ∧
    Log (Logged "log" ERROR "Failed to watch the Workload API: %v" [Arg_v (Some unavailable)]) ∈ acts.
Proof.
  destruct (watches_refine (C := charset_deny) sample_logger sample_script [] []) as [H _]; [done|simpl; lia..|].
  rewrite H. eexists. split; [reflexivity|]. split; [reflexivity|]. right. right. by left.
Defined.

Lemma watch_stops_witness :
  ∃ acts run ran, WatchX509Context (C := charset_deny) (BS := defaultBackoffStrategy) sample_logger sample_script =
      Ok (acts, Some (extern_error "grpc" "Canceled")) ∧ length (updates acts) = 1 ∧ acts = concat ran ∧
    Forall2 (round_ran X509Context_texts (parseX509Context (C := charset_deny))) run ran.
Proof.
  destruct (WatchX509Context (C := charset_deny) (BS := defaultBackoffStrategy) sample_logger sample_script)
    as [[acts result]| |] eqn:Hw; [|by vm_compute in Hw..].
  destruct (watch_stops (GS := sample_status) sample_logger X509Context_texts (parseX509Context (C := charset_deny)) sample_script acts result)
    as (run & rest & ran & _ & Hacts & Hran & _).
  - done.
  - apply parseX509Context_no_panic.
  - simpl; lia.
  - exact Hw.
  - exists acts, run, ran. vm_compute in Hw. injection Hw as Ha <-. split_and!; [by rewrite <- Ha|by rewrite <- Ha|done|done].
Defined.
