(* ===== verification/Watcher.v ===== *)
(** * workloadapi: watcherBase, watcher and WITSource as concurrent programs

    Models src/workloadapi/watcher.go and the construction and Close of
    src/workloadapi/witsource.go: the constructor, the two goroutines that run the
    client's watches, and the callers of Close and Updated, interleaved one atomic
    step at a time. The constructor is a list of instructions, so that newWatcher
    (the watches one after the other) and NewWITSource (both at once) are two
    programs of one machine. [do] runs one step, chosen by a [choice]; a run is a
    list of choices, so that runs are computable.

    The steps are: one channel operation, one call of the update function (which
    holds the source's mutex), one phase of closeBase. The client's watches are the
    environment: they deliver updates of the set [delivers] and return an error at
    any time, before or after cancellation. *)

From S2P Require Import Prelude.

(** The two watches: X.509 contexts and JWT bundles in newWatcher, WIT-SVIDs
    and WIT bundles in NewWITSource. *)
Inductive watch : Type := W1 | W2.

#[export] Instance watch_eq_dec : EqDecision watch.
Proof. solve_decision. Defined.

Definition upd {T} (w : watch) (v : T) (f : watch → T) : watch → T := λ w', if decide (w = w') then v else f w'.

Inductive watch_ctx : Type := NoCtx | Live | Cancelled.

(** closeBase, by phases, with closeMtx held. *)
Inductive close_pc : Type := CCheck | CWait | CClient | CReturn.

(** The constructor's statements. [NewClient d]: a failure runs the deferred
    Close when [d]. *)
Inductive instr : Type :=
  | NewClient (deferred : bool)
  | WithCancel
  | Start (w : watch)
  | WaitFor (w : watch)
  | DrainUpdated.

Inductive main_pc : Type :=
  | Constructing (todo : list instr)
  | Failing (err : error)           (* about to run the deferred Close *)
  | Closing (err : error)           (* in the deferred Close *)
  | Returned (err : option error).

Section machine.
Context {S : Type} {U : watch → Type}.

(** The statements of a callback of a watcher. *)
Inductive cb_instr : Type :=
  | CallFn (w : watch) (u : U w)
  | TriggerUpdated
  | CloseOnce (w : watch).

(** A watch goroutine: in the client's watch (with the rest of a callback to
    run), past the send on errCh, past wg.Done. *)
Inductive goroutine : Type :=
  | NotStarted
  | Watching (callback : list cb_instr)
  | Sent
  | Finished.

(** What has happened: calls of the update functions, receives on updatedCh,
    calls of the client's Close, returns of Close. *)
Inductive event : Type :=
  | Applied (w : watch) (u : U w)
  | Consumed
  | ClientClosed
  | CloseReturned (err : option error).

(** [closer]: who holds closeMtx (the constructor?) and where it is;
    [trace]: the events, latest first. *)
Record state : Type := mkState {
  src : S;
  updatedCh : bool;                 (* capacity one: full or not *)
  chan_closed : watch → bool;       (* x509ContextSet, jwtBundlesSet *)
  once : watch → bool;              (* x509ContextSetOnce, jwtBundlesSetOnce *)
  gor : watch → goroutine;
  wg : nat;
  errCh : list error;               (* capacity two *)
  ctx : watch_ctx;
  hasClient : bool;
  ownsClient : bool;
  closer : option (bool * close_pc);
  closed : bool;
  closeErr : option error;
  main : main_pc;
  trace : list event;
}.

Definition set_src (v : S) (s : state) : state :=
  mkState v (updatedCh s) (chan_closed s) (once s) (gor s) (wg s) (errCh s) (ctx s) (hasClient s) (ownsClient s) (closer s) (closed s) (closeErr s) (main s) (trace s).
Definition set_updatedCh (v : bool) (s : state) : state :=
  mkState (src s) v (chan_closed s) (once s) (gor s) (wg s) (errCh s) (ctx s) (hasClient s) (ownsClient s) (closer s) (closed s) (closeErr s) (main s) (trace s).
Definition set_chan_closed (v : watch → bool) (s : state) : state :=
  mkState (src s) (updatedCh s) v (once s) (gor s) (wg s) (errCh s) (ctx s) (hasClient s) (ownsClient s) (closer s) (closed s) (closeErr s) (main s) (trace s).
Definition set_once (v : watch → bool) (s : state) : state :=
  mkState (src s) (updatedCh s) (chan_closed s) v (gor s) (wg s) (errCh s) (ctx s) (hasClient s) (ownsClient s) (closer s) (closed s) (closeErr s) (main s) (trace s).
Definition set_gor (v : watch → goroutine) (s : state) : state :=
  mkState (src s) (updatedCh s) (chan_closed s) (once s) v (wg s) (errCh s) (ctx s) (hasClient s) (ownsClient s) (closer s) (closed s) (closeErr s) (main s) (trace s).
Definition set_wg (v : nat) (s : state) : state :=
  mkState (src s) (updatedCh s) (chan_closed s) (once s) (gor s) v (errCh s) (ctx s) (hasClient s) (ownsClient s) (closer s) (closed s) (closeErr s) (main s) (trace s).
Definition set_errCh (v : list error) (s : state) : state :=
  mkState (src s) (updatedCh s) (chan_closed s) (once s) (gor s) (wg s) v (ctx s) (hasClient s) (ownsClient s) (closer s) (closed s) (closeErr s) (main s) (trace s).
Definition set_ctx (v : watch_ctx) (s : state) : state :=
  mkState (src s) (updatedCh s) (chan_closed s) (once s) (gor s) (wg s) (errCh s) v (hasClient s) (ownsClient s) (closer s) (closed s) (closeErr s) (main s) (trace s).
Definition set_hasClient (v : bool) (s : state) : state :=
  mkState (src s) (updatedCh s) (chan_closed s) (once s) (gor s) (wg s) (errCh s) (ctx s) v (ownsClient s) (closer s) (closed s) (closeErr s) (main s) (trace s).
Definition set_ownsClient (v : bool) (s : state) : state :=
  mkState (src s) (updatedCh s) (chan_closed s) (once s) (gor s) (wg s) (errCh s) (ctx s) (hasClient s) v (closer s) (closed s) (closeErr s) (main s) (trace s).
Definition set_closer (v : option (bool * close_pc)) (s : state) : state :=
  mkState (src s) (updatedCh s) (chan_closed s) (once s) (gor s) (wg s) (errCh s) (ctx s) (hasClient s) (ownsClient s) v (closed s) (closeErr s) (main s) (trace s).
Definition set_closed (v : bool) (s : state) : state :=
  mkState (src s) (updatedCh s) (chan_closed s) (once s) (gor s) (wg s) (errCh s) (ctx s) (hasClient s) (ownsClient s) (closer s) v (closeErr s) (main s) (trace s).
Definition set_closeErr (v : option error) (s : state) : state :=
  mkState (src s) (updatedCh s) (chan_closed s) (once s) (gor s) (wg s) (errCh s) (ctx s) (hasClient s) (ownsClient s) (closer s) (closed s) v (main s) (trace s).
Definition set_main (v : main_pc) (s : state) : state :=
  mkState (src s) (updatedCh s) (chan_closed s) (once s) (gor s) (wg s) (errCh s) (ctx s) (hasClient s) (ownsClient s) (closer s) (closed s) (closeErr s) v (trace s).
Definition set_trace (v : list event) (s : state) : state :=
  mkState (src s) (updatedCh s) (chan_closed s) (once s) (gor s) (wg s) (errCh s) (ctx s) (hasClient s) (ownsClient s) (closer s) (closed s) (closeErr s) (main s) v.
Definition emit (e : event) (s : state) : state := set_trace (e :: trace s) s.

Implicit Types (s : state) (w : watch).

Definition drainUpdated s : state := emit Consumed (set_updatedCh false s).
Definition triggerUpdated s : state := set_updatedCh true s.

(** The update functions; None is a nil function. *)
Variable fn : ∀ w, option (U w → S → res S).

(** OnX509ContextUpdate, OnJWTBundlesUpdate, OnWITSVIDsUpdate, OnWITBundlesUpdate. *)
Definition callback w (u : U w) : list cb_instr := [CallFn w u; TriggerUpdated; CloseOnce w].

Definition call w (u : U w) (src : S) : res S :=
  match fn w with None => Panic "nil function" | Some f => f u src end.

Definition close_once w s : res state :=
  if once s w then Ok s
  else if chan_closed s w then Panic "close of closed channel"
  else Ok (set_once (upd w true (once s)) (set_chan_closed (upd w true (chan_closed s)) s)).

Definition exec (i : cb_instr) s : res state :=
  match i with
  | CallFn w u => let! src := call w u (src s) in Ok (emit (Applied w u) (set_src src s))
  | TriggerUpdated => Ok (triggerUpdated s)
  | CloseOnce w => close_once w s
  end.

Definition set_gor1 w (g : goroutine) s : state := set_gor (upd w g (gor s)) s.

(** The schedule and the environment's choices. *)
Inductive choice : Type :=
  | Ch_client (err : option error)   (* the result of New *)
  | Ch_main                          (* the constructor's next step *)
  | Ch_wait_err                      (* waitFor receives from errCh *)
  | Ch_wait_ctx (err : error)        (* waitFor finds ctx done *)
  | Ch_closer (err : option error)   (* closeBase's next phase; the result of the client's Close *)
  | Ch_close                         (* a caller locks closeMtx in Close *)
  | Ch_recv                          (* a caller receives from Updated() *)
  | Ch_update w (u : U w)            (* the watch delivers an update *)
  | Ch_callback w                    (* the callback's next step *)
  | Ch_return w (err : error)        (* the watch returns and its error is sent *)
  | Ch_done w.                       (* wg.Done *)

(** closeBase with the closer of Close: the client's Close when it is owned. *)
Definition closeBase_step (by_main : bool) (pc : close_pc) (err : option error) s : option state :=
  match pc with
  | CCheck =>
      if closed s then Some (set_closer (Some (by_main, CReturn)) s)
      else Some (set_closer (Some (by_main, CWait))
                  (set_ctx (match ctx s with NoCtx => NoCtx | _ => Cancelled end) s))
  | CWait =>
      if (wg s =? 0)%nat then Some (set_closer (Some (by_main, CClient)) s) else None
  | CClient =>
      let s := if hasClient s && ownsClient s then set_closeErr err (emit ClientClosed s) else s in
      Some (set_closer (Some (by_main, CReturn)) (set_closed true s))
  | CReturn =>
      let s := set_closer None (emit (CloseReturned (closeErr s)) s) in
      match main s with
      | Closing e => Some (set_main (Returned (errors_Join [Some e; closeErr s])) s)
      | _ => Some s
      end
  end.

(** The constructor's own steps. *)
Definition main_step s : option state :=
  match main s with
  | Constructing [] => Some (set_main (Returned None) s)
  | Constructing (WithCancel :: todo) => Some (set_main (Constructing todo) (set_ctx Live s))
  | Constructing (Start w :: todo) =>
      Some (set_main (Constructing todo) (set_gor1 w (Watching []) (set_wg (1 + wg s) s)))
  | Constructing (WaitFor w :: todo) =>
      if chan_closed s w then Some (set_main (Constructing todo) s) else None
  | Constructing (DrainUpdated :: todo) => Some (set_main (Constructing todo) (drainUpdated s))
  | Failing e =>
      match closer s with
      | None => Some (set_closer (Some (true, CCheck)) (set_main (Closing e) s))
      | Some _ => None
      end
  | _ => None
  end.

Definition do (c : choice) s : option state :=
  match c with
  | Ch_client r =>
      match main s with
      | Constructing (NewClient deferred :: todo) =>
          match r with
          | None => Some (set_main (Constructing todo) (set_hasClient true (set_ownsClient true s)))
          | Some e => Some (set_main (if deferred then Failing e else Returned (Some e)) s)
          end
      | _ => None
      end
  | Ch_main => main_step s
  | Ch_wait_err =>
      match main s, errCh s with
      | Constructing (WaitFor w :: _), e :: errs => Some (set_main (Failing e) (set_errCh errs s))
      | _, _ => None
      end
  | Ch_wait_ctx e =>
      match main s with
      | Constructing (WaitFor w :: _) => Some (set_main (Failing e) s)
      | _ => None
      end
  | Ch_closer r =>
      match closer s with Some (m, pc) => closeBase_step m pc r s | None => None end
  | Ch_close =>
      match main s, closer s with
      | Returned None, None => Some (set_closer (Some (false, CCheck)) s)
      | _, _ => None
      end
  | Ch_recv =>
      match main s, updatedCh s with Returned None, true => Some (drainUpdated s) | _, _ => None end
  | Ch_update w u =>
      match gor s w with Watching [] => Some (set_gor1 w (Watching (callback w u)) s) | _ => None end
  | Ch_callback w =>
      match gor s w with
      | Watching (i :: l) =>
          match exec i s with Ok s => Some (set_gor1 w (Watching l) s) | _ => None end
      | _ => None
      end
  | Ch_return w e =>
      match gor s w with
      | Watching [] =>
          if (length (errCh s) <? 2)%nat then Some (set_gor1 w Sent (set_errCh (errCh s ++ [e]) s)) else None
      | _ => None
      end
  | Ch_done w =>
      match gor s w with Sent => Some (set_gor1 w Finished (set_wg (wg s - 1) s)) | _ => None end
  end.

Fixpoint run (cs : list choice) s : option state :=
  match cs with
  | [] => Some s
  | c :: cs => match do c s with Some s => run cs s | None => None end
  end.

(** The updates the client's watches may deliver. *)
Variable delivers : ∀ w, U w → Prop.

Definition allowed (c : choice) : Prop := match c with Ch_update w u => delivers w u | _ => True end.

Inductive step : state → state → Prop :=
  | step_do c s s' : allowed c → do c s = Some s' → step s s'.

(** The state the constructor starts from: newWatcherBase and the fields. *)
Definition init (src0 : S) (has : bool) (prog : list instr) : state :=
  mkState src0 false (λ _, false) (λ _, false) (λ _, NotStarted) 0 [] NoCtx has false None false None
    (Constructing prog) [].

(** newWatcher: a client is created unless one is given; the watches whose
    function is not nil are started and waited for in turn. *)
Definition newWatcher_prog (client_given : bool) : list instr :=
  (if client_given then [] else [NewClient true]) ++ [WithCancel] ++
  match fn W1 with Some _ => [Start W1; WaitFor W1] | None => [] end ++
  match fn W2 with Some _ => [Start W2; WaitFor W2] | None => [] end ++ [DrainUpdated].

Definition newWatcher (src0 : S) (client_given : bool) : state :=
  init src0 client_given (newWatcher_prog client_given).

(** NewWITSource and waitForInitial: both watches are started at once. *)
Definition NewWITSource_prog (client_given : bool) : list instr :=
  (if client_given then [] else [NewClient false]) ++
  [WithCancel; Start W1; Start W2; WaitFor W1; WaitFor W2; DrainUpdated].

Definition NewWITSource (src0 : S) (client_given : bool) : state :=
  init src0 client_given (NewWITSource_prog client_given).

(** waitUntilUpdated: the cases of the select that can be taken; none when it
    blocks. [done]: the error of the caller's context, when it is done. *)
Definition waitUntilUpdated (done : option error) s : list (res unit * state) :=
  (if updatedCh s then [(Ok (), drainUpdated s)] else []) ++
  match done with Some e => [(Err e, s)] | None => [] end.

(** The updates applied after the last receive, latest first. *)
Fixpoint unseen (tr : list event) : list event :=
  match tr with
  | [] => []
  | Consumed :: _ => []
  | Applied w u :: tr => Applied w u :: unseen tr
  | _ :: tr => unseen tr
  end.

(** The source after the applied updates. *)
Fixpoint replay (tr : list event) (src0 : S) : res S :=
  match tr with
  | [] => Ok src0
  | Applied w u :: tr => let! src := replay tr src0 in call w u src
  | _ :: tr => replay tr src0
  end.

Definition alive (g : goroutine) : bool := match g with Watching _ | Sent => true | _ => false end.
End machine.

Arguments state S U : clear implicits.
Arguments event U : clear implicits.
Arguments goroutine U : clear implicits.
Arguments cb_instr U : clear implicits.
Arguments choice U : clear implicits.

(** The programs in question: a goroutine is started once, and a client is
    created first if at all. *)
Definition starts (prog : list instr) : list watch :=
  omap (λ i, match i with Start w => Some w | _ => None end) prog.

Definition prog_ok (prog : list instr) : Prop :=
  NoDup (starts prog) ∧ ∀ i d, prog !! i = Some (NewClient d) → i = 0.

Lemma upd_lookup {T} w (v : T) f w' : upd w v f w' = if decide (w = w') then v else f w'.
Proof. done. Qed.

(** One case per way a step can go. *)
Ltac step_cases :=
  match goal with
  | Hdo : do _ ?c _ = Some _ |- _ =>
      destruct c; cbn [do] in Hdo; unfold main_step, closeBase_step in Hdo;
      repeat (case_match; simplify_eq); simplify_eq
  end.

Section invariants.
Context {S : Type} {U : watch → Type}.
Variable fn : ∀ w, option (U w → S → res S).
Variable delivers : ∀ w, U w → Prop.
Variables (src0 : S) (has : bool) (prog : list instr).
Hypothesis Hprog : prog_ok prog.
Implicit Types (s : state S U) (w : watch).

Definition reachable s : Prop := rtc (step fn delivers) (init src0 has prog) s.

(** Rule induction: a property of the initial state kept by every step. *)
Lemma reachable_ind (P : state S U → Prop) :
  P (init src0 has prog) →
  (∀ s s' c, reachable s → P s → allowed delivers c → do fn c s = Some s' → P s') →
  ∀ s, reachable s → P s.
Proof.
  intros H0 Hs. refine (rtc_ind_r P _ H0 _). intros y z Hy Hstep IH. destruct Hstep as [c s1 s2 Ha Hd].
  by apply (Hs s1 s2 c).
Qed.

(** The fields a callback's step leaves alone. *)
Lemma exec_frame i s s' :
  exec fn i s = Ok s' →
  gor s' = gor s ∧ wg s' = wg s ∧ errCh s' = errCh s ∧ ctx s' = ctx s ∧ hasClient s' = hasClient s ∧
  ownsClient s' = ownsClient s ∧ closer s' = closer s ∧ closed s' = closed s ∧ closeErr s' = closeErr s ∧
  main s' = main s ∧ (trace s' = trace s ∨ ∃ w u, trace s' = Applied w u :: trace s).
Proof.
  destruct i as [w u| |w]; cbn [exec].
  - intros (x & _ & [= <-])%bind_Ok_inv. split_and!; try done. right. by exists w, u.
  - intros [= <-]. split_and!; try done. by left.
  - unfold close_once. repeat case_match; intros; simplify_eq; split_and!; try done; by left.
Qed.

(** A goroutine's step leaves the constructor, the closer and the client alone. *)
Definition same_control s s' : Prop :=
  main s' = main s ∧ closer s' = closer s ∧ closed s' = closed s ∧ closeErr s' = closeErr s ∧
  ctx s' = ctx s ∧ hasClient s' = hasClient s ∧ ownsClient s' = ownsClient s.

Definition by_goroutine (c : choice U) : option watch :=
  match c with
  | Ch_update w _ | Ch_callback w | Ch_return w _ | Ch_done w => Some w
  | _ => None
  end.

Lemma exec_chan_closed i s s' w :
  exec fn i s = Ok s' → chan_closed s w = true → chan_closed s' w = true.
Proof.
  destruct i as [w' u| |w']; cbn [exec].
  - by intros (x & _ & [= <-])%bind_Ok_inv.
  - by intros [= <-].
  - unfold close_once. repeat case_match; intros; simplify_eq; try done. simpl. rewrite upd_lookup. by case_decide.
Qed.

Lemma goroutine_step c w s s' :
  do fn c s = Some s' → by_goroutine c = Some w →
  same_control s s' ∧ (∀ w, chan_closed s w = true → chan_closed s' w = true) ∧
  alive (gor s w) = true ∧
  ∃ g, g ≠ NotStarted ∧ gor s' = upd w g (gor s) ∧ wg s' = wg s - (1 - Nat.b2n (alive g)).
Proof.
  intros Hdo [= Hw]. destruct c; cbn [do by_goroutine] in *; simplify_eq; repeat (case_match; simplify_eq); simplify_eq.
  2: { match goal with H : exec _ _ _ = Ok _ |- _ => pose proof (exec_frame _ _ _ H) as Hf;
         pose proof (λ w, exec_chan_closed _ _ _ w H) as Hch end.
       destruct Hf as (Hg & Hwg & ? & ? & ? & ? & ? & ? & ? & ? & _). rewrite <- Hg.
       split; [by split_and!|]. split; [done|]. split; [done|]. eexists. split_and!; [|done|]; simpl; [done|lia]. }
  all: split; [by split_and!|]; split; [done|]; split; [by repeat case_match|].
  all: eexists; split_and!; [|done|]; simpl; [done|lia].
Qed.

(** The other steps leave the goroutines' side alone, but for Start. *)
Lemma other_step c s s' :
  do fn c s = Some s' → by_goroutine c = None →
  chan_closed s' = chan_closed s ∧ once s' = once s ∧ src s' = src s ∧
  ((gor s' = gor s ∧ wg s' = wg s) ∨
   ∃ w todo, main s = Constructing (Start w :: todo) ∧ gor s' = upd w (Watching []) (gor s) ∧ wg s' = 1 + wg s).
Proof.
  intros Hdo Hw. step_cases; simpl; split_and!; try done; try (by left).
  right. eauto.
Qed.

(** ** Control: the constructor, the closer and the goroutines *)
Definition phase (pc : close_pc) s : Prop :=
  match pc with
  | CCheck => True
  | CWait => closed s = false
  | CClient => closed s = false ∧ wg s = 0
  | CReturn => closed s = true
  end.

Definition control s : Prop :=
  wg s = Nat.b2n (alive (gor s W1)) + Nat.b2n (alive (gor s W2)) ∧ (closed s = true → wg s = 0) ∧
  match main s with
  | Constructing todo =>
      closer s = None ∧ closed s = false ∧
      ∃ done, prog = done ++ todo ∧ (∀ w, gor s w ≠ NotStarted → Start w ∈ done) ∧
        (∀ w, WaitFor w ∈ done → chan_closed s w = true) ∧ (done = [] → ownsClient s = false)
  | Failing _ => closer s = None ∧ closed s = false
  | Closing _ => ∃ pc, closer s = Some (true, pc) ∧ phase pc s
  | Returned None =>
      (∀ w, WaitFor w ∈ prog → chan_closed s w = true) ∧
      (closer s = None ∨ ∃ pc, closer s = Some (false, pc) ∧ phase pc s)
  | Returned (Some _) => closer s = None ∧ (closed s = true ∨ (∀ w, gor s w = NotStarted) ∧ ownsClient s = false)
  end.

Lemma starts_NoDup_next done w todo : prog = done ++ Start w :: todo → Start w ∉ done.
Proof.
  intros Hp Hin. destruct Hprog as [Hnd _]. rewrite Hp in Hnd. unfold starts in Hnd. rewrite omap_app in Hnd.
  apply NoDup_app in Hnd as (_ & Hd & _). apply (Hd w).
  - apply list_elem_of_omap. by exists (Start w).
  - cbn. by left.
Qed.

Lemma phase_mono pc s s' : closed s' = closed s → wg s' ≤ wg s → phase pc s → phase pc s'.
Proof. intros Hc Hw. unfold phase. rewrite Hc. destruct pc; intuition lia. Qed.

Lemma control_goroutine s s' c w :
  control s → do fn c s = Some s' → by_goroutine c = Some w → control s'.
Proof.
  intros (Hw & Hd & Hm') Hdo Hc.
  destruct (goroutine_step _ _ _ _ Hdo Hc) as ((Hm & Hcl & Hcd & _ & _ & _ & Hown) & Hch & Hal & g & Hg & Hgor & Hwg).
  assert (wg s' ≤ wg s) as Hle by lia. unfold control. rewrite Hm, Hcl, Hcd, Hown. split_and!.
  - rewrite Hwg, Hw, Hgor, !upd_lookup.
    destruct w; repeat case_decide; try done; rewrite Hal in *; destruct (alive g); simpl; lia.
  - intros Ht. specialize (Hd Ht). lia.
  - destruct (main s) as [todo| | |[e|]].
    + destruct Hm' as (? & ? & done & -> & Hs & Hwt & Hon). split_and!; [done..|]. exists done. split_and!; [done| |auto|done].
      intros w'. rewrite Hgor, upd_lookup. case_decide as Hww; [|apply Hs]. subst w'. intros _.
      apply Hs. by intros Hn; rewrite Hn in Hal.
    + done.
    + destruct Hm' as (pc & ? & ?). exists pc. split; [done|]. by eapply phase_mono.
    + destruct Hm' as [? [Hp|[Hp _]]]; [by split; [|left]|]. by rewrite Hp in Hal.
    + destruct Hm' as [? [?|(pc & ? & ?)]]; (split; [auto|]); [by left|].
      right. exists pc. split; [done|]. by eapply phase_mono.
Qed.

(** A statement other than Start is done. *)
Lemma control_next s s' i todo :
  control s → main s = Constructing (i :: todo) → (∀ w, i ≠ Start w) → (∀ w, i = WaitFor w → chan_closed s w = true) →
  main s' = Constructing todo → gor s' = gor s → wg s' = wg s → chan_closed s' = chan_closed s →
  closer s' = closer s → closed s' = closed s → control s'.
Proof.
  unfold control. intros (Hw & Hd & Hm') Hm Hst Hwi Hm2 -> -> -> -> ->. rewrite Hm in Hm'. rewrite Hm2.
  destruct Hm' as (Hcl & Hcd & done & Hp & Hs & Hwt & Hon). split_and!; [done..|].
  exists (done ++ [i]). split_and!; [by rewrite <- app_assoc| | |by destruct done].
  - intros w Hn. apply elem_of_app. left. auto.
  - intros w [Hin|Hin%list_elem_of_singleton]%elem_of_app; auto.
Qed.

Lemma control_not_started s w todo : control s → main s = Constructing (Start w :: todo) → gor s w = NotStarted.
Proof.
  unfold control. intros (_ & _ & Hm') Hm. rewrite Hm in Hm'. destruct Hm' as (_ & _ & done & Hp & Hs & _ & _).
  destruct (gor s w) eqn:E; [done| | |]; exfalso; apply (starts_NoDup_next _ _ _ Hp), Hs; by rewrite E.
Qed.

Lemma control_start s w todo :
  control s → main s = Constructing (Start w :: todo) →
  control (set_main (Constructing todo) (set_gor1 w (Watching []) (set_wg (1 + wg s) s))).
Proof.
  intros Hc Hm. pose proof (control_not_started _ _ _ Hc Hm) as Hns. revert Hc.
  unfold control. intros (Hw & Hd & Hm'). rewrite Hm in Hm'. simpl.
  destruct Hm' as (Hcl & Hcd & done & Hp & Hs & Hwt & Hon).
  split_and!; [|congruence|done|done|].
  - rewrite Hw, !upd_lookup. destruct w; repeat case_decide; try done; rewrite Hns; simpl; lia.
  - exists (done ++ [Start w]). split_and!; [by rewrite <- app_assoc| | |by destruct done].
    + intros w'. rewrite upd_lookup. case_decide; subst; rewrite elem_of_app, list_elem_of_singleton; auto.
    + intros w' [Hin|Hin%list_elem_of_singleton]%elem_of_app; [auto|done].
Qed.

Lemma control_constructing s s' c i todo :
  control s → main s = Constructing (i :: todo) → do fn c s = Some s' → by_goroutine c = None → control s'.
Proof.
  intros Hcontrol Hm Hdo Hc. pose proof Hcontrol as (Hw & Hd & Hm'). rewrite Hm in Hm'.
  destruct Hm' as (Hcl & Hcd & done & Hp & Hs & Hwt & Hon).
  destruct c as [r| | |e|r| | |? ?|?|? ?|?]; try done; simpl in Hdo; unfold main_step in Hdo;
    rewrite ?Hm, ?Hcl in Hdo; try done.
  - destruct i as [d| | | |]; try done. destruct r as [e|]; simplify_eq.
    + destruct d; (split; [done|]); (split; [done|]); simpl; [done|]. split; [done|]. right.
      destruct Hprog as [_ Hnc]. specialize (Hnc (length done) false).
      rewrite Hp, lookup_app_r, Nat.sub_diag in Hnc by lia. destruct done; [|by specialize (Hnc eq_refl)].
      split; [|by apply Hon]. intros w. destruct (gor s w) eqn:E; [done| | |]; exfalso;
        specialize (Hs w); rewrite E in Hs; set_solver.
    + by eapply control_next.
  - destruct i as [d| |w|w|]; simplify_eq; try by eapply control_next.
    + by apply control_start.
    + destruct (chan_closed s w) eqn:Hch; simplify_eq. eapply control_next; try done. congruence.
  - destruct i; try done. destruct (errCh s); simplify_eq. by split_and!.
  - destruct i; simplify_eq. by split_and!.
Qed.

(** A phase of closeBase. *)
Lemma control_closer s s' m pc r :
  control s → closer s = Some (m, pc) → closeBase_step m pc r s = Some s' → control s'.
Proof.
  unfold control. intros (Hw & Hd & Hm') Hcl Hdo. rewrite Hcl in Hm'.
  destruct (main s) as [?| |e|[e|]] eqn:Hm; try (by destruct Hm').
  - destruct Hm' as (pc' & [= -> <-] & Hph). destruct pc; simpl in Hdo, Hph.
    + destruct (closed s) eqn:Hcd; simplify_eq; simpl; rewrite ?Hm; (split_and!; [done|by (intros; first [congruence|auto])|]); eexists; by split.
    + destruct (Nat.eqb_spec (wg s) 0); simplify_eq; simpl; rewrite Hm. split_and!; [done..|]. eexists; by split.
    + destruct Hph as [Hcd Hwg]. destruct (hasClient s && ownsClient s); simplify_eq; simpl; rewrite Hm;
        (split_and!; [done..|]); eexists; by split.
    + rewrite Hm in Hdo. simplify_eq; simpl. split_and!; [done..|]. by left.
  - destruct Hm' as [Hwt [?|(pc' & [= -> <-] & Hph)]]; [done|]. destruct pc; simpl in Hdo, Hph.
    + destruct (closed s) eqn:Hcd; simplify_eq; simpl; rewrite ?Hm; (split_and!; [done|by (intros; first [congruence|auto])|done|]); right; eexists; by split.
    + destruct (Nat.eqb_spec (wg s) 0); simplify_eq; simpl; rewrite Hm. split_and!; [done..|]. right; eexists; by split.
    + destruct Hph as [Hcd Hwg]. destruct (hasClient s && ownsClient s); simplify_eq; simpl; rewrite Hm;
        (split_and!; [done..|]); right; eexists; by split.
    + rewrite Hm in Hdo. simplify_eq; simpl. rewrite Hm. split_and!; [done..|]. by left.
Qed.

Lemma control_other s s' c :
  control s → do fn c s = Some s' → by_goroutine c = None → control s'.
Proof.
  intros Hcontrol Hdo Hc. destruct c as [r| | |e|r| | |? ?|?|? ?|?]; try done.
  5: { simpl in Hdo. destruct (closer s) as [[m pc]|] eqn:Hcl; [|done]. by eapply control_closer. }
  all: destruct (main s) as [[|i todo]| | |[e'|]] eqn:Hm; try (by eapply control_constructing).
  all: simpl in Hdo; unfold main_step in Hdo; rewrite Hm in Hdo; try done.
  all: destruct Hcontrol as (Hw & Hd & Hm'); rewrite Hm in Hm'.
  - simplify_eq. destruct Hm' as (Hcl & Hcd & done & Hp & Hs & Hwt & Hon). rewrite app_nil_r in Hp. subst.
    split_and!; [done..|]. simpl. auto.
  - destruct Hm' as [Hcl Hcd]. rewrite Hcl in Hdo. simplify_eq. split_and!; [done..|]. simpl. by exists CCheck.
  - destruct Hm' as [Hwt Hcl]. destruct (closer s) eqn:E; simplify_eq. split_and!; [done..|]. simpl. rewrite Hm.
    split; [done|]. right. by exists CCheck.
  - destruct Hm' as [Hwt Hcl]. destruct (updatedCh s); simplify_eq. split_and!; [done..|]. simpl. by rewrite Hm.
Qed.

Lemma reachable_control s : reachable s → control s.
Proof.
  revert s; apply reachable_ind.
  - unfold control; simpl. split_and!; [done..|]. exists []. split_and!; [done| | |]; [by intros w Hn; destruct Hn|intros w Hn; inversion Hn|done].
  - intros s s' c _ Hcontrol _ Hdo. destruct (by_goroutine c) eqn:Hc.
    + by eapply control_goroutine.
    + by eapply control_other.
Qed.

(** ** Data: callbacks, channels and the source *)
Definition cb_ok (w : watch) (l : list (cb_instr U)) (tr : list (event U)) : Prop :=
  l = [] ∨ (∃ u, delivers w u ∧ l = callback w u) ∨
  ((l = [TriggerUpdated; CloseOnce w] ∨ l = [CloseOnce w]) ∧ ∃ u, Applied w u ∈ tr).

(** A callback of [w] has updated the source and not yet sent on updatedCh. *)
Definition about_to_trigger w s : Prop := gor s w = Watching [TriggerUpdated; CloseOnce w].

Record data s : Prop := {
  d_once : ∀ w, once s w = chan_closed s w;
  d_gor : ∀ w l, gor s w = Watching l → cb_ok w l (trace s);
  d_applied : ∀ w, chan_closed s w = true → ∃ u, Applied w u ∈ trace s;
  d_delivered : ∀ w u, Applied w u ∈ trace s → delivers w u;
  d_notif : updatedCh s = false → unseen (trace s) = [] ∨ ∃ w, about_to_trigger w s;
  d_replay : replay fn (trace s) src0 = Ok (src s);
}.

(** What the other steps do to the events and to updatedCh. *)
Lemma other_step_trace c s s' :
  do fn c s = Some s' → by_goroutine c = None →
  (trace s' = trace s ∧ updatedCh s' = updatedCh s) ∨
  (trace s' = Consumed :: trace s ∧ updatedCh s' = false) ∨
  ((∃ e, trace s' = CloseReturned e :: trace s) ∧ updatedCh s' = updatedCh s) ∨
  (trace s' = ClientClosed :: trace s ∧ updatedCh s' = updatedCh s).
Proof. intros Hdo Hw. step_cases; simpl; eauto 6. Qed.

Lemma cb_ok_mono w l tr tr' : cb_ok w l tr → (∀ u, Applied w u ∈ tr → Applied w u ∈ tr') → cb_ok w l tr'.
Proof. unfold cb_ok. naive_solver. Qed.

Lemma data_other c s s' : control s → data s → do fn c s = Some s' → by_goroutine c = None → data s'.
Proof.
  intros Hctl [Ho Hg Ha Hd Hn Hr] Hdo Hc.
  destruct (other_step _ _ _ Hdo Hc) as (Hch & Hon & Hsrc & Hgor).
  assert (∀ w u, Applied w u ∈ trace s' ↔ Applied w u ∈ trace s) as Hin.
  { intros w u. destruct (other_step_trace _ _ _ Hdo Hc) as [[-> _]|[[-> _]|[[[e ->] _]|[-> _]]]]; [done|..];
      rewrite elem_of_cons; intuition congruence. }
  assert (∀ w l, gor s' w = Watching l → l = [] ∨ gor s w = Watching l) as Hgw.
  { intros w l. destruct Hgor as [[-> _]|(w' & ? & _ & -> & _)]; [auto|]. rewrite upd_lookup. case_decide; [|auto].
    intros [= <-]. auto. }
  split.
  - intros w. by rewrite Hch, Hon.
  - intros w l [->|Hl]%Hgw; [by left|]. eapply cb_ok_mono; [by apply Hg|]. intros u. by rewrite Hin.
  - intros w. rewrite Hch. intros (u & ?)%Ha. exists u. by rewrite Hin.
  - intros w u. rewrite Hin. apply Hd.
  - assert (∀ w, about_to_trigger w s → about_to_trigger w s') as Hab.
    { intros w. unfold about_to_trigger. destruct Hgor as [[-> _]|(w' & todo & Hm & -> & _)]; [done|].
      rewrite upd_lookup. case_decide; [|done]. subst w'. intros Hw.
      by rewrite (control_not_started _ _ _ Hctl Hm) in Hw. }
    destruct (other_step_trace _ _ _ Hdo Hc) as [[-> ->]|[[-> _]|[[[e ->] ->]|[-> ->]]]]; simpl; [|by left|..].
    all: intros [?|[w ?]]%Hn; [by left|right; eauto].
  - rewrite Hsrc. destruct (other_step_trace _ _ _ Hdo Hc) as [[-> _]|[[-> _]|[[[e ->] _]|[-> _]]]]; done.
Qed.

(** The callback's three steps, and the ends of the watch. *)
Lemma data_call w u s x :
  data s → gor s w = Watching (callback w u) → call fn w u (src s) = Ok x → delivers w u →
  data (set_gor1 w (Watching [TriggerUpdated; CloseOnce w]) (emit (Applied w u) (set_src x s))).
Proof.
  intros [Ho Hg Ha Hd Hn Hr] Hgw Hx Hu. split; simpl.
  - done.
  - intros w' l. rewrite upd_lookup. case_decide as Hw.
    + subst w'. intros [= <-]. right; right. split; [by left|]. exists u. by left.
    + intros Hl. eapply cb_ok_mono; [by apply Hg|]. intros u'. by right.
  - intros w' (u' & ?)%Ha. exists u'. by right.
  - intros w' u' [Heq|Hin]%elem_of_cons; [|by apply Hd]. by simplify_eq.
  - intros _. right. exists w. unfold about_to_trigger; simpl. rewrite upd_lookup. by case_decide.
  - by rewrite Hr; cbn [mbind res_bind].
Qed.

Lemma data_trigger w s :
  data s → gor s w = Watching [TriggerUpdated; CloseOnce w] →
  data (set_gor1 w (Watching [CloseOnce w]) (triggerUpdated s)).
Proof.
  intros [Ho Hg Ha Hd Hn Hr] Hgw. split; simpl; try done.
  intros w' l. rewrite upd_lookup. case_decide as Hw; [|apply Hg]. subst w'. intros [= <-].
  destruct (Hg _ _ Hgw) as [?|[(? & _ & ?)|[_ ?]]]; [done|done|]. right; right. auto.
Qed.

Lemma data_close_once w s s' :
  data s → gor s w = Watching [CloseOnce w] → close_once w s = Ok s' → data (set_gor1 w (Watching []) s').
Proof.
  intros [Ho Hg Ha Hd Hn Hr] Hgw Hc.
  assert (∃ u, Applied w u ∈ trace s) as Hap by (destruct (Hg _ _ Hgw) as [?|[(? & _ & ?)|[_ ?]]]; done).
  assert (∀ w' l, upd w (Watching []) (gor s) w' = Watching l → cb_ok w' l (trace s)) as Hg'.
  { intros w' l. rewrite upd_lookup. case_decide; [|apply Hg]. intros [= <-]. by left. }
  assert (∀ w', about_to_trigger w' s → upd w (Watching []) (gor s) w' = Watching [TriggerUpdated; CloseOnce w']) as Hab.
  { intros w'. unfold about_to_trigger. rewrite upd_lookup. case_decide; [|done]. subst. by rewrite Hgw. }
  unfold close_once in Hc. rewrite Ho in Hc. destruct (chan_closed s w) eqn:Hch; simplify_eq; split; simpl; try done.
  - intros [?|[w' ?]]%Hn; [by left|]. right. exists w'. by apply Hab.
  - intros w'. rewrite !upd_lookup. by case_decide.
  - intros w'. rewrite upd_lookup. case_decide; [by subst|apply Ha].
  - intros [?|[w' ?]]%Hn; [by left|]. right. exists w'. by apply Hab.
Qed.

Lemma data_idle w g s errs n :
  data s → (∀ l, gor s w = Watching l → l = []) → (∀ l, g = Watching l → cb_ok w l (trace s)) →
  data (set_gor1 w g (set_errCh errs (set_wg n s))).
Proof.
  intros [Ho Hg Ha Hd Hn Hr] Hidle Hnew. split; simpl; try done.
  - intros w' l. rewrite upd_lookup. case_decide; [subst; auto|apply Hg].
  - intros [?|[w' Hw']]%Hn; [by left|]. right. exists w'. unfold about_to_trigger in *; simpl.
    rewrite upd_lookup. case_decide; [|done]. subst. by apply Hidle in Hw'.
Qed.

Lemma data_goroutine c w s s' :
  data s → allowed delivers c → do fn c s = Some s' → by_goroutine c = Some w → data s'.
Proof.
  intros Hdata Hal Hdo Hc. destruct c; cbn [by_goroutine] in Hc; simplify_eq; cbn [do] in Hdo; destruct (gor s w) as [|[|i l]| |] eqn:Hgw; try done.
  - simplify_eq. apply (data_idle w _ s (errCh s) (wg s)); [done|by intros l; rewrite Hgw; intros [= <-]|]. intros l [= <-]. right; left. eauto.
  - destruct (d_gor _ Hdata _ _ Hgw) as [?|[(u & Hu & [= -> ->])|[[[= -> ->]|[= -> ->]] _]]]; [done| | |];
      cbn [exec] in Hdo.
    + destruct (call fn w u (src s)) as [x| |] eqn:Hx; cbn [mbind res_bind] in Hdo; simplify_eq.
      by apply data_call.
    + simplify_eq. by apply data_trigger.
    + destruct (close_once w s) eqn:Hco; simplify_eq. by apply (data_close_once w s).
  - case_match; simplify_eq. apply (data_idle w _ s _ (wg s)); [done|by intros l; rewrite Hgw; intros [= <-]|done].
  - simplify_eq. apply (data_idle w _ s (errCh s)); [done|by intros l; rewrite Hgw; intros [= <-]|done].
Qed.

Lemma reachable_data s : reachable s → data s.
Proof.
  revert s; apply reachable_ind.
  - split; simpl; try done; [by intros w u Hin; inversion Hin|by left].
  - intros s s' c Hr Hdata Hal Hdo. destruct (by_goroutine c) eqn:Hc.
    + by eapply data_goroutine.
    + eapply data_other; eauto using reachable_control.
Qed.

(** ** The error channel, the client's Close and the results of Close *)
Definition returned (g : goroutine U) : bool := match g with Sent | Finished => true | _ => false end.

Definition is_client_closed (e : event U) : bool := match e with ClientClosed => true | _ => false end.
Definition client_closes s : nat := length (filter (λ e, is_client_closed e = true) (trace s)).

(** errCh has room for every watch, so that the send never blocks. *)
Definition err_ok s : Prop :=
  length (errCh s) ≤ Nat.b2n (returned (gor s W1)) + Nat.b2n (returned (gor s W2)).

Record results s : Prop := {
  r_closes : client_closes s = Nat.b2n (closed s && hasClient s && ownsClient s);
  r_close : ∀ e, CloseReturned e ∈ trace s → closed s = true ∧ closeErr s = e;
}.

Lemma err_ok_step c s s' : control s → err_ok s → do fn c s = Some s' → err_ok s'.
Proof.
  unfold err_ok. intros Hctl He Hdo. destruct (by_goroutine c) as [w|] eqn:Hc.
  - destruct c; cbn [by_goroutine] in Hc; simplify_eq; cbn [do] in Hdo; destruct (gor s w) as [|[|i l]| |] eqn:Hgw; try done.
    + simplify_eq; simpl. rewrite !upd_lookup. destruct w; repeat case_decide; try done; rewrite Hgw in He; simpl in *; lia.
    + destruct (exec fn i s) as [s1| |] eqn:Hx; simplify_eq. apply exec_frame in Hx as (Hg & _ & Herr & _).
      simpl. rewrite Hg, Herr, !upd_lookup. destruct w; repeat case_decide; try done; rewrite Hgw in He; simpl in *; lia.
    + destruct (Nat.ltb_spec (length (errCh s)) 2); simplify_eq; simpl. rewrite length_app, !upd_lookup; simpl.
      destruct w; repeat case_decide; try done; rewrite Hgw in He; simpl in *; lia.
    + simplify_eq; simpl. rewrite !upd_lookup. destruct w; repeat case_decide; try done; rewrite Hgw in He; simpl in *; lia.
  - assert (length (errCh s') ≤ length (errCh s)) as Hle by (step_cases; simpl in *; lia).
    destruct (other_step _ _ _ Hdo Hc) as (_ & _ & _ & [[-> _]|(w & todo & Hm & -> & _)]); [lia|].
    pose proof (control_not_started _ _ _ Hctl Hm) as Hns. rewrite !upd_lookup.
    destruct w; repeat case_decide; try done; rewrite Hns in He; simpl in *; lia.
Qed.

Lemma results_goroutine c w s s' : results s → do fn c s = Some s' → by_goroutine c = Some w → results s'.
Proof.
  intros [Hn Hc'] Hdo Hc. destruct (goroutine_step _ _ _ _ Hdo Hc) as ((_ & _ & Hcd & Hce & _ & Hh & Ho) & _).
  assert (trace s' = trace s ∨ ∃ w u, trace s' = Applied w u :: trace s) as Htr.
  { destruct c; try done; cbn [do] in Hdo; repeat (case_match; simplify_eq); try (by left).
    match goal with H : exec _ _ _ = Ok _ |- _ => by apply exec_frame in H as (_ & _ & _ & _ & _ & _ & _ & _ & _ & _ & ?) end. }
  split.
  - unfold client_closes. rewrite Hcd, Hh, Ho, <- Hn. by destruct Htr as [->|(w' & u & ->)].
  - intros e. rewrite Hcd, Hce. destruct Htr as [->|(w' & u & ->)]; [apply Hc'|].
    intros [?|?]%elem_of_cons; [done|by apply Hc'].
Qed.

Lemma results_other c s s' : control s → results s → do fn c s = Some s' → by_goroutine c = None → results s'.
Proof.
  intros (_ & _ & Hm') [Hn Hc'] Hdo Hc. destruct c as [r| | |e|r| | |? ?|?|? ?|?]; try done.
  5: { simpl in Hdo. destruct (closer s) as [[m pc]|] eqn:Hcl; [|done].
    assert (phase pc s) as Hph by (destruct (main s) as [?| |e|[e|]]; naive_solver).
    destruct pc; simpl in Hdo, Hph.
    - destruct (closed s) eqn:Hcd; simplify_eq; split; simpl; rewrite ?Hcd; done.
    - case_match; simplify_eq. by split.
    - destruct Hph as [Hcd _]. unfold client_closes in Hn. rewrite Hcd in Hn; simpl in Hn.
      destruct (hasClient s) eqn:Hh, (ownsClient s) eqn:Ho; simpl in Hdo; simplify_eq; split; simpl;
        rewrite ?Hh, ?Ho; unfold client_closes; simpl; try lia.
      all: intros e; rewrite ?elem_of_cons; intros Hin; destruct (Hc' e); [naive_solver|congruence].
    - destruct (main s); simplify_eq; split; try done; simpl;
        intros e'; rewrite elem_of_cons; (intros [[= ->]|?]; [done|by apply Hc']). }
  all: simpl in Hdo; unfold main_step in Hdo; repeat (case_match; simplify_eq); simplify_eq; try (by split).
  all: try (split; [done|intros e'; simpl; rewrite elem_of_cons; intros [?|?]; [done|by apply Hc']]).
  destruct Hm' as (_ & Hcd & _). split; simpl; [|done]. unfold client_closes in *; simpl. by rewrite Hn, Hcd.
Qed.

Lemma reachable_err_ok s : reachable s → err_ok s.
Proof.
  revert s; apply reachable_ind; [unfold err_ok; simpl; lia|].
  intros s s' c Hr He _ Hdo. eapply err_ok_step; eauto using reachable_control.
Qed.

Lemma reachable_results s : reachable s → results s.
Proof.
  revert s; apply reachable_ind; [by split; simpl; [|intros e Hin; inversion Hin]|].
  intros s s' c Hr He _ Hdo. destruct (by_goroutine c) eqn:Hc.
  - by eapply results_goroutine.
  - eapply results_other; eauto using reachable_control.
Qed.

(** ** Progress: no step of a callback is stuck, and a Close that began can end *)
Hypothesis calls_ok : ∀ w u x, delivers w u → ∃ x', call fn w u x = Ok x'.

Lemma exec_ok s w i l : reachable s → gor s w = Watching (i :: l) → ∃ s', exec fn i s = Ok s'.
Proof.
  intros Hr Hg. pose proof (reachable_data _ Hr) as Hd.
  destruct (d_gor _ Hd _ _ Hg) as [?|[(u & Hu & [= -> ->])|[[[= -> ->]|[= -> ->]] _]]]; [done| | |]; cbn [exec].
  - destruct (calls_ok w u (src s) Hu) as [x ->]. cbn. eauto.
  - eauto.
  - unfold close_once. rewrite (d_once _ Hd). destruct (chan_closed s w); eauto.
Qed.

Lemma reachable_trans s s' : reachable s → rtc (step fn delivers) s s' → reachable s'.
Proof. intros ? ?. unfold reachable in *. by etrans. Qed.

(** What finishing one goroutine leaves alone. *)
Definition finishes w s s' : Prop :=
  same_control s s' ∧ ∀ w', w' ≠ w → gor s' w' = gor s w'.

#[local] Instance finishes_preorder w : PreOrder (finishes w).
Proof.
  split.
  - by intros s.
  - intros s1 s2 s3 [(? & ? & ? & ? & ? & ? & ?) Hg1] [(? & ? & ? & ? & ? & ? & ?) Hg2].
    split; [repeat split; congruence|]. intros w' Hw. by rewrite Hg2, Hg1.
Qed.

Lemma goroutine_finishes c w s s' : do fn c s = Some s' → by_goroutine c = Some w → finishes w s s'.
Proof.
  intros Hdo Hc. destruct (goroutine_step _ _ _ _ Hdo Hc) as (? & _ & _ & g & _ & Hg & _).
  split; [done|]. intros w' Hw. rewrite Hg, upd_lookup. by case_decide.
Qed.

Lemma callback_runs w l s :
  reachable s → gor s w = Watching l →
  ∃ s', rtc (step fn delivers) s s' ∧ finishes w s s' ∧ gor s' w = Watching [].
Proof.
  revert s; induction l as [|i l IH]; intros s Hr Hg; [by exists s|].
  destruct (exec_ok _ _ _ _ Hr Hg) as [s1 Hx].
  assert (do fn (Ch_callback w) s = Some (set_gor1 w (Watching l) s1)) as Hdo by (cbn [do]; by rewrite Hg, Hx).
  assert (step fn delivers s (set_gor1 w (Watching l) s1)) as Hst
    by by apply (step_do _ _ (Ch_callback w)).
  destruct (IH (set_gor1 w (Watching l) s1)) as (s2 & Hs2 & Hf & Hg2).
  - eapply reachable_trans; [done|by apply rtc_once].
  - simpl. rewrite upd_lookup. by case_decide.
  - exists s2. split_and!; [by eapply rtc_l| |done]. etrans; [|done]. by eapply goroutine_finishes.
Qed.

Lemma step_finishes c w s s' :
  reachable s → do fn c s = Some s' → by_goroutine c = Some w → allowed delivers c →
  reachable s' ∧ rtc (step fn delivers) s s' ∧ finishes w s s'.
Proof.
  intros Hr Hdo Hc Ha. assert (rtc (step fn delivers) s s') as Hs by (apply rtc_once; by apply (step_do _ _ c)).
  split_and!; [by eapply reachable_trans|done|by eapply goroutine_finishes].
Qed.

Lemma goroutine_ends w s :
  reachable s → ∃ s', rtc (step fn delivers) s s' ∧ finishes w s s' ∧ alive (gor s' w) = false.
Proof.
  intros Hr.
  assert (∀ s, reachable s → gor s w = Sent →
    ∃ s', rtc (step fn delivers) s s' ∧ finishes w s s' ∧ alive (gor s' w) = false) as Hsent.
  { intros s1 Hr1 Hg. destruct (step_finishes (Ch_done w) w s1 (set_gor1 w Finished (set_wg (wg s1 - 1) s1)))
      as (_ & ? & ?); [done|cbn [do]; by rewrite Hg|done|done|].
    eexists; split_and!; [done|done|]. simpl. rewrite upd_lookup. by case_decide. }
  destruct (gor s w) as [|l| |] eqn:Hg; [by exists s; rewrite Hg| | |by exists s; rewrite Hg].
  - destruct (callback_runs w l s Hr Hg) as (s1 & Hs1 & Hf1 & Hg1).
    assert (reachable s1) as Hr1 by by eapply reachable_trans.
    pose proof (reachable_err_ok _ Hr1) as He. unfold err_ok in He.
    assert ((length (errCh s1) <? 2)%nat = true) as Hlt.
    { apply Nat.ltb_lt. destruct w; rewrite Hg1 in He; simpl in He;
        [destruct (returned (gor s1 W2))|destruct (returned (gor s1 W1))]; simpl in He; lia. }
    destruct (step_finishes (Ch_return w (errors_New "canceled")) w s1
      (set_gor1 w Sent (set_errCh (errCh s1 ++ [errors_New "canceled"]) s1))) as (Hr2 & Hs2 & Hf2);
      [done|cbn [do]; by rewrite Hg1, Hlt|done|done|].
    destruct (Hsent _ Hr2) as (s3 & Hs3 & Hf3 & Hal); [simpl; rewrite upd_lookup; by case_decide|].
    exists s3. split_and!; [|by do 2 (etrans; [done|])|done]. by do 2 (etrans; [done|]).
  - by apply Hsent.
Qed.

Lemma goroutines_end s :
  reachable s → ∃ s', rtc (step fn delivers) s s' ∧ same_control s s' ∧ wg s' = 0.
Proof.
  intros Hr. destruct (goroutine_ends W1 s Hr) as (s1 & Hs1 & [Hc1 _] & Ha1).
  assert (reachable s1) as Hr1 by by eapply reachable_trans.
  destruct (goroutine_ends W2 s1 Hr1) as (s2 & Hs2 & Hf2 & Ha2). pose proof Hf2 as [Hc2 Hg2].
  assert (reachable s2) as Hr2 by by eapply reachable_trans.
  exists s2. split_and!; [by etrans| |].
  - destruct Hc1 as (?&?&?&?&?&?&?), Hc2 as (?&?&?&?&?&?&?). repeat split; congruence.
  - destruct (reachable_control _ Hr2) as [-> _]. by rewrite (Hg2 W1), Ha1, Ha2.
Qed.

Lemma close_step s s' m pc r :
  closer s = Some (m, pc) → closeBase_step m pc r s = Some s' → step fn delivers s s'.
Proof. intros Hc Hs. apply (step_do _ _ (Ch_closer r)); [done|]. simpl. by rewrite Hc. Qed.

Lemma close_returns s m :
  closer s = Some (m, CReturn) → closed s = true →
  ∃ s', rtc (step fn delivers) s s' ∧ closer s' = None ∧ closed s' = true.
Proof.
  intros Hc Hcd. destruct (closeBase_step m CReturn None s) as [s'|] eqn:Hs.
  - exists s'. split; [apply rtc_once; by eapply close_step|]. simpl in Hs. destruct (main s); by simplify_eq.
  - simpl in Hs. by destruct (main s).
Qed.

Lemma close_waited s m :
  closer s = Some (m, CWait) → wg s = 0 →
  ∃ s', rtc (step fn delivers) s s' ∧ closer s' = None ∧ closed s' = true.
Proof.
  intros Hc Hw. assert (step fn delivers s (set_closer (Some (m, CClient)) s)) as H1.
  { eapply (close_step _ _ _ _ None); [done|]. simpl. by rewrite Hw. }
  destruct (closeBase_step m CClient None (set_closer (Some (m, CClient)) s)) as [s2|] eqn:H2; [|done].
  destruct (close_returns s2 m) as (s3 & ? & ? & ?).
  - simpl in H2. destruct (hasClient s && ownsClient s); by simplify_eq.
  - simpl in H2. destruct (hasClient s && ownsClient s); by simplify_eq.
  - exists s3. split_and!; [|done..]. eapply rtc_l; [done|]. eapply rtc_l; [by eapply close_step|done].
Qed.

Lemma close_waits s m :
  reachable s → closer s = Some (m, CWait) →
  ∃ s', rtc (step fn delivers) s s' ∧ closer s' = None ∧ closed s' = true.
Proof.
  intros Hr Hc. destruct (goroutines_end s Hr) as (s1 & Hs1 & (_ & Hc1 & _) & Hw).
  destruct (close_waited s1 m) as (s2 & ? & ? & ?); [congruence|done|]. exists s2. split_and!; [by etrans|done..].
Qed.
End invariants.

(** ** The two constructors *)
Section programs.
Context {S : Type} {U : watch → Type}.
Variable fn : ∀ w, option (U w → S → res S).
Variable delivers : ∀ w, U w → Prop.
Implicit Types (s : state S U) (w : watch).

(** The constructors of the code, with or without a client given. *)
Definition code_prog (given : bool) (prog : list instr) : Prop :=
  prog = newWatcher_prog fn given ∨ prog = NewWITSource_prog given.

Lemma code_prog_ok given prog : code_prog given prog → prog_ok prog.
Proof.
  intros [->| ->]; split.
  - unfold newWatcher_prog. destruct given, (fn W1), (fn W2); cbn; repeat constructor; set_solver.
  - unfold newWatcher_prog. intros i d. destruct given, (fn W1), (fn W2); do 8 (destruct i as [|i]; try done).
  - destruct given; cbn; repeat constructor; set_solver.
  - intros i d. destruct given; do 8 (destruct i as [|i]; try done).
Qed.

Lemma code_prog_waits given prog w : code_prog given prog → Start w ∈ prog → WaitFor w ∈ prog.
Proof.
  intros [->| ->]; [unfold newWatcher_prog; destruct given, (fn W1), (fn W2)|destruct given]; set_solver.
Qed.

(** A source owns its client exactly when the constructor made one. *)
Lemma main_step_client s s' :
  main_step s = Some s' → hasClient s' = hasClient s ∧ ownsClient s' = ownsClient s.
Proof. unfold main_step. intros Hm. repeat (case_match; simplify_eq); by simplify_eq/=. Qed.

Definition makes_client (i : instr) : bool := match i with NewClient _ => true | _ => false end.

Lemma given_no_client prog : code_prog true prog → forallb (λ i, negb (makes_client i)) prog = true.
Proof. intros [->| ->]; unfold newWatcher_prog; [by destruct (fn W1), (fn W2)|done]. Qed.

Lemma no_client_step given prog todo done d :
  code_prog given prog → prog = done ++ NewClient d :: todo → given = false.
Proof.
  intros Hp ->. destruct given; [|done]. apply given_no_client in Hp. rewrite forallb_app in Hp.
  by apply andb_prop in Hp as [_ Hp].
Qed.

Lemma closer_client m pc r s s' :
  closeBase_step m pc r s = Some s' → hasClient s' = hasClient s ∧ ownsClient s' = ownsClient s.
Proof. unfold closeBase_step. intros H. repeat (case_match; simplify_eq); by simplify_eq/=. Qed.

(** Only the constructor's New gives a source its own client. *)
Lemma client_step c s s' :
  do fn c s = Some s' →
  (hasClient s' = hasClient s ∧ ownsClient s' = ownsClient s) ∨
  (hasClient s' = true ∧ ownsClient s' = true ∧ ∃ d todo, main s = Constructing (NewClient d :: todo)).
Proof.
  intros Hdo. destruct (by_goroutine c) eqn:Hc.
  { left. destruct (goroutine_step _ _ _ _ _ Hdo Hc) as ((_ & _ & _ & _ & _ & ? & ?) & _). done. }
  destruct c as [r| | |e|r| | |? ?|?|? ?|?]; try done; cbn [do] in Hdo.
  1: { destruct (main s) as [[|[d| | | |] todo]| | |] eqn:Hm; try done.
       destruct r as [e|]; injection Hdo as <-; [by left|right]. split_and!; [done..|]. by exists d, todo. }
  all: left; repeat (case_match; simplify_eq); simplify_eq; try done.
  - by eapply main_step_client.
  - by eapply closer_client.
Qed.

Lemma reachable_owns given prog src0 s :
  code_prog given prog → reachable fn delivers src0 given prog s →
  if given then hasClient s = true ∧ ownsClient s = false else ownsClient s = hasClient s.
Proof.
  intros Hp. revert s. apply reachable_ind; [by destruct given|]. intros s s' c Hr IH _ Hdo.
  destruct (client_step _ _ _ Hdo) as [[-> ->]|(-> & -> & d & todo & Hm)]; [done|].
  pose proof (reachable_control _ _ _ _ _ (code_prog_ok _ _ Hp) _ Hr) as (_ & _ & Hc). rewrite Hm in Hc.
  destruct Hc as (_ & _ & done & E & _). by rewrite (no_client_step _ _ _ _ _ Hp E).
Qed.

Lemma closed_step s s' c given prog src0 :
  code_prog given prog → reachable fn delivers src0 given prog s → closed s = true → do fn c s = Some s' →
  src s' = src s ∧ closed s' = true.
Proof.
  intros Hp Hr Hcd Hdo. pose proof (reachable_control _ _ _ _ _ (code_prog_ok _ _ Hp) _ Hr) as (Hw & H0 & Hm).
  specialize (H0 Hcd). rewrite H0 in Hw.
  destruct (by_goroutine c) as [w|] eqn:Hc.
  - destruct (goroutine_step _ _ _ _ _ Hdo Hc) as (_ & _ & Hal & _).
    exfalso. destruct w; rewrite Hal in Hw; simpl in Hw; lia.
  - destruct (other_step _ _ _ _ Hdo Hc) as (_ & _ & Hs & _). split; [done|].
    clear Hs. step_cases; simpl; done.
Qed.
End programs.

Section watcher_properties.
Context {S : Type} {U : watch → Type} (fn : ∀ w, option (U w → S → res S)) (delivers : ∀ w, U w → Prop).
Context (src0 : S) (given : bool) (prog : list instr) (Hprog : code_prog fn given prog).
Implicit Types (s : state S U).

(** [C13] Life of a source, over every interleaving of its constructor, its two watch
    goroutines and the callers of Close: once closed, no watch goroutine runs and
    nothing changes the source any more; a client the source was given is never its own
    and never closed by it, whereas every client the source has otherwise is one it
    made, closed at most once, and exactly once when closing ends; every Close returns
    the same error; a constructor that returns a source has applied an update of every
    watch it started; one that returns an error has left no goroutine running and no
    client of its own open. *)
Theorem watcher_lifecycle s :
  reachable fn delivers src0 given prog s →
  (closed s = true →
     (∀ w, alive (gor s w) = false) ∧
     client_closes s = (if given then 0 else Nat.b2n (hasClient s)) ∧
     ∀ s', rtc (step fn delivers) s s' → src s' = src s ∧ closed s' = true) ∧
  (closed s = false → client_closes s = 0) ∧
  (if given then hasClient s = true ∧ ownsClient s = false ∧ client_closes s = 0 else ownsClient s = hasClient s) ∧
  (∀ e, CloseReturned e ∈ trace s → closed s = true ∧ closeErr s = e) ∧
  (main s = Returned None → ∀ w, Start w ∈ prog → ∃ u, Applied w u ∈ trace s ∧ delivers w u) ∧
  (∀ e, main s = Returned (Some e) →
     (∀ w, alive (gor s w) = false) ∧
     (given = false → hasClient s = true → closed s = true ∧ client_closes s = 1)).
Proof.
  intros Hr. pose proof (code_prog_ok _ _ _ Hprog) as Hok.
  pose proof (reachable_control _ _ _ _ _ Hok _ Hr) as (Hw & Hwg & Hm).
  pose proof (reachable_results _ _ _ _ _ Hok _ Hr) as [Hn Hc].
  pose proof (reachable_data _ _ _ _ _ Hok _ Hr) as Hd. pose proof (reachable_owns _ _ _ _ _ _ Hprog Hr) as Hown.
  assert (closed s = true → ∀ w, alive (gor s w) = false) as Hdead.
  { intros Hcd w. specialize (Hwg Hcd). destruct w, (alive (gor s W1)), (alive (gor s W2)); simpl in Hw; by try lia. }
  split_and!.
  - intros Hcd. split_and!; [auto| |].
    { rewrite Hn, Hcd. destruct given; [destruct Hown as [-> ->]|rewrite Hown; destruct (hasClient s)]; done. }
    intros s' Hs.
    revert s' Hs. refine (rtc_ind_r (λ s', src s' = src s ∧ closed s' = true) s _ _); [done|].
    intros y z Hy Hyz [IH1 IH2]. destruct Hyz as [c s1 s2 _ Hdo].
    destruct (closed_step _ _ _ _ _ _ _ _ Hprog (reachable_trans _ _ _ _ _ _ _ Hr Hy) IH2 Hdo) as [-> ?]. done.
  - intros Hcd. by rewrite Hn, Hcd.
  - destruct given; [|done]. destruct Hown as [-> Ho]. split_and!; [done..|]. by rewrite Hn, Ho, andb_false_r.
  - done.
  - intros Hmain w Hst. rewrite Hmain in Hm. destruct Hm as [Hwt _].
    destruct (d_applied _ _ _ _ Hd w) as [u Hu]; [by eapply Hwt, code_prog_waits|].
    exists u. split; [done|]. by apply (d_delivered _ _ _ _ Hd).
  - intros e Hmain. rewrite Hmain in Hm. destruct Hm as [_ [Hcd|[Hns Ho]]].
    + split; [auto|]. intros -> Hh. split; [done|]. by rewrite Hn, Hcd, Hown, Hh.
    + split; [intros w; by rewrite Hns|]. intros -> Hh. congruence.
Qed.

(** [C14] No update is lost: when no callback stands between changing the source and
    its signal, an empty Updated channel means that every update was applied before
    the last receive (or before the constructor's drain). The signal never blocks a
    callback: whatever the channel holds and whatever the others do, a callback about to
    signal can step, which leaves the channel full, the source as it was and the callback
    past the signal. The source is at all times the result of the applied updates. *)
Theorem updates_not_lost s :
  reachable fn delivers src0 given prog s →
  replay fn (trace s) src0 = Ok (src s) ∧
  ((∀ w, ¬ about_to_trigger w s) → updatedCh s = false → unseen (trace s) = []) ∧
  (∀ w l, gor s w = Watching (TriggerUpdated :: l) →
     ∃ s', do fn (Ch_callback w) s = Some s' ∧ updatedCh s' = true ∧ src s' = src s ∧ trace s' = trace s ∧
       gor s' w = Watching l).
Proof.
  intros Hr. pose proof (reachable_data _ _ _ _ _ (code_prog_ok _ _ _ Hprog) _ Hr) as Hd. split_and!.
  - apply (d_replay _ _ _ _ Hd).
  - intros Hno Hu. destruct (d_notif _ _ _ _ Hd Hu) as [?|[w ?]]; [done|]. by destruct (Hno w).
  - intros w l Hg. cbn [do]. rewrite Hg. cbn. eexists. split_and!; [done..|]. cbn. rewrite upd_lookup. by case_decide.
Qed.

(** A caller that waits for updates: a nil result is a receive of a constructed source,
    after which it has seen every update applied; the call returns the context's error
    only when the context is done; and it blocks only when there is nothing to see, but
    for a callback about to signal. *)
Lemma waitUntilUpdated_spec s ctx_err r s' :
  reachable fn delivers src0 given prog s → main s = Returned None →
  ((r, s') ∈ waitUntilUpdated ctx_err s →
     (r = Ok () ∧ step fn delivers s s' ∧ unseen (trace s') = []) ∨ (r = Err (default (errors_Joined []) ctx_err) ∧ is_Some ctx_err ∧ s' = s)) ∧
  (waitUntilUpdated ctx_err s = [] → (∀ w, ¬ about_to_trigger w s) → unseen (trace s) = []).
Proof.
  intros Hr Hm. unfold waitUntilUpdated. split.
  - intros [Hin|Hin]%elem_of_app.
    + left. destruct (updatedCh s) eqn:Hu; [|by apply elem_of_nil in Hin]. apply list_elem_of_singleton in Hin as [= -> ->].
      split_and!; [done|by apply (step_do _ _ Ch_recv); [|cbn; rewrite Hm, Hu]|done].
    + right. destruct ctx_err as [e|]; [|by apply elem_of_nil in Hin]. apply list_elem_of_singleton in Hin as [= -> ->]. by split_and!.
  - pose proof (reachable_data _ _ _ _ _ (code_prog_ok _ _ _ Hprog) _ Hr) as Hd. intros Hw Hno.
    destruct (updatedCh s) eqn:Hu; [done|]. destruct (d_notif _ _ _ _ Hd Hu) as [?|[w ?]]; [done|by destruct (Hno w)].
Qed.

(** [C15] Closing does not deadlock: from every reachable state in which a Close has
    begun, it can run to its end, whatever callbacks are in progress; and a step of
    a callback never panics, provided the update functions accept what the watches
    deliver. *)
Theorem close_completes s :
  (∀ w u x, delivers w u → ∃ x', call fn w u x = Ok x') →
  reachable fn delivers src0 given prog s →
  (∀ w i l, gor s w = Watching (i :: l) → no_panic (exec fn i s) = true) ∧
  (∀ m pc, closer s = Some (m, pc) →
     ∃ s', rtc (step fn delivers) s s' ∧ closer s' = None ∧ closed s' = true).
Proof.
  intros Hcalls Hr. pose proof (code_prog_ok _ _ _ Hprog) as Hok. split.
  - intros w i l Hg. by destruct (exec_ok _ _ _ _ _ Hok Hcalls _ _ _ _ Hr Hg) as [s' ->].
  - intros m pc Hcl. pose proof (reachable_control _ _ _ _ _ Hok _ Hr) as (Hw & _ & Hm).
    assert (phase pc s) as Hph by (destruct (main s) as [?| |e|[e|]]; naive_solver).
    destruct pc; simpl in Hph.
    + destruct (closed s) eqn:Hcd.
      * assert (step fn delivers s (set_closer (Some (m, CReturn)) s)) as Hst
          by (apply (close_step _ _ _ _ _ CCheck None Hcl); simpl; by rewrite Hcd).
        destruct (close_returns fn delivers (set_closer (Some (m, CReturn)) s) m) as (s' & ? & ? & ?); [done..|].
        exists s'. split_and!; [by eapply rtc_l|done..].
      * set (s1 := set_closer (Some (m, CWait)) (set_ctx (match ctx s with NoCtx => NoCtx | _ => Cancelled end) s)).
        assert (step fn delivers s s1) as Hst
          by (apply (close_step _ _ _ _ _ CCheck None Hcl); simpl; by rewrite Hcd).
        destruct (close_waits fn delivers src0 given prog Hok Hcalls s1 m) as (s' & ? & ? & ?);
          [by eapply reachable_trans, rtc_once|done|]. exists s'. split_and!; [by eapply rtc_l|done..].
    + eapply close_waits; eauto.
    + destruct Hph as [_ H0]. destruct (closeBase_step m CClient None s) as [s2|] eqn:H2; [|done].
      destruct (close_returns fn delivers s2 m) as (s3 & ? & ? & ?).
      * simpl in H2. destruct (hasClient s && ownsClient s); by simplify_eq.
      * simpl in H2. destruct (hasClient s && ownsClient s); by simplify_eq.
      * exists s3. split_and!; [|done..]. eapply rtc_l; [by eapply close_step|done].
    + by eapply close_returns.
Qed.
End watcher_properties.

(** ** Witnesses: a source of numbers *)
Lemma run_steps {S U} fn (delivers : ∀ w, U w → Prop) cs (s s' : state S U) :
  run fn cs s = Some s' → Forall (allowed delivers) cs → rtc (step fn delivers) s s'.
Proof.
  revert s; induction cs as [|c cs IH]; intros s; cbn [run]; [by intros [= <-]|].
  destruct (do fn c s) as [s1|] eqn:Hdo; [|done]. intros Hr Ha. inversion_clear Ha.
  eapply rtc_l; [by econstructor|by apply IH].
Qed.

Definition sample_fn (w : watch) : option (nat → list (watch * nat) → res (list (watch * nat))) :=
  Some (λ n l, Ok ((w, n) :: l)).
Definition any_update (w : watch) (n : nat) : Prop := True.

Lemma any_allowed cs : Forall (allowed (U := λ _, nat) any_update) cs.
Proof. apply Forall_forall. by intros []. Qed.

Definition ran {A} (o : option A) : bool := match o with Some _ => true | None => false end.

Definition updates_run (w : watch) (n : nat) : list (choice (λ _, nat)) :=
  [Ch_update w n; Ch_callback w; Ch_callback w; Ch_callback w].

(** A source is constructed, updated once more, and its Close begins. *)
Definition sample_constructed : list (choice (λ _, nat)) :=
  [Ch_client None; Ch_main; Ch_main] ++ updates_run W1 1 ++ [Ch_main; Ch_main] ++ updates_run W2 2 ++
  [Ch_main; Ch_main; Ch_main] ++ updates_run W1 3.
Definition sample_closing : list (choice (λ _, nat)) :=
  sample_constructed ++ [Ch_recv; Ch_close; Ch_closer None].
Definition sample_closed : list (choice (λ _, nat)) :=
  sample_closing ++
  [Ch_return W1 (errors_New "canceled"); Ch_done W1; Ch_return W2 (errors_New "canceled"); Ch_done W2;
   Ch_closer None; Ch_closer None; Ch_closer None].

Definition sample_init : state (list (watch * nat)) (λ _, nat) := newWatcher sample_fn [] false.
Definition sample_run (cs : list (choice (λ _, nat))) : state (list (watch * nat)) (λ _, nat) :=
  default sample_init (run sample_fn cs sample_init).

Lemma sample_reachable cs :
  ran (run sample_fn cs sample_init) = true →
  reachable sample_fn any_update [] false (newWatcher_prog sample_fn false) (sample_run cs).
Proof.
  unfold sample_run. destruct (run sample_fn cs sample_init) as [s|] eqn:Hrun; [|done]. intros _.
  apply (run_steps _ _ cs); [done|apply any_allowed].
Qed.

Lemma watcher_lifecycle_witness :
  main (sample_run sample_closed) = Returned None ∧ closed (sample_run sample_closed) = true ∧
  src (sample_run sample_closed) = [(W1, 3); (W2, 2); (W1, 1)] ∧ client_closes (sample_run sample_closed) = 1.
Proof.
  pose proof (sample_reachable sample_closed ltac:(by vm_compute)) as Hr.
  destruct (watcher_lifecycle sample_fn any_update [] false _ (or_introl eq_refl) _ Hr) as (H1 & _).
  destruct (H1 ltac:(by vm_compute)) as (_ & Hn & _). split_and!; [by vm_compute|by vm_compute|by vm_compute|].
  rewrite Hn. by vm_compute.
Defined.

Lemma updates_not_lost_witness :
  unseen (trace (sample_run sample_constructed)) ≠ [] ∧ updatedCh (sample_run sample_constructed) = true ∧
  unseen (trace (sample_run sample_closing)) = [].
Proof.
  split; [by vm_compute|]. split; [by vm_compute|].
  pose proof (sample_reachable sample_closing ltac:(by vm_compute)) as Hr.
  apply (updates_not_lost sample_fn any_update [] false _ (or_introl eq_refl) _ Hr); [|by vm_compute].
  intros []; by vm_compute.
Defined.

Lemma close_completes_witness :
  closer (sample_run sample_closing) = Some (false, CWait) ∧
  ∃ s', rtc (step sample_fn any_update) (sample_run sample_closing) s' ∧ closer s' = None ∧ closed s' = true.
Proof.
  split; [by vm_compute|].
  pose proof (sample_reachable sample_closing ltac:(by vm_compute)) as Hr.
  destruct (close_completes sample_fn any_update [] false _ (or_introl eq_refl) (sample_run sample_closing)) as [_ H].
  - intros w u x _. by eexists.
  - exact Hr.
  - by apply (H false CWait).
Defined.
