(* ===== verification/Sources.v ===== *)
(** * workloadapi: the sources

    Models the sources kept up to date by the watches: X509Source
    (src/workloadapi/x509source.go), JWTSource (jwtsource.go), BundleSource
    (bundlesource.go) and WITSource (witsource.go), with the source options of
    option.go. The data of a source is what its update functions change, under the
    source's mutex; the constructor, the goroutines and Close are the machine of
    Watcher.v, of which the update functions here are the parameters. *)

From S2P Require Import Prelude Path GoUrl ID Crypto X509 X509Sample Pem BundleSet X509Bundle Jose JwtBundle WitBundle SpiffeBundle X509Svid Jwt JwtSvid WitSvid Backoff Addr Client Watcher.

(** ** Options *)

(** An interface value of type sourceClient: nil, or a *Client, itself maybe nil. *)
Definition sourceClient (Client : Type) : Type := option (option Client).

Section options.
Context {Client : Type}.

Record watcherConfig : Type := mkWatcherConfig {
  wc_client : sourceClient Client;
  wc_clientOptions : list ClientOption;
}.
Record x509SourceConfig : Type := mkX509SourceConfig {
  x509_watcher : watcherConfig;
  x509_picker : option (list X509Svid.SVID → option X509Svid.SVID);
}.
Record jwtSourceConfig : Type := mkJwtSourceConfig {
  jwt_watcher : watcherConfig;
  jwt_picker : option (list JwtSvid.SVID → option JwtSvid.SVID);
}.
Record bundleSourceConfig : Type := mkBundleSourceConfig { bundle_watcher : watcherConfig }.
Record witSourceConfig : Type := mkWitSourceConfig {
  wit_client : option Client;
  wit_clientOptions : list ClientOption;
}.

(** The option values of option.go. *)
Inductive SourceOption : Type :=
  | withClient (client : option Client)
  | withClientOptions (options : list ClientOption).
Definition WithClient (client : option Client) : SourceOption := withClient client.
Definition WithClientOptions (options : list ClientOption) : SourceOption := withClientOptions options.

(** An X509SourceOption or a JWTSourceOption: a SourceOption or a picker. *)
Inductive X509SourceOption : Type :=
  | X509_SourceOption (o : SourceOption)
  | withDefaultX509SVIDPicker (picker : option (list X509Svid.SVID → option X509Svid.SVID)).
Inductive JWTSourceOption : Type :=
  | JWT_SourceOption (o : SourceOption)
  | withDefaultJWTSVIDPicker (picker : option (list JwtSvid.SVID → option JwtSvid.SVID)).

Definition WithDefaultX509SVIDPicker picker : X509SourceOption := withDefaultX509SVIDPicker picker.
Definition WithDefaultJWTSVIDPicker picker : JWTSourceOption := withDefaultJWTSVIDPicker picker.

(** Assigning o.client to the interface field makes a non-nil interface. *)
Definition configure_watcher (o : SourceOption) (c : watcherConfig) : watcherConfig :=
  match o with
  | withClient client => mkWatcherConfig (Some client) (wc_clientOptions c)
  | withClientOptions options => mkWatcherConfig (wc_client c) options
  end.

Definition configureX509Source (o : X509SourceOption) (c : x509SourceConfig) : x509SourceConfig :=
  match o with
  | X509_SourceOption o => mkX509SourceConfig (configure_watcher o (x509_watcher c)) (x509_picker c)
  | withDefaultX509SVIDPicker p => mkX509SourceConfig (x509_watcher c) p
  end.
Definition configureJWTSource (o : JWTSourceOption) (c : jwtSourceConfig) : jwtSourceConfig :=
  match o with
  | JWT_SourceOption o => mkJwtSourceConfig (configure_watcher o (jwt_watcher c)) (jwt_picker c)
  | withDefaultJWTSVIDPicker p => mkJwtSourceConfig (jwt_watcher c) p
  end.
Definition configureBundleSource (o : SourceOption) (c : bundleSourceConfig) : bundleSourceConfig :=
  mkBundleSourceConfig (configure_watcher o (bundle_watcher c)).
Definition configureWITSource (o : SourceOption) (c : witSourceConfig) : witSourceConfig :=
  match o with
  | withClient client => mkWitSourceConfig client (wit_clientOptions c)
  | withClientOptions options => mkWitSourceConfig (wit_client c) options
  end.

Definition empty_watcherConfig : watcherConfig := mkWatcherConfig None [].
Definition x509_config (options : list X509SourceOption) : x509SourceConfig :=
  foldl (λ c o, configureX509Source o c) (mkX509SourceConfig empty_watcherConfig None) options.
Definition jwt_config (options : list JWTSourceOption) : jwtSourceConfig :=
  foldl (λ c o, configureJWTSource o c) (mkJwtSourceConfig empty_watcherConfig None) options.
Definition bundle_config (options : list SourceOption) : bundleSourceConfig :=
  foldl (λ c o, configureBundleSource o c) (mkBundleSourceConfig empty_watcherConfig) options.
Definition wit_config (options : list SourceOption) : witSourceConfig :=
  foldl (λ c o, configureWITSource o c) (mkWitSourceConfig None []) options.

(** Whether the constructor takes the client as given: newWatcher compares the
    interface with nil, NewWITSource the pointer. *)
Definition client_given (c : sourceClient Client) : bool := match c with Some _ => true | None => false end.
Definition wit_client_given (c : witSourceConfig) : bool :=
  match wit_client c with Some _ => true | None => false end.
End options.
Arguments watcherConfig Client : clear implicits.
Arguments SourceOption Client : clear implicits.
Arguments X509SourceOption Client : clear implicits.
Arguments JWTSourceOption Client : clear implicits.

(** ** Sources over a watcher: the data and the flag set by Close *)
Record Source (D : Type) : Type := mkSource { data_of : D; src_closed : bool }.
Arguments mkSource {D} data_of src_closed.
Arguments data_of {D} s.
Arguments src_closed {D} s.

(** Close sets the flag, then closes the watcher ([Ch_close] of Watcher.v). *)
Definition Source_Close {D} (s : Source D) : Source D := mkSource (data_of s) true.

Definition checkClosed {D} (wrap : error → error) (s : Source D) : res unit :=
  if src_closed s then Err (wrap (errors_New "source is closed")) else Ok ().

(** *** X509Source *)
Definition wrapX509sourceErr (err : error) : error := fmt_Errorf "x509source: %w" [Arg_w (Some err)].

Record X509Source : Type := mkX509Source {
  xs_svid : option X509Svid.SVID;
  xs_bundles : option X509Bundle.Set_;
}.

Definition setX509Context (picker : option (list X509Svid.SVID → option X509Svid.SVID))
    (x509Context : X509Context) (s : X509Source) : res X509Source :=
  let! svid := match picker with
    | None => let! svid := DefaultSVID x509Context in Ok (Some svid)
    | Some picker => Ok (picker (SVIDs x509Context))
    end in
  Ok (mkX509Source svid (Some (ctx_Bundles x509Context))).

Definition X509Source_GetX509SVID (s : Source X509Source) : res X509Svid.SVID :=
  check! checkClosed wrapX509sourceErr s;
  match xs_svid (data_of s) with
  | None => Err (wrapX509sourceErr (errors_New "missing X509-SVID"))
  | Some svid => Ok svid
  end.

Definition X509Source_GetX509BundleForTrustDomain (s : Source X509Source) (td : TrustDomain) : res X509Bundle.Bundle :=
  check! checkClosed wrapX509sourceErr s;
  match xs_bundles (data_of s) with
  | None => Panic "nil pointer dereference"
  | Some bundles => X509Bundle.Set_GetX509BundleForTrustDomain bundles td
  end.

(** *** JWTSource *)
Definition wrapJwtsourceErr (err : error) : error := fmt_Errorf "jwtsource: %w" [Arg_w (Some err)].

Record JWTSource : Type := mkJWTSource { js_bundles : option JwtBundle.Set_ }.

Definition setJWTBundles (bundles : JwtBundle.Set_) (s : JWTSource) : res JWTSource := Ok (mkJWTSource (Some bundles)).

(** The client's methods are arguments: they are Client.v's FetchJWTSVID(s). *)
Definition JWTSource_FetchJWTSVID (picker : option (list JwtSvid.SVID → option JwtSvid.SVID))
    (fetch : Params → res JwtSvid.SVID) (fetch_all : Params → res (list JwtSvid.SVID))
    (s : Source JWTSource) (params : Params) : res (option JwtSvid.SVID) :=
  check! checkClosed wrapJwtsourceErr s;
  match picker with
  | None => let! svid := fetch params in Ok (Some svid)
  | Some picker => let! svids := fetch_all params in Ok (picker svids)
  end.

Definition JWTSource_FetchJWTSVIDs (fetch_all : Params → res (list JwtSvid.SVID)) (s : Source JWTSource)
    (params : Params) : res (list JwtSvid.SVID) :=
  check! checkClosed wrapJwtsourceErr s;
  fetch_all params.

Definition JWTSource_GetJWTBundleForTrustDomain (s : Source JWTSource) (td : TrustDomain) : res JwtBundle.Bundle :=
  check! checkClosed wrapJwtsourceErr s;
  match js_bundles (data_of s) with
  | None => Panic "nil pointer dereference"
  | Some bundles => JwtBundle.Set_GetJWTBundleForTrustDomain bundles td
  end.

(** *** BundleSource *)
Definition wrapBundlesourceErr (err : error) : error := fmt_Errorf "bundlesource: %w" [Arg_w (Some err)].

Record BundleSource : Type := mkBundleSource {
  bs_x509Authorities : gmap TrustDomain (list Certificate);
  bs_jwtAuthorities : gmap TrustDomain (gmap string PublicKey);
}.

Section authorities.
Context {B A : Type} {HB : HasTrustDomain B}.
Variable authorities_of : B → A.

(** The first loop: add or replace, and collect the trust domains. *)
Definition add_authorities (newBundles : list B) (m : gmap TrustDomain A) : gmap TrustDomain A * gset TrustDomain :=
  foldl (λ acc b, (<[trustDomain_of b := authorities_of b]> acc.1, {[trustDomain_of b]} ∪ acc.2)) (m, ∅) newBundles.

(** The second loop: range over the map ([order]), deleting the others. *)
Definition drop_missing (trustDomains : gset TrustDomain) (order : list TrustDomain) (m : gmap TrustDomain A)
    : gmap TrustDomain A :=
  foldl (λ m td, if bool_decide (td ∈ trustDomains) then m else delete td m) m order.

Definition set_authorities (newBundles : list B) (m : gmap TrustDomain A) : gmap TrustDomain A :=
  let '(m, trustDomains) := add_authorities newBundles m in
  drop_missing trustDomains (map_to_list m).*1 m.
End authorities.

Definition BundleSource_setX509Context (x509Context : X509Context) (s : BundleSource) : res BundleSource :=
  Ok (mkBundleSource
        (set_authorities X509Bundle.X509Authorities (X509Bundle.Bundles (ctx_Bundles x509Context)) (bs_x509Authorities s))
        (bs_jwtAuthorities s)).

Definition BundleSource_setJWTBundles (bundles : JwtBundle.Set_) (s : BundleSource) : res BundleSource :=
  Ok (mkBundleSource (bs_x509Authorities s)
        (set_authorities JwtBundle.JWTAuthorities (JwtBundle.Bundles bundles) (bs_jwtAuthorities s))).

Definition no_bundle {A} (msg : string) (td : TrustDomain) : res A :=
  Err (wrapBundlesourceErr (fmt_Errorf msg [Arg_s (TrustDomain_String td)])).

Definition BundleSource_GetBundleForTrustDomain (s : Source BundleSource) (td : TrustDomain) : res SpiffeBundle.Bundle :=
  check! checkClosed wrapBundlesourceErr s;
  let x509Authorities := bs_x509Authorities (data_of s) !! td in
  let jwtAuthorities := bs_jwtAuthorities (data_of s) !! td in
  match x509Authorities, jwtAuthorities with
  | None, None => no_bundle "no SPIFFE bundle for trust domain %q" td
  | _, _ =>
      let bundle := SpiffeBundle.New td in
      let bundle := match x509Authorities with
                    | Some l => SpiffeBundle.SetX509Authorities bundle l | None => bundle end in
      let bundle := match jwtAuthorities with
                    | Some m => SpiffeBundle.SetJWTAuthorities bundle m | None => bundle end in
      Ok bundle
  end.

Definition BundleSource_GetX509BundleForTrustDomain (s : Source BundleSource) (td : TrustDomain) : res X509Bundle.Bundle :=
  check! checkClosed wrapBundlesourceErr s;
  match bs_x509Authorities (data_of s) !! td with
  | None => no_bundle "no X.509 bundle for trust domain %q" td
  | Some l => Ok (X509Bundle.FromX509Authorities td l)
  end.

Definition BundleSource_GetJWTBundleForTrustDomain (s : Source BundleSource) (td : TrustDomain) : res JwtBundle.Bundle :=
  check! checkClosed wrapBundlesourceErr s;
  match bs_jwtAuthorities (data_of s) !! td with
  | None => no_bundle "no JWT bundle for trust domain %q" td
  | Some m => Ok (JwtBundle.FromJWTAuthorities td m)
  end.

(** *** WITSource: the embedded watcherBase is the machine's state *)
Record WITSource : Type := mkWITSource {
  ws_svids : list WitSvid.SVID;
  ws_bundles : WitBundle.Set_;
}.

Definition initial_WITSource : WITSource := mkWITSource [] (WitBundle.NewSet []).

Definition OnWITSVIDsUpdate (svids : list WitSvid.SVID) (s : WITSource) : res WITSource :=
  Ok (mkWITSource svids (ws_bundles s)).
Definition OnWITBundlesUpdate (bundles : WitBundle.Set_) (s : WITSource) : res WITSource :=
  Ok (mkWITSource (ws_svids s) bundles).

Fixpoint find_svid (svids : list WitSvid.SVID) (id : ID.ID) : option WitSvid.SVID :=
  match svids with
  | [] => None
  | svid :: svids => if bool_decide (WitSvid.svid_ID svid = id) then Some svid else find_svid svids id
  end.

Section wit_getters.
Context {U : watch → Type}.

(** checkClosed locks closeMtx: it blocks (None) while a Close is in progress. *)
Definition WITSource_checkClosed (s : state WITSource U) : option (res unit) :=
  match closer s with
  | Some _ => None
  | None => Some (if closed s then Err (errors_New "witsource: source is closed") else Ok ())
  end.

Definition GetWITSVIDForID (s : state WITSource U) (id : ID.ID) : option (res WitSvid.SVID) :=
  match WITSource_checkClosed s with
  | None => None
  | Some c => Some (
      check! c;
      match find_svid (ws_svids (src s)) id with
      | Some svid => Ok svid
      | None => Err (fmt_Errorf "witsource: no WIT-SVID found for SPIFFE ID %q" [Arg_s (ID_String id)])
      end)
  end.

Definition GetWITBundleForTrustDomain (s : state WITSource U) (td : TrustDomain) : option (res WitBundle.Bundle) :=
  match WITSource_checkClosed s with
  | None => None
  | Some c => Some (check! c; WitBundle.Set_GetWITBundleForTrustDomain (ws_bundles (src s)) td)
  end.
End wit_getters.

(** ** The watchers of the sources *)

(** The updates: X.509 contexts on W1, JWT bundles on W2. *)
Definition source_update (w : watch) : Type := match w with W1 => X509Context | W2 => JwtBundle.Set_ end.
Definition wit_update (w : watch) : Type := match w with W1 => list WitSvid.SVID | W2 => WitBundle.Set_ end.

Definition X509Source_fn picker (w : watch) : option (source_update w → X509Source → res X509Source) :=
  match w with W1 => Some (setX509Context picker) | W2 => None end.
Definition JWTSource_fn (w : watch) : option (source_update w → JWTSource → res JWTSource) :=
  match w with W1 => None | W2 => Some setJWTBundles end.
Definition BundleSource_fn (w : watch) : option (source_update w → BundleSource → res BundleSource) :=
  match w with W1 => Some BundleSource_setX509Context | W2 => Some BundleSource_setJWTBundles end.
Definition WITSource_fn (w : watch) : option (wit_update w → WITSource → res WITSource) :=
  match w with W1 => Some OnWITSVIDsUpdate | W2 => Some OnWITBundlesUpdate end.

(** ** Lemmas: the loops of BundleSource *)
Section authorities_lemmas.
Context {B A : Type} {HB : HasTrustDomain B}.
Variable authorities_of : B → A.

Lemma add_authorities_domains bs (m : gmap TrustDomain A) tds :
  ∀ td, td ∈ (foldl (λ acc b, (<[trustDomain_of b := authorities_of b]> acc.1, {[trustDomain_of b]} ∪ acc.2)) (m, tds) bs).2
    ↔ td ∈ trustDomain_of <$> bs ∨ td ∈ (tds : gset TrustDomain).
Proof.
  revert m tds; induction bs as [|b bs IH]; intros m tds td; cbn [foldl fst snd]; [set_solver|].
  rewrite IH, fmap_cons. set_solver.
Qed.

Lemma add_authorities_lookup bs (m : gmap TrustDomain A) (tds : gset TrustDomain) td :
  NoDup (trustDomain_of <$> bs) →
  (foldl (λ acc b, (<[trustDomain_of b := authorities_of b]> acc.1, {[trustDomain_of b]} ∪ acc.2)) (m, tds) bs).1 !! td =
  match head (filter (λ b, trustDomain_of b = td) bs) with Some b => Some (authorities_of b) | None => m !! td end.
Proof.
  revert m tds; induction bs as [|b bs IH]; intros m tds Hnd; cbn [foldl fst snd]; [done|].
  rewrite fmap_cons, NoDup_cons in Hnd. destruct Hnd as [Hb Hnd]. rewrite IH by done. rewrite filter_cons.
  destruct (decide (trustDomain_of b = td)) as [<-|Hne]; [|by rewrite lookup_insert_ne].
  rewrite lookup_insert_eq. cbn [head]. destruct (filter _ bs) as [|b' l] eqn:E; [done|].
  exfalso. apply Hb, list_elem_of_fmap. exists b'.
  assert (b' ∈ filter (λ b', trustDomain_of b' = trustDomain_of b) bs) as Hin by (rewrite E; by left).
  apply list_elem_of_filter in Hin as [<- ?]. done.
Qed.

Lemma drop_missing_lookup (tds : gset TrustDomain) order (m : gmap TrustDomain A) td :
  drop_missing tds order m !! td = if bool_decide (td ∈ order ∧ td ∉ tds) then None else m !! td.
Proof.
  revert m; induction order as [|td0 order IH]; intros m; cbn [drop_missing foldl].
  - by rewrite bool_decide_false by set_solver.
  - unfold drop_missing in IH. rewrite IH. destruct (decide (td0 = td)) as [->|Hne].
    + repeat case_bool_decide; rewrite ?lookup_delete_eq; try done; exfalso; set_solver.
    + repeat case_bool_decide; rewrite ?lookup_delete_ne by done; try done; exfalso; set_solver.
Qed.

(** Both loops: the map becomes the authorities of the set, whatever it was, and in
    whatever order the bundles of the set come. *)
Lemma set_authorities_any_order (s : BundleSet.Set_ B) bs (m : gmap TrustDomain A) :
  set_wf s → NoDup (trustDomain_of <$> bs) → (∀ b, b ∈ bs ↔ BundleSet.bundles s !! trustDomain_of b = Some b) →
  set_authorities authorities_of bs m = authorities_of <$> BundleSet.bundles s.
Proof.
  intros Hwf Hnd Hin. apply map_eq. intros td. rewrite lookup_fmap. unfold set_authorities.
  pose proof (add_authorities_lookup bs m ∅ td Hnd) as Hl.
  pose proof (add_authorities_domains bs m ∅ td) as Hd. unfold add_authorities.
  destruct (foldl _ (m, ∅) bs) as [m' tds]. cbn [fst snd] in Hl, Hd.
  rewrite drop_missing_lookup, Hl.
  destruct (BundleSet.bundles s !! td) as [b|] eqn:Hb.
  - pose proof (Hwf _ _ Hb) as Htd. simpl in Htd. subst td.
    rewrite bool_decide_false by (intros [_ Hn]; apply Hn, Hd; left; apply list_elem_of_fmap; exists b; by rewrite Hin).
    destruct (filter _ bs) as [|b' l] eqn:E.
    + exfalso. assert (b ∈ filter (λ b', trustDomain_of b' = trustDomain_of b) bs) as Hc
        by (apply list_elem_of_filter; by rewrite Hin). rewrite E in Hc. by apply not_elem_of_nil in Hc.
    + assert (b' ∈ filter (λ b', trustDomain_of b' = trustDomain_of b) bs) as Hc by (rewrite E; by left).
      apply list_elem_of_filter in Hc as [Hbb Hc]. apply Hin in Hc. rewrite Hbb, Hb in Hc. by simplify_eq/=.
  - destruct (filter _ bs) as [|b' l] eqn:E.
    + cbn [head] in *. case_bool_decide as Hc; [done|]. destruct (m !! td) as [x|] eqn:Hx; [|done].
      exfalso. apply Hc. split; [apply list_elem_of_fmap; exists (td, x); split; [done|by apply elem_of_map_to_list]|].
      rewrite Hd. intros [(b & -> & Hbb)%list_elem_of_fmap|?]; [|set_solver]. apply Hin in Hbb. congruence.
    + exfalso. assert (b' ∈ filter (λ b', trustDomain_of b' = td) bs) as Hc by (rewrite E; by left).
      apply list_elem_of_filter in Hc as [<- Hc]. apply Hin in Hc. congruence.
Qed.

Lemma set_authorities_spec (s : BundleSet.Set_ B) (m : gmap TrustDomain A) :
  set_wf s → set_authorities authorities_of (Set_Bundles s) m = authorities_of <$> BundleSet.bundles s.
Proof.
  intros Hwf.
  assert (range_of (BundleSet.bundles s) (map_to_list (BundleSet.bundles s))) as Ho by (unfold range_of; reflexivity).
  apply set_authorities_any_order; [done|exact (Set_Bundles_NoDup s _ Hwf Ho)|].
  intros b. by apply Set_Bundles_in_elem.
Qed.
End authorities_lemmas.

(** The latest update of each watch among some events. *)
Fixpoint latest1 {U} (tr : list (event U)) : option (U W1) :=
  match tr with
  | [] => None
  | Applied w u :: tr =>
      match w as w return U w → option (U W1) with W1 => λ u, Some u | W2 => λ _, latest1 tr end u
  | _ :: tr => latest1 tr
  end.
Fixpoint latest2 {U} (tr : list (event U)) : option (U W2) :=
  match tr with
  | [] => None
  | Applied w u :: tr =>
      match w as w return U w → option (U W2) with W2 => λ u, Some u | W1 => λ _, latest2 tr end u
  | _ :: tr => latest2 tr
  end.

Lemma latest1_applied {U : watch → Type} (tr : list (event U)) u : Applied W1 u ∈ tr → is_Some (latest1 tr).
Proof.
  induction tr as [|e tr IH]; [by intros ?%not_elem_of_nil|].
  intros [<-|Hin]%elem_of_cons; [done|]. destruct e as [[] v| | |]; cbn [latest1]; by eauto.
Qed.
Lemma latest2_applied {U : watch → Type} (tr : list (event U)) u : Applied W2 u ∈ tr → is_Some (latest2 tr).
Proof.
  induction tr as [|e tr IH]; [by intros ?%not_elem_of_nil|].
  intros [<-|Hin]%elem_of_cons; [done|]. destruct e as [[] v| | |]; cbn [latest2]; by eauto.
Qed.
Lemma latest1_in {U : watch → Type} (tr : list (event U)) u : latest1 tr = Some u → Applied W1 u ∈ tr.
Proof.
  induction tr as [|e tr IH]; [done|]. destruct e as [[] v| | |]; cbn [latest1]; [intros [= ->]; by left|..];
    intros ?; right; auto.
Qed.
Lemma latest2_in {U : watch → Type} (tr : list (event U)) u : latest2 tr = Some u → Applied W2 u ∈ tr.
Proof.
  induction tr as [|e tr IH]; [done|]. destruct e as [[] v| | |]; cbn [latest2]; [intros ?; right; auto|intros [= ->]; by left|..];
    intros ?; right; auto.
Qed.

Section source_lemmas.
Context {C : Charset} {L : X509Lib} {J : JoseLib} {T : JwtLib} {K : JwkLib} {KP : JwkPrivateLib}.

(** What the client delivers: the contexts and sets it parses from responses. *)
Definition api_delivers (w : watch) : source_update w → Prop :=
  match w with
  | W1 => λ ctx, ∃ resp, parseX509Context resp = Ok ctx
  | W2 => λ bundles, ∃ m, parseJWTSVIDBundles m = Ok bundles
  end.
Definition wit_delivers (w : watch) : wit_update w → Prop :=
  match w with
  | W1 => λ svids, ∃ now resp, parseWITSVIDs now resp false = Ok svids
  | W2 => λ bundles, ∃ m, parseWITBundles m = Ok bundles
  end.

(** The SVID chosen from a context. *)
Definition pick (picker : option (list X509Svid.SVID → option X509Svid.SVID)) (ctx : X509Context) : option X509Svid.SVID :=
  match picker with None => head (SVIDs ctx) | Some p => p (SVIDs ctx) end.

Lemma setX509Context_Ok picker ctx s :
  SVIDs ctx ≠ [] → setX509Context picker ctx s = Ok (mkX509Source (pick picker ctx) (Some (ctx_Bundles ctx))).
Proof. unfold setX509Context, DefaultSVID, pick. destruct picker; [done|]. by destruct (SVIDs ctx). Qed.

Lemma replay_X509Source picker tr s0 s :
  (∀ u, Applied W1 u ∈ tr → api_delivers W1 u) → replay (X509Source_fn picker) tr s0 = Ok s →
  match latest1 tr with
  | None => s = s0
  | Some ctx => s = mkX509Source (pick picker ctx) (Some (ctx_Bundles ctx))
  end.
Proof.
  revert s; induction tr as [|e tr IH]; intros s Hin; [by intros [= <-]|].
  assert (∀ u, Applied W1 u ∈ tr → api_delivers W1 u) as Hin' by (intros u ?; apply Hin; by right).
  destruct e as [[] u| | |]; cbn [replay latest1]; try by apply IH.
  - intros (s1 & _ & Hs)%bind_Ok_inv. destruct (Hin u) as [resp Hr]; [by left|].
    apply parseX509Context_delivered in Hr as [Hne _]. cbn [call X509Source_fn] in Hs.
    rewrite setX509Context_Ok in Hs by done. congruence.
  - by intros (s1 & _ & Hs)%bind_Ok_inv.
Qed.

Lemma replay_JWTSource tr s0 s :
  replay JWTSource_fn tr s0 = Ok s → match latest2 tr with None => s = s0 | Some b => s = mkJWTSource (Some b) end.
Proof.
  revert s; induction tr as [|e tr IH]; intros s; [by intros [= <-]|].
  destruct e as [[] u| | |]; cbn [replay latest2]; try by apply IH.
  - by intros (s1 & _ & Hs)%bind_Ok_inv.
  - intros (s1 & _ & [= <-])%bind_Ok_inv. done.
Qed.

Lemma replay_BundleSource tr s0 s :
  (∀ w u, Applied w u ∈ tr → api_delivers w u) → replay BundleSource_fn tr s0 = Ok s →
  bs_x509Authorities s =
    match latest1 tr with
    | None => bs_x509Authorities s0
    | Some ctx => X509Bundle.X509Authorities <$> BundleSet.bundles (ctx_Bundles ctx)
    end ∧
  bs_jwtAuthorities s =
    match latest2 tr with
    | None => bs_jwtAuthorities s0
    | Some b => JwtBundle.JWTAuthorities <$> BundleSet.bundles b
    end.
Proof.
  revert s; induction tr as [|e tr IH]; intros s Hin; [by intros [= <-]|].
  assert (∀ w u, Applied w u ∈ tr → api_delivers w u) as Hin' by (intros w u ?; apply Hin; by right).
  destruct e as [[] u| | |]; cbn [replay latest1 latest2]; try by apply IH.
  - intros (s1 & Hs1 & [= <-])%bind_Ok_inv. destruct (IH s1 Hin' Hs1) as [_ Hj]. split; [|done]. cbn [bs_x509Authorities].
    destruct (Hin W1 u) as [resp Hr]; [by left|]. apply set_authorities_spec. by apply parseX509Context_delivered in Hr as [_ ?].
  - intros (s1 & Hs1 & [= <-])%bind_Ok_inv. destruct (IH s1 Hin' Hs1) as [Hx _]. split; [done|]. cbn [bs_jwtAuthorities].
    destruct (Hin W2 u) as [m Hr]; [by left|]. apply set_authorities_spec. by apply parseJWTSVIDBundles_delivered in Hr.
Qed.

Lemma replay_WITSource tr s0 s :
  replay WITSource_fn tr s0 = Ok s →
  ws_svids s = default (ws_svids s0) (latest1 tr) ∧ ws_bundles s = default (ws_bundles s0) (latest2 tr).
Proof.
  revert s; induction tr as [|e tr IH]; intros s; [by intros [= <-]|].
  destruct e as [[] u| | |]; cbn [replay latest1 latest2]; try by apply IH.
  - intros (s1 & Hs1 & [= <-])%bind_Ok_inv. by destruct (IH s1 Hs1).
  - intros (s1 & Hs1 & [= <-])%bind_Ok_inv. by destruct (IH s1 Hs1).
Qed.

Lemma find_svid_first svids id :
  find_svid svids id = head (filter (λ svid, WitSvid.svid_ID svid = id) svids).
Proof.
  induction svids as [|svid svids IH]; [done|]. cbn [find_svid]. rewrite filter_cons.
  case_bool_decide as Hd; [by rewrite decide_True|by rewrite decide_False].
Qed.

Lemma rebuild_x509 b : X509Bundle.FromX509Authorities (X509Bundle.trustDomain b) (X509Bundle.X509Authorities b) = b.
Proof.
  unfold X509Bundle.FromX509Authorities, X509Bundle.X509Authorities. rewrite !CopyX509Authorities_id. by destruct b.
Qed.
Lemma rebuild_jwt b : JwtBundle.FromJWTAuthorities (JwtBundle.trustDomain b) (JwtBundle.JWTAuthorities b) = b.
Proof.
  unfold JwtBundle.FromJWTAuthorities, JwtBundle.JWTAuthorities. rewrite !CopyJWTAuthorities_id. by destruct b.
Qed.

(** A constructed source: the machine's facts about its data. *)
Lemma constructed {S U} (fn : ∀ w : watch, option (U w → S → res S)) delivers src0 given prog s :
  code_prog fn given prog → reachable fn delivers src0 given prog s → main s = Returned None →
  replay fn (trace s) src0 = Ok (src s) ∧ (∀ w u, Applied w u ∈ trace s → delivers w u) ∧
  ∀ w, Start w ∈ prog → ∃ u, Applied w u ∈ trace s.
Proof.
  intros Hp Hr Hm. pose proof (code_prog_ok _ _ _ Hp) as Hok.
  pose proof (reachable_data _ _ _ _ _ Hok _ Hr) as Hd.
  pose proof (reachable_control _ _ _ _ _ Hok _ Hr) as (_ & _ & Hc). rewrite Hm in Hc. destruct Hc as [Hw _].
  split_and!.
  - apply (d_replay _ _ _ _ Hd).
  - apply (d_delivered _ _ _ _ Hd).
  - intros w Hst. apply (d_applied _ _ _ _ Hd). by eapply Hw, code_prog_waits.
Qed.
(** What a constructed X509Source holds. *)
Lemma constructed_X509Source picker given s :
  reachable (X509Source_fn picker) api_delivers (mkX509Source None None) given
    (newWatcher_prog (X509Source_fn picker) given) s →
  main s = Returned None →
  ∃ ctx, latest1 (trace s) = Some ctx ∧ (∃ resp, parseX509Context resp = Ok ctx) ∧ SVIDs ctx ≠ [] ∧
    src s = mkX509Source (pick picker ctx) (Some (ctx_Bundles ctx)).
Proof.
  intros Hr Hm. destruct (constructed _ _ _ _ _ _ (or_introl eq_refl) Hr Hm) as (Hrep & Hdel & Hst).
  destruct (Hst W1) as [u Hu]; [destruct given; cbn; rewrite !elem_of_cons; tauto|].
  destruct (latest1_applied _ _ Hu) as [ctx Hctx]. pose proof (Hdel _ _ (latest1_in _ _ Hctx)) as [resp Hresp].
  pose proof (parseX509Context_delivered _ _ Hresp) as [Hne _].
  apply replay_X509Source in Hrep; [|by intros; apply Hdel]. rewrite Hctx in Hrep.
  exists ctx. split_and!; [done|by exists resp|done|done].
Qed.
End source_lemmas.

Section source_properties.
Context {C : Charset} {L : X509Lib} {J : JoseLib} {T : JwtLib} {K : JwkLib} {KP : JwkPrivateLib}.

(** [C17] A constructed X509Source serves the latest X.509 context that its watch
    delivered, whatever the interleaving: GetX509SVID returns the SVID the picker
    chooses from it (the first one by default, which always exists), the bundle
    getter reads its bundles, none of them panics, and after Close both report that
    the source is closed. *)
Theorem x509source_serves_latest picker given s :
  reachable (X509Source_fn picker) api_delivers (mkX509Source None None) given
    (newWatcher_prog (X509Source_fn picker) given) s →
  main s = Returned None →
  ∃ ctx, latest1 (trace s) = Some ctx ∧ (∃ resp, parseX509Context resp = Ok ctx) ∧
    X509Source_GetX509SVID (mkSource (src s) false) =
      match pick picker ctx with
      | Some svid => Ok svid
      | None => Err (wrapX509sourceErr (errors_New "missing X509-SVID"))
      end ∧
    (picker = None → ∃ svid, X509Source_GetX509SVID (mkSource (src s) false) = Ok svid ∧ DefaultSVID ctx = Ok svid) ∧
    ∀ td,
      X509Source_GetX509BundleForTrustDomain (mkSource (src s) false) td =
        X509Bundle.Set_GetX509BundleForTrustDomain (ctx_Bundles ctx) td ∧
      X509Source_GetX509BundleForTrustDomain (Source_Close (mkSource (src s) false)) td =
        Err (wrapX509sourceErr (errors_New "source is closed")) ∧
      X509Source_GetX509SVID (Source_Close (mkSource (src s) false)) =
        Err (wrapX509sourceErr (errors_New "source is closed")).
Proof.
  intros Hr Hm. destruct (constructed_X509Source _ _ _ Hr Hm) as (ctx & Hctx & Hresp & Hne & ->).
  exists ctx. split_and!; [done|done| | |done].
  - cbn. by destruct (pick picker ctx).
  - intros ->. unfold DefaultSVID. cbn. destruct (SVIDs ctx) as [|svid l]; [done|]. by exists svid.
Qed.

(** [C18] A constructed BundleSource holds exactly the trust domains of the latest
    X.509 context and of the latest JWT bundles: entries of earlier updates are gone.
    GetBundleForTrustDomain merges the two, and fails just when neither has the
    trust domain. *)
Theorem bundlesource_serves_latest given s :
  reachable BundleSource_fn api_delivers (mkBundleSource ∅ ∅) given (newWatcher_prog BundleSource_fn given) s →
  main s = Returned None →
  ∃ ctx bundles, latest1 (trace s) = Some ctx ∧ latest2 (trace s) = Some bundles ∧
    ∀ td, let s' := mkSource (src s) false in
      let x := BundleSet.bundles (ctx_Bundles ctx) !! td in let j := BundleSet.bundles bundles !! td in
      (∀ b, x = Some b → BundleSource_GetX509BundleForTrustDomain s' td = Ok b) ∧
      (∀ b, j = Some b → BundleSource_GetJWTBundleForTrustDomain s' td = Ok b) ∧
      (is_Err (BundleSource_GetX509BundleForTrustDomain s' td) = true ↔ x = None) ∧
      (is_Err (BundleSource_GetJWTBundleForTrustDomain s' td) = true ↔ j = None) ∧
      (is_Err (BundleSource_GetBundleForTrustDomain s' td) = true ↔ x = None ∧ j = None) ∧
      (∀ b, BundleSource_GetBundleForTrustDomain s' td = Ok b →
         SpiffeBundle.trustDomain b = td ∧
         SpiffeBundle.x509Authorities b = from_option X509Bundle.x509Authorities [] x ∧
         SpiffeBundle.jwtAuthorities b = from_option JwtBundle.jwtAuthorities ∅ j).
Proof.
  intros Hr Hm. destruct (constructed _ _ _ _ _ _ (or_introl eq_refl) Hr Hm) as (Hrep & Hdel & Hst).
  destruct (Hst W1) as [u Hu]; [destruct given; cbn; rewrite !elem_of_cons; tauto|]. destruct (Hst W2) as [v Hv]; [destruct given; cbn; rewrite !elem_of_cons; tauto|].
  destruct (latest1_applied _ _ Hu) as [ctx Hctx], (latest2_applied _ _ Hv) as [bs Hbs].
  pose proof (Hdel _ _ (latest1_in _ _ Hctx)) as [resp [_ Hwx]%parseX509Context_delivered].
  pose proof (Hdel _ _ (latest2_in _ _ Hbs)) as [m Hwj%parseJWTSVIDBundles_delivered].
  apply replay_BundleSource in Hrep as [Hx Hj]; [|done]. rewrite Hctx in Hx. rewrite Hbs in Hj.
  exists ctx, bs. split_and!; [done|done|]. intros td s' x j.
  unfold BundleSource_GetX509BundleForTrustDomain, BundleSource_GetJWTBundleForTrustDomain,
    BundleSource_GetBundleForTrustDomain. cbn [checkClosed src_closed s' mbind res_bind data_of].
  rewrite Hx, Hj, !lookup_fmap. fold x j.
  assert (∀ b, x = Some b → X509Bundle.trustDomain b = td) as Htx by (intros b Hb; exact (Hwx _ _ Hb)).
  assert (∀ b, j = Some b → JwtBundle.trustDomain b = td) as Htj by (intros b Hb; exact (Hwj _ _ Hb)).
  destruct x as [bx|], j as [bj|]; cbn; split_and!; try done.
  all: try (by intros b [= <-]; rewrite <- (Htx bx eq_refl), rebuild_x509).
  all: try (by intros b [= <-]; rewrite <- (Htj bj eq_refl), rebuild_jwt).
  all: try (by split; [|intros [??]]).
  all: intros b [= <-]; cbn; unfold X509Bundle.X509Authorities, JwtBundle.JWTAuthorities;
    by rewrite ?CopyJWTAuthorities_id, ?CopyX509Authorities_id.
Qed.

(** A constructed JWTSource serves the latest JWT bundles. *)
Lemma jwtsource_serves_latest given s :
  reachable JWTSource_fn api_delivers (mkJWTSource None) given (newWatcher_prog JWTSource_fn given) s →
  main s = Returned None →
  ∃ bundles, latest2 (trace s) = Some bundles ∧ ∀ td,
    JWTSource_GetJWTBundleForTrustDomain (mkSource (src s) false) td = JwtBundle.Set_GetJWTBundleForTrustDomain bundles td ∧
    JWTSource_GetJWTBundleForTrustDomain (Source_Close (mkSource (src s) false)) td =
      Err (wrapJwtsourceErr (errors_New "source is closed")).
Proof.
  intros Hr Hm. destruct (constructed _ _ _ _ _ _ (or_introl eq_refl) Hr Hm) as (Hrep & _ & Hst).
  destruct (Hst W2) as [u Hu]; [destruct given; cbn; rewrite !elem_of_cons; tauto|].
  destruct (latest2_applied _ _ Hu) as [bs Hbs]. apply replay_JWTSource in Hrep. rewrite Hbs in Hrep. rewrite Hrep.
  by exists bs.
Qed.

(** A constructed WITSource serves the latest WIT-SVIDs and bundles: the SVID for
    an ID is the first of that ID in the latest update, or an error. Its getters
    take closeMtx, so that while a Close is in progress they block, and once it is
    over they report that the source is closed. *)
Lemma witsource_serves_latest given s :
  reachable WITSource_fn wit_delivers initial_WITSource given (NewWITSource_prog given) s →
  main s = Returned None →
  ∃ svids bundles, latest1 (trace s) = Some svids ∧ latest2 (trace s) = Some bundles ∧ svids ≠ [] ∧
    (closer s = None → closed s = false →
       (∀ id, GetWITSVIDForID s id = Some
         match head (filter (λ svid, WitSvid.svid_ID svid = id) svids) with
         | Some svid => Ok svid
         | None => Err (fmt_Errorf "witsource: no WIT-SVID found for SPIFFE ID %q" [Arg_s (ID_String id)])
         end) ∧
       ∀ td, GetWITBundleForTrustDomain s td = Some (WitBundle.Set_GetWITBundleForTrustDomain bundles td)) ∧
    (closer s = None → closed s = true →
       (∀ id, GetWITSVIDForID s id = Some (Err (errors_New "witsource: source is closed"))) ∧
       ∀ td, GetWITBundleForTrustDomain s td = Some (Err (errors_New "witsource: source is closed"))) ∧
    (closer s ≠ None → (∀ id, GetWITSVIDForID s id = None) ∧ ∀ td, GetWITBundleForTrustDomain s td = None).
Proof.
  intros Hr Hm. destruct (constructed _ _ _ _ _ _ (or_intror eq_refl) Hr Hm) as (Hrep & Hdel & Hst).
  destruct (Hst W1) as [u Hu]; [destruct given; cbn; rewrite !elem_of_cons; tauto|].
  destruct (Hst W2) as [v Hv]; [destruct given; cbn; rewrite !elem_of_cons; tauto|].
  destruct (latest1_applied _ _ Hu) as [svids Hs], (latest2_applied _ _ Hv) as [bs Hbs].
  pose proof (Hdel _ _ (latest1_in _ _ Hs)) as (now & resp & Hresp).
  apply replay_WITSource in Hrep as [Hx Hj]. rewrite Hs in Hx. rewrite Hbs in Hj. cbn in Hx, Hj.
  exists svids, bs. split_and!; [done|done| | | |].
  - unfold parseWITSVIDs in Hresp. destruct (Nat.eqb_spec (length resp) 0) as [E|E]; [done|].
    apply parse_svids_Ok in Hresp as (? & ? & ? & ? & _ & _ & -> & _); [done|by apply length_nonzero].
  - intros Hcl Hcd. unfold GetWITSVIDForID, GetWITBundleForTrustDomain, WITSource_checkClosed. rewrite Hcl, Hcd, Hx, Hj.
    split; [|done]. intros id. by rewrite find_svid_first.
  - intros Hcl Hcd. unfold GetWITSVIDForID, GetWITBundleForTrustDomain, WITSource_checkClosed. by rewrite Hcl, Hcd.
  - intros Hcl. unfold GetWITSVIDForID, GetWITBundleForTrustDomain, WITSource_checkClosed. by destruct (closer s).
Qed.
End source_properties.

(** The *Client arguments of the WithClient options, and the lists of
    WithClientOptions. *)
Definition clients {Client} (options : list (SourceOption Client)) : list (option Client) :=
  omap (λ o, match o with withClient c => Some c | _ => None end) options.
Definition option_lists {Client} (options : list (SourceOption Client)) : list (list ClientOption) :=
  omap (λ o, match o with withClientOptions l => Some l | _ => None end) options.

(** The last WithClient and the last WithClientOptions win, for every source. A
    nil *Client counts as a client for the sources built on newWatcher (their field
    is an interface, so that it is no longer nil and no client is created) but not
    for NewWITSource. *)
Theorem source_options_spec {Client} (options : list (SourceOption Client)) :
  let w := mkWatcherConfig (last (clients options)) (default [] (last (option_lists options))) in
  x509_watcher (x509_config (X509_SourceOption <$> options)) = w ∧
  jwt_watcher (jwt_config (JWT_SourceOption <$> options)) = w ∧
  bundle_watcher (bundle_config options) = w ∧
  wit_client (wit_config options) = mjoin (last (clients options)) ∧
  wit_clientOptions (wit_config options) = default [] (last (option_lists options)) ∧
  client_given (wc_client (bundle_watcher (bundle_config (options ++ [WithClient None])))) = true ∧
  wit_client_given (wit_config (options ++ [WithClient None])) = false.
Proof.
  assert (∀ l : list (option Client), ∀ c, last (l ++ [c]) = Some c) as Hlast by (intros; by rewrite last_snoc).
  split_and!.
  1-5: induction options as [|o options IH] using rev_ind; [done|];
    unfold x509_config, jwt_config, bundle_config, wit_config, clients, option_lists in *;
    rewrite ?fmap_app, foldl_app, !omap_app; cbn [foldl fmap list_fmap configureX509Source configureJWTSource
      configureBundleSource configureWITSource x509_watcher jwt_watcher bundle_watcher wit_client wit_clientOptions];
    rewrite ?IH; destruct o; cbn -[last app]; rewrite ?app_nil_r, ?last_snoc; try done; by rewrite <- IH.
  - unfold bundle_config. by rewrite foldl_app.
  - unfold wit_config, wit_client_given. by rewrite foldl_app.
Qed.

(** ** Witnesses *)
Definition ok_or {A} (a : A) (r : res A) : A := match r with Ok a => a | _ => a end.

Definition sample_ctx : X509Context :=
  ok_or (mkX509Context [] (X509Bundle.NewSet [])) (parseX509Context (C := charset_deny) sample_response).
Definition sample_jwt_set : JwtBundle.Set_ :=
  ok_or (JwtBundle.NewSet []) (parseJWTSVIDBundles (C := charset_deny) (listed ∅)).
Definition sample_wits : list WitSvid.SVID :=
  ok_or [] (parseWITSVIDs (C := charset_deny) 1000 [mkWITSVID "spiffe://example.org/workload" "W" "key" "h"] false).
Definition sample_wit_set : WitBundle.Set_ :=
  ok_or (WitBundle.NewSet []) (parseWITBundles (C := charset_deny) (listed ∅)).

Lemma ok_or_Ok {A} (a : A) r : is_Ok r = true → r = Ok (ok_or a r).
Proof. by destruct r. Qed.

Lemma sample_ctx_delivered : api_delivers (C := charset_deny) W1 sample_ctx.
Proof. exists sample_response. apply ok_or_Ok. by vm_compute. Qed.
Lemma sample_jwt_delivered : api_delivers (C := charset_deny) W2 sample_jwt_set.
Proof. exists (listed ∅). apply ok_or_Ok. by vm_compute. Qed.
Lemma sample_wits_delivered : wit_delivers (C := charset_deny) W1 sample_wits.
Proof.
  exists 1000%Z, [mkWITSVID "spiffe://example.org/workload" "W" "key" "h"]. apply ok_or_Ok. by vm_compute.
Qed.
Lemma sample_wit_set_delivered : wit_delivers (C := charset_deny) W2 sample_wit_set.
Proof. exists (listed ∅). apply ok_or_Ok. by vm_compute. Qed.

(** A delivered update and its callback. *)
Definition deliver {U : watch → Type} w (u : U w) : list (choice U) :=
  [Ch_update w u; Ch_callback w; Ch_callback w; Ch_callback w].

Definition x509source_run : list (choice source_update) :=
  [Ch_client None; Ch_main; Ch_main] ++ deliver W1 (sample_ctx : source_update W1) ++ [Ch_main; Ch_main; Ch_main].
Definition bundlesource_run : list (choice source_update) :=
  [Ch_client None; Ch_main; Ch_main] ++ deliver W1 (sample_ctx : source_update W1) ++ [Ch_main; Ch_main] ++
  deliver W2 (sample_jwt_set : source_update W2) ++ [Ch_main; Ch_main; Ch_main].
Definition witsource_run : list (choice wit_update) :=
  [Ch_client None; Ch_main; Ch_main; Ch_main] ++ deliver W2 (sample_wit_set : wit_update W2) ++
  deliver W1 (sample_wits : wit_update W1) ++ [Ch_main; Ch_main; Ch_main; Ch_main].

(** The state after a run that is known to go through. *)
Definition after {S U} (fn : ∀ w : watch, option (U w → S → res S)) cs (s : state S U) : state S U := default s (run fn cs s).

Lemma after_reachable {S U} (fn : ∀ w : watch, option (U w → S → res S)) delivers cs src0 given prog :
  ran (run fn cs (init src0 given prog)) = true → Forall (allowed delivers) cs →
  reachable fn delivers src0 given prog (after fn cs (init src0 given prog)).
Proof.
  unfold after, ran. destruct (run fn cs _) as [s|] eqn:Hr; [|done]. intros _ Ha. by apply (run_steps _ _ cs).
Qed.

Lemma source_options_allowed :
  Forall (allowed (api_delivers (C := charset_deny))) x509source_run ∧
  Forall (allowed (api_delivers (C := charset_deny))) bundlesource_run ∧
  Forall (allowed (wit_delivers (C := charset_deny))) witsource_run.
Proof.
  split_and!; repeat (apply Forall_cons; split;
    [first [exact I|exact sample_ctx_delivered|exact sample_jwt_delivered|exact sample_wits_delivered
           |exact sample_wit_set_delivered]|]); by apply Forall_nil.
Qed.

Lemma x509source_serves_latest_witness :
  let s := after (X509Source_fn None) x509source_run
             (init (mkX509Source None None) false (newWatcher_prog (X509Source_fn None) false)) in
  ∃ svid, X509Source_GetX509SVID (mkSource (src s) false) = Ok svid ∧ X509Svid.Hint svid = "internal".
Proof.
  intros s.
  destruct (x509source_serves_latest (C := charset_deny) None false s) as (ctx & _ & _ & _ & Hdef & _).
  - apply after_reachable; [by vm_compute|apply source_options_allowed].
  - by vm_compute.
  - destruct (Hdef eq_refl) as (svid & Hs & _). exists svid. split; [exact Hs|]. vm_compute in Hs. by injection Hs as <-.
Defined.

Lemma bundlesource_serves_latest_witness :
  let s := after BundleSource_fn bundlesource_run
             (init (mkBundleSource ∅ ∅) false (newWatcher_prog BundleSource_fn false)) in
  is_Ok (BundleSource_GetBundleForTrustDomain (mkSource (src s) false) (mkTrustDomain "domain.test")) = true ∧
  is_Err (BundleSource_GetJWTBundleForTrustDomain (mkSource (src s) false) (mkTrustDomain "domain.test")) = true.
Proof.
  intros s. split; [by vm_compute|].
  destruct (bundlesource_serves_latest (C := charset_deny) false s) as (ctx & bs & _ & Hbs & H).
  - apply after_reachable; [by vm_compute|apply source_options_allowed].
  - by vm_compute.
  - destruct (H (mkTrustDomain "domain.test")) as (_ & _ & _ & [_ Hj] & _). apply Hj.
    vm_compute in Hbs. injection Hbs as <-. by vm_compute.
Defined.
