(* ===== verification/FakeApi.v ===== *)
(** * internal/test/fakeworkloadapi: a Workload API

    Models the rest of src/internal/test/fakeworkloadapi/workload_api.go, the server of
    the Workload API that the repository has: what it stores when it is told what to
    serve, what its handlers answer, and what a client of src/workloadapi then fetches.
    The streams and their channels are Fanout.v. gRPC carries the calls: metadata, the
    errors of handlers, and the end of a server whose handler panics are the class
    [Transport]; the order in which the client visits the map of a message it has decoded
    is any, the class [Visits]. Pointers that a test passes are not nil where the code does not test them. *)

From S2P Require Import Prelude Path GoUrl ID Crypto X509 X509Sample Pem BundleSet X509Bundle Jose JwtBundle WitBundle X509Svid Jwt JwtSvid WitSvid Client Watch Fanout.

(** An SVID to serve; its private key may be nil. *)
Record given_SVID : Type := mkGiven {
  g_ID : ID.ID;
  g_Certificates : list Certificate;
  g_PrivateKey : option PrivateKey;
  g_Hint : string;
}.

(** X509SVIDResponse of the package. *)
Record Response : Type := mkResponse {
  r_SVIDs : list given_SVID;
  r_Bundle : option X509Bundle.Bundle;
  r_FederatedBundles : list X509Bundle.Bundle;
}.

(** require.NoError: a failed test does not go on. *)
Definition require_NoError {A} (r : res A) : res A :=
  match r with Err _ => Panic "test failed" | r => r end.

(** assert.NoError: the test goes on with what the call returned, nothing here; the
    result says whether it has failed. *)
Definition assert_NoError (r : res string) : string * bool :=
  match r with Ok s => (s, false) | _ => ("", true) end.

(** The map of a message, as its receiver visits it. *)
Class Visits := {
  visit_order : gmap string string → list (string * string);
  visit_order_range m : range_of m (visit_order m);
}.
Definition visited `{Visits} (m : gmap string string) : go_map string := mkGoMap m (visit_order m) (visit_order_range m).

Section fake.
Context {VO : Visits}.
Context {C : Charset} {L : X509Lib} {J : JoseLib} {T : JwtLib} {K : JwkLib} {KP : JwkPrivateLib}.

(** ** What is served *)
Definition ToProto (r : Response) : res X509SVIDResponse :=
  let bundle := match r_Bundle r with Some b => ConcatRawCertsFromCerts (X509Bundle.X509Authorities b) | None => "" end in
  let! svids := forM (λ svid,
    let! keyDER := match g_PrivateKey svid with
                   | Some k => require_NoError (of_lib (x509_MarshalPKCS8PrivateKey k))
                   | None => Ok ""
                   end in
    Ok (mkX509SVID (ID_String (g_ID svid)) (ConcatRawCertsFromCerts (g_Certificates svid)) keyDER bundle (g_Hint svid)))
    (r_SVIDs r) in
  Ok (mkX509SVIDResponse svids (visited
    (foldl (λ m v, <[IDString (X509Bundle.trustDomain v) := ConcatRawCertsFromCerts (X509Bundle.X509Authorities v)]> m)
       ∅ (r_FederatedBundles r)))).

(** What each call of Set... stores. *)
Definition SetX509SVIDResponse (r : option Response) : res (option X509SVIDResponse) :=
  match r with None => Ok None | Some r => Some <$> ToProto r end.

(** The loops over bundles, with the texts of their documents; a bundle that does not
    marshal fails the test and is served empty. *)
Definition SetJWTBundles (bundles : list JwtBundle.Bundle) : gmap string string * bool :=
  foldl (λ acc bundle,
    let '(bundleBytes, failed) := assert_NoError (JwtBundle.Marshal bundle) in
    (<[TrustDomain_String (JwtBundle.trustDomain bundle) := bundleBytes]> acc.1, acc.2 || failed)) (∅, false) bundles.

Definition SetX509Bundles (bundles : list X509Bundle.Bundle) : gmap string string * bool :=
  foldl (λ acc bundle,
    let '(bundleBytes, failed) := assert_NoError (X509Bundle.Marshal bundle) in
    let '(rawBytes, failed') := assert_NoError (ConcatRawCertsFromCerts <$> ParseCertificates bundleBytes) in
    (<[TrustDomain_String (X509Bundle.trustDomain bundle) := rawBytes]> acc.1, acc.2 || failed || failed')) (∅, false) bundles.

Definition SetWITBundles (bundles : list WitBundle.Bundle) : gmap string string * bool :=
  foldl (λ acc bundle,
    let '(bundleBytes, failed) := assert_NoError (WitBundle.Marshal bundle) in
    (<[TrustDomain_String (WitBundle.trustDomain bundle) := bundleBytes]> acc.1, acc.2 || failed)) (∅, false) bundles.

(** SetJWTSVIDResponse: a nil response is ignored. *)
Definition SetJWTSVIDResponse (r jwtResp : option (list JWTSVID)) : option (list JWTSVID) :=
  match r with None => jwtResp | Some r => Some r end.

(** ** The server: the latest response of each kind, with the streams that wait for the
    next; all are guarded by one mutex. *)
Record WorkloadAPI : Type := mkServer {
  x509 : Fanout.state X509SVIDResponse;
  x509Bundles : Fanout.state (gmap string string);
  jwtResp : option (list JWTSVID);
  jwtBundles : Fanout.state (gmap string string);
  wit : Fanout.state (list WITSVID);
  witBundles : Fanout.state (gmap string string);
}.

Definition new_server : WorkloadAPI := mkServer new_fanout new_fanout None new_fanout new_fanout new_fanout.

(** *** gRPC *)
Class Transport := {
  status_Error : code → string → error;            (* status.Error *)
  error_text : error → string;                     (* err.Error() *)
  incoming : metadata → option metadata;           (* metadata.FromIncomingContext, for outgoing metadata *)
  carried : error → error;                         (* the error of a handler, as the client sees it *)
  server_gone : error;                             (* what the client sees when the server has crashed *)
  json_Marshal_claims : claims_map → string + error;
  protojson_Unmarshal : string → unit + error;     (* into a structpb.Struct, which no client here reads *)
}.

Definition PermissionDenied : code := codes_other 7.

(** md.Get: the values of a key. *)
Definition md_Get (md : metadata) (key : string) : list string :=
  map snd (filter (λ kv, kv.1 = key) md).

(** The metadata that a client sends arrives, next to that of gRPC itself. *)
Class TransportLaws (N : Transport) : Prop := {
  incoming_keeps md : ∃ md', incoming md = Some md' ∧
    md_Get md' "workload.spiffe.io" = md_Get md "workload.spiffe.io";
}.

Context {N : Transport}.

Definition noIdentityError : error := status_Error PermissionDenied "no identity issued".

(** The length tested is that of [value]: without values the index panics. *)
Definition checkMetadata (md : option metadata) (key value : string) : res unit :=
  match md with
  | None => Err (errors_New "request does not contain metadata")
  | Some md =>
      let values := md_Get md key in
      if (String.length value =? 0)%nat then Err (fmt_Errorf "request metadata does not contain %q value" [Arg_s key])
      else
        match values with
        | [] => Panic "index out of range"
        | v :: _ =>
            if negb (bool_decide (v = value))
            then Err (fmt_Errorf "request metadata %q value is %q; expected %q" [Arg_s key; Arg_s v; Arg_s value])
            else Ok ()
        end
  end.

Definition checkHeader (md : option metadata) : res unit := checkMetadata md "workload.spiffe.io" "true".

(** The first message of a stream opened now, or the error that ends it. *)
Definition first_message {R} (s : Fanout.state R) : res R :=
  match serr s, resp s with
  | Some err, _ => Err err
  | None, None => Err noIdentityError
  | None, Some r => Ok r
  end.

Definition fetch_stream {R} (s : Fanout.state R) (md : option metadata) : res R :=
  check! checkHeader md;
  first_message s.

Definition fetchJWTSVID (w : WorkloadAPI) (md : option metadata) (audience : list string) : res (list JWTSVID) :=
  check! checkHeader md;
  if (length audience =? 0)%nat then Err (errors_New "no audience")
  else match jwtResp w with None => Err noIdentityError | Some r => Ok r end.

Definition structFromValues (values : claims_map) : res unit :=
  let! valuesJSON := of_lib (json_Marshal_claims values) in
  of_lib (protojson_Unmarshal valuesJSON).

Definition validateJWTSVID (now : Z) (svid audience : string) : res (string * unit) :=
  if bool_decide (audience = "") then Err (status_Error codes_InvalidArgument "audience must be specified")
  else if bool_decide (svid = "") then Err (status_Error codes_InvalidArgument "svid must be specified")
  else
    let! jwtSvid := wrap_err (λ err, status_Error codes_InvalidArgument (error_text err))
                      (JwtSvid.ParseInsecure now svid [audience]) in
    let! claims := require_NoError (structFromValues (JwtSvid.svid_Claims jwtSvid)) in
    Ok (ID_String (JwtSvid.svid_ID jwtSvid), claims).

(** ** The stub of a client connected to the server, at one moment *)
Definition reply {R} (r : res R) : Call R :=
  match r with
  | Ok r => inl (inl r)
  | Err err => inl (inr (carried err))
  | Panic _ => inl (inr server_gone)
  end.

Definition serve (w : WorkloadAPI) (now : Z) : Client.WorkloadAPI := {|
  wl_FetchX509SVID md := reply (fetch_stream (x509 w) (incoming md));
  wl_FetchX509Bundles md := reply (visited <$> fetch_stream (x509Bundles w) (incoming md));
  wl_FetchJWTSVID md spiffeID audience := reply (fetchJWTSVID w (incoming md) audience);
  wl_FetchJWTBundles md := reply (visited <$> fetch_stream (jwtBundles w) (incoming md));
  wl_ValidateJWTSVID md token audience := reply (let! _ := validateJWTSVID now token audience in Ok ());
  wl_FetchWITSVID md spiffeID := reply (fetch_stream (wit w) (incoming md));
  wl_FetchWITBundles md := reply (visited <$> fetch_stream (witBundles w) (incoming md));
|}.
End fake.

(** ** Lemmas: maps of documents and back *)
Lemma filter_ext_in {A} (P Q : A → Prop) `{∀ x, Decision (P x), ∀ x, Decision (Q x)} (l : list A) :
  (∀ x, x ∈ l → P x ↔ Q x) → filter P l = filter Q l.
Proof.
  induction l as [|a l IH]; intros HPQ; [done|]. rewrite !filter_cons.
  rewrite IH by (intros; apply HPQ; by right). specialize (HPQ a (list_elem_of_here _ _)).
  do 2 case_decide; tauto.
Qed.

Lemma forM_total {A B} (f : A → res B) l : (∀ x, x ∈ l → ∃ y, f x = Ok y) → ∃ ys, forM f l = Ok ys.
Proof.
  induction l as [|x l IH]; intros Hf; [by eexists|]. cbn [forM].
  destruct (Hf x (list_elem_of_here _ _)) as [y ->]. destruct IH as [ys ->]; [intros; apply Hf; by right|]. by eexists.
Qed.

Section served_map.
Context {C : Charset} {B : Type} {HB : HasTrustDomain B}.
Variables (key : TrustDomain → string) (val : B → string) (parse : TrustDomain → string → res B).
Hypothesis parse_td : ∀ td s b, parse td s = Ok b → trustDomain_of b = td.

Definition text_map (bs : list B) : gmap string string := foldl (λ m b, <[key (trustDomain_of b) := val b]> m) ∅ bs.

Lemma text_map_lookup bs k :
  text_map bs !! k = val <$> last (filter (λ b, key (trustDomain_of b) = k) bs).
Proof.
  unfold text_map. enough (∀ m : gmap string string, foldl (λ m b, <[key (trustDomain_of b) := val b]> m) m bs !! k =
    match last (filter (λ b, key (trustDomain_of b) = k) bs) with Some b => Some (val b) | None => m !! k end) as ->.
  { rewrite lookup_empty. by destruct (last _). }
  induction bs as [|b bs IH]; intros m; [done|]. cbn [foldl]. rewrite IH, filter_cons. case_decide as Hb.
  - rewrite last_cons. destruct (last _); [done|]. by rewrite Hb, lookup_insert_eq.
  - destruct (last _); [done|]. by rewrite lookup_insert_ne.
Qed.

(** A document that is read back: its key names the trust domain. *)
Definition read_back (b : B) : Prop :=
  TrustDomainFromString (key (trustDomain_of b)) = Ok (trustDomain_of b) ∧ parse (trustDomain_of b) (val b) = Ok b.

Lemma text_map_entry order bs e :
  range_of (text_map bs) order → Forall read_back bs → e ∈ order →
  ∃ b, b ∈ bs ∧ e.1 = key (trustDomain_of b) ∧ parse_bundle_entry parse e = Ok b.
Proof.
  destruct e as [k v]. intros Ho. rewrite Forall_forall, (range_of_lookup _ _ _ _ Ho), text_map_lookup. intros Hall He.
  destruct (last _) as [b|] eqn:Hl; [|done]. injection He as <-.
  apply last_Some_elem_of, list_elem_of_filter in Hl as [Hk Hb]. destruct (Hall b Hb) as [Ht Hp].
  exists b. split_and!; [done..|]. unfold parse_bundle_entry; cbn. by rewrite <- Hk, Ht.
Qed.

Lemma served_map order bs :
  range_of (text_map bs) order → Forall read_back bs →
  ∃ bs', forM (parse_bundle_entry parse) order = Ok bs' ∧
    (∀ td, BundleSet.bundles (BundleSet.NewSet (Some <$> bs')) !! td = last (filter (λ b, trustDomain_of b = td) bs)).
Proof.
  intros Ho Hall. pose proof (λ e, text_map_entry order bs e Ho) as Hentry.
  destruct (forM_total (parse_bundle_entry parse) order) as [bs' Hbs'].
  { intros e He. destruct (Hentry e Hall He) as (b & _ & _ & ?). by exists b. }
  exists bs'. split; [done|]. apply forM_Ok in Hbs'.
  assert (NoDup (trustDomain_of <$> bs')) as Hnd.
  { eapply parsed_NoDup; [done|by eapply range_of_NoDup_pairs| |exact Hbs'].
    intros [k v] [k' v'] td He He' Ht Ht'.
    destruct (Hentry _ Hall He) as (b & Hb & Hk & Hpe), (Hentry _ Hall He') as (b' & Hb' & Hk' & Hpe'). cbn in *.
    rewrite Forall_forall in Hall. destruct (Hall b Hb) as [Hr _], (Hall b' Hb') as [Hr' _].
    assert (trustDomain_of b = trustDomain_of b') as E by congruence.
    assert (k = k') as -> by congruence. apply (range_of_lookup _ _ _ _ Ho) in He, He'. congruence. }
  intros td. destruct (last (filter _ bs)) as [b|] eqn:Hl.
  - pose proof Hl as [<- Hb]%last_Some_elem_of%list_elem_of_filter. apply NewSet_lookup_NoDup; [done|]. split; [|done].
    assert ((key (trustDomain_of b), val b) ∈ order) as He.
    { apply (range_of_lookup _ _ _ _ Ho). rewrite text_map_lookup.
      rewrite (filter_ext_in _ (λ b', trustDomain_of b' = trustDomain_of b)), Hl; [done|].
      intros b' Hb'. split; [|by intros ->]. rewrite Forall_forall in Hall.
      destruct (Hall b Hb) as [Hr _], (Hall b' Hb') as [Hr' _]. congruence. }
    apply list_elem_of_lookup in He as [i Hi]. destruct (Forall2_lookup_l _ _ _ _ _ Hbs' Hi) as (b' & Hi' & Hp).
    apply list_elem_of_lookup_2 in Hi'. destruct (proj1 (Forall_forall _ _) Hall b Hb) as [Hr Hpb].
    unfold parse_bundle_entry in Hp; cbn in Hp. rewrite Hr in Hp. cbn in Hp. rewrite Hpb in Hp. by injection Hp as ->.
  - destruct (_ !! td) as [b|] eqn:Hb; [|done]. apply NewSet_lookup_NoDup in Hb as [Hb <-]; [|done].
    apply list_elem_of_lookup in Hb as [i Hi]. destruct (Forall2_lookup_r _ _ _ _ _ Hbs' Hi) as (e & He & Hp).
    apply list_elem_of_lookup_2 in He. destruct (Hentry e Hall He) as (b' & Hb' & _ & Hp').
    assert (b' = b) as -> by congruence. apply last_None in Hl.
    assert (b ∈ filter (λ b', trustDomain_of b' = trustDomain_of b) bs) as Hin by by apply list_elem_of_filter.
    rewrite Hl in Hin. by apply elem_of_nil in Hin.
Qed.
End served_map.

(** ** Lemmas: what a client fetches *)
Section fetched.
Context {VO : Visits} {C : Charset} {CL : CharsetLaws C} {L : X509Lib} {LL : X509LibLaws L}.
Context {J : JoseLib} {JL : JoseLaws J} {T : JwtLib} {K : JwkLib} {KP : JwkPrivateLib}.
Context {N : Transport} {NL : TransportLaws N}.

Lemma ID_text_TrustDomain i td path : id_parts i td path → TrustDomainFromString (ID_String i) = Ok td.
Proof.
  intros Hi. pose proof Hi as (Hz & Hwf & Hp & E).
  assert (ID_String i = schemePrefix +:+ (name td +:+ path)) as -> by by rewrite E.
  unfold TrustDomainFromString. rewrite bool_decide_false by done.
  assert (strings_Contains (schemePrefix +:+ (name td +:+ path)) ":/" = true) as ->
    by exact (Contains_app "spiffe" ":/" ("/" +:+ (name td +:+ path))).
  rewrite (FromString_id_of td path) by done. cbn [mbind res_bind]. rewrite <- E. by apply (id_parts_TrustDomain _ _ _ Hi).
Qed.

(** The header of the client passes the check. *)
Lemma header_passes md : checkHeader (incoming (withHeader md)) = Ok ().
Proof.
  destruct (incoming_keeps (withHeader md)) as (md' & -> & Hk). unfold checkHeader, checkMetadata.
  by rewrite Hk.
Qed.

Lemma recv_reply {R} (r : res R) x : recv (reply r) = Ok x ↔ r = Ok x.
Proof. destruct r; cbn; split; congruence. Qed.

Lemma recv_visited (s : Fanout.state (gmap string string)) md m :
  serr s = None → resp s = Some m → recv (reply (visited <$> fetch_stream s (incoming (withHeader md)))) = Ok (visited m).
Proof.
  intros He Hr. apply recv_reply. unfold fetch_stream. rewrite header_passes. cbn. unfold first_message. by rewrite He, Hr.
Qed.

Lemma recv_stream {R} (s : Fanout.state R) md r :
  serr s = None → resp s = Some r → recv (reply (fetch_stream s (incoming (withHeader md)))) = Ok r.
Proof. intros He Hr. apply recv_reply. unfold fetch_stream. rewrite header_passes. cbn. unfold first_message. by rewrite He, Hr. Qed.

(** A stream opened while no call of Set... is under way does what [first_message] says. *)
Lemma first_message_streams {R} (s : Fanout.state R) c :
  is_unlocked s = true → streams s !! c = None →
  match first_message s with
  | Ok r => ∃ s' st, run noIdentityError [Ch_fetch c; Ch_send c None] s = Some s' ∧ streams s' !! c = Some st ∧
      s_pc st = Selecting ∧ s_sent st = [r]
  | Err err => ∃ chs s' st, run noIdentityError (Ch_fetch c :: chs) s = Some s' ∧ streams s' !! c = Some st ∧
      s_pc st = Leaving err ∧ s_sent st = []
  | Panic _ => False
  end.
Proof.
  intros Hu Hc. unfold first_message. cbn [run do]. rewrite Hu, bool_decide_true by done.
  cbn [andb mbind option_bind]. destruct (serr s) as [err|].
  - eexists [], _, _. split; [reflexivity|]. cbn [streams set_stream]. by rewrite lookup_insert_eq.
  - destruct (resp s) as [r|].
    + eexists _, _. cbn [streams set_stream]. rewrite lookup_insert_eq. cbn. split; [reflexivity|].
      cbn [streams set_stream]. by rewrite lookup_insert_eq.
    + eexists [Ch_send c None], _, _. cbn [run do streams set_stream]. rewrite lookup_insert_eq. cbn. split; [reflexivity|].
      cbn [streams set_stream]. by rewrite lookup_insert_eq.
Qed.

(** *** SVIDs *)
Definition given_of (s : X509Svid.SVID) : given_SVID :=
  mkGiven (X509Svid.svid_ID s) (svid_Certificates s) (Some (X509Svid.svid_PrivateKey s)) (X509Svid.Hint s).

(** An SVID as the parsers make them, with a key that can be encoded. *)
Definition servable (s : X509Svid.SVID) : Prop :=
  Forall parsed_cert (svid_Certificates s) ∧
  newSVID (svid_Certificates s) (Some (X509Svid.svid_PrivateKey s)) =
    Ok (X509Svid.mkSVID (X509Svid.svid_ID s) (svid_Certificates s) (X509Svid.svid_PrivateKey s) "") ∧
  ∃ der, x509_MarshalPKCS8PrivateKey (X509Svid.svid_PrivateKey s) = inl der.

Definition svid_td (s : X509Svid.SVID) : TrustDomain :=
  match ID_TrustDomain (X509Svid.svid_ID s) with Ok td => td | _ => zero_TrustDomain end.

Lemma ConcatRaw_parse cs : Forall parsed_cert cs → x509_ParseCertificates (ConcatRawCertsFromCerts cs) = inl cs.
Proof. intros H. rewrite ConcatRawCertsFromCerts_spec. by apply x509_ParseCertificates_concat. Qed.

Lemma servable_parts s : servable s → ∃ path, id_parts (X509Svid.svid_ID s) (svid_td s) path.
Proof.
  intros (_ & (leaf & signing & k & id & _ & _ & Hl & _ & _ & E)%newSVID_Ok & _). injection E as E _.
  destruct Hl as [Hid _]. rewrite <- E in Hid. apply IDFromCert_parts in Hid as (td & path & Hp). exists path.
  unfold svid_td. by rewrite (id_parts_TrustDomain _ _ _ Hp).
Qed.

(** The message of an SVID. *)
Definition carries (bundle : string) (m : X509SVID) (s : X509Svid.SVID) : Prop :=
  parse_X509SVID m = Ok s ∧ x_Hint m = X509Svid.Hint s ∧
  x_SpiffeId m = ID_String (X509Svid.svid_ID s) ∧ x_Bundle m = bundle.

Definition proto_svid (bundle : string) (svid : given_SVID) : res X509SVID :=
  let! keyDER := match g_PrivateKey svid with
                 | Some k => require_NoError (of_lib (x509_MarshalPKCS8PrivateKey k))
                 | None => Ok ""
                 end in
  Ok (mkX509SVID (ID_String (g_ID svid)) (ConcatRawCertsFromCerts (g_Certificates svid)) keyDER bundle (g_Hint svid)).

Lemma proto_svid_carries bundle s : servable s → ∃ m, proto_svid bundle (given_of s) = Ok m ∧ carries bundle m s.
Proof.
  intros (Hp & Hn & der & Hk). eexists. split.
  - unfold proto_svid. cbn [given_of g_PrivateKey]. rewrite Hk. reflexivity.
  - split_and!; [|done..]. unfold parse_X509SVID, ParseRaw. cbn. rewrite ConcatRaw_parse by done.
    rewrite (x509_PKCS8_roundtrip _ _ Hk). cbn. rewrite Hn. by destruct s.
Qed.

Lemma proto_svids_carry bundle svids :
  Forall servable svids →
  ∃ msgs, forM (proto_svid bundle) (map given_of svids) = Ok msgs ∧ Forall2 (carries bundle) msgs svids.
Proof.
  induction 1 as [|s svids Hs Hall IH]; [by exists []|]. cbn [map forM].
  destruct (proto_svid_carries bundle s Hs) as (m & -> & Hm). destruct IH as (msgs & -> & Hmsgs).
  exists (m :: msgs). split; [done|by constructor].
Qed.

Lemma kept_Forall2 {A A'} (P : A → A' → Prop) (h : A → string) (h' : A' → string) hints l l' :
  (∀ a a', P a a' → h a = h' a') → Forall2 P l l' → Forall2 P (kept h hints l) (kept h' hints l').
Proof.
  intros Hh Hall; revert hints; induction Hall as [|a a' l l' Ha Hall IH]; intros hints; cbn [kept]; [constructor|].
  rewrite (Hh _ _ Ha). case_bool_decide; [apply IH|]. constructor; [done|apply IH].
Qed.

Lemma carried_svids bundle msgs feds svids :
  svids ≠ [] → Forall2 (carries bundle) msgs svids →
  parseX509SVIDs (mkX509SVIDResponse msgs feds) false = Ok (kept X509Svid.Hint ∅ svids).
Proof.
  intros Hne Hall. unfold parseX509SVIDs. cbn [x_Svids svids_to_parse].
  destruct (Nat.eqb_spec (length msgs) 0) as [E|_].
  { apply Forall2_length in Hall. destruct svids; [done|]. cbn in Hall. lia. }
  rewrite parse_svids_kept. apply forM_Ok.
  eapply Forall2_impl; [eapply kept_Forall2; [|exact Hall]|]; unfold carries; intros ??; tauto.
Qed.

(** *** Bundles of X.509 contexts *)
Definition parse_own (td : TrustDomain) (s : string) : res X509Bundle.Bundle :=
  let! certs := of_lib (x509_ParseCertificates s) in Ok (X509Bundle.FromX509Authorities td certs).

Lemma carried_bundles authorities msgs svids :
  Forall parsed_cert authorities → Forall servable svids →
  Forall2 (carries (ConcatRawCertsFromCerts authorities)) msgs svids →
  forM (λ svid, parseX509Bundle (x_SpiffeId svid) (x_Bundle svid)) msgs =
    Ok (map (λ s, X509Bundle.mkBundle (svid_td s) authorities) svids).
Proof.
  intros Ha Hs Hall. apply forM_Ok. revert Hs. induction Hall as [|m s msgs svids Hm Hall IH]; intros Hs; [constructor|].
  apply Forall_cons in Hs as [Hs Hss]. constructor; [|by apply IH].
  destruct Hm as (_ & _ & Hi & Hb). destruct (servable_parts _ Hs) as [path Hp].
  unfold parseX509Bundle. rewrite Hi, Hb, (ID_text_TrustDomain _ _ _ Hp). cbn [mbind res_bind].
  rewrite ConcatRaw_parse by done. cbn. unfold X509Bundle.FromX509Authorities. by rewrite CopyX509Authorities_id.
Qed.

(** A bundle that can be served: it has a trust domain, and its certificates parse. *)
Definition named (td : TrustDomain) : Prop := td ≠ zero_TrustDomain ∧ td_wf td.

Lemma named_texts td : named td → TrustDomainFromString (TrustDomain_String td) = Ok td ∧ TrustDomainFromString (IDString td) = Ok td.
Proof. intros [Hz Hwf]. pose proof (TrustDomainFromString_name td Hwf) as H. by rewrite decide_False in H. Qed.

Lemma federated_read_back b :
  named (X509Bundle.trustDomain b) → Forall parsed_cert (X509Bundle.x509Authorities b) →
  read_back IDString (λ b, ConcatRawCertsFromCerts (X509Bundle.X509Authorities b)) parse_own b.
Proof.
  intros [_ Ht]%named_texts Hp. split; [exact Ht|]. unfold parse_own, X509Bundle.X509Authorities.
  rewrite CopyX509Authorities_id, ConcatRaw_parse by done. cbn. unfold X509Bundle.FromX509Authorities.
  rewrite CopyX509Authorities_id. by destruct b.
Qed.

Lemma parse_own_td td s b : parse_own td s = Ok b → trustDomain_of b = td.
Proof. intros (certs & _ & [= <-])%bind_Ok_inv. done. Qed.

(** *** Bundle responses *)
Lemma foldl_texts {B} (key : B → string) (doc : B → string * bool) bs m e :
  (foldl (λ (acc : gmap string string * bool) b, let '(bytes, failed) := doc b in (<[key b := bytes]> acc.1, acc.2 || failed)) (m, e) bs).1 =
  foldl (λ m b, <[key b := (doc b).1]> m) m bs.
Proof. revert m e; induction bs as [|b bs IH]; intros m e; [done|]. cbn. destruct (doc b) as [bytes failed]. cbn. apply IH. Qed.

Definition x509_text (b : X509Bundle.Bundle) : string :=
  (assert_NoError (ConcatRawCertsFromCerts <$> ParseCertificates (assert_NoError (X509Bundle.Marshal b)).1)).1.

Lemma SetX509Bundles_texts bs : (SetX509Bundles bs).1 = text_map TrustDomain_String x509_text bs.
Proof.
  unfold SetX509Bundles, text_map. generalize (∅ : gmap string string) false.
  induction bs as [|b bs IH]; intros m e; [done|]. cbn [foldl].
  match goal with |- (foldl _ ?p bs).1 = _ => rewrite (surjective_pairing p), IH end. f_equal.
  unfold x509_text. cbn. by destruct (assert_NoError (ConcatRawCertsFromCerts <$> _)).
Qed.

Lemma x509_text_read_back b :
  named (X509Bundle.trustDomain b) → Forall parsed_cert (X509Bundle.x509Authorities b) →
  NoDup (Raw <$> X509Bundle.x509Authorities b) → read_back TrustDomain_String x509_text X509Bundle.ParseRaw b.
Proof.
  intros [Ht _]%named_texts Hp Hnd. split; [exact Ht|].
  destruct (X509Bundle.x509_Marshal_Parse b Hp) as (bytes & b' & _ & _ & Hraw & _ & _ & _ & Hiff).
  assert (x509_text b = ConcatRawCertsFromCerts (X509Bundle.x509Authorities b)) as ->.
  { unfold x509_text. cbn. destruct (X509Bundle.x509Authorities b) as [|c cs] eqn:E.
    - done.
    - rewrite (ParseCertificates_Encode (c :: cs)) by done. done. }
  by rewrite (proj2 Hiff Hnd) in Hraw.
Qed.

Definition jwt_text (b : JwtBundle.Bundle) : string := (assert_NoError (JwtBundle.Marshal b)).1.

Lemma jwt_text_read_back b :
  named (JwtBundle.trustDomain b) → all_supported (JwtBundle.jwtAuthorities b) → keyIDs_ascii (JwtBundle.jwtAuthorities b) →
  JwtBundle.HasJWTAuthority b "" = false → is_Ok (JwtBundle.Marshal b) = true →
  read_back TrustDomain_String jwt_text JwtBundle.Parse b.
Proof.
  intros [Ht _]%named_texts Hs Ha Hne Hm. split; [exact Ht|]. unfold jwt_text.
  destruct (JwtBundle.Marshal b) as [bytes| |] eqn:Hb; [|done..]. cbn.
  pose proof (JwtBundle.jwt_Marshal_Parse b _ bytes Hs Ha (range_of_map_to_list _) Hb) as H. by rewrite Hne in H.
Qed.

Definition wit_text (b : WitBundle.Bundle) : string := (assert_NoError (WitBundle.Marshal b)).1.

Lemma wit_text_read_back b :
  named (WitBundle.trustDomain b) → all_supported (WitBundle.witAuthorities b) → keyIDs_ascii (WitBundle.witAuthorities b) →
  WitBundle.HasWITAuthority b "" = false → is_Ok (WitBundle.Marshal b) = true →
  read_back TrustDomain_String wit_text WitBundle.Parse b.
Proof.
  intros [Ht _]%named_texts Hs Ha Hne Hm. split; [exact Ht|]. unfold wit_text.
  destruct (WitBundle.Marshal b) as [bytes| |] eqn:Hb; [|done..]. cbn.
  pose proof (WitBundle.wit_Marshal_Parse b _ bytes Hs Ha (range_of_map_to_list _) Hb) as H. by rewrite Hne in H.
Qed.
End fetched.

(** ** The client reads what the server was told to serve *)

(** A response of SVIDs with keys, and bundles, whose certificates come from the parser. *)
Record servable_response {C : Charset} {L : X509Lib} (r : Response) (svids : list X509Svid.SVID) : Prop := {
  sr_svids : r_SVIDs r = map given_of svids;
  sr_nonempty : svids ≠ [];
  sr_servable : Forall servable svids;
  sr_bundle b : r_Bundle r = Some b → Forall parsed_cert (X509Bundle.x509Authorities b);
  sr_federated : Forall (λ b, named (X509Bundle.trustDomain b) ∧ Forall parsed_cert (X509Bundle.x509Authorities b))
                   (r_FederatedBundles r);
}.

Definition own_authorities (r : Response) : list Certificate :=
  match r_Bundle r with Some b => X509Bundle.x509Authorities b | None => [] end.

(** The set of the last bundle of each trust domain. *)
Definition holds_last {B} `{HasTrustDomain B} (set : BundleSet.Set_ B) (bs : list B) : Prop :=
  ∀ td, BundleSet.bundles set !! td = last (filter (λ b, trustDomain_of b = td) bs).

Section fake_properties.
Context {VO : Visits} {C : Charset} {CL : CharsetLaws C} {L : X509Lib} {LL : X509LibLaws L}.
Context {J : JoseLib} {JL : JoseLaws J} {T : JwtLib} {K : JwkLib} {KP : JwkPrivateLib}.
Context {N : Transport} {NL : TransportLaws N}.

Lemma ToProto_parses r svids :
  servable_response r svids →
  ∃ v, ToProto r = Ok v ∧ ∃ bundles,
    parseX509Context v = Ok (mkX509Context (kept X509Svid.Hint ∅ svids) bundles) ∧
    ∀ td, BundleSet.bundles bundles !! td =
      match last (filter (λ b, X509Bundle.trustDomain b = td) (r_FederatedBundles r)) with
      | Some b => Some b
      | None => if decide (td ∈ map svid_td svids) then Some (X509Bundle.mkBundle td (own_authorities r)) else None
      end.
Proof.
  intros [Hr Hne Hs Hb Hf].
  assert (Forall parsed_cert (own_authorities r)) as Hown.
  { unfold own_authorities. destruct (r_Bundle r) as [b|]; [by apply Hb|constructor]. }
  destruct (proto_svids_carry (ConcatRawCertsFromCerts (own_authorities r)) svids Hs) as (msgs & Hmsgs & Hcarry).
  destruct (served_map IDString (λ b, ConcatRawCertsFromCerts (X509Bundle.X509Authorities b)) parse_own parse_own_td
    _ (r_FederatedBundles r) (visit_order_range _)) as (fed & Hfed & Hlast).
  { eapply Forall_impl; [exact Hf|]. intros b []. by apply federated_read_back. }
  eexists. split.
  - unfold ToProto. rewrite Hr.
    match goal with |- mbind _ (forM ?f _) = _ => change f with
      (proto_svid match r_Bundle r with Some b => ConcatRawCertsFromCerts (X509Bundle.X509Authorities b) | None => "" end) end.
    assert (match r_Bundle r with Some b => ConcatRawCertsFromCerts (X509Bundle.X509Authorities b) | None => "" end =
      ConcatRawCertsFromCerts (own_authorities r)) as ->.
    { unfold own_authorities, X509Bundle.X509Authorities. destruct (r_Bundle r); [by rewrite CopyX509Authorities_id|done]. }
    rewrite Hmsgs. reflexivity.
  - eexists. unfold parseX509Context. erewrite carried_svids by done. cbn [mbind res_bind].
    unfold parseX509Bundles. cbn [x_Svids x_FederatedBundles visited gm_order].
    rewrite (carried_bundles _ _ _ Hown Hs Hcarry). cbn [mbind res_bind].
    change (forM (λ entry, parseX509Bundle entry.1 entry.2)) with (forM (parse_bundle_entry parse_own)).
    change (foldl (λ (m : gmap string string) (v : X509Bundle.Bundle),
      <[IDString (X509Bundle.trustDomain v):=ConcatRawCertsFromCerts (X509Bundle.X509Authorities v)]> m) ∅)
      with (text_map (B := X509Bundle.Bundle) IDString (λ b, ConcatRawCertsFromCerts (X509Bundle.X509Authorities b))).
    rewrite Hfed. cbn [mbind res_bind]. split; [reflexivity|]. intros td.
    unfold X509Bundle.NewSet. rewrite NewSet_lookup_last, filter_app, last_app.
    rewrite <- Hlast, NewSet_lookup_last. cbn [ctx_Bundles].
    destruct (last (filter _ fed)) as [b|]; [done|].
    clear -svids. induction svids as [|s svids IH] using rev_ind; [done|]. rewrite !map_app, filter_app, last_app. cbn [map].
    rewrite filter_cons. cbn [filter]. destruct (decide (svid_td s = td)) as [<-|Hn].
    + rewrite decide_True by done. cbn. rewrite decide_True; [done|]. apply elem_of_app. right. by left.
    + rewrite decide_False by done. cbn. rewrite IH. apply decide_ext. rewrite elem_of_app, list_elem_of_singleton. naive_solver.
Qed.

(** [C37] A client reads what the server was told to serve. From a response of SVIDs that
    the parsers accept, FetchX509Context gives the SVIDs in order, without those whose hint
    an earlier one has, FetchX509SVID the first, and the bundles by trust domain: the last
    federated one, else the response's own bundle for the trust domains of the SVIDs. The
    bundles passed to SetX509Bundles, SetJWTBundles and SetWITBundles are fetched as a set
    with the last one of each trust domain, provided that their trust domains are not the
    zero one, their certificates come from the parser without a repetition, and the other
    bundles marshal with ASCII key IDs that are not empty. All this holds in whatever order
    the client visits the maps it receives. A server without a response refuses with
    PermissionDenied (shown for FetchX509Context), and a call without the security header makes it panic, where the
    code means to refuse. *)
Theorem served_is_fetched (w : WorkloadAPI) now md :
  (∀ r svids, servable_response r svids → serr (x509 w) = None → SetX509SVIDResponse (Some r) = Ok (resp (x509 w)) →
     ∃ ctx s rest, FetchX509Context (serve w now) md = Ok ctx ∧ SVIDs ctx = kept X509Svid.Hint ∅ svids ∧
       svids = s :: rest ∧ FetchX509SVID (serve w now) md = Ok s ∧
       ∀ td, BundleSet.bundles (ctx_Bundles ctx) !! td =
         match last (filter (λ b, X509Bundle.trustDomain b = td) (r_FederatedBundles r)) with
         | Some b => Some b
         | None => if decide (td ∈ map svid_td svids) then Some (X509Bundle.mkBundle td (own_authorities r)) else None
         end) ∧
  (∀ bs, Forall (λ b, named (X509Bundle.trustDomain b) ∧ Forall parsed_cert (X509Bundle.x509Authorities b) ∧
           NoDup (Raw <$> X509Bundle.x509Authorities b)) bs →
     serr (x509Bundles w) = None → resp (x509Bundles w) = Some (SetX509Bundles bs).1 →
     ∃ set, FetchX509Bundles (serve w now) md = Ok set ∧ holds_last set bs) ∧
  (∀ bs, Forall (λ b, named (JwtBundle.trustDomain b) ∧ all_supported (JwtBundle.jwtAuthorities b) ∧
           keyIDs_ascii (JwtBundle.jwtAuthorities b) ∧ JwtBundle.HasJWTAuthority b "" = false ∧
           is_Ok (JwtBundle.Marshal b) = true) bs →
     serr (jwtBundles w) = None → resp (jwtBundles w) = Some (SetJWTBundles bs).1 →
     ∃ set, FetchJWTBundles (serve w now) md = Ok set ∧ holds_last set bs) ∧
  (∀ bs, Forall (λ b, named (WitBundle.trustDomain b) ∧ all_supported (WitBundle.witAuthorities b) ∧
           keyIDs_ascii (WitBundle.witAuthorities b) ∧ WitBundle.HasWITAuthority b "" = false ∧
           is_Ok (WitBundle.Marshal b) = true) bs →
     serr (witBundles w) = None → resp (witBundles w) = Some (SetWITBundles bs).1 →
     ∃ set, FetchWITBundles (serve w now) md = Ok set ∧ holds_last set bs) ∧
  (serr (x509 w) = None → resp (x509 w) = None →
     FetchX509Context (serve w now) md = Err (carried (status_Error PermissionDenied "no identity issued"))) ∧
  (∀ md', incoming md = Some md' → md_Get md' "workload.spiffe.io" = [] → no_panic (fetch_stream (x509 w) (incoming md)) = false).
Proof.
  split_and!.
  - intros r svids Hr He Hset. destruct (ToProto_parses r svids Hr) as (v & Hv & bundles & Hctx & Hlook).
    cbn in Hset. rewrite Hv in Hset. injection Hset as Hset.
    pose proof (recv_stream (x509 w) md v He (eq_sym Hset)) as Hrecv.
    destruct svids as [|s rest]; [by destruct (sr_nonempty _ _ Hr)|].
    exists (mkX509Context (kept X509Svid.Hint ∅ (s :: rest)) bundles), s, rest. split_and!; [|done|done| |done].
    + unfold FetchX509Context. cbn [wl_FetchX509SVID serve]. by rewrite Hrecv.
    + unfold FetchX509SVID. cbn [wl_FetchX509SVID serve]. rewrite Hrecv. cbn [mbind res_bind].
      apply bind_Ok_inv in Hctx as (svids & Hs & (bs & _ & [= -> ->])%bind_Ok_inv).
      unfold parseX509SVIDs in *. destruct (length (x_Svids v) =? 0) eqn:El; [done|].
      apply parse_svids_Ok in Hs as (m & rest' & s' & svids' & _ & _ & E & Htake & _).
      2: { apply Nat.eqb_neq in El. by apply length_nonzero. }
      change (kept X509Svid.Hint ∅ (s :: rest) = s' :: svids') in E. rewrite kept_head in E. injection E as <- _. change (svids_to_parse true (x_Svids v)) with (take 1 (svids_to_parse false (x_Svids v))). by rewrite Htake.
  - intros bs Hbs He Hr. pose proof (recv_visited _ md _ He Hr) as Hrecv.
    destruct (served_map (HB := X509Bundle.Bundle_HasTrustDomain) TrustDomain_String x509_text X509Bundle.ParseRaw X509Bundle.ParseRaw_td _ bs (visit_order_range _)) as (bs' & Hbs' & Hlast).
    { eapply Forall_impl; [exact Hbs|]. intros b (? & ? & ?). by apply x509_text_read_back. }
    eexists. split; [|exact Hlast]. unfold FetchX509Bundles. cbn [wl_FetchX509Bundles serve]. rewrite Hrecv.
    cbn [mbind res_bind]. unfold parseX509BundlesResponse. cbn [visited gm_order]. by rewrite SetX509Bundles_texts, Hbs'.
  - intros bs Hbs He Hr. pose proof (recv_visited _ md _ He Hr) as Hrecv.
    destruct (served_map (HB := JwtBundle.Bundle_HasTrustDomain) TrustDomain_String jwt_text JwtBundle.Parse JwtBundle.jwt_Parse_td _ bs (visit_order_range _)) as (bs' & Hbs' & Hlast).
    { eapply Forall_impl; [exact Hbs|]. intros b (? & ? & ? & ? & ?). by apply jwt_text_read_back. }
    eexists. split; [|exact Hlast]. unfold FetchJWTBundles. cbn [wl_FetchJWTBundles serve]. rewrite Hrecv.
    cbn [mbind res_bind]. unfold parseJWTSVIDBundles, SetJWTBundles. cbn [visited gm_order]. rewrite foldl_texts.
    unfold text_map, jwt_text, trustDomain_of, JwtBundle.Bundle_HasTrustDomain in Hbs'. by rewrite Hbs'.
  - intros bs Hbs He Hr. pose proof (recv_visited _ md _ He Hr) as Hrecv.
    destruct (served_map (HB := WitBundle.Bundle_HasTrustDomain) TrustDomain_String wit_text WitBundle.Parse WitBundle.wit_Parse_td _ bs (visit_order_range _)) as (bs' & Hbs' & Hlast).
    { eapply Forall_impl; [exact Hbs|]. intros b (? & ? & ? & ? & ?). by apply wit_text_read_back. }
    eexists. split; [|exact Hlast]. unfold FetchWITBundles. cbn [wl_FetchWITBundles serve]. rewrite Hrecv.
    cbn [mbind res_bind]. unfold parseWITBundles, SetWITBundles. cbn [visited gm_order]. rewrite foldl_texts.
    unfold text_map, wit_text, trustDomain_of, WitBundle.Bundle_HasTrustDomain in Hbs'. by rewrite Hbs'.
  - intros He Hr. unfold FetchX509Context. cbn [wl_FetchX509SVID serve].
    unfold fetch_stream. rewrite header_passes. cbn [mbind res_bind]. unfold first_message. by rewrite He, Hr.
  - intros md' Hmd Hget. unfold fetch_stream, checkHeader, checkMetadata. by rewrite Hmd, Hget.
Qed.
End fake_properties.

(** ** Witness: an SVID with its bundle and a federated one *)
#[export] Instance sample_Visits : Visits := {|
  visit_order := λ m, rev (map_to_list m);
  visit_order_range := λ m, symmetry (Permutation_rev (map_to_list m));
|}.

#[export] Instance sample_Transport : Transport := {|
  status_Error c msg := fmt_Errorf "rpc error: %s" [Arg_s msg];
  error_text e := "error";
  incoming md := Some ((":authority", "localhost") :: md);
  carried e := e;
  server_gone := errors_New "connection closed";
  json_Marshal_claims m := inl "{}";
  protojson_Unmarshal s := inl ();
|}.

#[export] Instance sample_TransportLaws : TransportLaws sample_Transport.
Proof.
  split. intros md. by eexists.
Qed.

Definition sample_served : Response :=
  mkResponse [given_of X509Svid.sample_svid] (Some X509Svid.sample_x509_bundle)
    [X509Bundle.mkBundle (mkTrustDomain "domain.test") [caB]].
Definition sample_server : WorkloadAPI :=
  mkServer (mkState (match SetX509SVIDResponse (Some sample_served) with Ok v => v | _ => None end) None ∅ Unlocked [])
    new_fanout None new_fanout new_fanout new_fanout.

Lemma sample_served_servable : servable_response (C := charset_deny) sample_served [X509Svid.sample_svid].
Proof.
  split; [done|done| | |].
  - apply Forall_singleton. split_and!; [|by vm_compute|by eexists].
    repeat apply Forall_cons_2; [by apply sample_cert_parsed..|done].
  - intros b [= <-]. by apply Forall_singleton, sample_cert_parsed.
  - apply Forall_singleton. split; [by split; [|vm_compute]|]. by apply Forall_singleton, sample_cert_parsed.
Qed.

Lemma served_is_fetched_witness :
  ∃ ctx, FetchX509Context (C := charset_deny) (serve (C := charset_deny) sample_server 0) [] = Ok ctx ∧
    SVIDs ctx = [X509Svid.sample_svid] ∧
    FetchX509SVID (C := charset_deny) (serve (C := charset_deny) sample_server 0) [] = Ok X509Svid.sample_svid ∧
    BundleSet.bundles (ctx_Bundles ctx) !! mkTrustDomain "domain.test" = Some (X509Bundle.mkBundle (mkTrustDomain "domain.test") [caB]).
Proof.
  pose proof (served_is_fetched (C := charset_deny) sample_server 0 []) as (Hx & _).
  destruct (Hx sample_served [X509Svid.sample_svid] sample_served_servable eq_refl ltac:(by vm_compute))
    as (ctx & s & rest & Hctx & Hs & E & Hf & Hb).
  injection E as <- <-. exists ctx. split_and!; [done| |done|].
  - rewrite Hs. by vm_compute.
  - rewrite Hb. by vm_compute.
Defined.
