(* ===== verification/TestCA.v ===== *)
(** * internal/test: a certificate authority for tests

    Models src/internal/test/ca.go (but CreateWebCredentials, which is in FakeEndpoint.v)
    and keys.go: authorities and their children, the options of what they issue, the
    X509-SVIDs, certificates and JWT-SVIDs they issue, and their bundles.

    Every function takes a testing.TB and fails the test when a call does: it is a
    program over the state [R] of rand.Reader and the clock, and a test that fails is a
    panic. crypto/x509 and go-jose are the class [CALib]. *)

From S2P Require Import Prelude Logger Path GoUrl ID Crypto X509 X509Sample Pem BundleSet X509Bundle Jose JwtBundle SpiffeBundle X509Svid Jwt JwtSvid Client FakeApi.

(** ** Programs over the random source and the clock *)
Definition gen (R A : Type) : Type := R → res (A * R).

Section gen.
Context {R : Type}.

Definition gen_ret {A} (a : A) : gen R A := λ r, Ok (a, r).
Definition gen_bind {A B} (m : gen R A) (f : A → gen R B) : gen R B := λ r, let! ar := m r in f ar.1 ar.2.
Definition gen_lift {A} (m : res A) : gen R A := λ r, let! a := m in Ok (a, r).

(** A call, and require.NoError on its error. *)
Definition gen_call {A} (f : R → (A + error) * R) : gen R A := λ r,
  let '(x, r) := f r in let! a := require_NoError (of_lib x) in Ok (a, r).

Lemma gen_bind_Ok {A B} (m : gen R A) (f : A → gen R B) r b r' :
  gen_bind m f r = Ok (b, r') ↔ ∃ a r1, m r = Ok (a, r1) ∧ f a r1 = Ok (b, r').
Proof.
  unfold gen_bind. rewrite bind_Ok_inv. split.
  - intros ([a r1] & ? & ?). by exists a, r1.
  - intros (a & r1 & ? & ?). by exists (a, r1).
Qed.

Lemma gen_ret_Ok {A} (a b : A) r r' : gen_ret a r = Ok (b, r') ↔ a = b ∧ r = r'.
Proof. unfold gen_ret. split; [by intros [= -> ->]|by intros [-> ->]]. Qed.

Lemma gen_lift_Ok {A} (m : res A) r a r' : gen_lift m r = Ok (a, r') ↔ m = Ok a ∧ r = r'.
Proof.
  unfold gen_lift. rewrite bind_Ok_inv. split; [by intros (? & ? & [= -> ->])|intros [-> ->]; by eexists].
Qed.

Lemma gen_call_Ok {A} (f : R → (A + error) * R) r a r' : gen_call f r = Ok (a, r') ↔ f r = (inl a, r').
Proof.
  unfold gen_call. destruct (f r) as [[b|e] r1]; cbn; split; congruence.
Qed.
End gen.

Notation "'gen!' x ':=' m 'in' k" := (gen_bind m (λ x, k))
  (at level 10, x binder, m at level 100, k at level 200) : go_scope.

(** [gen_inv]: take a program that has returned apart. *)
Ltac gen_inv :=
  repeat match goal with
  | H : gen_bind _ _ _ = Ok (_, _) |- _ => apply gen_bind_Ok in H; destruct H as (? & ? & ? & ?)
  | H : gen_ret _ _ = Ok (_, _) |- _ => apply gen_ret_Ok in H; destruct H as [? ?]
  | H : gen_lift _ _ = Ok (_, _) |- _ => apply gen_lift_Ok in H; destruct H as [? ?]
  | H : gen_call _ _ = Ok (_, _) |- _ => apply gen_call_Ok in H
  | H : context [match ?p with (_, _) => _ end] |- _ => is_var p; destruct p; cbv beta iota in H
  end.

(** ** Data *)
Record pkix_Name : Type := mkName { CommonName : string }.

(** The fields of an x509.Certificate that is a template; times are in seconds. *)
Record Template : Type := mkTemplate {
  t_SerialNumber : Z;
  t_Subject : pkix_Name;
  t_BasicConstraintsValid : bool;
  t_IsCA : bool;
  t_NotBefore : Z;
  t_NotAfter : Z;
  t_KeyUsage : Z;
  t_URIs : list URL;
  t_IPAddresses : list string;
}.

Definition set_SerialNumber n t := mkTemplate n (t_Subject t) (t_BasicConstraintsValid t) (t_IsCA t) (t_NotBefore t)
  (t_NotAfter t) (t_KeyUsage t) (t_URIs t) (t_IPAddresses t).
Definition set_Subject s t := mkTemplate (t_SerialNumber t) s (t_BasicConstraintsValid t) (t_IsCA t) (t_NotBefore t)
  (t_NotAfter t) (t_KeyUsage t) (t_URIs t) (t_IPAddresses t).
Definition set_lifetime b e t := mkTemplate (t_SerialNumber t) (t_Subject t) (t_BasicConstraintsValid t) (t_IsCA t) b e
  (t_KeyUsage t) (t_URIs t) (t_IPAddresses t).
Definition set_KeyUsage u t := mkTemplate (t_SerialNumber t) (t_Subject t) (t_BasicConstraintsValid t) (t_IsCA t)
  (t_NotBefore t) (t_NotAfter t) u (t_URIs t) (t_IPAddresses t).
Definition set_URIs us t := mkTemplate (t_SerialNumber t) (t_Subject t) (t_BasicConstraintsValid t) (t_IsCA t)
  (t_NotBefore t) (t_NotAfter t) (t_KeyUsage t) us (t_IPAddresses t).
Definition set_IPAddresses ips t := mkTemplate (t_SerialNumber t) (t_Subject t) (t_BasicConstraintsValid t) (t_IsCA t)
  (t_NotBefore t) (t_NotAfter t) (t_KeyUsage t) (t_URIs t) ips.

(** The claims of a token to sign. *)
Record issued_Claims : Type := mkIssued { ic_Claims : Claims; Issuer : string; IssuedAt : option Z }.

(** jose.SigningKey with its JSONWebKey, and SignerOptions with the type. *)
Record SigningKey : Type := mkSigningKey { sk_Algorithm : string; sk_Key : PrivateKey; sk_KeyID : string; sk_Type : string }.

(** ** crypto/ecdsa, crypto/rand, time, crypto/x509 and go-jose *)
Class CALib (R : Type) := {
  ecdsa_GenerateKey : string → R → (PrivateKey + error) * R;   (* the name of the curve *)
  rand_Read : nat → R → (string + error) * R;                  (* so many bytes *)
  time_Now : R → Z * R;
  (* the template, the parent (nil: the template itself), the public key and the signer *)
  x509_CreateCertificate : Template → option Certificate → PublicKey → PrivateKey → R → (string + error) * R;
  Signer : Type;
  jose_NewSigner : SigningKey → Signer + error;
  jwt_Serialize : Signer → issued_Claims → R → (string + error) * R;
}.
Arguments Signer R {CALib} : assert.

(** An option sets some of three functions. *)
Record SVIDOption : Type := mkSVIDOption {
  certificateOption : option (Template → Template);
  x509SvidOption : option (X509Svid.SVID → X509Svid.SVID);
  jwtSvidOption : option (JwtSvid.SVID → JwtSvid.SVID);
}.

#[warnings="-register-all"]
Inductive CA : Type := mkCA {
  ca_td : TrustDomain;
  ca_parent : option CA;
  ca_cert : Certificate;
  ca_key : PrivateKey;
  ca_jwtKey : PrivateKey;
  ca_jwtKid : string;
}.

(** ** Options *)
Definition WithSerial (serial : Z) : SVIDOption := mkSVIDOption (Some (set_SerialNumber serial)) None None.
Definition WithKeyUsage (keyUsage : Z) : SVIDOption := mkSVIDOption (Some (set_KeyUsage keyUsage)) None None.
Definition WithLifetime (notBefore notAfter : Z) : SVIDOption := mkSVIDOption (Some (set_lifetime notBefore notAfter)) None None.
Definition WithIPAddresses (ips : list string) : SVIDOption := mkSVIDOption (Some (set_IPAddresses ips)) None None.
Definition WithURIs (uris : list URL) : SVIDOption := mkSVIDOption (Some (set_URIs uris)) None None.
Definition WithSubject (subject : pkix_Name) : SVIDOption := mkSVIDOption (Some (set_Subject subject)) None None.
Definition WithHint (hint : string) : SVIDOption := mkSVIDOption None
  (Some (λ s, X509Svid.mkSVID (X509Svid.svid_ID s) (X509Svid.svid_Certificates s) (X509Svid.svid_PrivateKey s) hint))
  (Some (λ s, JwtSvid.mkSVID (JwtSvid.svid_ID s) (JwtSvid.svid_Audience s) (JwtSvid.svid_Expiry s) (JwtSvid.svid_Claims s) hint (JwtSvid.token s))).

Definition apply_option {A} (o : option (A → A)) (a : A) : A := match o with Some f => f a | None => a end.

Definition applyCertOptions (c : Template) (options : list SVIDOption) : Template :=
  foldl (λ c opt, apply_option (certificateOption opt) c) c options.
Definition applyX509SVIDOptions (svid : X509Svid.SVID) (options : list SVIDOption) : X509Svid.SVID :=
  foldl (λ svid opt, apply_option (x509SvidOption opt) svid) svid options.
Definition applyJWTSVIDOptions (svid : JwtSvid.SVID) (options : list SVIDOption) : JwtSvid.SVID :=
  foldl (λ svid opt, apply_option (jwtSvidOption opt) svid) svid options.

(** ** keys.go *)
Definition alphabet : string := "abcdefghijklmnopqrstuvwxyzABCDEFGHIJKLMNOPQRSTUVWXYZ0123456789".

(** alphabet[int(choice)%len(alphabet)] *)
Definition key_char (choice : ascii) : ascii :=
  match String.get (nat_of_ascii choice mod String.length alphabet) alphabet with Some c => c | None => "a"%char end.

Fixpoint keyIDFromBytes (choices : string) : string :=
  match choices with
  | EmptyString => ""
  | String choice choices => String (key_char choice) (keyIDFromBytes choices)
  end.

(** big.Int.SetBytes: big-endian. *)
Fixpoint SetBytes (acc : Z) (b : string) : Z :=
  match b with
  | EmptyString => acc
  | String c b => SetBytes (acc * 256 + Z.of_N (N_of_ascii c)) b
  end.

Definition hour : Z := 3600.

Section ca.
Context {C : Charset} {L : X509Lib} {T : JwtLib} {F : Fmt} {R : Type} {CA_ : CALib R}.

Definition NewEC256Key : gen R PrivateKey := gen_call (ecdsa_GenerateKey "P-256").

Definition NewKeyID : gen R string :=
  gen! choices := gen_call (rand_Read 32) in
  gen_ret (keyIDFromBytes choices).

(** ** ca.go *)
Definition NewSerial : gen R Z :=
  gen! b := gen_call (rand_Read 8) in
  gen_ret (SetBytes 0 b).

(** key.Public(). *)
Definition Public (k : PrivateKey) : PublicKey :=
  match public_of k with Some p => p | None => Other_PublicKey (dynamic_type k) "" end.

Definition now_ : gen R Z := λ r, let '(t, r) := time_Now r in Ok (t, r).

(** A nil parent: the template. *)
Definition CreateCertificate (tmpl : Template) (parent : option Certificate) (pub : PublicKey) (priv : PrivateKey)
    : gen R Certificate :=
  gen! certDER := gen_call (x509_CreateCertificate tmpl parent pub priv) in
  gen! cert := gen_lift (require_NoError (of_lib (x509_ParseCertificate certDER))) in
  gen_ret cert.

Definition CreateCACertificate (parent : option (Certificate * PrivateKey)) (options : list SVIDOption)
    : gen R (Certificate * PrivateKey) :=
  gen! now := now_ in
  gen! serial := NewSerial in
  gen! key := NewEC256Key in
  let tmpl := mkTemplate serial (mkName (fmt_Sprintf "CA %x" [Arg_d serial])) true true now (now + hour) 0 [] [] in
  let tmpl := applyCertOptions tmpl options in
  gen! cert := CreateCertificate tmpl (fst <$> parent) (Public key)
                 (match parent with Some (_, parentKey) => parentKey | None => key end) in
  gen_ret (cert, key).

Definition CreateX509Certificate (parent : Certificate) (parentKey : PrivateKey) (options : list SVIDOption)
    : gen R (Certificate * PrivateKey) :=
  gen! now := now_ in
  gen! serial := NewSerial in
  gen! key := NewEC256Key in
  let tmpl := mkTemplate serial (mkName (fmt_Sprintf "X509-Certificate %x" [Arg_d serial])) false false now (now + hour)
                KeyUsageDigitalSignature [] [] in
  let tmpl := applyCertOptions tmpl options in
  gen! cert := CreateCertificate tmpl (Some parent) (Public key) parentKey in
  gen_ret (cert, key).

Definition CreateX509SVID (parent : Certificate) (parentKey : PrivateKey) (id : ID.ID) (options : list SVIDOption)
    : gen R (Certificate * PrivateKey) :=
  gen! serial := NewSerial in
  gen! url := gen_lift (ID_URL id) in
  let options := options ++
    [WithSerial serial; WithKeyUsage KeyUsageDigitalSignature;
     WithSubject (mkName (fmt_Sprintf "X509-SVID %x" [Arg_d serial])); WithURIs [url]] in
  CreateX509Certificate parent parentKey options.

(** *** Authorities *)
Definition NewCA (td : TrustDomain) : gen R CA :=
  gen! '(cert, key) := CreateCACertificate None [] in
  gen! jwtKey := NewEC256Key in
  gen! jwtKid := NewKeyID in
  gen_ret (mkCA td None cert key jwtKey jwtKid).

(** The trust domain of a child is not set. *)
Definition ChildCA (ca : CA) (options : list SVIDOption) : gen R CA :=
  gen! '(cert, key) := CreateCACertificate (Some (ca_cert ca, ca_key ca)) options in
  gen! jwtKey := NewEC256Key in
  gen! jwtKid := NewKeyID in
  gen_ret (mkCA zero_TrustDomain (Some ca) cert key jwtKey jwtKid).

Fixpoint chain (includeRoot : bool) (next : CA) : list Certificate :=
  match next with
  | mkCA _ parent cert _ _ _ =>
      (if includeRoot || bool_decide (is_Some parent) then [cert] else []) ++
      match parent with Some parent => chain includeRoot parent | None => [] end
  end.

Fixpoint root_cert (ca : CA) : Certificate :=
  match ca with
  | mkCA _ (Some parent) _ _ _ _ => root_cert parent
  | mkCA _ None cert _ _ _ => cert
  end.

Definition X509Authorities (ca : CA) : list Certificate := [root_cert ca].

Definition JWTAuthorities (ca : CA) : gmap string PublicKey := {[ ca_jwtKid ca := Public (ca_jwtKey ca) ]}.

Definition CA_Bundle (ca : CA) : SpiffeBundle.Bundle :=
  SpiffeBundle.SetJWTAuthorities
    (SpiffeBundle.SetX509Authorities (SpiffeBundle.New (ca_td ca)) (X509Authorities ca)) (JWTAuthorities ca).

Definition CA_X509Bundle (ca : CA) : X509Bundle.Bundle := X509Bundle.FromX509Authorities (ca_td ca) (X509Authorities ca).
Definition CA_JWTBundle (ca : CA) : JwtBundle.Bundle := JwtBundle.FromJWTAuthorities (ca_td ca) (JWTAuthorities ca).

(** The methods with the names of functions. *)
Definition CA_CreateX509SVID (ca : CA) (id : ID.ID) (options : list SVIDOption) : gen R X509Svid.SVID :=
  gen! '(cert, key) := CreateX509SVID (ca_cert ca) (ca_key ca) id options in
  let svid := X509Svid.mkSVID id ([cert] ++ chain false ca) key "" in
  gen_ret (applyX509SVIDOptions svid options).

Definition CA_CreateX509Certificate (ca : CA) (options : list SVIDOption) : gen R (list Certificate * PrivateKey) :=
  gen! '(cert, key) := CreateX509Certificate (ca_cert ca) (ca_key ca) options in
  gen_ret ([cert] ++ chain false ca, key).

Definition CreateJWTSVID (ca : CA) (id : ID.ID) (audience : list string) (options : list SVIDOption)
    : gen R JwtSvid.SVID :=
  gen! issued := now_ in
  gen! expires := now_ in
  let claims := mkIssued (mkClaims (ID_String id) audience (Some (expires + hour)%Z) None) "FAKECA" (Some issued) in
  gen! jwtSigner := gen_lift (require_NoError (of_lib
                      (jose_NewSigner (mkSigningKey "ES256" (ca_jwtKey ca) (ca_jwtKid ca) "JWT")))) in
  gen! signedToken := gen_call (jwt_Serialize jwtSigner claims) in
  gen! now := now_ in
  gen! svid := gen_lift (require_NoError (JwtSvid.ParseInsecure now signedToken audience)) in
  gen_ret (applyJWTSVIDOptions svid options).
End ca.

(** Documented behaviour of those calls. *)
Class CALaws {L : X509Lib} {T : JwtLib} {R : Type} (CA_ : CALib R) : Prop := {
  generated curve r k r' : ecdsa_GenerateKey curve r = (inl k, r') →
    (∃ X Y secret, k = ECDSA_PrivateKey curve X Y secret) ∧ ∃ der, x509_MarshalPKCS8PrivateKey k = inl der;
  bytes_read n r bs r' : rand_Read n r = (inl bs, r') → String.length bs = n;
  (* the members of the template that are used come back *)
  created t parent pub priv r der r' c :
    x509_CreateCertificate t parent pub priv r = (inl der, r') → x509_ParseCertificate der = inl c →
    cert_PublicKey c = pub ∧ IsCA c = t_BasicConstraintsValid t && t_IsCA t ∧
    (∀ i, (0 ≤ i < 9)%Z → Z.testbit (KeyUsage c) i = Z.testbit (t_KeyUsage t) i) ∧
    (∀ u, t_URIs t = [u] → Scheme u = "spiffe" → ∃ u', URIs c = [u'] ∧ URL_String u' = URL_String u);
  (* a token that is signed parses, with its claims, and its key verifies it *)
  signed sk pub sgn cl r token r' :
    public_of (sk_Key sk) = Some pub → jose_NewSigner sk = inl sgn →
    ascii_text (sk_KeyID sk) = true → ascii_text (Subject (ic_Claims cl)) = true →
    Forall (λ a, ascii_text a = true) (Audience (ic_Claims cl)) →
    jwt_Serialize sgn cl r = (inl token, r') →
    ∃ tok m, (∀ algs, sk_Algorithm sk ∈ algs → jwt_ParseSigned token algs = inl tok) ∧
      Headers tok = [mkHeader (sk_KeyID sk) (Some (JString (sk_Type sk)))] ∧
      UnsafeClaims tok = inl (ic_Claims cl) ∧ tok_Claims pub tok = inl m;
}.

(** ** Lemmas: keys and options *)

(** The options there are. *)
Inductive an_option : SVIDOption → Prop :=
  | is_WithSerial n : an_option (WithSerial n)
  | is_WithKeyUsage u : an_option (WithKeyUsage u)
  | is_WithLifetime b e : an_option (WithLifetime b e)
  | is_WithIPAddresses ips : an_option (WithIPAddresses ips)
  | is_WithURIs us : an_option (WithURIs us)
  | is_WithSubject s : an_option (WithSubject s)
  | is_WithHint h : an_option (WithHint h).

Lemma keyIDFromBytes_length bs : String.length (keyIDFromBytes bs) = String.length bs.
Proof. induction bs as [|c bs IH]; [done|]. cbn. by rewrite IH. Qed.

(** Key IDs are letters and digits. *)
Lemma key_char_alnum c : is_alnum (key_char c) = true.
Proof. destruct c as [[] [] [] [] [] [] [] []]; by vm_compute. Qed.

Lemma alnum_ascii c : is_alnum c = true → (N_of_ascii c <? 128)%N = true.
Proof. destruct c as [[] [] [] [] [] [] [] []]; by vm_compute. Qed.

Lemma keyIDFromBytes_alnum bs : all_bytes is_alnum (keyIDFromBytes bs) = true.
Proof. induction bs as [|c bs IH]; [done|]. cbn [keyIDFromBytes all_bytes]. by rewrite key_char_alnum, IH. Qed.

Lemma applyCertOptions_app t o1 o2 : applyCertOptions t (o1 ++ o2) = applyCertOptions (applyCertOptions t o1) o2.
Proof. apply foldl_app. Qed.

Lemma applyCertOptions_constraints t options :
  Forall an_option options →
  t_BasicConstraintsValid (applyCertOptions t options) = t_BasicConstraintsValid t ∧
  t_IsCA (applyCertOptions t options) = t_IsCA t.
Proof.
  intros Ho. revert t. induction Ho as [|o options Ho _ IH]; intros t; [done|].
  unfold applyCertOptions in *. cbn [foldl]. destruct (IH (apply_option (certificateOption o) t)) as [-> ->]. by destruct Ho.
Qed.

(** Options change nothing of an SVID but its hint. *)
Lemma applyX509SVIDOptions_hint s options :
  Forall an_option options →
  ∃ h, applyX509SVIDOptions s options =
    X509Svid.mkSVID (X509Svid.svid_ID s) (X509Svid.svid_Certificates s) (X509Svid.svid_PrivateKey s) h.
Proof.
  intros Ho. revert s. induction Ho as [|o options Ho _ IH]; intros s; [by destruct s; eexists|].
  unfold applyX509SVIDOptions in *. cbn [foldl]. destruct (IH (apply_option (x509SvidOption o) s)) as [h ->].
  exists h. by destruct Ho.
Qed.

Lemma applyX509SVIDOptions_last s options h :
  last options = Some (WithHint h) → X509Svid.Hint (applyX509SVIDOptions s options) = h.
Proof. intros [options' ->]%last_Some. unfold applyX509SVIDOptions. by rewrite foldl_app. Qed.

Lemma applyJWTSVIDOptions_hint s options :
  Forall an_option options →
  ∃ h, applyJWTSVIDOptions s options =
    JwtSvid.mkSVID (JwtSvid.svid_ID s) (JwtSvid.svid_Audience s) (JwtSvid.svid_Expiry s) (JwtSvid.svid_Claims s) h (JwtSvid.token s).
Proof.
  intros Ho. revert s. induction Ho as [|o options Ho _ IH]; intros s; [by destruct s; eexists|].
  unfold applyJWTSVIDOptions in *. cbn [foldl]. destruct (IH (apply_option (jwtSvidOption o) s)) as [h ->].
  exists h. by destruct Ho.
Qed.

(** ** Lemmas: certificates *)
Section ca_lemmas.
Context {C : Charset} {CL : CharsetLaws C} {CU : CharsetURLSafe C} {L : X509Lib}.
Context {T : JwtLib} {TL : JwtLaws T} {F : Fmt} {R : Type} {CA_ : CALib R} {CAL : CALaws CA_}.
Implicit Types (r : R).

(** A key pair that can be encoded. *)
Definition key_pair (k : PrivateKey) : Prop :=
  public_of k = Some (Public k) ∧ ∃ der, x509_MarshalPKCS8PrivateKey k = inl der.

Lemma NewEC256Key_Ok r k r' : NewEC256Key r = Ok (k, r') → key_pair k.
Proof. intros ((X & Y & s & ->) & Hd)%gen_call_Ok%generated. by split. Qed.

Lemma NewKeyID_Ok r kid r' : NewKeyID r = Ok (kid, r') → all_bytes is_alnum kid = true ∧ String.length kid = 32.
Proof.
  unfold NewKeyID. intros H. gen_inv. subst. split; [apply keyIDFromBytes_alnum|].
  rewrite keyIDFromBytes_length. by eapply bytes_read.
Qed.

(** What a created certificate keeps of its template. *)
Definition certifies (t : Template) (pub : PublicKey) (c : Certificate) : Prop :=
  parsed_cert c ∧ cert_PublicKey c = pub ∧ IsCA c = t_BasicConstraintsValid t && t_IsCA t ∧
  (∀ i, (0 ≤ i < 9)%Z → Z.testbit (KeyUsage c) i = Z.testbit (t_KeyUsage t) i) ∧
  (∀ u, t_URIs t = [u] → Scheme u = "spiffe" → ∃ u', URIs c = [u'] ∧ URL_String u' = URL_String u).

Lemma CreateCertificate_Ok t parent pub priv r c r' : CreateCertificate t parent pub priv r = Ok (c, r') → certifies t pub c.
Proof.
  unfold CreateCertificate. intros H. gen_inv. subst.
  match goal with H : x509_CreateCertificate _ _ _ _ _ = (inl ?d, _), H' : require_NoError (of_lib (x509_ParseCertificate ?d)) = Ok _ |- _ =>
    rename H into Hc, H' into Hp end.
  destruct (x509_ParseCertificate _) as [c'|] eqn:E; [|done]. injection Hp as ->.
  split; [by eexists|]. by eapply created.
Qed.

Lemma CreateCACertificate_Ok parent options r c k r' :
  Forall an_option options → CreateCACertificate parent options r = Ok ((c, k), r') →
  key_pair k ∧ parsed_cert c ∧ IsCA c = true.
Proof.
  unfold CreateCACertificate. intros Ho H. gen_inv. simplify_eq.
  match goal with H : NewEC256Key _ = _ |- _ => apply NewEC256Key_Ok in H as Hk end. split; [done|].
  match goal with H : CreateCertificate _ _ _ _ _ = _ |- _ => apply CreateCertificate_Ok in H as (? & _ & Hca & _) end.
  split; [done|]. rewrite Hca. match goal with |- context [applyCertOptions ?t options] =>
    by destruct (applyCertOptions_constraints t options Ho) as [-> ->] end.
Qed.

Lemma CreateX509SVID_Ok parent parentKey id td path options r c k r' :
  id_parts id td path → Forall an_option options → CreateX509SVID parent parentKey id options r = Ok ((c, k), r') →
  key_pair k ∧ parsed_cert c ∧ cert_PublicKey c = Public k ∧ IDFromCert c = Ok id ∧ IsCA c = false ∧
  digitalSignature c = true ∧ keyCertSign c = false ∧ cRLSign c = false.
Proof.
  intros Hid Ho. unfold CreateX509SVID, CreateX509Certificate. intros H. gen_inv. simplify_eq.
  match goal with H : NewEC256Key _ = _ |- _ => apply NewEC256Key_Ok in H as Hk end.
  match goal with H : CreateCertificate _ _ _ _ _ = _ |- _ => apply CreateCertificate_Ok in H as (Hp & Hpub & Hca & Hbits & Hu) end.
  rewrite applyCertOptions_app in Hca, Hbits, Hu. unfold digitalSignature, keyCertSign, cRLSign.
  rewrite !Hbits by done. destruct (id_parts_URL_String id td path Hid) as (u & Hu' & Hs).
  match goal with H : ID_URL _ = Ok ?v |- _ => assert (v = u) as -> by congruence; clear H end. split_and!; try done.
  - destruct (Hu u) as (u' & Hc & Hu''); [done| |].
    { revert Hu'. unfold ID_URL. rewrite (id_parts_not_zero _ _ _ Hid), (id_parts_TrustDomain _ _ _ Hid), (id_parts_Path _ _ _ Hid).
      by intros [= <-]. }
    unfold IDFromCert. rewrite Hc. unfold FromURI. rewrite Hu'', Hs. apply FromString_Ok. by exists td, path.
  - rewrite Hca. match goal with |- context [applyCertOptions ?t options] =>
      destruct (applyCertOptions_constraints t options Ho) as [Eb Ec]; set (t' := applyCertOptions t options) in * end.
    change (t_BasicConstraintsValid t' && t_IsCA t' = false). by rewrite Eb, Ec.
Qed.

(** *** Authorities *)
Inductive made : CA → Prop :=
  | made_New td ca r r' : NewCA td r = Ok (ca, r') → made ca
  | made_Child parent options ca r r' :
      made parent → Forall an_option options → ChildCA parent options r = Ok (ca, r') → made ca.

Lemma made_inv ca :
  made ca →
  key_pair (ca_jwtKey ca) ∧ all_bytes is_alnum (ca_jwtKid ca) = true ∧ String.length (ca_jwtKid ca) = 32 ∧
  (ca_parent ca ≠ None → ca_td ca = zero_TrustDomain) ∧
  parsed_cert (root_cert ca) ∧ IsCA (root_cert ca) = true ∧
  Forall (λ c, parsed_cert c ∧ IsCA c = true) (chain false ca).
Proof.
  induction 1 as [td ca r r' H|parent options ca r r' _ IH Ho H]; unfold NewCA, ChildCA in H; gen_inv; simplify_eq;
    match goal with H : CreateCACertificate _ _ _ = _ |- _ => apply CreateCACertificate_Ok in H as (_ & ? & ?); [|first [done|constructor]] end;
    match goal with H : NewEC256Key _ = _ |- _ => apply NewEC256Key_Ok in H end;
    match goal with H : NewKeyID _ = _ |- _ => apply NewKeyID_Ok in H as [? ?] end;
    cbn [ca_jwtKey ca_jwtKid ca_parent ca_td root_cert chain]; split_and!; try done.
  - by destruct IH as (_ & _ & _ & _ & ? & _).
  - by destruct IH as (_ & _ & _ & _ & _ & ? & _).
  - destruct IH as (_ & _ & _ & _ & _ & _ & ?). rewrite bool_decide_true by by eexists. by constructor.
Qed.

Lemma CA_CreateX509SVID_Ok ca id td path options r svid r' :
  made ca → id_parts id td path → Forall an_option options → CA_CreateX509SVID ca id options r = Ok (svid, r') →
  ∃ leaf k h, svid = X509Svid.mkSVID id (leaf :: chain false ca) k h ∧
    (∀ hint, last options = Some (WithHint hint) → h = hint) ∧ key_pair k ∧
    Forall parsed_cert (leaf :: chain false ca) ∧ cert_PublicKey leaf = Public k ∧ IDFromCert leaf = Ok id ∧
    IsCA leaf = false ∧ digitalSignature leaf = true ∧ keyCertSign leaf = false ∧ cRLSign leaf = false.
Proof.
  intros Hm Hid Ho. unfold CA_CreateX509SVID. intros H. gen_inv.
  subst.
  match goal with H : CreateX509SVID _ _ _ _ _ = Ok (?c, ?key, _) |- _ => rename c into leaf, key into k; eapply CreateX509SVID_Ok in H as (? & ? & ?); [|done..] end.
  destruct (applyX509SVIDOptions_hint (X509Svid.mkSVID id ([leaf] ++ chain false ca) k "") options Ho) as [h E].
  exists leaf, k, h. split; [exact E|]. split.
  - intros hint Hl. apply (applyX509SVIDOptions_last (X509Svid.mkSVID id ([leaf] ++ chain false ca) k "")) in Hl. by rewrite E in Hl.
  - split; [done|]. split; [|done]. constructor; [done|].
    destruct (made_inv ca Hm) as (_ & _ & _ & _ & _ & _ & Hc). eapply Forall_impl; [exact Hc|]. by intros c [].
Qed.

(** The CA of a chain whose intermediates may certify. *)
Definition may_certify (ca : CA) : Prop := Forall (λ c, keyCertSign c = true) (chain false ca).

Lemma minted_servable ca id td path leaf k h :
  made ca → id_parts id td path → key_pair k → Forall parsed_cert (leaf :: chain false ca) →
  cert_PublicKey leaf = Public k → IDFromCert leaf = Ok id →
  IsCA leaf = false → digitalSignature leaf = true → keyCertSign leaf = false → cRLSign leaf = false →
  servable (X509Svid.mkSVID id (leaf :: chain false ca) k h) ↔ path ≠ "" ∧ may_certify ca.
Proof.
  intros Hm Hid [Hk Hder] Hp Hpub Hleaf Hca Hd Hc Hr. destruct (made_inv ca Hm) as (_ & _ & _ & _ & _ & _ & Hchain).
  unfold servable; cbn [X509Svid.svid_ID X509Svid.svid_Certificates X509Svid.svid_PrivateKey]. rewrite newSVID_Ok. split.
  - intros (_ & (leaf' & signing & k' & id' & [= <- <-] & _ & (_ & Hpath & _) & Hs & _ & [= <- _]) & _).
    split; [|unfold may_certify; eapply Forall_impl; [exact Hs|by intros c []]].
    intros ->. by rewrite (id_parts_Path _ _ _ Hid) in Hpath.
  - intros [Hpath Hmay]. split_and!; [done| |done]. exists leaf, (chain false ca), k, id. split_and!; try done.
    + unfold leaf_for. rewrite (id_parts_Path _ _ _ Hid). split_and!; congruence.
    + apply Forall_and in Hchain as [_ Hcas]. by apply Forall_and.
    + by rewrite Hpub.
Qed.

(** *** Tokens *)
Lemma parse_same_claims now token audience v v' tok :
  jwt_ParseSigned token allowedSignatureAlgorithms = inl tok → (∀ td claims, UnsafeClaims tok = inl claims →
    (FromString (Subject claims) ≫= ID_TrustDomain) = Ok td → v tok td = v' tok td) →
  JwtSvid.parse now token audience v = JwtSvid.parse now token audience v'.
Proof.
  intros Ht Hv. unfold JwtSvid.parse. rewrite Ht. cbn [of_lib wrap_err mbind res_bind].
  destruct (JwtSvid.header0 tok) as [h| |]; [|done..]. cbn [mbind res_bind]. case_match; [done|].
  destruct (UnsafeClaims tok) as [claims|] eqn:Ec; [|done]. cbn [of_lib wrap_err mbind res_bind].
  case_bool_decide; [done|]. case_match; [|done].
  destruct (FromString (Subject claims)) as [i| |] eqn:Ei; [|done..]. cbn [wrap_err mbind res_bind].
  destruct (ID_TrustDomain i) as [td| |] eqn:Et; [|done..]. cbn [mbind res_bind].
  rewrite (Hv td claims); [done|done|]. rewrite Ei. done.
Qed.

Lemma CreateJWTSVID_Ok ca id td path audience options r svid r' :
  made ca → id_parts id td path → ascii_text (ID_String id) = true → Forall (λ a, ascii_text a = true) audience →
  Forall an_option options → CreateJWTSVID ca id audience options r = Ok (svid, r') →
  JwtSvid.svid_ID svid = id ∧ JwtSvid.svid_Audience svid = audience ∧
  ∃ tok m, jwt_ParseSigned (JwtSvid.token svid) allowedSignatureAlgorithms = inl tok ∧
    Headers tok = [mkHeader (ca_jwtKid ca) (Some (JString "JWT"))] ∧
    (∃ claims, UnsafeClaims tok = inl claims ∧ Subject claims = ID_String id) ∧
    tok_Claims (Public (ca_jwtKey ca)) tok = inl m.
Proof.
  intros Hm Hid Hascii Haud Ho. unfold CreateJWTSVID. intros H. gen_inv. subst.
  destruct (made_inv ca Hm) as ([Hpub _] & Halnum%(all_bytes_impl _ _ _ alnum_ascii) & _).
  match goal with H : require_NoError (of_lib (jose_NewSigner ?sk)) = Ok _ |- _ =>
    destruct (jose_NewSigner sk) as [sgn|] eqn:Esgn; [|done]; injection H as <- end.
  match goal with H : jwt_Serialize _ _ _ = _ |- _ => rename H into Hser end.
  eapply (signed (mkSigningKey _ (ca_jwtKey ca) _ _) _ _ _ _ _ _ Hpub Esgn) in Hser as (tok & m & Hparse & Hh & Hc & Hm'); [|done..].
  match goal with H : require_NoError (JwtSvid.ParseInsecure ?n ?t ?a) = Ok ?s |- _ =>
    destruct (JwtSvid.ParseInsecure n t a) as [s'| |] eqn:Ep; [|done..]; injection H as <- end.
  destruct (applyJWTSVIDOptions_hint s' options Ho) as [h ->]. cbn [JwtSvid.svid_ID JwtSvid.svid_Audience JwtSvid.token].
  apply jwtsvid_parse_Ok in Ep as (tok' & h' & claims & exp & td' & path' & m' & Hp & _ & _ & Huc & _ & Hid' & Esub & _ & _ & Es).
  rewrite (Hparse allowedSignatureAlgorithms) in Hp by (repeat constructor). injection Hp as <-.
  rewrite Hc in Huc. injection Huc as <-. cbn [ic_Claims Subject] in Esub.
  assert (JwtSvid.svid_ID s' = id) as Eid.
  { assert (FromString (ID_String id) = Ok (JwtSvid.svid_ID s')) as E1 by (apply FromString_Ok; by exists td', path').
    assert (FromString (ID_String id) = Ok id) as E2 by (apply FromString_Ok; by exists td, path). congruence. }
  split; [done|]. rewrite Es; cbn [JwtSvid.svid_Audience JwtSvid.token]. split; [done|].
  exists tok, m. split_and!; [apply Hparse; repeat constructor|done|by eexists|done].
Qed.

Lemma own_bundle_validator ca tok td m :
  made ca → Headers tok = [mkHeader (ca_jwtKid ca) (Some (JString "JWT"))] →
  tok_Claims (Public (ca_jwtKey ca)) tok = inl m → ca_td ca = td →
  JwtSvid.bundle_validator (CA_JWTBundle ca) tok td = insecure_validator tok td.
Proof.
  intros Hm Hh Hc <-. destruct (made_inv ca Hm) as (_ & _ & Hlen & _).
  unfold insecure_validator. rewrite (verified_payload _ _ _ Hc). cbn [of_lib wrap_err].
  apply bundle_validator_Ok. eexists _, (CA_JWTBundle ca), _. rewrite Hh. split_and!; [done| | | |exact Hc].
  - cbn [hdr_KeyID]. intros E. by rewrite E in Hlen.
  - unfold GetJWT, JwtBundle.Bundle_Source, JwtBundle.GetJWTBundleForTrustDomain. by rewrite bool_decide_true.
  - unfold JwtBundle.FindJWTAuthority, CA_JWTBundle, JwtBundle.FromJWTAuthorities, JWTAuthorities. cbn [JwtBundle.jwtAuthorities hdr_KeyID].
    by rewrite CopyJWTAuthorities_id, lookup_singleton_eq.
Qed.

(** [C39] What the certificate authority of the tests issues is what the library accepts.
    An X509-SVID from it, whatever its options, has the requested ID, the last hint, and
    passes the validation of x509svid, with a key that can be encoded, exactly when the ID
    has a path and every child CA in its chain was made with keyCertSign (ChildCA does not
    set it). A JWT-SVID from it has the requested ID and audience, and validation with the
    bundle of the CA is parsing without verification, for an ID in its own trust domain;
    no other ID is accepted. A child CA has no trust domain: its bundles are never those
    of the SVIDs that it issues. *)
Theorem minted_svids_validate ca :
  made ca →
  (∀ id td path options r svid r', id_parts id td path → Forall an_option options →
     CA_CreateX509SVID ca id options r = Ok (svid, r') →
     X509Svid.svid_ID svid = id ∧ (∀ hint, last options = Some (WithHint hint) → X509Svid.Hint svid = hint) ∧
     (servable svid ↔ path ≠ "" ∧ may_certify ca)) ∧
  (∀ id td path audience options r svid r', id_parts id td path → ascii_text (ID_String id) = true →
     Forall (λ a, ascii_text a = true) audience → Forall an_option options →
     CreateJWTSVID ca id audience options r = Ok (svid, r') →
     JwtSvid.svid_ID svid = id ∧ JwtSvid.svid_Audience svid = audience ∧
     ∀ now audience',
       (ca_td ca = td → JwtSvid.ParseAndValidate now (JwtSvid.Marshal svid) (CA_JWTBundle ca) audience' =
                        JwtSvid.ParseInsecure now (JwtSvid.Marshal svid) audience') ∧
       (ca_td ca ≠ td → is_Ok (JwtSvid.ParseAndValidate now (JwtSvid.Marshal svid) (CA_JWTBundle ca) audience') = false)) ∧
  (ca_parent ca ≠ None → ∀ id td path, id_parts id td path →
     is_Ok (X509Bundle.GetX509 (CA_X509Bundle ca) td) = false ∧ is_Ok (JwtBundle.GetJWT (CA_JWTBundle ca) td) = false) ∧
  SpiffeBundle.X509Bundle_ (CA_Bundle ca) = CA_X509Bundle ca ∧ SpiffeBundle.JWTBundle (CA_Bundle ca) = CA_JWTBundle ca.
Proof.
  intros Hm. split_and!.
  - intros id td path options r svid r' Hid Ho H.
    eapply CA_CreateX509SVID_Ok in H as (leaf & k & h & -> & Hlast & Hk & Hp & Hpub & Hl & Hca & Hd & Hc & Hr); [|done..].
    split_and!; [done|done|by apply (minted_servable ca id td path)].
  - intros id td path audience options r svid r' Hid Hascii Haud Ho H.
    eapply CreateJWTSVID_Ok in H as (Ei & Ea & tok & m & Hp & Hh & (claims & Hc & Hs) & Hv); [|done..].
    split_and!; [done..|]. intros now audience'. unfold JwtSvid.ParseAndValidate, JwtSvid.ParseInsecure, JwtSvid.Marshal.
    assert (∀ i td' path', id_parts i td' path' → id_ i = ID_String id → td' = td) as Htd.
    { intros i td' path' Hi Es. assert (FromString (ID_String id) = Ok i) as E1 by (apply FromString_Ok; by exists td', path').
      assert (FromString (ID_String id) = Ok id) as E2 by (apply FromString_Ok; by exists td, path).
      assert (i = id) as -> by congruence. by destruct (id_parts_inj _ _ _ _ _ Hi Hid). }
    split.
    + intros Etd. apply (parse_same_claims _ _ _ _ _ tok Hp). intros td' claims' Hc' Htd'.
      apply (own_bundle_validator _ _ _ m); [done..|]. rewrite Etd. assert (claims' = claims) as -> by congruence. rewrite Hs in Htd'.
      rewrite (proj2 (FromString_Ok (ID_String id) id)) in Htd' by (by exists td, path). cbn in Htd'.
      rewrite (id_parts_TrustDomain _ _ _ Hid) in Htd'. by injection Htd'.
    + intros Hne. apply not_true_is_false. destruct (JwtSvid.parse _ _ _ _) as [s| |] eqn:E; [intros _|done..].
      apply jwtsvid_parse_Ok in E as (tok' & h & cl & exp & td' & path' & m' & Hp' & _ & _ & Hc' & _ & Hi & Es & Hb & _).
      assert (tok' = tok) as -> by congruence. assert (cl = claims) as -> by congruence. rewrite Hs in Es.
      apply bundle_validator_Ok in Hb as (_ & b & _ & _ & _ & Hb & _). rewrite (Htd _ _ _ Hi Es) in Hb.
      unfold GetJWT, JwtBundle.Bundle_Source, JwtBundle.GetJWTBundleForTrustDomain in Hb. by rewrite bool_decide_false in Hb.
  - intros Hpar id td path Hid. destruct (made_inv ca Hm) as (_ & _ & _ & Htd & _).
    assert (ca_td ca ≠ td) as Hne. { rewrite Htd by done. destruct Hid as (Hz & _). by intros <-. }
    unfold X509Bundle.GetX509, X509Bundle.Bundle_Source, X509Bundle.GetX509BundleForTrustDomain,
      GetJWT, JwtBundle.Bundle_Source, JwtBundle.GetJWTBundleForTrustDomain.
    by rewrite !bool_decide_false.
  - unfold SpiffeBundle.X509Bundle_, CA_X509Bundle, CA_Bundle, X509Bundle.FromX509Authorities, SpiffeBundle.SetX509Authorities. cbn [SpiffeBundle.trustDomain SpiffeBundle.x509Authorities SpiffeBundle.SetJWTAuthorities SpiffeBundle.with_jwt SpiffeBundle.with_x509].
    by rewrite !CopyX509Authorities_id.
  - unfold SpiffeBundle.JWTBundle, CA_JWTBundle, CA_Bundle, JwtBundle.FromJWTAuthorities. cbn.
    by rewrite !CopyJWTAuthorities_id.
Qed.
End ca_lemmas.

(** ** Witness: an authority, an X509-SVID and a JWT-SVID for a workload. Every key is the
    same, and the clock stands still; a root and the certificate and token of the workload
    are what crypto/x509 and go-jose can make. *)
Definition sample_ec_key : PrivateKey := ECDSA_PrivateKey "P-256" 1 2 "secret".
Definition sample_root : Certificate := mkCertificate "R" (ECDSA_PublicKey "P-256" 1 2) [] true 0.
Definition sample_leaf : Certificate := mkCertificate "W" (ECDSA_PublicKey "P-256" 1 2) [spiffe_url "example.org" "/workload"] false 1.
Definition sample_kid : string := "aaaaaaaaaaaaaaaaaaaaaaaaaaaaaaaa".
Definition sample_claims : Claims := mkClaims "spiffe://example.org/workload" ["aud"] (Some 3700%Z) None.
Definition sample_jwt : sample_token := mkSampleToken (mkHeader sample_kid (Some (JString "JWT"))) sample_claims
  [("sub", JString "spiffe://example.org/workload")] "".
Definition no_call : error := extern_error "sample" "not there".

#[local] Instance ca_X509Lib : X509Lib := {|
  pem_Decode s := (None, s);
  pem_EncodeToMemory b := "";
  x509_ParseCertificate der :=
    if bool_decide (der = "R") then inl sample_root else if bool_decide (der = "W") then inl sample_leaf else inr no_call;
  x509_ParseCertificates der := inr no_call;
  x509_ParsePKCS8PrivateKey der := inl sample_ec_key;
  x509_MarshalPKCS8PrivateKey k := inl "key";
|}.

#[local] Instance ca_JwtLib : JwtLib := {|
  JSONWebToken := sample_token;
  Headers t := [st_header t];
  jwt_ParseSigned s _ := if bool_decide (s = "T") then inl sample_jwt else inr no_call;
  UnsafeClaims t := inl (st_claims t);
  UnsafeClaimsMap t := inl (st_map t);
  tok_Claims k t := if bool_decide (k = ECDSA_PublicKey "P-256" 1 2) then inl (st_map t) else inr no_call;
  ValidateWithLeeway := sample_validate;
|}.

#[local] Instance ca_JwtLaws : JwtLaws ca_JwtLib.
Proof.
  split.
  - intros token algs tok _. by eexists.
  - intros k tok m. cbn. case_bool_decide; congruence.
  - apply (validated_time (J := sample_JwtLib)).
  - apply (validated_audience (J := sample_JwtLib)).
Qed.

Definition is_root (t : Template) : bool := bool_decide (t_BasicConstraintsValid t && t_IsCA t ∧ t_KeyUsage t = 0%Z ∧ t_URIs t = []).
Definition is_leaf (t : Template) : bool :=
  bool_decide (t_BasicConstraintsValid t && t_IsCA t = false ∧ t_KeyUsage t = 1%Z ∧ t_URIs t = [spiffe_url "example.org" "/workload"]).

#[local] Instance sample_Fmt : Fmt := λ format args, format.

#[local] Instance sample_CALib : CALib unit := {|
  ecdsa_GenerateKey curve r := (inl (ECDSA_PrivateKey curve 1 2 "secret"), r);
  rand_Read n r := (inl (String.string_of_list_ascii (replicate n (ascii_of_nat 0))), r);
  time_Now r := (100%Z, r);
  x509_CreateCertificate t parent pub priv r :=
    (if negb (bool_decide (pub = ECDSA_PublicKey "P-256" 1 2)) then inr no_call
     else if is_root t then inl "R" else if is_leaf t then inl "W" else inr no_call, r);
  Signer := SigningKey;
  jose_NewSigner k := inl k;
  jwt_Serialize k cl r :=
    (if bool_decide (sk_KeyID k = sample_kid ∧ sk_Type k = "JWT" ∧ public_of (sk_Key k) = Some (ECDSA_PublicKey "P-256" 1 2)) &&
        bool_decide (Subject (ic_Claims cl) = Subject sample_claims ∧ Audience (ic_Claims cl) = ["aud"] ∧
          Expiry (ic_Claims cl) = Some 3700%Z ∧ NotBefore (ic_Claims cl) = None)
     then inl "T" else inr no_call, r);
|}.

#[local] Instance sample_CALaws : CALaws sample_CALib.
Proof.
  split.
  - intros curve r k r' [= <- _]. split; [by eexists _, _, _|by eexists].
  - intros n r bs r' [= <- _]. induction n as [|n IH]; [done|]. cbn. by f_equal.
  - intros t parent pub priv r der r' c. cbn. case_bool_decide as Hp; [subst|done]. cbn.
    unfold is_root, is_leaf. case_bool_decide as H1; [|case_bool_decide as H2; [|done]].
    + intros [= <- _]. destruct H1 as (H1 & H2 & H3). intros [= <-]. apply Is_true_true in H1. rewrite H1, H2, H3.
      split_and!; done.
    + intros [= <- _] [= <-]. destruct H2 as (-> & -> & ->). split_and!; [done..|]. intros u [= <-] _. by eexists.
  - intros sk pub sgn cl r token r' Hpub [= <-] _ _ _. cbn.
    destruct (bool_decide _) eqn:E1; [|done]. destruct (bool_decide (Subject _ = _ ∧ _)) eqn:E2; [|done].
    apply bool_decide_eq_true in E1 as (-> & -> & Hk), E2 as (H1 & H2 & H3 & H4). intros [= <- _].
    eexists sample_jwt, _. split_and!; [done|done| |].
    + cbn. f_equal. destruct (ic_Claims cl). by cbn in *; subst.
    + cbn. rewrite bool_decide_true by congruence. done.
Qed.

Lemma minted_svids_validate_witness :
  ∃ ca svid jwtSvid,
    NewCA (mkTrustDomain "example.org") tt = Ok (ca, tt) ∧
    CA_CreateX509SVID ca X509Svid.workload_id [WithHint "x"; WithHint "h"] tt = Ok (svid, tt) ∧
    servable (C := charset_deny) svid ∧ X509Svid.Hint svid = "h" ∧
    CreateJWTSVID (C := charset_deny) ca X509Svid.workload_id ["aud"] [] tt = Ok (jwtSvid, tt) ∧
    is_Ok (JwtSvid.ParseAndValidate (C := charset_deny) 200 (JwtSvid.Marshal jwtSvid) (CA_JWTBundle ca) ["aud"]) = true.
Proof.
  assert (id_parts (C := charset_deny) X509Svid.workload_id (mkTrustDomain "example.org") "/workload") as Hid
    by (split_and!; [done|by vm_compute..]).
  destruct (NewCA (mkTrustDomain "example.org") tt) as [[ca []]| |] eqn:Hca; try (by vm_compute in Hca).
  assert (made ca) as Hm by by eapply made_New.
  destruct (CA_CreateX509SVID ca X509Svid.workload_id [WithHint "x"; WithHint "h"] tt) as [[svid []]| |] eqn:Hs;
    try (vm_compute in Hca; injection Hca as <-; by vm_compute in Hs).
  destruct (CreateJWTSVID (C := charset_deny) ca X509Svid.workload_id ["aud"] [] tt) as [[j []]| |] eqn:Hj;
    try (vm_compute in Hca; injection Hca as <-; by vm_compute in Hj).
  destruct (minted_svids_validate (C := charset_deny) ca Hm) as (Hx & Ht & _).
  exists ca, svid, j. split; [done|]. split; [done|].
  assert (Hs' := Hs). eapply Hx in Hs' as (_ & Hh & Hserv); [|exact Hid|repeat constructor].
  assert (Hj' := Hj). eapply Ht in Hj' as (_ & _ & Hv); [|exact Hid|by vm_compute|repeat constructor..].
  split_and!; [| |done|].
  - apply Hserv. split; [done|]. vm_compute in Hca. injection Hca as <-. constructor.
  - by apply Hh.
  - destruct (Hv 200%Z ["aud"]) as [Hv' _]. vm_compute in Hca. injection Hca as <-. rewrite Hv' by done.
    vm_compute in Hj. injection Hj as <-. by vm_compute.
Defined.
