(* ===== verification/KeyMemory.v ===== *)
(** * JWT keys in memory: bundles, sets and sources that share maps and pointers

    JwtBundle.v and Sources.v model a bundle as a value. In the program a bundle is an
    object behind a pointer, with a Go map that assignments change in place; a Set holds
    pointers to bundles, a JWTSource the pointer to a Set, and a BundleSource maps of its
    own. This file models src/bundle/jwtbundle/bundle.go and set.go,
    src/internal/jwtutil/util.go and the JWT part of src/workloadapi/jwtsource.go and
    bundlesource.go over a heap of maps, bundles, sets and sources, with callers that keep
    the maps they pass in and get back and write to them. The specification keeps the same
    pointers and the values of JwtBundle.v; the refinement says that every call does to the
    heap what it does to the values: no two of the maps are ever the same object. Bundles
    come from the package's functions; sources are open. *)

From S2P Require Import Prelude Path GoUrl ID Crypto X509 X509Sample Pem BundleSet X509Bundle Jose JwtBundle WitBundle SpiffeBundle X509Svid Jwt JwtSvid WitSvid Backoff Addr Client Watcher Sources.

Definition loc : Type := positive.
Abbreviation keys := (gmap string PublicKey).

(** A jwtbundle.Bundle; its mutex makes a method one step. *)
Record cell : Type := mkCell { c_trustDomain : TrustDomain; c_jwtAuthorities : loc }.

Record heap : Type := mkHeap {
  maps : gmap loc keys;
  bundles : gmap loc cell;
  sets : gmap loc (gmap TrustDomain loc);
  jwt_sources : gmap loc (option loc);                 (* the bundles field: a *jwtbundle.Set *)
  bundle_sources : gmap loc (gmap TrustDomain loc);    (* the jwtAuthorities field *)
}.

Definition set_maps x (h : heap) : heap := mkHeap x (bundles h) (sets h) (jwt_sources h) (bundle_sources h).
Definition set_bundles x (h : heap) : heap := mkHeap (maps h) x (sets h) (jwt_sources h) (bundle_sources h).
Definition set_sets x (h : heap) : heap := mkHeap (maps h) (bundles h) x (jwt_sources h) (bundle_sources h).
Definition set_jwt_sources x (h : heap) : heap := mkHeap (maps h) (bundles h) (sets h) x (bundle_sources h).
Definition set_bundle_sources x (h : heap) : heap := mkHeap (maps h) (bundles h) (sets h) (jwt_sources h) x.

(** Code over the heap; None is a panic. *)
Definition M (A : Type) : Type := heap → option (A * heap).
Definition ret {A} (a : A) : M A := λ h, Some (a, h).
Definition bind {A B} (m : M A) (k : A → M B) : M B := λ h, match m h with Some (a, h) => k a h | None => None end.
Notation "'let*' x := m 'in' k" := (bind m (λ x, k)) (at level 10, x name, k at level 200).

Definition get {A} (field : heap → gmap loc A) (l : loc) : M A := λ h,
  match field h !! l with Some a => Some (a, h) | None => None end.

Definition new_map (m : keys) : M loc := λ h,
  let l := fresh (dom (maps h)) in Some (l, set_maps (<[l := m]> (maps h)) h).
Definition write_map (l : loc) (m : keys) : M unit := λ h, Some (tt, set_maps (<[l := m]> (maps h)) h).

(** Ranging over a map; None is the nil map. *)
Definition read_map (l : option loc) : M keys := match l with None => ret ∅ | Some l => get maps l end.

Definition new_bundle (c : cell) : M loc := λ h,
  let b := fresh (dom (bundles h)) in Some (b, set_bundles (<[b := c]> (bundles h)) h).
Definition store_bundle (b : loc) (c : cell) : M unit := λ h, Some (tt, set_bundles (<[b := c]> (bundles h)) h).

(** ** util.go and bundle.go *)
Definition CopyJWTAuthorities (jwtAuthorities : option loc) : M loc :=
  let* m := read_map jwtAuthorities in new_map (Crypto.CopyJWTAuthorities m).

Definition New (td : TrustDomain) : M loc :=
  let* m := new_map ∅ in new_bundle (mkCell td m).

Definition FromJWTAuthorities (td : TrustDomain) (jwtAuthorities : option loc) : M loc :=
  let* copied := CopyJWTAuthorities jwtAuthorities in new_bundle (mkCell td copied).

Definition JWTAuthorities (b : loc) : M loc :=
  let* c := get bundles b in CopyJWTAuthorities (Some (c_jwtAuthorities c)).

Definition FindJWTAuthority (b : loc) (keyID : string) : M (option PublicKey * bool) :=
  let* c := get bundles b in
  let* m := get maps (c_jwtAuthorities c) in
  ret (match m !! keyID with Some k => (Some k, true) | None => (None, false) end).

Definition AddJWTAuthority (b : loc) (keyID : string) (jwtAuthority : PublicKey) : M (res unit) :=
  let* c := get bundles b in
  if bool_decide (keyID = "") then ret (Err (wrapJwtbundleErr (errors_New "keyID cannot be empty")))
  else
    let* m := get maps (c_jwtAuthorities c) in
    let* _ := write_map (c_jwtAuthorities c) (<[keyID := jwtAuthority]> m) in
    ret (Ok ()).

Definition RemoveJWTAuthority (b : loc) (keyID : string) : M unit :=
  let* c := get bundles b in
  let* m := get maps (c_jwtAuthorities c) in
  write_map (c_jwtAuthorities c) (delete keyID m).

Definition SetJWTAuthorities (b : loc) (jwtAuthorities : option loc) : M unit :=
  let* c := get bundles b in
  let* copied := CopyJWTAuthorities jwtAuthorities in
  store_bundle b (mkCell (c_trustDomain c) copied).

Definition Clone (b : loc) : M loc :=
  let* c := get bundles b in FromJWTAuthorities (c_trustDomain c) (Some (c_jwtAuthorities c)).

Definition no_JWT_bundle {A} (td : TrustDomain) : res A :=
  Err (wrapJwtbundleErr (fmt_Errorf "no JWT bundle for trust domain %q" [Arg_s (TrustDomain_String td)])).

Definition GetJWTBundleForTrustDomain (b : loc) (td : TrustDomain) : M (res loc) :=
  let* c := get bundles b in
  ret (if negb (bool_decide (c_trustDomain c = td)) then no_JWT_bundle td else Ok b).

(** ** set.go: a set holds pointers; nil pointers are skipped. *)
Definition put_pointer (m : gmap TrustDomain loc) (b : option loc) : M (gmap TrustDomain loc) :=
  match b with
  | None => ret m
  | Some b => let* c := get bundles b in ret (<[c_trustDomain c := b]> m)
  end.

Fixpoint put_pointers (m : gmap TrustDomain loc) (bs : list (option loc)) : M (gmap TrustDomain loc) :=
  match bs with
  | [] => ret m
  | b :: bs => let* m := put_pointer m b in put_pointers m bs
  end.

Definition store_set (s : loc) (m : gmap TrustDomain loc) : M unit := λ h, Some (tt, set_sets (<[s := m]> (sets h)) h).

Definition NewSet (bs : list (option loc)) : M loc :=
  let* m := put_pointers ∅ bs in
  λ h, let s := fresh (dom (sets h)) in Some (s, set_sets (<[s := m]> (sets h)) h).

Definition Add (s : loc) (b : option loc) : M unit :=
  let* m := get sets s in let* m := put_pointer m b in store_set s m.

Definition Remove (s : loc) (td : TrustDomain) : M unit :=
  let* m := get sets s in store_set s (delete td m).

Definition Set_GetJWTBundleForTrustDomain (s : loc) (td : TrustDomain) : M (res loc) :=
  let* m := get sets s in
  ret (match m !! td with None => no_JWT_bundle td | Some b => Ok b end).

(** Bundles: the pointers, sorted by the trust domains of the bundles. *)
Definition td_le (x y : TrustDomain * loc) : Prop := (Compare y.1 x.1 <? 0)%Z = false.
#[export] Instance td_le_dec : RelDecision td_le.
Proof. intros x y. unfold td_le. apply _. Defined.

Definition Bundles (m : gmap TrustDomain loc) : list loc := (merge_sort td_le (map_to_list m)).*2.

(** ** jwtsource.go: the source keeps the pointer it is given and hands out the set's. *)
Definition JWTSource_setJWTBundles (j s : loc) : M unit := λ h,
  Some (tt, set_jwt_sources (<[j := Some s]> (jwt_sources h)) h).

Definition JWTSource_GetJWTBundleForTrustDomain (j : loc) (td : TrustDomain) : M (res loc) :=
  let* s := get jwt_sources j in
  match s with
  | None => λ _, None      (* a nil *jwtbundle.Set *)
  | Some s => Set_GetJWTBundleForTrustDomain s td
  end.

(** ** bundlesource.go: the source copies what it is given and what it hands out. *)
Fixpoint add_authorities (newBundles : list loc) (m : gmap TrustDomain loc) (tds : gset TrustDomain)
    : M (gmap TrustDomain loc * gset TrustDomain) :=
  match newBundles with
  | [] => ret (m, tds)
  | b :: newBundles =>
      let* c := get bundles b in
      let* l := JWTAuthorities b in
      add_authorities newBundles (<[c_trustDomain c := l]> m) ({[c_trustDomain c]} ∪ tds)
  end.

Definition store_bundle_source (x : loc) (m : gmap TrustDomain loc) : M unit := λ h,
  Some (tt, set_bundle_sources (<[x := m]> (bundle_sources h)) h).

Definition BundleSource_setJWTBundles (x s : loc) : M unit :=
  let* m := get bundle_sources x in
  let* set := get sets s in
  let* r := add_authorities (Bundles set) m ∅ in
  store_bundle_source x (drop_missing r.2 (map_to_list r.1).*1 r.1).

Definition BundleSource_GetJWTBundleForTrustDomain (x : loc) (td : TrustDomain) : M (res loc) :=
  let* m := get bundle_sources x in
  match m !! td with
  | None => ret (no_bundle "no JWT bundle for trust domain %q" td)
  | Some jwtAuthorities =>
      let* b := FromJWTAuthorities td (Some jwtAuthorities) in ret (Ok b)
  end.

(** ** Callers: the maps they hold, the calls they make

    A map is named by its index among those a caller has made or received; the argument
    None is a nil map. *)
Record memory : Type := mkMemory { m_heap : heap; m_held : list loc }.

Inductive call : Type :=
  | C_New (td : TrustDomain)
  | C_From (td : TrustDomain) (i : option nat)
  | C_JWTAuthorities (b : loc)
  | C_Find (b : loc) (keyID : string)
  | C_Add (b : loc) (keyID : string) (jwtAuthority : PublicKey)
  | C_Remove (b : loc) (keyID : string)
  | C_Set (b : loc) (i : option nat)
  | C_Clone (b : loc)
  | C_Get (b : loc) (td : TrustDomain)
  | C_NewSet (bs : list (option loc))
  | C_Set_Add (s : loc) (b : option loc)
  | C_Set_Remove (s : loc) (td : TrustDomain)
  | C_Set_Get (s : loc) (td : TrustDomain)
  | C_NewJWTSource
  | C_JWTSource_set (j s : loc)
  | C_JWTSource_get (j : loc) (td : TrustDomain)
  | C_NewBundleSource
  | C_BundleSource_set (x s : loc)
  | C_BundleSource_get (x : loc) (td : TrustDomain)
  | C_make                                               (* make(map[string]crypto.PublicKey) *)
  | C_assign (i : nat) (keyID : string) (k : PublicKey)  (* m[keyID] = k *)
  | C_delete (i : nat) (keyID : string).                 (* delete(m, keyID) *)

Inductive result : Type :=
  | R_unit
  | R_ptr (l : loc)
  | R_held (i : nat)
  | R_found (r : option PublicKey * bool)
  | R_err (r : res unit)
  | R_bundle (r : res loc).

Definition on_heap {A} (m : M A) (k : A → result) (σ : memory) : option (result * memory) :=
  match m (m_heap σ) with Some (a, h) => Some (k a, mkMemory h (m_held σ)) | None => None end.
Definition on_map (m : M loc) (σ : memory) : option (result * memory) :=
  match m (m_heap σ) with
  | Some (l, h) => Some (R_held (length (m_held σ)), mkMemory h (m_held σ ++ [l]))
  | None => None
  end.

(** The argument of a call; None when there is no such map. *)
Definition with_arg (i : option nat) (f : option loc → memory → option (result * memory)) (σ : memory)
    : option (result * memory) :=
  match i with
  | None => f None σ
  | Some i => match m_held σ !! i with Some l => f (Some l) σ | None => None end
  end.

Definition new_source_jwt : M loc := λ h,
  let j := fresh (dom (jwt_sources h)) in Some (j, set_jwt_sources (<[j := None]> (jwt_sources h)) h).
Definition new_source_bundle : M loc := λ h,
  let x := fresh (dom (bundle_sources h)) in Some (x, set_bundle_sources (<[x := ∅]> (bundle_sources h)) h).

Definition client_write (i : nat) (f : keys → keys) (σ : memory) : option (result * memory) :=
  match m_held σ !! i with
  | Some l => on_heap (let* m := get maps l in write_map l (f m)) (λ _, R_unit) σ
  | None => None
  end.

Definition step (c : call) : memory → option (result * memory) :=
  match c with
  | C_New td => on_heap (New td) R_ptr
  | C_From td i => with_arg i (λ l, on_heap (FromJWTAuthorities td l) R_ptr)
  | C_JWTAuthorities b => on_map (JWTAuthorities b)
  | C_Find b keyID => on_heap (FindJWTAuthority b keyID) R_found
  | C_Add b keyID k => on_heap (AddJWTAuthority b keyID k) R_err
  | C_Remove b keyID => on_heap (RemoveJWTAuthority b keyID) (λ _, R_unit)
  | C_Set b i => with_arg i (λ l, on_heap (SetJWTAuthorities b l) (λ _, R_unit))
  | C_Clone b => on_heap (Clone b) R_ptr
  | C_Get b td => on_heap (GetJWTBundleForTrustDomain b td) R_bundle
  | C_NewSet bs => on_heap (NewSet bs) R_ptr
  | C_Set_Add s b => on_heap (Add s b) (λ _, R_unit)
  | C_Set_Remove s td => on_heap (Remove s td) (λ _, R_unit)
  | C_Set_Get s td => on_heap (Set_GetJWTBundleForTrustDomain s td) R_bundle
  | C_NewJWTSource => on_heap new_source_jwt R_ptr
  | C_JWTSource_set j s =>
      on_heap (let* _ := get jwt_sources j in let* _ := get sets s in JWTSource_setJWTBundles j s) (λ _, R_unit)
  | C_JWTSource_get j td => on_heap (JWTSource_GetJWTBundleForTrustDomain j td) R_bundle
  | C_NewBundleSource => on_heap new_source_bundle R_ptr
  | C_BundleSource_set x s => on_heap (BundleSource_setJWTBundles x s) (λ _, R_unit)
  | C_BundleSource_get x td => on_heap (BundleSource_GetJWTBundleForTrustDomain x td) R_bundle
  | C_make => on_map (new_map ∅)
  | C_assign i keyID k => client_write i (<[keyID := k]>)
  | C_delete i keyID => client_write i (delete keyID)
  end.

Definition empty_memory : memory := mkMemory (mkHeap ∅ ∅ ∅ ∅ ∅) [].

Inductive reachable : memory → Prop :=
  | reachable_empty : reachable empty_memory
  | reachable_step σ c r σ' : reachable σ → step c σ = Some (r, σ') → reachable σ'.

(** ** Specification: the same pointers, and values for the maps *)
Record astate : Type := mkAstate {
  a_bundles : gmap loc JwtBundle.Bundle;
  a_sets : gmap loc (gmap TrustDomain loc);
  a_jwt_sources : gmap loc (option loc);
  a_bundle_sources : gmap loc (gmap TrustDomain keys);
  a_held : list keys;
}.

Definition put_bundle (b : loc) (v : JwtBundle.Bundle) (a : astate) : astate :=
  mkAstate (<[b := v]> (a_bundles a)) (a_sets a) (a_jwt_sources a) (a_bundle_sources a) (a_held a).
Definition put_set (s : loc) (m : gmap TrustDomain loc) (a : astate) : astate :=
  mkAstate (a_bundles a) (<[s := m]> (a_sets a)) (a_jwt_sources a) (a_bundle_sources a) (a_held a).
Definition put_jwt_source (j : loc) (s : option loc) (a : astate) : astate :=
  mkAstate (a_bundles a) (a_sets a) (<[j := s]> (a_jwt_sources a)) (a_bundle_sources a) (a_held a).
Definition put_bundle_source (x : loc) (m : gmap TrustDomain keys) (a : astate) : astate :=
  mkAstate (a_bundles a) (a_sets a) (a_jwt_sources a) (<[x := m]> (a_bundle_sources a)) (a_held a).
Definition set_held (l : list keys) (a : astate) : astate :=
  mkAstate (a_bundles a) (a_sets a) (a_jwt_sources a) (a_bundle_sources a) l.

Definition new_value (v : JwtBundle.Bundle) (a : astate) : result * astate :=
  let b := fresh (dom (a_bundles a)) in (R_ptr b, put_bundle b v a).
Definition hold (m : keys) (a : astate) : result * astate := (R_held (length (a_held a)), set_held (a_held a ++ [m]) a).
Definition arg (i : option nat) (a : astate) : option keys := match i with None => Some ∅ | Some i => a_held a !! i end.

(** The bundles of a set, and filing bundles under their trust domains. *)
Definition set_value (bs : gmap loc JwtBundle.Bundle) (m : gmap TrustDomain loc) : JwtBundle.Set_ :=
  BundleSet.mkSet (omap (λ b, bs !! b) m).
Fixpoint file (bs : gmap loc JwtBundle.Bundle) (m : gmap TrustDomain loc) (l : list (option loc)) : option (gmap TrustDomain loc) :=
  match l with
  | [] => Some m
  | None :: l => file bs m l
  | Some b :: l => v ← bs !! b; file bs (<[JwtBundle.trustDomain v := b]> m) l
  end.

Definition pointer (b : option loc) (td : TrustDomain) : result :=
  R_bundle match b with Some b => Ok b | None => no_JWT_bundle td end.

Definition abs_step (c : call) (a : astate) : option (result * astate) :=
  match c with
  | C_New td => Some (new_value (JwtBundle.New td) a)
  | C_From td i => m ← arg i a; Some (new_value (JwtBundle.FromJWTAuthorities td m) a)
  | C_JWTAuthorities b => v ← a_bundles a !! b; Some (hold (JwtBundle.JWTAuthorities v) a)
  | C_Find b keyID => v ← a_bundles a !! b; Some (R_found (JwtBundle.FindJWTAuthority v keyID), a)
  | C_Add b keyID k =>
      v ← a_bundles a !! b;
      match JwtBundle.AddJWTAuthority v keyID k with
      | Ok v => Some (R_err (Ok ()), put_bundle b v a)
      | Err e => Some (R_err (Err e), a)
      | Panic _ => None
      end
  | C_Remove b keyID => v ← a_bundles a !! b; Some (R_unit, put_bundle b (JwtBundle.RemoveJWTAuthority v keyID) a)
  | C_Set b i =>
      m ← arg i a; v ← a_bundles a !! b; Some (R_unit, put_bundle b (JwtBundle.SetJWTAuthorities v m) a)
  | C_Clone b => v ← a_bundles a !! b; Some (new_value (JwtBundle.Clone v) a)
  | C_Get b td =>
      v ← a_bundles a !! b; Some (R_bundle (let! _ := JwtBundle.GetJWTBundleForTrustDomain v td in Ok b), a)
  | C_NewSet bs => m ← file (a_bundles a) ∅ bs; let s := fresh (dom (a_sets a)) in Some (R_ptr s, put_set s m a)
  | C_Set_Add s b => m ← a_sets a !! s; m ← file (a_bundles a) m [b]; Some (R_unit, put_set s m a)
  | C_Set_Remove s td => m ← a_sets a !! s; Some (R_unit, put_set s (delete td m) a)
  | C_Set_Get s td => m ← a_sets a !! s; Some (pointer (m !! td) td, a)
  | C_NewJWTSource => let j := fresh (dom (a_jwt_sources a)) in Some (R_ptr j, put_jwt_source j None a)
  | C_JWTSource_set j s =>
      _ ← a_jwt_sources a !! j; _ ← a_sets a !! s; Some (R_unit, put_jwt_source j (Some s) a)
  | C_JWTSource_get j td => s ← a_jwt_sources a !! j; s ← s; m ← a_sets a !! s; Some (pointer (m !! td) td, a)
  | C_NewBundleSource =>
      let x := fresh (dom (a_bundle_sources a)) in Some (R_ptr x, put_bundle_source x ∅ a)
  | C_BundleSource_set x s =>
      m ← a_bundle_sources a !! x; set ← a_sets a !! s;
      Some (R_unit, put_bundle_source x
        (set_authorities JwtBundle.JWTAuthorities (JwtBundle.Bundles (set_value (a_bundles a) set)) m) a)
  | C_BundleSource_get x td =>
      m ← a_bundle_sources a !! x;
      match Sources.BundleSource_GetJWTBundleForTrustDomain (mkSource (mkBundleSource ∅ m) false) td with
      | Ok v => let b := fresh (dom (a_bundles a)) in Some (R_bundle (Ok b), put_bundle b v a)
      | Err e => Some (R_bundle (Err e), a)
      | Panic _ => None
      end
  | C_make => Some (hold ∅ a)
  | C_assign i keyID k => m ← a_held a !! i; Some (R_unit, set_held (<[i := <[keyID := k]> m]> (a_held a)) a)
  | C_delete i keyID => m ← a_held a !! i; Some (R_unit, set_held (<[i := delete keyID m]> (a_held a)) a)
  end.

(** What the heap stands for. *)
Definition content (h : heap) (l : loc) : keys := default ∅ (maps h !! l).
Definition value (h : heap) (c : cell) : JwtBundle.Bundle :=
  JwtBundle.mkBundle (c_trustDomain c) (content h (c_jwtAuthorities c)).
Definition abs (σ : memory) : astate :=
  let h := m_heap σ in
  mkAstate (value h <$> bundles h) (sets h) (jwt_sources h) ((λ m : gmap TrustDomain loc, content h <$> m) <$> bundle_sources h) (map (content h) (m_held σ)).

(** ** Invariant: every map has one owner *)
Inductive owner : Type :=
  | O_bundle (b : loc)
  | O_source (x : loc) (td : TrustDomain)
  | O_caller (i : nat).

Definition owns (σ : memory) (o : owner) (l : loc) : Prop :=
  match o with
  | O_bundle b => ∃ c, bundles (m_heap σ) !! b = Some c ∧ c_jwtAuthorities c = l
  | O_source x td => ∃ m, bundle_sources (m_heap σ) !! x = Some m ∧ m !! td = Some l
  | O_caller i => m_held σ !! i = Some l
  end.

Definition filed (h : heap) (td : TrustDomain) (b : loc) : Prop :=
  ∃ c, bundles h !! b = Some c ∧ c_trustDomain c = td.

Record Inv (σ : memory) : Prop := {
  inv_dom o l : owns σ o l → is_Some (maps (m_heap σ) !! l);
  inv_one o1 o2 l : owns σ o1 l → owns σ o2 l → o1 = o2;
  inv_sets s m td b : sets (m_heap σ) !! s = Some m → m !! td = Some b → filed (m_heap σ) td b;
}.

(** The maps that were there are as they were. *)
Definition extends (h h' : heap) : Prop := ∀ l m, maps h !! l = Some m → maps h' !! l = Some m.

(** A step that gives owners no map that another one has: what it adds is fresh. *)
Lemma Inv_extend σ σ' :
  Inv σ → extends (m_heap σ) (m_heap σ') →
  (∀ o l, owns σ' o l → owns σ o l ∨ (maps (m_heap σ) !! l = None ∧ is_Some (maps (m_heap σ') !! l))) →
  (∀ o1 o2 l, maps (m_heap σ) !! l = None → owns σ' o1 l → owns σ' o2 l → o1 = o2) →
  (∀ s m td b, sets (m_heap σ') !! s = Some m → m !! td = Some b → filed (m_heap σ') td b) →
  Inv σ'.
Proof.
  intros [Hd H1 Hs] He Hn Hf Hs'. split; [|intros o1 o2 l Ho1 Ho2|done].
  - intros o l [Ho|[_ ?]]%Hn; [|done]. destruct (Hd _ _ Ho) as [m Hm]. exists m. by apply He.
  - pose proof (Hn _ _ Ho1) as [Ho1'|[Hfr _]]; [|by eapply Hf].
    pose proof (Hn _ _ Ho2) as [Ho2'|[Hfr _]]; [by eapply H1|by eapply Hf].
Qed.

(** A write to one map: owners and pointers stay. *)
Lemma Inv_write σ l m :
  Inv σ → is_Some (maps (m_heap σ) !! l) →
  Inv (mkMemory (set_maps (<[l := m]> (maps (m_heap σ))) (m_heap σ)) (m_held σ)).
Proof.
  intros [Hd H1 Hs] Hl. split.
  - intros o l' Ho. cbn. rewrite lookup_insert_is_Some. destruct (decide (l = l')); [by left|right]. split; [done|].
    by apply (Hd o).
  - intros o1 o2 l'. apply (H1 o1 o2).
  - exact Hs.
Qed.

Lemma content_extends h h' l : extends h h' → is_Some (maps h !! l) → content h' l = content h l.
Proof. intros He [m Hm]. unfold content. by rewrite Hm, (He _ _ Hm). Qed.

(** The values of what keeps its map. *)
Definition same_content (σ : memory) (h' : heap) : Prop :=
  ∀ o l, owns σ o l → content h' l = content (m_heap σ) l.

Lemma extends_same σ h' : Inv σ → extends (m_heap σ) h' → same_content σ h'.
Proof. intros HI He o l Ho. apply content_extends; [done|]. by eapply inv_dom. Qed.

Lemma lookup_map {A B} (f : A → B) (l : list A) i : map f l !! i = option_map f (l !! i).
Proof. revert i; induction l as [|x l IH]; intros [|i]; cbn; [done..|apply IH]. Qed.

Lemma bundles_same σ h' :
  (∀ b l, owns σ (O_bundle b) l → content h' l = content (m_heap σ) l) →
  value h' <$> bundles (m_heap σ) = value (m_heap σ) <$> bundles (m_heap σ).
Proof.
  intros Hs. apply map_fmap_ext. intros b c Hc. unfold value. f_equal. apply (Hs b). by exists c.
Qed.
Lemma sources_same σ h' :
  (∀ x td l, owns σ (O_source x td) l → content h' l = content (m_heap σ) l) →
  (λ m : gmap TrustDomain loc, content h' <$> m) <$> bundle_sources (m_heap σ) =
  (λ m : gmap TrustDomain loc, content (m_heap σ) <$> m) <$> bundle_sources (m_heap σ).
Proof.
  intros Hs. apply map_fmap_ext. intros x m Hm. apply map_fmap_ext. intros td l Hl. apply (Hs x td). by exists m.
Qed.
Lemma held_same σ h' :
  (∀ i l, owns σ (O_caller i) l → content h' l = content (m_heap σ) l) →
  map (content h') (m_held σ) = map (content (m_heap σ)) (m_held σ).
Proof.
  intros Hs. apply list_eq. intros i. rewrite !lookup_map.
  destruct (m_held σ !! i) as [l|] eqn:Hl; [|done]. cbn. f_equal. by apply (Hs i).
Qed.

Lemma fresh_map h : maps h !! fresh (dom (maps h)) = None.
Proof. apply not_elem_of_dom, is_fresh. Qed.
Lemma fresh_key_bundle h : bundles h !! fresh (dom (bundles h)) = None.
Proof. apply not_elem_of_dom, is_fresh. Qed.

Lemma extends_fresh h m l : maps h !! l = None → extends h (set_maps (<[l := m]> (maps h)) h).
Proof. intros Hl l' m' Hm'. cbn. rewrite lookup_insert_ne by congruence. done. Qed.

Lemma content_insert h l m : content (set_maps (<[l := m]> (maps h)) h) l = m.
Proof. unfold content. cbn. by rewrite lookup_insert_eq. Qed.
Lemma content_insert_ne h l l' m : l ≠ l' → content (set_maps (<[l := m]> (maps h)) h) l' = content h l'.
Proof. intros. unfold content. cbn. by rewrite lookup_insert_ne. Qed.

Lemma lookup_a_bundles σ b : a_bundles (abs σ) !! b = value (m_heap σ) <$> bundles (m_heap σ) !! b.
Proof. cbn. apply lookup_fmap. Qed.
Lemma lookup_a_held σ i : a_held (abs σ) !! i = option_map (content (m_heap σ)) (m_held σ !! i).
Proof. apply lookup_map. Qed.

(** ** The steps a call is made of, with their effect on the values *)
Definition good (σ' : memory) (a : astate) : Prop := Inv σ' ∧ abs σ' = a.

(** A bundle, new or old, gets a fresh map. *)
Lemma place_bundle h held b td m :
  let σ := mkMemory h held in
  let l := fresh (dom (maps h)) in
  Inv σ → (∀ c, bundles h !! b = Some c → c_trustDomain c = td) →
  good (mkMemory (set_bundles (<[b := mkCell td l]> (bundles h)) (set_maps (<[l := m]> (maps h)) h)) held)
    (put_bundle b (JwtBundle.mkBundle td m) (abs σ)).
Proof.
  intros σ l HI Hb. set (h' := set_bundles _ _). pose proof (fresh_map h) as Hl. fold l in Hl.
  assert (extends h h') as He by exact (extends_fresh h m l Hl).
  assert (same_content σ h') as Hsame by (by apply extends_same).
  split.
  - apply (Inv_extend σ); [done|done|..].
    + intros [b'|x td'|i] l'; cbn; [|by left..]. intros (c & [[<- <-]|[? Hc]]%lookup_insert_Some & <-).
      * right. cbn. by rewrite lookup_insert_eq.
      * left. by exists c.
    + intros o1 o2 l' Hl' Ho1 Ho2.
      assert (∀ o, owns (mkMemory h' held) o l' → o = O_bundle b) as Hown; [|by rewrite (Hown o1), (Hown o2)].
      intros [b'|x td'|i] Ho.
      * cbn in Ho. destruct Ho as (c & [[<- <-]|[? Hc]]%lookup_insert_Some & <-); [done|].
        destruct (inv_dom σ HI (O_bundle b') (c_jwtAuthorities c)) as [? Hx]; [by exists c|by rewrite Hl' in Hx].
      * destruct (inv_dom σ HI (O_source x td') l' Ho) as [? Hx]. by rewrite Hl' in Hx.
      * destruct (inv_dom σ HI (O_caller i) l' Ho) as [? Hx]. by rewrite Hl' in Hx.
    + intros s m' td' b' Hs Hm. destruct (inv_sets σ HI s m' td' b' Hs Hm) as (c & Hc & Htd). cbn in Hc.
      destruct (decide (b = b')) as [<-|Hne].
      * exists (mkCell td l). cbn. rewrite lookup_insert_eq. split; [done|]. rewrite <- Htd. symmetry. by apply Hb.
      * exists c. cbn. by rewrite lookup_insert_ne.
  - unfold abs, put_bundle. cbn -[h']. f_equal.
    + cbn. rewrite fmap_insert. unfold value at 1. cbn -[h'].
      assert (content h' l = m) as -> by exact (content_insert h l m). f_equal. apply (bundles_same σ h'). intros b' l'. apply Hsame.
    + apply (sources_same σ h'). intros x td' l'. apply Hsame.
    + apply (held_same σ h'). intros i l'. apply Hsame.
Qed.

(** A caller gets a fresh map. *)
Lemma place_held h held m :
  let σ := mkMemory h held in
  let l := fresh (dom (maps h)) in
  Inv σ →
  good (mkMemory (set_maps (<[l := m]> (maps h)) h) (held ++ [l])) (hold m (abs σ)).2.
Proof.
  intros σ l HI. set (h' := set_maps _ _). pose proof (fresh_map h) as Hl. fold l in Hl.
  assert (extends h h') as He by exact (extends_fresh h m l Hl).
  assert (same_content σ h') as Hsame by (by apply extends_same).
  assert (∀ i l', (held ++ [l]) !! i = Some l' → held !! i = Some l' ∨ i = length held ∧ l' = l) as Happ.
  { intros i l' Hi. apply lookup_app_Some in Hi as [Hi|[? Hi]]; [by left|right]. apply list_lookup_singleton_Some in Hi. lia || (destruct Hi; split; [lia|done]). }
  split.
  - apply (Inv_extend σ); [done|done|..].
    + intros [b'|x td'|i] l'; cbn; [by left..|]. intros [Hi|[-> ->]]%Happ; [by left|right]. by rewrite lookup_insert_eq.
    + intros o1 o2 l' Hl' Ho1 Ho2.
      assert (∀ o, owns (mkMemory h' (held ++ [l])) o l' → o = O_caller (length held)) as Hown; [|by rewrite (Hown o1), (Hown o2)].
      intros [b'|x td'|i] Ho.
      * destruct (inv_dom σ HI (O_bundle b') l' Ho) as [? Hx]. by rewrite Hl' in Hx.
      * destruct (inv_dom σ HI (O_source x td') l' Ho) as [? Hx]. by rewrite Hl' in Hx.
      * cbn in Ho. apply Happ in Ho as [Hi|[-> _]]; [|done].
        destruct (inv_dom σ HI (O_caller i) l' Hi) as [? Hx]. by rewrite Hl' in Hx.
    + exact (inv_sets σ HI).
  - unfold abs, hold, set_held. cbn -[h']. f_equal.
    + apply (bundles_same σ h'). intros b' l'. apply Hsame.
    + apply (sources_same σ h'). intros x td' l'. apply Hsame.
    + rewrite map_app. cbn [map]. unfold h'. rewrite (content_insert h l m). f_equal.
      apply (held_same σ h'). intros i l'. apply Hsame.
Qed.

(** What another owner has is not touched by a write to a map. *)
Lemma write_elsewhere h held o l m :
  let σ := mkMemory h held in
  Inv σ → owns σ o l → ∀ o' l', owns σ o' l' → o' ≠ o → content (set_maps (<[l := m]> (maps h)) h) l' = content h l'.
Proof. intros σ HI Ho o' l' Ho' Hne. apply content_insert_ne. intros ->. by apply Hne, (inv_one σ HI o' o l'). Qed.

Lemma write_bundle h held b c m :
  let σ := mkMemory h held in
  Inv σ → bundles h !! b = Some c →
  good (mkMemory (set_maps (<[c_jwtAuthorities c := m]> (maps h)) h) held)
    (put_bundle b (JwtBundle.mkBundle (c_trustDomain c) m) (abs σ)).
Proof.
  intros σ HI Hc. assert (owns σ (O_bundle b) (c_jwtAuthorities c)) as Ho by (by exists c).
  pose proof (write_elsewhere h held (O_bundle b) _ m HI Ho) as Hel. set (h' := set_maps _ _) in *. split.
  - apply (Inv_write σ); [done|]. by apply (inv_dom σ HI (O_bundle b)).
  - unfold abs, put_bundle. cbn -[h']. f_equal.
    + apply map_eq. intros b'. rewrite lookup_fmap. destruct (decide (b = b')) as [<-|Hne].
      * rewrite lookup_insert_eq. cbn. rewrite Hc. cbn. f_equal. unfold value, h'. by rewrite content_insert.
      * rewrite lookup_insert_ne by done. rewrite lookup_fmap. cbn. destruct (bundles h !! b') as [c'|] eqn:Hc'; [|done]. cbn. f_equal.
        unfold value. f_equal. apply (Hel (O_bundle b')); [by exists c'|congruence].
    + apply (sources_same σ h'). intros x td l Hl. by apply (Hel (O_source x td)).
    + apply (held_same σ h'). intros i l Hl. by apply (Hel (O_caller i)).
Qed.

Lemma write_held h held i l m :
  let σ := mkMemory h held in
  Inv σ → held !! i = Some l →
  good (mkMemory (set_maps (<[l := m]> (maps h)) h) held) (set_held (<[i := m]> (a_held (abs σ))) (abs σ)).
Proof.
  intros σ HI Hi. pose proof (write_elsewhere h held (O_caller i) l m HI Hi) as Hel. set (h' := set_maps _ _) in *. split.
  - apply (Inv_write σ); [done|]. by apply (inv_dom σ HI (O_caller i)).
  - unfold abs, set_held. cbn -[h']. f_equal.
    + apply (bundles_same σ h'). intros b' l' Hl. by apply (Hel (O_bundle b')).
    + apply (sources_same σ h'). intros x td l' Hl. by apply (Hel (O_source x td)).
    + apply list_eq. intros k. rewrite lookup_map. destruct (decide (i = k)) as [<-|Hne].
      * rewrite list_lookup_insert_eq by (rewrite length_map; by eapply lookup_lt_Some).
        rewrite Hi. cbn. f_equal. unfold h'. by rewrite content_insert.
      * rewrite list_lookup_insert_ne by done. rewrite lookup_map. destruct (held !! k) as [l'|] eqn:Hk; [|done]. cbn. f_equal.
        apply (Hel (O_caller k)); [done|congruence].
Qed.

(** ** Bundle sources *)

(** A heap that differs in its maps, each of the old ones unchanged. *)
Definition grown (h h' : heap) : Prop := extends h h' ∧ h' = set_maps (maps h') h.

Lemma grown_refl h : grown h h.
Proof. split; [by intros ?|by destruct h]. Qed.

Lemma grown_trans h1 h2 h3 : grown h1 h2 → grown h2 h3 → grown h1 h3.
Proof. intros [He E] [He' E']. split; [intros l m ?; by apply He', He|]. rewrite E', E. done. Qed.

Lemma CopyJWTAuthorities_grown h l m :
  maps h !! l = Some m →
  let l' := fresh (dom (maps h)) in
  let h' := set_maps (<[l' := m]> (maps h)) h in
  CopyJWTAuthorities (Some l) h = Some (l', h') ∧ grown h h'.
Proof.
  intros Hl. cbn. unfold CopyJWTAuthorities, bind, read_map, get. rewrite Hl. rewrite CopyJWTAuthorities_id. split; [done|].
  split; [|done]. apply extends_fresh, fresh_map.
Qed.

(** The first loop on pointers is the one on values; what it puts in the map is fresh. *)
Lemma add_authorities_spec newBundles vs :
  ∀ h m tds,
  (∀ b c, bundles h !! b = Some c → is_Some (maps h !! c_jwtAuthorities c)) →
  (∀ td l, m !! td = Some l → is_Some (maps h !! l)) →
  Forall2 (λ b v, value h <$> bundles h !! b = Some v) newBundles vs →
  ∃ m' tds' h', add_authorities newBundles m tds h = Some ((m', tds'), h') ∧ grown h h' ∧
    foldl (λ acc b, (<[trustDomain_of b := JwtBundle.JWTAuthorities b]> acc.1, {[trustDomain_of b]} ∪ acc.2))
      (content h <$> m, tds) vs = (content h' <$> m', tds') ∧
    (∀ td l, m' !! td = Some l → m !! td = Some l ∨ (maps h !! l = None ∧ is_Some (maps h' !! l))) ∧
    (∀ td1 td2 l, maps h !! l = None → m' !! td1 = Some l → m' !! td2 = Some l → td1 = td2).
Proof.
  intros h m tds Hb Hm Hvs. revert h m tds Hb Hm Hvs.
  induction newBundles as [|b newBundles IH] in vs |- *; intros h m tds Hb Hm Hvs.
  { apply Forall2_nil_inv_l in Hvs as ->. exists m, tds, h. split_and!; [done|apply grown_refl|done|by left|].
    intros td1 td2 l Hl H1. destruct (Hm _ _ H1) as [? Hx]. congruence. }
  apply Forall2_cons_inv_l in Hvs as (v & vs' & Hv & Hvs & ->).
  destruct (bundles h !! b) as [c|] eqn:Hc; [|done]. injection Hv as <-.
  destruct (Hb _ _ Hc) as [mc Hmc].
  destruct (CopyJWTAuthorities_grown h _ _ Hmc) as [Hcopy Hg].
  pose proof (fresh_map h) as Hl1. set (l1 := fresh (dom (maps h))) in *.
  set (h1 := set_maps (<[l1 := mc]> (maps h)) h) in *. destruct Hg as [He Heq].
  destruct (IH vs' h1 (<[c_trustDomain c := l1]> m) ({[c_trustDomain c]} ∪ tds)) as (m' & tds' & h' & Hrun & Hg' & Hfold & Hor & Hinj).
  - intros b' c' Hb'. destruct (Hb b' c' Hb') as [x Hx]. exists x. by apply He.
  - intros td l [[<- <-]|[? Hl]]%lookup_insert_Some; [exists mc; apply lookup_insert_eq|].
    destruct (Hm _ _ Hl) as [x Hx]. exists x. by apply He.
  - eapply Forall2_impl; [exact Hvs|]. cbn. intros b' v Hb'. destruct (bundles h !! b') as [c'|] eqn:Hc'; [|done].
    cbn in Hb' |- *. rewrite <- Hb'. unfold value. do 2 f_equal. apply (content_extends h h1 _ He), (Hb b' c' Hc').
  - exists m', tds', h'. split_and!.
    + assert (JWTAuthorities b h = Some (l1, h1)) as Hj by (unfold JWTAuthorities, bind, get; by rewrite Hc).
      cbn [add_authorities]. unfold bind, get. rewrite Hc. cbv beta iota. rewrite Hj. exact Hrun.
    + eapply grown_trans; [split; [exact He|done]|done].
    + cbn [foldl fst snd]. rewrite <- Hfold. f_equal. f_equal. rewrite fmap_insert.
      unfold h1 at 1. rewrite (content_insert h l1 mc). cbn. unfold JwtBundle.JWTAuthorities. rewrite CopyJWTAuthorities_id. cbn.
      assert (content h1 <$> m = content h <$> m) as ->
        by (apply map_fmap_ext; intros td l Hl; apply (content_extends h h1 _ He), (Hm _ _ Hl)).
      f_equal. unfold content. by rewrite Hmc.
    + intros td l [[[<- <-]|[? Hl]]%lookup_insert_Some|[Hl Hx]]%Hor; [right|by left|right].
      * split; [done|]. exists mc. apply Hg'. apply lookup_insert_eq.
      * split; [|done]. destruct (maps h !! l) as [x|] eqn:E; [|done]. apply He in E. congruence.
    + intros td1 td2 l Hl H1 H2. destruct (decide (l = l1)) as [->|Hne].
      * assert (∀ td, m' !! td = Some l1 → td = c_trustDomain c) as Hone; [|by rewrite (Hone td1), (Hone td2)].
        intros td [[[<- _]|[_ Hx]]%lookup_insert_Some|[Hx _]]%Hor; [done| |].
        -- destruct (Hm _ _ Hx) as [? Hy]. congruence.
        -- cbn in Hx. by rewrite lookup_insert_eq in Hx.
      * apply (Hinj td1 td2 l); [|done..]. cbn. by rewrite lookup_insert_ne.
Qed.

(** A bundle source gets a map of maps, the new ones fresh. *)
Lemma place_source h h' held x mm :
  let σ := mkMemory h held in
  Inv σ → grown h h' →
  (∀ td l, mm !! td = Some l → owns σ (O_source x td) l ∨ (maps h !! l = None ∧ is_Some (maps h' !! l))) →
  (∀ td1 td2 l, maps h !! l = None → mm !! td1 = Some l → mm !! td2 = Some l → td1 = td2) →
  good (mkMemory (set_bundle_sources (<[x := mm]> (bundle_sources h')) h') held)
    (put_bundle_source x (content h' <$> mm) (abs σ)).
Proof.
  intros σ HI [He Eq] Hmm Hinj.
  assert (bundles h' = bundles h ∧ sets h' = sets h ∧ jwt_sources h' = jwt_sources h ∧ bundle_sources h' = bundle_sources h)
    as (Eb & Es & Ej & Ex) by (by rewrite Eq).
  assert (same_content σ h') as Hsame by (by apply extends_same).
  assert (∀ o l, owns (mkMemory (set_bundle_sources (<[x := mm]> (bundle_sources h')) h') held) o l →
    owns σ o l ∨ maps h !! l = None ∧ is_Some (maps h' !! l) ∧ ∃ td, o = O_source x td ∧ mm !! td = Some l) as Hown.
  { intros [b|x' td|i] l Ho; cbn in Ho.
    - left. rewrite Eb in Ho. exact Ho.
    - destruct Ho as (m' & [[<- <-]|[? Hm']]%lookup_insert_Some & Hl).
      + destruct (Hmm td l Hl) as [?|[? ?]]; [by left|right]. split_and!; [done..|]. by exists td.
      + left. rewrite Ex in Hm'. by exists m'.
    - by left. }
  split.
  - apply (Inv_extend σ); [done|exact He|..].
    + intros o l [?|(? & ? & _)]%Hown; [by left|by right].
    + intros o1 o2 l Hl Ho1 Ho2. destruct (Hown _ _ Ho1) as [Hx|(_ & _ & td1 & -> & H1)].
      { destruct (inv_dom σ HI _ _ Hx) as [? Hy]. by rewrite Hl in Hy. }
      destruct (Hown _ _ Ho2) as [Hx|(_ & _ & td2 & -> & H2)].
      { destruct (inv_dom σ HI _ _ Hx) as [? Hy]. by rewrite Hl in Hy. }
      f_equal. by apply (Hinj td1 td2 l).
    + cbn. unfold filed. cbn. rewrite Es, Eb. exact (inv_sets σ HI).
  - unfold abs, put_bundle_source. cbn. rewrite Eb, Es, Ej, Ex. f_equal.
    + apply (bundles_same σ h'). intros b l. apply Hsame.
    + rewrite fmap_insert. f_equal. apply (sources_same σ h'). intros x' td l. apply Hsame.
    + apply (held_same σ h'). intros i l. apply Hsame.
Qed.

(** The bundles of a set, by pointer and by value. *)
Definition values_of (h : heap) (bs : list loc) : list JwtBundle.Bundle := omap (λ b, value h <$> bundles h !! b) bs.

Lemma elem_of_keys {A} (m : gmap TrustDomain A) td : td ∈ (map_to_list m).*1 ↔ is_Some (m !! td).
Proof.
  rewrite list_elem_of_fmap. split.
  - intros ([td' a] & -> & Ha%elem_of_map_to_list). by exists a.
  - intros [a Ha]. exists (td, a). split; [done|]. by apply elem_of_map_to_list.
Qed.

Lemma Bundles_in m b : b ∈ Bundles m ↔ ∃ td, m !! td = Some b.
Proof.
  unfold Bundles. rewrite (merge_sort_Permutation td_le (map_to_list m)). rewrite list_elem_of_fmap. split.
  - intros ([td b'] & -> & Hin). exists td. by apply elem_of_map_to_list.
  - intros [td Hin]. exists (td, b). split; [done|]. by apply elem_of_map_to_list.
Qed.

Lemma values_of_Forall2 h bs :
  Forall (λ b, is_Some (bundles h !! b)) bs → Forall2 (λ b v, value h <$> bundles h !! b = Some v) bs (values_of h bs).
Proof.
  induction 1 as [|b bs [c Hc] _ IH]; [constructor|]. unfold values_of. cbn [omap list_omap]. rewrite Hc. cbn.
  constructor; [by rewrite Hc|exact IH].
Qed.

Lemma values_of_domains h m :
  (∀ td b, m !! td = Some b → filed h td b) → trustDomain_of <$> values_of h (Bundles m) ≡ₚ (map_to_list m).*1.
Proof.
  intros Hf. unfold Bundles.
  assert (∀ l : list (TrustDomain * loc), (∀ td b, (td, b) ∈ l → filed h td b) → trustDomain_of <$> values_of h l.*2 = l.*1) as Hl.
  { induction l as [|[td b] l IH]; intros Hl; [done|]. destruct (Hl td b) as (c & Hc & Htd); [by left|].
    unfold values_of. cbn [fmap list_fmap omap list_omap]. cbn. rewrite Hc. cbn. f_equal; [done|]. apply IH. intros td' b' ?. apply Hl. by right. }
  rewrite Hl; [by rewrite (merge_sort_Permutation td_le (map_to_list m))|].
  intros td b. rewrite (merge_sort_Permutation td_le (map_to_list m)). intros Hin%elem_of_map_to_list. by apply Hf.
Qed.

Lemma lookup_set_value bs m td : BundleSet.bundles (set_value bs m) !! td = m !! td ≫= λ b, bs !! b.
Proof. unfold set_value. cbn. apply lookup_omap. Qed.

Lemma set_value_wf h m :
  (∀ td b, m !! td = Some b → filed h td b) → set_wf (set_value (value h <$> bundles h) m).
Proof.
  intros Hf td v. rewrite lookup_set_value. intros (b & Hb & Hv)%bind_Some. destruct (Hf td b Hb) as (c & Hc & Htd).
  rewrite lookup_fmap, Hc in Hv. by simplify_eq/=.
Qed.

Lemma values_of_in h m v :
  (∀ td b, m !! td = Some b → filed h td b) →
  v ∈ values_of h (Bundles m) ↔ BundleSet.bundles (set_value (value h <$> bundles h) m) !! trustDomain_of v = Some v.
Proof.
  intros Hf. unfold values_of. rewrite list_elem_of_omap, lookup_set_value. split.
  - intros (b & [td Hb]%Bundles_in & Hv). destruct (Hf td b Hb) as (c & Hc & Htd). rewrite Hc in Hv. cbn in Hv.
    assert (trustDomain_of v = td) as -> by (injection Hv as <-; exact Htd). rewrite Hb. cbn. rewrite lookup_fmap, Hc. exact Hv.
  - intros (b & Hb & Hv)%bind_Some. exists b. split; [by eapply Bundles_in; eauto|]. by rewrite lookup_fmap in Hv.
Qed.

Lemma set_bundle_source h held x m s set :
  let σ := mkMemory h held in
  Inv σ → bundle_sources h !! x = Some m → sets h !! s = Some set →
  ∃ h', BundleSource_setJWTBundles x s h = Some (tt, h') ∧
    good (mkMemory h' held) (put_bundle_source x
      (set_authorities JwtBundle.JWTAuthorities (JwtBundle.Bundles (set_value (a_bundles (abs σ)) set)) (content h <$> m)) (abs σ)).
Proof.
  intros σ HI Hm Hs. pose proof (inv_sets σ HI s set) as Hf'. assert (∀ td b, set !! td = Some b → filed h td b) as Hf
    by (intros td b; by apply Hf'). clear Hf'.
  destruct (add_authorities_spec (Bundles set) (values_of h (Bundles set)) h m ∅) as (m' & tds & h' & Hrun & Hg & Hfold & Hor & Hinj).
  - intros b c Hc. apply (inv_dom σ HI (O_bundle b)). by exists c.
  - intros td l Hl. apply (inv_dom σ HI (O_source x td)). by exists m.
  - apply values_of_Forall2, Forall_forall. intros b [td Hb]%Bundles_in. destruct (Hf td b Hb) as (c & Hc & _). by exists c.
  - set (mm := drop_missing tds (map_to_list m').*1 m').
    assert (∀ td l, mm !! td = Some l → m' !! td = Some l) as Hsub
      by (intros td l; unfold mm; rewrite drop_missing_lookup; by case_bool_decide).
    exists (set_bundle_sources (<[x := mm]> (bundle_sources h')) h'). split.
    { unfold BundleSource_setJWTBundles, bind, get. rewrite Hm, Hs, Hrun. done. }
    assert (set_authorities JwtBundle.JWTAuthorities (JwtBundle.Bundles (set_value (a_bundles (abs σ)) set)) (content h <$> m) =
      content h' <$> mm) as ->.
    { pose proof (set_value_wf h set Hf) as Hwf. unfold JwtBundle.Bundles.
      transitivity (JwtBundle.JWTAuthorities <$> BundleSet.bundles (set_value (value h <$> bundles h) set));
        [exact (set_authorities_spec JwtBundle.JWTAuthorities _ (content h <$> m) Hwf)|].
      rewrite <- (set_authorities_any_order JwtBundle.JWTAuthorities (set_value (value h <$> bundles h) set)
        (values_of h (Bundles set)) (content h <$> m)).
      - unfold set_authorities, Sources.add_authorities. rewrite Hfold. apply map_eq. intros td.
        unfold mm. rewrite lookup_fmap, !drop_missing_lookup, lookup_fmap.
        assert (td ∈ (map_to_list (content h' <$> m')).*1 ↔ td ∈ (map_to_list m').*1) as Hkeys.
        { by rewrite !elem_of_keys, lookup_fmap, fmap_is_Some. }
        repeat case_bool_decide; try done; exfalso; naive_solver.
      - exact Hwf.
      - rewrite values_of_domains by exact Hf. apply NoDup_fst_map_to_list.
      - intros v. by apply values_of_in. }
    apply place_source; [done|done|..].
    + intros td l [?|?]%Hsub%Hor; [left; by exists m|by right].
    + intros td1 td2 l Hl H1%Hsub H2%Hsub. by apply (Hinj td1 td2 l).
Qed.

(** ** Sets and JWT sources: only pointers change *)
Lemma place_set h held s m :
  let σ := mkMemory h held in
  Inv σ → (∀ td b, m !! td = Some b → filed h td b) →
  good (mkMemory (set_sets (<[s := m]> (sets h)) h) held) (put_set s m (abs σ)).
Proof.
  intros σ HI Hm. split; [|done]. destruct HI as [Hd H1 Hs]. split; [exact Hd|exact H1|].
  intros s' m' td b Hs' Hb. cbn in Hs'. apply lookup_insert_Some in Hs' as [[<- <-]|[_ Hs']]; [by apply Hm|by eapply Hs].
Qed.

Lemma place_jwt_source h held j s :
  let σ := mkMemory h held in
  Inv σ → good (mkMemory (set_jwt_sources (<[j := s]> (jwt_sources h)) h) held) (put_jwt_source j s (abs σ)).
Proof. intros σ [Hd H1 Hs]. by split. Qed.

Lemma put_pointers_file h bs m :
  put_pointers m bs h = match file (value h <$> bundles h) m bs with Some m' => Some (m', h) | None => None end.
Proof.
  revert m; induction bs as [|[b|] bs IH]; intros m; cbn [put_pointers file]; [done| |exact (IH m)].
  unfold put_pointer, bind, get. rewrite lookup_fmap. destruct (bundles h !! b) as [c|]; [|done]. cbn. apply IH.
Qed.

Lemma file_filed h bs m m' :
  (∀ td b, m !! td = Some b → filed h td b) → file (value h <$> bundles h) m bs = Some m' →
  ∀ td b, m' !! td = Some b → filed h td b.
Proof.
  revert m; induction bs as [|[b|] bs IH]; intros m Hm; cbn [file]; [by intros [= <-]| |by apply IH].
  rewrite lookup_fmap. destruct (bundles h !! b) as [c|] eqn:Hc; [|done]. cbn. apply IH.
  intros td b' [[<- <-]|[? Hb]]%lookup_insert_Some; [by exists c|by apply Hm].
Qed.

(** ** Refinement *)
Definition refines (c : call) (σ : memory) : Prop :=
  match step c σ with
  | Some (r, σ') => Inv σ' ∧ abs_step c (abs σ) = Some (r, abs σ')
  | None => abs_step c (abs σ) = None
  end.

(** The value of a map argument, and its copy. *)
Lemma arg_cases h held i :
  let σ := mkMemory h held in
  Inv σ →
  (∃ l m, arg i (abs σ) = Some m ∧ CopyJWTAuthorities l h = Some (fresh (dom (maps h)), set_maps (<[fresh (dom (maps h)) := m]> (maps h)) h) ∧
     ∀ f, with_arg i f σ = f l σ) ∨
  (arg i (abs σ) = None ∧ ∀ f, with_arg i f σ = None).
Proof.
  intros σ HI. destruct i as [i|].
  - cbn [arg with_arg]. rewrite lookup_a_held. cbn [m_held σ]. destruct (held !! i) as [l|] eqn:Hl; [left|by right].
    destruct (inv_dom σ HI (O_caller i) l Hl) as [m Hm]. exists (Some l), m. cbn. unfold content. cbn in Hm. rewrite Hm.
    split_and!; [done| |done]. by apply CopyJWTAuthorities_grown.
  - left. exists None, ∅. split_and!; [done| |done]. unfold CopyJWTAuthorities, bind. cbn. by rewrite CopyJWTAuthorities_id.
Qed.

Lemma bundle_map h held b c :
  Inv (mkMemory h held) → bundles h !! b = Some c →
  maps h !! c_jwtAuthorities c = Some (content h (c_jwtAuthorities c)).
Proof.
  intros HI Hc. destruct (inv_dom _ HI (O_bundle b) (c_jwtAuthorities c)) as [m Hm]; [by exists c|].
  cbn in Hm. unfold content. by rewrite Hm.
Qed.

Lemma From_refines h held td l m :
  let σ := mkMemory h held in
  Inv σ → CopyJWTAuthorities l h = Some (fresh (dom (maps h)), set_maps (<[fresh (dom (maps h)) := m]> (maps h)) h) →
  ∃ h', FromJWTAuthorities td l h = Some (fresh (dom (bundles h)), h') ∧
    good (mkMemory h' held) (put_bundle (fresh (dom (bundles h))) (JwtBundle.FromJWTAuthorities td m) (abs σ)).
Proof.
  intros σ HI Hcopy. unfold FromJWTAuthorities, bind. rewrite Hcopy.
  unfold JwtBundle.FromJWTAuthorities. rewrite CopyJWTAuthorities_id.
  eexists. split; [|apply (place_bundle h held (fresh (dom (bundles h))) td m HI)]; [done|].
  intros c Hc. by rewrite fresh_key_bundle in Hc.
Qed.

Lemma fresh_a_bundles h held : fresh (dom (a_bundles (abs (mkMemory h held)))) = fresh (dom (bundles h)).
Proof. cbn. by rewrite dom_fmap_L. Qed.
Lemma fresh_a_sources h held : fresh (dom (a_bundle_sources (abs (mkMemory h held)))) = fresh (dom (bundle_sources h)).
Proof. cbn. by rewrite dom_fmap_L. Qed.

(** Both sides go on with the bundle at a pointer, or both panic. *)
Ltac with_bundle b c :=
  rewrite ?lookup_a_bundles; unfold on_heap, on_map, bind, get; cbn [m_heap m_held];
  let Hc := fresh "Hc" in destruct (bundles _ !! b) as [c|] eqn:Hc; [|done]; cbn [mbind option_bind fmap option_fmap option_map].

Lemma good_refines r σ' a : good σ' a → Inv σ' ∧ Some (r, a) = Some (r : result, abs σ').
Proof. by intros [HI ->]. Qed.

Lemma bundle_refines h held b :
  Inv (mkMemory h held) →
  let ok c := refines c (mkMemory h held) in
  ok (C_JWTAuthorities b) ∧ (∀ keyID, ok (C_Find b keyID)) ∧ (∀ keyID k, ok (C_Add b keyID k)) ∧
  (∀ keyID, ok (C_Remove b keyID)) ∧ (∀ i, ok (C_Set b i)) ∧ ok (C_Clone b) ∧ (∀ td, ok (C_Get b td)).
Proof.
  intros HI ok. unfold ok, refines. split_and!; [|intros keyID|intros keyID k|intros keyID|intros i| |intros td]; cbn [step abs_step].
  - unfold JWTAuthorities. with_bundle b c.
    destruct (CopyJWTAuthorities_grown h _ _ (bundle_map h held b c HI Hc)) as [Hcopy _]. rewrite Hcopy.
    unfold hold, JwtBundle.JWTAuthorities. rewrite CopyJWTAuthorities_id. cbn [a_held abs m_held value JwtBundle.jwtAuthorities].
    rewrite length_map. apply good_refines. exact (place_held h held _ HI).
  - unfold FindJWTAuthority. with_bundle b c. rewrite (bundle_map h held b c HI Hc). by split.
  - unfold AddJWTAuthority. with_bundle b c. unfold JwtBundle.AddJWTAuthority. case_bool_decide; cbn; [by split|].
    rewrite (bundle_map h held b c HI Hc). cbn. apply good_refines. by apply write_bundle.
  - unfold RemoveJWTAuthority. with_bundle b c. rewrite (bundle_map h held b c HI Hc). cbn.
    apply good_refines. by apply write_bundle.
  - destruct (arg_cases h held i HI) as [(l & m & -> & Hcopy & Hw)|[-> Hw]]; rewrite Hw; [|done]. cbn [mbind option_bind].
    unfold SetJWTAuthorities. with_bundle b c. rewrite Hcopy. cbn. unfold JwtBundle.SetJWTAuthorities. rewrite CopyJWTAuthorities_id.
    apply good_refines. apply place_bundle; [done|]. cbn. intros c' Hc'. congruence.
  - unfold Clone. with_bundle b c.
    destruct (CopyJWTAuthorities_grown h _ _ (bundle_map h held b c HI Hc)) as [Hcopy _].
    destruct (From_refines h held (c_trustDomain c) _ _ HI Hcopy) as (h' & -> & Hg).
    unfold new_value. rewrite fresh_a_bundles. by apply good_refines.
  - unfold GetJWTBundleForTrustDomain. with_bundle b c. unfold JwtBundle.GetJWTBundleForTrustDomain. cbn. by case_bool_decide.
Qed.

Lemma new_refines h held td :
  Inv (mkMemory h held) → refines (C_New td) (mkMemory h held) ∧ ∀ i, refines (C_From td i) (mkMemory h held).
Proof.
  intros HI. unfold refines. split; [|intros i]; cbn [step abs_step].
  - unfold on_heap, New, bind. cbn. unfold new_value. rewrite fresh_a_bundles. apply good_refines.
    apply place_bundle; [done|]. intros c Hc. by rewrite fresh_key_bundle in Hc.
  - destruct (arg_cases h held i HI) as [(l & m & -> & Hcopy & Hw)|[-> Hw]]; rewrite Hw; [|done].
    unfold on_heap. cbn [m_heap m_held mbind option_bind].
    destruct (From_refines h held td l m HI Hcopy) as (h' & -> & Hg).
    unfold new_value. rewrite fresh_a_bundles. by apply good_refines.
Qed.

Lemma set_refines h held :
  Inv (mkMemory h held) →
  let ok c := refines c (mkMemory h held) in
  (∀ bs, ok (C_NewSet bs)) ∧ (∀ s b, ok (C_Set_Add s b)) ∧ (∀ s td, ok (C_Set_Remove s td)) ∧ (∀ s td, ok (C_Set_Get s td)).
Proof.
  intros HI ok. unfold ok, refines. split_and!; [intros bs|intros s b|intros s td|intros s td]; cbn [step abs_step]; cbn [a_sets abs m_heap].
  - unfold on_heap, NewSet, bind. cbn [m_heap]. rewrite put_pointers_file. cbn [a_bundles abs m_heap].
    destruct (file _ ∅ bs) as [m|] eqn:Hm; [|done]. cbn [mbind option_bind].
    apply good_refines. apply place_set; [done|]. apply (file_filed h bs ∅ m); [by intros|done].
  - unfold on_heap, Add, bind, get. cbn [m_heap]. destruct (sets h !! s) as [m|] eqn:Hs; [|done]. cbn [mbind option_bind].
    pose proof (put_pointers_file h [b] m) as Hp. cbn [put_pointers] in Hp. unfold bind in Hp. cbn [a_bundles abs m_heap].
    destruct (file _ m [b]) as [m'|] eqn:Hm.
    + destruct (put_pointer m b h) as [[m'' h']|]; [|done]. injection Hp as -> ->. apply good_refines.
      apply place_set; [done|]. apply (file_filed h [b] m m'); [|done]. exact (λ td b, inv_sets _ HI s m td b Hs).
    + destruct (put_pointer m b h) as [[m'' h']|]; [|done]. by cbn in Hp.
  - unfold on_heap, Remove, bind, get. cbn [m_heap]. destruct (sets h !! s) as [m|] eqn:Hs; [|done]. cbn [mbind option_bind].
    apply good_refines. apply place_set; [done|]. intros td' b' [_ Hb]%lookup_delete_Some. by apply (inv_sets _ HI s m).
  - unfold on_heap, Set_GetJWTBundleForTrustDomain, bind, get. cbn [m_heap m_held].
    destruct (sets h !! s) as [m|] eqn:Hs; [|done]. cbn. split; [done|]. by destruct (m !! td).
Qed.

Lemma jwt_source_refines h held :
  Inv (mkMemory h held) →
  let ok c := refines c (mkMemory h held) in
  ok C_NewJWTSource ∧ (∀ j s, ok (C_JWTSource_set j s)) ∧ (∀ j td, ok (C_JWTSource_get j td)).
Proof.
  intros HI ok. unfold ok, refines. split_and!; [|intros j s|intros j td]; cbn [step abs_step].
  - unfold on_heap, new_source_jwt. cbn [m_heap m_held]. apply good_refines. by apply place_jwt_source.
  - unfold on_heap, bind, get. cbn [m_heap m_held a_jwt_sources a_sets abs].
    destruct (jwt_sources h !! j) as [old|]; [|done]. cbn [mbind option_bind]. destruct (sets h !! s) as [m|]; [|done].
    cbn [mbind option_bind]. apply good_refines. by apply place_jwt_source.
  - unfold on_heap, JWTSource_GetJWTBundleForTrustDomain, Set_GetJWTBundleForTrustDomain, bind, get.
    cbn [m_heap m_held a_jwt_sources a_sets abs].
    destruct (jwt_sources h !! j) as [[s'|]|]; [|done..]. cbn [mbind option_bind].
    destruct (sets h !! s') as [m|]; [|done]. cbn. split; [done|]. by destruct (m !! td).
Qed.

Lemma bundle_source_refines h held :
  Inv (mkMemory h held) →
  let ok c := refines c (mkMemory h held) in
  ok C_NewBundleSource ∧ (∀ x s, ok (C_BundleSource_set x s)) ∧ (∀ x td, ok (C_BundleSource_get x td)).
Proof.
  intros HI ok. unfold ok, refines. split_and!; [|intros x s|intros x td]; cbn [step abs_step].
  - unfold on_heap, new_source_bundle. cbn [m_heap m_held]. rewrite fresh_a_sources. apply good_refines.
    pose proof (place_source h h held (fresh (dom (bundle_sources h))) ∅ HI (grown_refl h)) as Hp.
    rewrite fmap_empty in Hp. apply Hp; by intros.
  - unfold on_heap. cbn [m_heap m_held].
    assert (a_bundle_sources (abs (mkMemory h held)) !! x = (λ m : gmap TrustDomain loc, content h <$> m) <$> bundle_sources h !! x)
      as -> by apply lookup_fmap.
    assert (a_sets (abs (mkMemory h held)) !! s = sets h !! s) as -> by done.
    destruct (bundle_sources h !! x) as [m|] eqn:Hm; [cbn [fmap option_fmap option_map mbind option_bind]|].
    2: { unfold BundleSource_setJWTBundles, bind, get. by rewrite Hm. }
    destruct (sets h !! s) as [set|] eqn:Hs; cbn [mbind option_bind].
    2: { unfold BundleSource_setJWTBundles, bind, get. by rewrite Hm, Hs. }
    destruct (set_bundle_source h held x m s set HI Hm Hs) as (h' & -> & Hg). by apply good_refines.
  - unfold on_heap, BundleSource_GetJWTBundleForTrustDomain, bind, get. cbn [m_heap m_held].
    assert (a_bundle_sources (abs (mkMemory h held)) !! x = (λ m : gmap TrustDomain loc, content h <$> m) <$> bundle_sources h !! x)
      as -> by apply lookup_fmap.
    destruct (bundle_sources h !! x) as [m|] eqn:Hm; [|done]. cbn [fmap option_fmap option_map mbind option_bind].
    unfold Sources.BundleSource_GetJWTBundleForTrustDomain. cbn [checkClosed src_closed mbind res_bind bs_jwtAuthorities data_of].
    rewrite lookup_fmap. destruct (m !! td) as [l|] eqn:Hl; cbn [fmap option_fmap option_map]; [|by split].
    destruct (inv_dom _ HI (O_source x td) l) as [v Hv]; [by exists m|]. cbn in Hv.
    destruct (CopyJWTAuthorities_grown h l v Hv) as [Hcopy _].
    destruct (From_refines h held td (Some l) v HI Hcopy) as (h' & -> & Hg).
    rewrite fresh_a_bundles. unfold content. rewrite Hv. by apply good_refines.
Qed.

Lemma caller_refines h held :
  Inv (mkMemory h held) →
  let ok c := refines c (mkMemory h held) in
  ok C_make ∧ (∀ i keyID k, ok (C_assign i keyID k)) ∧ (∀ i keyID, ok (C_delete i keyID)).
Proof.
  intros HI ok. unfold ok, refines.
  assert (∀ i f, match client_write i f (mkMemory h held) with
    | Some (r, σ') => Inv σ' ∧ (m ← a_held (abs (mkMemory h held)) !! i;
        Some (R_unit, set_held (<[i := f m]> (a_held (abs (mkMemory h held)))) (abs (mkMemory h held)))) = Some (r, abs σ')
    | None => (m ← a_held (abs (mkMemory h held)) !! i;
        Some (R_unit, set_held (<[i := f m]> (a_held (abs (mkMemory h held)))) (abs (mkMemory h held)))) = None end) as Hw.
  { intros i f. rewrite lookup_a_held. unfold client_write, on_heap, bind, get. cbn [m_heap m_held].
    destruct (held !! i) as [l|] eqn:Hl; [|done]. cbn [option_map mbind option_bind].
    destruct (inv_dom _ HI (O_caller i) l Hl) as [m Hm]. cbn in Hm. rewrite Hm. cbn [write_map].
    unfold content. rewrite Hm. apply good_refines. by apply write_held. }
  split_and!; cbn [step abs_step]; [|intros i keyID k; apply Hw|intros i keyID; apply Hw].
  unfold on_map. cbn [m_heap m_held new_map]. unfold hold. cbn [a_held abs m_held]. rewrite length_map.
  apply good_refines. exact (place_held h held ∅ HI).
Qed.

Lemma step_refines c σ : Inv σ → refines c σ.
Proof.
  destruct σ as [h held]. intros HI.
  destruct c; first
    [by apply bundle_refines|by apply new_refines|by apply set_refines|by apply jwt_source_refines
    |by apply bundle_source_refines|by apply caller_refines].
Qed.

Lemma reachable_KInv σ : reachable σ → Inv σ.
Proof.
  induction 1 as [|σ c r σ' _ IH Hs].
  - split; [by intros [b|x td|i] l; [intros (? & ? & _)|intros (? & ? & _)|]|by intros [b|x td|i] o2 l; [intros (? & ? & _)|intros (? & ? & _)|]|by intros].
  - pose proof (step_refines c σ IH) as Hr. unfold refines in Hr. rewrite Hs in Hr. by destruct Hr.
Qed.

(** Runs: the results of the calls and the final state; None when a call panics. *)
Fixpoint steps (cs : list call) (σ : memory) : option (list result * memory) :=
  match cs with
  | [] => Some ([], σ)
  | c :: cs =>
      match step c σ with
      | Some (r, σ) => match steps cs σ with Some (rs, σ) => Some (r :: rs, σ) | None => None end
      | None => None
      end
  end.

Fixpoint abs_steps (cs : list call) (a : astate) : option (list result * astate) :=
  match cs with
  | [] => Some ([], a)
  | c :: cs =>
      match abs_step c a with
      | Some (r, a) => match abs_steps cs a with Some (rs, a) => Some (r :: rs, a) | None => None end
      | None => None
      end
  end.

Definition empty_astate : astate := mkAstate ∅ ∅ ∅ ∅ [].

Lemma steps_refine cs σ :
  Inv σ →
  match steps cs σ with
  | Some (rs, σ') => abs_steps cs (abs σ) = Some (rs, abs σ')
  | None => abs_steps cs (abs σ) = None
  end.
Proof.
  revert σ; induction cs as [|c cs IH]; intros σ HI; cbn [steps abs_steps]; [done|].
  pose proof (step_refines c σ HI) as Hr. unfold refines in Hr.
  destruct (step c σ) as [[r σ']|]; [|by rewrite Hr]. destruct Hr as [HI' ->]. pose proof (IH σ' HI') as Hs.
  destruct (steps cs σ') as [[rs σ'']|]; by rewrite Hs.
Qed.

Lemma abs_empty : abs empty_memory = empty_astate.
Proof. unfold abs, empty_astate. cbn. by rewrite !fmap_empty. Qed.

(** What a call does not change on the values. *)
Lemma abs_step_frame c a r a' :
  abs_step c a = Some (r, a') →
  (∀ x, is_Some (a_bundle_sources a !! x) → (∀ s, c ≠ C_BundleSource_set x s) →
     a_bundle_sources a' !! x = a_bundle_sources a !! x) ∧
  (∀ j, is_Some (a_jwt_sources a !! j) → (∀ s, c ≠ C_JWTSource_set j s) → a_jwt_sources a' !! j = a_jwt_sources a !! j) ∧
  (∀ b, is_Some (a_bundles a !! b) → (∀ keyID k, c ≠ C_Add b keyID k) → (∀ keyID, c ≠ C_Remove b keyID) →
     (∀ i, c ≠ C_Set b i) → a_bundles a' !! b = a_bundles a !! b).
Proof.
  assert (∀ {A} (m : gmap loc A) x y, is_Some (m !! x) → <[fresh (dom m) := y]> m !! x = m !! x) as Hfresh.
  { intros A m x y [z Hz]. apply lookup_insert_ne. intros <-.
    assert (m !! fresh (dom m) = None) as Hn by (apply not_elem_of_dom, is_fresh). congruence. }
  intros H. destruct c; cbn [abs_step] in H; unfold new_value, hold in H; repeat (case_match || (apply bind_Some in H as (? & ? & H))); simplify_eq/=;
    split_and!; intros; try done; try (by apply Hfresh); try (rewrite lookup_insert_ne; [done|naive_solver]).
Qed.

(** What a JWTSource serves for a trust domain: its set files the bundle, which holds the key. *)
Definition serves (j s : loc) (td : TrustDomain) (b : loc) (keyID : string) (k : PublicKey) (a : astate) : Prop :=
  a_jwt_sources a !! j = Some (Some s) ∧ (∃ m, a_sets a !! s = Some m ∧ m !! td = Some b) ∧
  ∃ v, a_bundles a !! b = Some v ∧ JwtBundle.jwtAuthorities v !! keyID = Some k.

(** The calls that do not update the source, do not file or remove bundles for that trust
    domain in its set, and do not write that key of that bundle. *)
Definition leaves (j s : loc) (td : TrustDomain) (b : loc) (keyID : string) (c : call) : Prop :=
  match c with
  | C_JWTSource_set j' _ => j' ≠ j
  | C_Set_Add s' _ => s' ≠ s
  | C_Set_Remove s' td' => s' ≠ s ∨ td' ≠ td
  | C_Add b' keyID' _ | C_Remove b' keyID' => b' ≠ b ∨ keyID' ≠ keyID
  | C_Set b' _ => b' ≠ b
  | _ => True
  end.

Lemma insert_fresh_ne {A} (m : gmap loc A) x y z : m !! x = Some z → <[fresh (dom m) := y]> m !! x = Some z.
Proof.
  intros Hz. rewrite lookup_insert_ne; [done|]. intros <-.
  assert (m !! fresh (dom m) = None) as Hn by (apply not_elem_of_dom, is_fresh). congruence.
Qed.

Lemma abs_step_set c a r a' s m td b :
  abs_step c a = Some (r, a') → a_sets a !! s = Some m → m !! td = Some b →
  (∀ b', c ≠ C_Set_Add s b') → c ≠ C_Set_Remove s td →
  ∃ m', a_sets a' !! s = Some m' ∧ m' !! td = Some b.
Proof.
  intros H Hs Hm Hadd Hrem.
  destruct c; cbn [abs_step] in H; unfold new_value, hold in H;
    repeat (case_match || (apply bind_Some in H as (? & ? & H))); simplify_eq/=; try (by exists m).
  - exists m. split; [by apply insert_fresh_ne|done].
  - exists m. split; [|done]. rewrite lookup_insert_ne; naive_solver.
  - destruct (decide (s0 = s)) as [->|Hne].
    + eexists. rewrite lookup_insert_eq. split; [done|]. simplify_eq. rewrite lookup_delete_ne; [done|congruence].
    + exists m. by rewrite lookup_insert_ne.
Qed.

Lemma abs_step_key c a r a' b v keyID k j s td :
  abs_step c a = Some (r, a') → a_bundles a !! b = Some v → JwtBundle.jwtAuthorities v !! keyID = Some k →
  leaves j s td b keyID c →
  ∃ v', a_bundles a' !! b = Some v' ∧ JwtBundle.jwtAuthorities v' !! keyID = Some k.
Proof.
  intros H Hb Hk Hl.
  destruct c; cbn [abs_step leaves] in H, Hl; unfold new_value, hold, JwtBundle.AddJWTAuthority in H;
    repeat (case_match || (apply bind_Some in H as (? & ? & H))); simplify_eq/=;
    try (by exists v); try (exists v; split; [by apply insert_fresh_ne|done]).
  all: match goal with |- context [<[?b1 := _]> _ !! ?b2] =>
         destruct (decide (b1 = b2)) as [Heq|Hne]; [subst|exists v; by rewrite lookup_insert_ne] end.
  all: try done; simplify_eq; eexists; rewrite lookup_insert_eq; (split; [done|]); cbn.
  - rewrite lookup_insert_ne; [done|naive_solver].
  - rewrite lookup_delete_ne; [done|naive_solver].
Qed.

Lemma serves_step j s td b keyID k c a r a' :
  serves j s td b keyID k a → leaves j s td b keyID c → abs_step c a = Some (r, a') → serves j s td b keyID k a'.
Proof.
  intros (Hj & (m & Hs & Hm) & v & Hb & Hk) Hl Hc. split_and!.
  - destruct (abs_step_frame c a r a' Hc) as (_ & Hf & _). rewrite Hf; [done|by eexists|].
    intros s' ->. by apply Hl.
  - eapply abs_step_set; [exact Hc|exact Hs|exact Hm|intros b' ->; by apply Hl|].
    intros ->. by destruct Hl.
  - by eapply abs_step_key.
Qed.

Lemma serves_steps j s td b keyID k cs σ rs σ' :
  Inv σ → serves j s td b keyID k (abs σ) → Forall (leaves j s td b keyID) cs → steps cs σ = Some (rs, σ') →
  Inv σ' ∧ serves j s td b keyID k (abs σ').
Proof.
  revert σ rs; induction cs as [|c cs IH]; intros σ rs HI Hs Hl; cbn [steps]; [by intros [= _ <-]|].
  apply Forall_cons in Hl as [Hc Hl]. pose proof (step_refines c σ HI) as Hr. unfold refines in Hr.
  destruct (step c σ) as [[r σ1]|]; [|done]. destruct Hr as [HI1 Ha].
  destruct (steps cs σ1) as [[rs1 σ2]|] eqn:E; [|done]. intros [= _ <-].
  eapply IH; [exact HI1|by eapply serves_step|exact Hl|exact E].
Qed.

(** Asking does not change the memory. *)
Lemma asking_reads c σ r σ' :
  (∃ j td, c = C_JWTSource_get j td) ∨ (∃ b keyID, c = C_Find b keyID) → step c σ = Some (r, σ') → σ' = σ.
Proof.
  destruct σ as [h held]. intros [(j & td & ->)|(b & keyID & ->)]; cbn [step].
  - unfold on_heap, JWTSource_GetJWTBundleForTrustDomain, Set_GetJWTBundleForTrustDomain, bind, get. cbn.
    destruct (jwt_sources h !! j) as [[s|]|]; [|done..]. destruct (sets h !! s) as [m|]; [|done]. cbn.
    by destruct (m !! td); intros [= _ <-].
  - unfold on_heap, FindJWTAuthority, bind, get. cbn. destruct (bundles h !! b) as [c|]; [|done]. cbn.
    destruct (maps h !! c_jwtAuthorities c) as [m|]; [|done]. cbn. by destruct (m !! keyID); intros [= _ <-].
Qed.

Lemma serves_answers j s td b keyID k σ :
  Inv σ → serves j s td b keyID k (abs σ) →
  step (C_JWTSource_get j td) σ = Some (R_bundle (Ok b), σ) ∧ step (C_Find b keyID) σ = Some (R_found (Some k, true), σ).
Proof.
  intros HI (Hj & (m & Hs & Hm) & v & Hb & Hk).
  pose proof (step_refines (C_JWTSource_get j td) σ HI) as Hg. pose proof (step_refines (C_Find b keyID) σ HI) as Hf.
  unfold refines in Hg, Hf. cbn [abs_step] in Hg, Hf. rewrite Hj in Hg. rewrite Hb in Hf.
  cbn [mbind option_bind] in Hg, Hf. rewrite Hs in Hg. cbn [mbind option_bind] in Hg. rewrite Hm in Hg.
  unfold JwtBundle.FindJWTAuthority in Hf. rewrite Hk in Hf. split.
  - destruct (step (C_JWTSource_get j td) σ) as [[r σ']|] eqn:E; [|done].
    rewrite (asking_reads _ _ _ _ (or_introl (ex_intro _ j (ex_intro _ td eq_refl))) E) in *. destruct Hg as [_ [= <-]]. done.
  - destruct (step (C_Find b keyID) σ) as [[r σ']|] eqn:E; [|done].
    rewrite (asking_reads _ _ _ _ (or_intror (ex_intro _ b (ex_intro _ keyID eq_refl))) E) in *. destruct Hf as [_ [= <-]]. done.
Qed.

(** A key added to the bundle that a JWTSource gave out. *)
Lemma added_serves j td b keyID k σ σ' σ'' :
  Inv σ → step (C_JWTSource_get j td) σ = Some (R_bundle (Ok b), σ') → keyID ≠ "" →
  step (C_Add b keyID k) σ' = Some (R_err (Ok ()), σ'') →
  ∃ s, Inv σ'' ∧ a_jwt_sources (abs σ) !! j = Some (Some s) ∧ serves j s td b keyID k (abs σ'').
Proof.
  intros HI Hg Hk Ha.
  pose proof (asking_reads _ _ _ _ (or_introl (ex_intro _ j (ex_intro _ td eq_refl))) Hg) as ->.
  pose proof (step_refines (C_JWTSource_get j td) σ HI) as Hrg. unfold refines in Hrg. rewrite Hg in Hrg.
  destruct Hrg as [_ Hrg]. cbn [abs_step] in Hrg.
  apply bind_Some in Hrg as (s0 & Hj & Hrg). apply bind_Some in Hrg as (s & -> & Hrg).
  apply bind_Some in Hrg as (m & Hs & Hrg). unfold pointer in Hrg. destruct (m !! td) as [b'|] eqn:Hm; [|done]. injection Hrg as ->.
  pose proof (step_refines (C_Add b keyID k) σ HI) as Hra. unfold refines in Hra. rewrite Ha in Hra.
  destruct Hra as [HI'' Hra]. cbn [abs_step] in Hra. apply bind_Some in Hra as (v & Hb & Hra).
  unfold JwtBundle.AddJWTAuthority in Hra. rewrite bool_decide_false in Hra by done.
  exists s. split_and!; [done|done|]. apply (f_equal (λ o, match o with Some p => p.2 | None => abs σ end)) in Hra. cbv beta iota in Hra. cbn [snd] in Hra.
  unfold serves. rewrite <- Hra. cbn. split_and!; [done|by exists m|].
  eexists. rewrite lookup_insert_eq. split; [done|]. cbn. by rewrite lookup_insert_eq.
Qed.

(** [C26] The maps of bundles, sources and callers behave as values: every sequence of
    calls - of the bundle's methods, of sets, of a JWTSource and a BundleSource being
    updated and asked, and of callers that write to maps they passed in or got back -
    returns on the heap what it returns when each map is a value of its own, panics
    when that does, and ends in the memory that stands for those values. *)
Theorem keys_in_memory (cs : list call) :
  match steps cs empty_memory with
  | Some (rs, σ) => abs_steps cs empty_astate = Some (rs, abs σ)
  | None => abs_steps cs empty_astate = None
  end.
Proof. rewrite <- abs_empty. apply steps_refine, reachable_KInv, reachable_empty. Qed.


(** ** Witness: a bundle in a set, served by both kinds of source *)
Definition sample_key : PublicKey := RSA_PublicKey 65537 35.
Definition sample_td : TrustDomain := mkTrustDomain "example.org".

(** Locations are given out from one on, in each field of the heap. *)
Definition sample_calls : list call :=
  [C_New sample_td; C_NewSet [Some 1%positive; None]; C_NewJWTSource; C_JWTSource_set 1%positive 1%positive;
   C_NewBundleSource; C_BundleSource_set 1%positive 1%positive].

Definition sample_memory : memory := match steps sample_calls empty_memory with Some (_, σ) => σ | None => empty_memory end.

Lemma key_steps_reachable cs σ rs σ' : reachable σ → steps cs σ = Some (rs, σ') → reachable σ'.
Proof.
  revert σ rs; induction cs as [|c cs IH]; intros σ rs Hr; cbn [steps]; [by intros [= _ <-]|].
  destruct (step c σ) as [[r σ1]|] eqn:Hs; [|done]. destruct (steps cs σ1) as [[rs1 σ2]|] eqn:E; [|done].
  intros [= _ <-]. eapply IH; [|exact E]. by eapply reachable_step.
Qed.

Lemma sample_key_memory_reachable : reachable sample_memory.
Proof.
  unfold sample_memory. destruct (steps sample_calls empty_memory) as [[rs σ]|] eqn:E; [|constructor].
  eapply key_steps_reachable; [constructor|exact E].
Qed.

Definition sample_add : call := C_Add 1%positive "kid" sample_key.
Definition added_memory : memory := match step sample_add sample_memory with Some (_, σ) => σ | None => sample_memory end.

Lemma sample_given : step (C_JWTSource_get 1%positive sample_td) sample_memory = Some (R_bundle (Ok 1%positive), sample_memory).
Proof. vm_compute. reflexivity. Qed.
Lemma sample_added : step sample_add sample_memory = Some (R_err (Ok ()), added_memory).
Proof. vm_compute. reflexivity. Qed.
Lemma sample_source : is_Some (a_bundle_sources (abs sample_memory) !! 1%positive).
Proof. eexists. vm_compute. reflexivity. Qed.

(** A caller adds a key to the bundle the JWTSource gave out. Later, after another key of
    it has been removed and a BundleSource updated, the source's bundle still has it;
    the BundleSource's maps are as they were when the key was added. *)
Definition later_calls : list call :=
  [C_Add 1%positive "other" sample_key; C_Remove 1%positive "other"; C_BundleSource_set 1%positive 1%positive; C_New sample_td].
Definition later_memory : memory := match steps later_calls added_memory with Some (_, σ) => σ | None => added_memory end.

