(* ===== verification/TlsConfig.v ===== *)
(** * spiffetls/tlsconfig: TLS configurations with SPIFFE authentication

    Models src/spiffetls/tlsconfig: the authorizers (authorizer.go), the functions
    that fill a tls.Config (config.go) and the trace callbacks (trace.go).

    A tls.Config holds closures that read the sources at handshake time, so they
    take the state of the world [W] at that time: a source is a function of it.
    The fields of the record are the ones the package assigns, the others that decide
    whether a handshake succeeds (VerifyConnection, GetConfigForClient), the session
    settings, and the rest in [tc_rest]; the hooks leave these last groups as the base
    configuration has them. [client_accepts] and [server_accepts] are the documented
    checks of crypto/tls on the peer in a full handshake under a configuration; resumed
    sessions are the subject of TlsSession.v. *)

From S2P Require Import Prelude Path GoUrl ID Match Crypto X509 X509Sample Pem BundleSet X509Bundle X509Svid.

Section tlsconfig.
Context {C : Charset} {L : X509Lib} {V : X509Verifier}.
Context {W : Type}.

(** ** Sources read at some state of the world; None is a nil interface *)
Definition svid_source : Type := W → res X509Svid.SVID.
Definition bundle_source : Type := option (W → TrustDomain → res X509Bundle.Bundle).

#[local] Instance lookup_Source : X509Bundle.Source (TrustDomain → res X509Bundle.Bundle) := λ f, f.

Definition chains : Type := list (list Certificate).

(** ** Authorizers *)
Definition Authorizer : Type := ID.ID → chains → res unit.

Definition AdaptMatcher (matcher : Matcher) : Authorizer := λ actual verifiedChains, matcher actual.
Definition AuthorizeAny : Authorizer := AdaptMatcher MatchAny.
Definition AuthorizeID (allowed : ID.ID) : Authorizer := AdaptMatcher (MatchID allowed).
Definition AuthorizeOneOf (allowed : list ID.ID) : Authorizer := AdaptMatcher (MatchOneOf allowed).
Definition AuthorizeMemberOf (allowed : TrustDomain) : Authorizer := AdaptMatcher (MatchMemberOf allowed).

(** ** tls.Certificate and the trace *)
Record tls_Certificate : Type := mkTlsCertificate {
  tc_Certificate : list string;
  tc_PrivateKey : option PrivateKey;
  tc_Leaf : option Certificate;
}.

(** The callbacks return and receive a value of the user's; the calls made are
    recorded in order. *)
Inductive trace_call : Type :=
  | GetCertificate_called
  | GotCertificate_called (cert : option tls_Certificate) (err : option error) (val : option string).

Record Trace : Type := mkTrace {
  trace_GetCertificate : option string;   (* the value the callback returns; None: nil function *)
  trace_GotCertificate : bool;            (* whether the callback is set *)
}.

(** ** Options *)
Record options : Type := mkOptions { opt_trace : Trace }.
Definition Option : Type := options → options.
Definition WithTrace (trace : Trace) : Option := λ opts, mkOptions trace.
Definition newOptions (opts : list Option) : options :=
  foldl (λ out opt, opt out) (mkOptions (mkTrace None false)) opts.

Definition got (trace : Trace) (cert : option tls_Certificate) (err : option error) (val : option string) : list trace_call :=
  if trace_GotCertificate trace then [GotCertificate_called cert err val] else [].

Definition svid_certificate (s : X509Svid.SVID) : res tls_Certificate :=
  match X509Svid.svid_Certificates s with
  | [] => Panic "index out of range"
  | leaf :: _ => Ok (mkTlsCertificate (Raw <$> X509Svid.svid_Certificates s) (Some (X509Svid.svid_PrivateKey s)) (Some leaf))
  end.

Definition getTLSCertificate (svid : svid_source) (trace : Trace) (w : W) : res tls_Certificate * list trace_call :=
  let traceVal := trace_GetCertificate trace in
  let called := match traceVal with Some _ => [GetCertificate_called] | None => [] end in
  match svid w with
  | Panic why => (Panic why, called)
  | Err err => (Err err, called ++ got trace None (Some err) traceVal)
  | Ok s =>
      match svid_certificate s with
      | Ok cert => (Ok cert, called ++ got trace (Some cert) None traceVal)
      | Err err => (Err err, called)
      | Panic why => (Panic why, called)
      end
  end.

(** ** tls.Config *)
Definition VersionTLS12 : Z := 771.   (* 0x0303 *)

Inductive ClientAuthType : Type :=
  | NoClientCert | RequestClientCert | RequireAnyClientCert | VerifyClientCertIfGiven | RequireAndVerifyClientCert.

Definition cert_callback : Type := W → res tls_Certificate * list trace_call.
Definition verify_callback : Type := W → list string → chains → res unit.

(** VerifyConnection gets the connection's state: the peer's certificates, the chains that
    crypto/tls verified itself, and whether a session was resumed. *)
Definition connection_callback : Type := W → list string → chains → bool → res unit.

#[warnings="-register-all"]
Inductive Config : Type := mkConfig {
  MinVersion : Z;
  Certificates : list tls_Certificate;
  ClientAuth : ClientAuthType;
  GetCertificate : option cert_callback;
  GetClientCertificate : option cert_callback;
  InsecureSkipVerify : bool;
  NameToCertificate : option (gmap string tls_Certificate);
  RootCAs : option CertPool;
  VerifyPeerCertificate : option verify_callback;
  SessionTicketsDisabled : bool;
  ClientSessionCache : bool;          (* whether one is set *)
  ServerName : string;
  VerifyConnection : option connection_callback;
  GetConfigForClient : option (W → res (option Config));   (* the ClientHello is in the world *)
  tc_rest : list (string * string);
}.

Definition set_Certificates v c := mkConfig (MinVersion c) v (ClientAuth c) (GetCertificate c) (GetClientCertificate c)
  (InsecureSkipVerify c) (NameToCertificate c) (RootCAs c) (VerifyPeerCertificate c) (SessionTicketsDisabled c) (ClientSessionCache c) (ServerName c) (VerifyConnection c) (GetConfigForClient c) (tc_rest c).
Definition set_ClientAuth v c := mkConfig (MinVersion c) (Certificates c) v (GetCertificate c) (GetClientCertificate c)
  (InsecureSkipVerify c) (NameToCertificate c) (RootCAs c) (VerifyPeerCertificate c) (SessionTicketsDisabled c) (ClientSessionCache c) (ServerName c) (VerifyConnection c) (GetConfigForClient c) (tc_rest c).
Definition set_GetCertificate v c := mkConfig (MinVersion c) (Certificates c) (ClientAuth c) v (GetClientCertificate c)
  (InsecureSkipVerify c) (NameToCertificate c) (RootCAs c) (VerifyPeerCertificate c) (SessionTicketsDisabled c) (ClientSessionCache c) (ServerName c) (VerifyConnection c) (GetConfigForClient c) (tc_rest c).
Definition set_GetClientCertificate v c := mkConfig (MinVersion c) (Certificates c) (ClientAuth c) (GetCertificate c) v
  (InsecureSkipVerify c) (NameToCertificate c) (RootCAs c) (VerifyPeerCertificate c) (SessionTicketsDisabled c) (ClientSessionCache c) (ServerName c) (VerifyConnection c) (GetConfigForClient c) (tc_rest c).
Definition set_InsecureSkipVerify v c := mkConfig (MinVersion c) (Certificates c) (ClientAuth c) (GetCertificate c)
  (GetClientCertificate c) v (NameToCertificate c) (RootCAs c) (VerifyPeerCertificate c) (SessionTicketsDisabled c) (ClientSessionCache c) (ServerName c) (VerifyConnection c) (GetConfigForClient c) (tc_rest c).
Definition set_MinVersion v c := mkConfig v (Certificates c) (ClientAuth c) (GetCertificate c) (GetClientCertificate c)
  (InsecureSkipVerify c) (NameToCertificate c) (RootCAs c) (VerifyPeerCertificate c) (SessionTicketsDisabled c) (ClientSessionCache c) (ServerName c) (VerifyConnection c) (GetConfigForClient c) (tc_rest c).
Definition set_NameToCertificate v c := mkConfig (MinVersion c) (Certificates c) (ClientAuth c) (GetCertificate c) (GetClientCertificate c)
  (InsecureSkipVerify c) v (RootCAs c) (VerifyPeerCertificate c) (SessionTicketsDisabled c) (ClientSessionCache c) (ServerName c) (VerifyConnection c) (GetConfigForClient c) (tc_rest c).
Definition set_RootCAs v c := mkConfig (MinVersion c) (Certificates c) (ClientAuth c) (GetCertificate c)
  (GetClientCertificate c) (InsecureSkipVerify c) (NameToCertificate c) v (VerifyPeerCertificate c) (SessionTicketsDisabled c) (ClientSessionCache c) (ServerName c) (VerifyConnection c) (GetConfigForClient c) (tc_rest c).
Definition set_VerifyPeerCertificate v c := mkConfig (MinVersion c) (Certificates c) (ClientAuth c) (GetCertificate c)
  (GetClientCertificate c) (InsecureSkipVerify c) (NameToCertificate c) (RootCAs c) v (SessionTicketsDisabled c) (ClientSessionCache c) (ServerName c) (VerifyConnection c) (GetConfigForClient c) (tc_rest c).

Definition set_ServerName v c := mkConfig (MinVersion c) (Certificates c) (ClientAuth c) (GetCertificate c)
  (GetClientCertificate c) (InsecureSkipVerify c) (NameToCertificate c) (RootCAs c) (VerifyPeerCertificate c)
  (SessionTicketsDisabled c) (ClientSessionCache c) v (VerifyConnection c) (GetConfigForClient c) (tc_rest c).

Definition set_GetConfigForClient v c := mkConfig (MinVersion c) (Certificates c) (ClientAuth c) (GetCertificate c) (GetClientCertificate c)
  (InsecureSkipVerify c) (NameToCertificate c) (RootCAs c) (VerifyPeerCertificate c)
  (SessionTicketsDisabled c) (ClientSessionCache c) (ServerName c) (VerifyConnection c) v (tc_rest c).

Definition newTLSConfig : Config := mkConfig VersionTLS12 [] NoClientCert None None false None None None false false "" None None [].

(** VerifyPeerCertificate, VerifyConnection and GetConfigForClient are not among the
    fields reset. *)
Definition resetAuthFields (config : Config) : Config :=
  mkConfig (if (MinVersion config <? VersionTLS12)%Z then VersionTLS12 else MinVersion config)
    [] NoClientCert None None false None None (VerifyPeerCertificate config)
    (SessionTicketsDisabled config) (ClientSessionCache config) (ServerName config)
    (VerifyConnection config) (GetConfigForClient config) (tc_rest config).

(** ** Verification callbacks *)
Definition parse_and_verify (bundle : bundle_source) (w : W) (raw : list string) : ID.ID * res chains :=
  X509Svid.ParseAndVerify raw ((λ b : W → TrustDomain → res X509Bundle.Bundle, b w) <$> bundle) [].

Definition verifyPeerCertificate (bundle : bundle_source) (authorizer : Authorizer) : verify_callback := λ w raw _,
  let '(id, r) := parse_and_verify bundle w raw in
  let! certs := r in
  authorizer id certs.

Definition WrapVerifyPeerCertificate (wrapped : option verify_callback) (bundle : bundle_source)
    (authorizer : Authorizer) : verify_callback :=
  match wrapped with
  | None => verifyPeerCertificate bundle authorizer
  | Some wrapped => λ w raw _,
      let '(id, r) := parse_and_verify bundle w raw in
      let! certs := r in
      check! authorizer id certs;
      wrapped w raw certs
  end.

Definition getCertificate (svid : svid_source) (opts : list Option) : cert_callback :=
  let opt := newOptions opts in getTLSCertificate svid (opt_trace opt).
Definition getClientCertificate (svid : svid_source) (opts : list Option) : cert_callback :=
  let opt := newOptions opts in getTLSCertificate svid (opt_trace opt).

(** ** The configurations *)
Definition HookTLSClientConfig (config : Config) (bundle : bundle_source) (authorizer : Authorizer)
    (opts : list Option) : Config :=
  let config := resetAuthFields config in
  let config := set_InsecureSkipVerify true config in
  set_VerifyPeerCertificate (Some (WrapVerifyPeerCertificate (VerifyPeerCertificate config) bundle authorizer)) config.
Definition TLSClientConfig bundle authorizer opts : Config :=
  HookTLSClientConfig newTLSConfig bundle authorizer opts.

Definition HookMTLSClientConfig (config : Config) (svid : svid_source) (bundle : bundle_source)
    (authorizer : Authorizer) (opts : list Option) : Config :=
  let config := resetAuthFields config in
  let config := set_GetClientCertificate (Some (getClientCertificate svid opts)) config in
  let config := set_InsecureSkipVerify true config in
  set_VerifyPeerCertificate (Some (WrapVerifyPeerCertificate (VerifyPeerCertificate config) bundle authorizer)) config.
Definition MTLSClientConfig svid bundle authorizer opts : Config :=
  HookMTLSClientConfig newTLSConfig svid bundle authorizer opts.

Definition HookMTLSWebClientConfig (config : Config) (svid : svid_source) (roots : option CertPool)
    (opts : list Option) : Config :=
  let config := resetAuthFields config in
  let config := set_GetClientCertificate (Some (getClientCertificate svid opts)) config in
  set_RootCAs roots config.
Definition MTLSWebClientConfig svid roots opts : Config := HookMTLSWebClientConfig newTLSConfig svid roots opts.

Definition HookTLSServerConfig (config : Config) (svid : svid_source) (opts : list Option) : Config :=
  let config := resetAuthFields config in
  set_GetCertificate (Some (getCertificate svid opts)) config.
Definition TLSServerConfig svid opts : Config := HookTLSServerConfig newTLSConfig svid opts.

Definition HookMTLSServerConfig (config : Config) (svid : svid_source) (bundle : bundle_source)
    (authorizer : Authorizer) (opts : list Option) : Config :=
  let config := resetAuthFields config in
  let config := set_ClientAuth RequireAnyClientCert config in
  let config := set_GetCertificate (Some (getCertificate svid opts)) config in
  set_VerifyPeerCertificate (Some (WrapVerifyPeerCertificate (VerifyPeerCertificate config) bundle authorizer)) config.
Definition MTLSServerConfig svid bundle authorizer opts : Config :=
  HookMTLSServerConfig newTLSConfig svid bundle authorizer opts.

(** [*cert] of a nil certificate panics. *)
Definition HookMTLSWebServerConfig (config : Config) (cert : option tls_Certificate) (bundle : bundle_source)
    (authorizer : Authorizer) (opts : list Option) : res Config :=
  let config := resetAuthFields config in
  let config := set_ClientAuth RequireAnyClientCert config in
  match cert with
  | None => Panic "nil pointer dereference"
  | Some cert =>
      let config := set_Certificates [cert] config in
      Ok (set_VerifyPeerCertificate
            (Some (WrapVerifyPeerCertificate (VerifyPeerCertificate config) bundle authorizer)) config)
  end.
Definition MTLSWebServerConfig cert bundle authorizer opts : res Config :=
  HookMTLSWebServerConfig newTLSConfig cert bundle authorizer opts.

(** ** crypto/tls: the checks on the peer in a full handshake

    A client whose configuration does not skip it verifies the server's chain
    itself ([default_verify], against RootCAs); then VerifyPeerCertificate, when set, gets
    the raw certificates. A server first lets GetConfigForClient, when set, choose another
    configuration for the connection, or fail. If it asks for no certificate it checks
    none; one that requires any certificate rejects an empty chain. VerifyConnection,
    when set, has the last word on every connection. *)
Class TlsLib := {
  default_verify : option CertPool → W → list string → chains + error;
  verify_client_certs : Config → W → list string → chains + error;
}.
Context {TL : TlsLib}.

Definition run_verify_callback (config : Config) (w : W) (raw : list string) (verified : chains) : res unit :=
  match VerifyPeerCertificate config with None => Ok () | Some f => f w raw verified end.

Definition run_verify_connection (config : Config) (w : W) (raw : list string) (verified : chains) (resumed : bool) : res unit :=
  match VerifyConnection config with None => Ok () | Some f => f w raw verified resumed end.

(** VerifyPeerCertificate, then VerifyConnection. *)
Definition run_callbacks (config : Config) (w : W) (raw : list string) (verified : chains) : res unit :=
  check! run_verify_callback config w raw verified;
  run_verify_connection config w raw verified false.

Definition client_accepts (config : Config) (w : W) (raw : list string) : res unit :=
  if InsecureSkipVerify config then run_callbacks config w raw []
  else let! verified := of_lib (default_verify (RootCAs config) w raw) in run_callbacks config w raw verified.

(** The server's checks under the configuration of the connection. *)
Definition server_checks (config : Config) (w : W) (raw : list string) : res unit :=
  match ClientAuth config with
  | NoClientCert => run_verify_connection config w [] [] false
  | RequestClientCert =>
      match raw with [] => run_verify_connection config w [] [] false | _ => run_callbacks config w raw [] end
  | RequireAnyClientCert =>
      match raw with
      | [] => Err (extern_error "tls" "client didn't provide a certificate")
      | _ => run_callbacks config w raw []
      end
  | VerifyClientCertIfGiven =>
      match raw with
      | [] => run_verify_connection config w [] [] false
      | _ => let! verified := of_lib (verify_client_certs config w raw) in run_callbacks config w raw verified
      end
  | RequireAndVerifyClientCert =>
      match raw with
      | [] => Err (extern_error "tls" "client didn't provide a certificate")
      | _ => let! verified := of_lib (verify_client_certs config w raw) in run_callbacks config w raw verified
      end
  end.

(** The configuration of a server's connection: GetConfigForClient may choose another one,
    which is then used as it is. *)
Definition selected (config : Config) (w : W) : res Config :=
  match GetConfigForClient config with
  | None => Ok config
  | Some f => let! chosen := f w in Ok (default config chosen)
  end.

Definition server_accepts (config : Config) (w : W) (raw : list string) : res unit :=
  let! config := selected config w in
  server_checks config w raw.
End tlsconfig.

Arguments Config W : clear implicits.

(** ** Lemmas *)
Section tls_lemmas.
Context {C : Charset} {L : X509Lib} {V : X509Verifier} {W : Type} {TL : TlsLib (W := W)}.
Implicit Types (config : Config W) (bundle : bundle_source (W := W)) (authorizer : Authorizer).

(** A peer's certificates pass SPIFFE authentication and the authorizer, with
    the given ID and chains. *)
Definition spiffe_accepts bundle authorizer (w : W) raw id certs : Prop :=
  parse_and_verify bundle w raw = (id, Ok certs) ∧ authorizer id certs = Ok ().

(** The callbacks of the configuration a hook started from: its VerifyPeerCertificate gets
    the chains of the SPIFFE verification, its VerifyConnection none. *)
Definition base_accepts config (w : W) raw certs : Prop :=
  run_verify_callback config w raw certs = Ok () ∧ run_verify_connection config w raw [] false = Ok ().

(** A server's connection under a hooked configuration: GetConfigForClient of the base
    decides whether what the hook made of it is used at all. *)
Definition served_by config (w : W) raw (hooked : Prop) : Prop :=
  match GetConfigForClient config with
  | None => hooked
  | Some f =>
      match f w with
      | Ok None => hooked
      | Ok (Some chosen) => server_checks chosen w raw = Ok ()
      | _ => False
      end
  end.

Lemma served_by_iff config w raw (P Q : Prop) : (P ↔ Q) → served_by config w raw P ↔ served_by config w raw Q.
Proof. intros HPQ. unfold served_by. destruct (GetConfigForClient config) as [f|]; [|done]. by destruct (f w) as [[c|]| |]. Qed.

Lemma wrap_accepts wrapped bundle authorizer w raw x :
  WrapVerifyPeerCertificate wrapped bundle authorizer w raw x = Ok () ↔
  ∃ id certs, spiffe_accepts bundle authorizer w raw id certs ∧
    match wrapped with None => True | Some f => f w raw certs = Ok () end.
Proof.
  unfold WrapVerifyPeerCertificate, verifyPeerCertificate, spiffe_accepts.
  destruct wrapped as [f|]; destruct (parse_and_verify bundle w raw) as [id r]; (split;
    [|intros (id' & certs & [[= -> ->] Ha] & Hf); cbn [mbind res_bind]; rewrite ?Ha; done]).
  - intros (certs & -> & Ha)%bind_Ok_inv. apply check_Ok_inv in Ha as [Ha Hf]. by exists id, certs.
  - intros (certs & -> & Ha)%bind_Ok_inv. by exists id, certs.
Qed.

(** The wrapped callback, then VerifyConnection. *)
Lemma hooked_callbacks config hooked bundle authorizer w raw :
  VerifyPeerCertificate hooked = Some (WrapVerifyPeerCertificate (VerifyPeerCertificate config) bundle authorizer) →
  VerifyConnection hooked = VerifyConnection config →
  run_callbacks hooked w raw [] = Ok () ↔
  ∃ id certs, spiffe_accepts bundle authorizer w raw id certs ∧ base_accepts config w raw certs.
Proof.
  intros Hv Hc. unfold run_callbacks, run_verify_callback at 1, run_verify_connection. rewrite Hv, Hc. split.
  - intros [Hw Hconn]%check_Ok_inv. apply wrap_accepts in Hw as (id & certs & Hs & Hb). exists id, certs.
    split; [done|]. unfold base_accepts, run_verify_callback, run_verify_connection. by destruct (VerifyPeerCertificate config).
  - intros (id & certs & Hs & Hb & Hconn).
    assert (WrapVerifyPeerCertificate (VerifyPeerCertificate config) bundle authorizer w raw [] = Ok ()) as ->; [|done].
    apply wrap_accepts. exists id, certs. split; [done|]. unfold run_verify_callback in Hb. by destruct (VerifyPeerCertificate config).
Qed.

Lemma server_selected config hooked w raw P :
  GetConfigForClient hooked = GetConfigForClient config → (server_checks hooked w raw = Ok () ↔ P) →
  server_accepts hooked w raw = Ok () ↔ served_by config w raw P.
Proof.
  intros Hg HP. unfold server_accepts, selected, served_by. rewrite Hg.
  destruct (GetConfigForClient config) as [f|]; [|done]. by destruct (f w) as [[c|]| |].
Qed.

(** No certificate at all never passes. *)
Lemma spiffe_accepts_nonempty bundle authorizer w id certs : ¬ spiffe_accepts bundle authorizer w [] id certs.
Proof. intros [Hp _]. unfold parse_and_verify, ParseAndVerify in Hp. cbn in Hp. by destruct bundle. Qed.

Lemma client_hook_accepts config bundle authorizer opts w raw :
  client_accepts (HookTLSClientConfig config bundle authorizer opts) w raw = Ok () ↔
  ∃ id certs, spiffe_accepts bundle authorizer w raw id certs ∧ base_accepts config w raw certs.
Proof. by apply hooked_callbacks. Qed.

Lemma mtls_client_hook_accepts config svid bundle authorizer opts w raw :
  client_accepts (HookMTLSClientConfig config svid bundle authorizer opts) w raw = Ok () ↔
  ∃ id certs, spiffe_accepts bundle authorizer w raw id certs ∧ base_accepts config w raw certs.
Proof. by apply hooked_callbacks. Qed.

(** A server that requires any certificate and verifies it as an SVID. *)
Lemma mtls_server_checks config hooked bundle authorizer w raw :
  ClientAuth hooked = RequireAnyClientCert →
  VerifyPeerCertificate hooked = Some (WrapVerifyPeerCertificate (VerifyPeerCertificate config) bundle authorizer) →
  VerifyConnection hooked = VerifyConnection config →
  server_checks hooked w raw = Ok () ↔
  ∃ id certs, spiffe_accepts bundle authorizer w raw id certs ∧ base_accepts config w raw certs.
Proof.
  intros Ha Hv Hc. unfold server_checks. rewrite Ha.
  destruct raw as [|r raw]; [|by apply hooked_callbacks].
  split; [done|]. by intros (id & certs & ?%spiffe_accepts_nonempty & _).
Qed.

Lemma mtls_server_hook_accepts config svid bundle authorizer opts w raw :
  server_accepts (HookMTLSServerConfig config svid bundle authorizer opts) w raw = Ok () ↔
  served_by config w raw (∃ id certs, spiffe_accepts bundle authorizer w raw id certs ∧ base_accepts config w raw certs).
Proof. apply server_selected; [done|]. by apply mtls_server_checks. Qed.

Lemma mtls_web_server_hook_accepts config cert bundle authorizer opts config' w raw :
  HookMTLSWebServerConfig config cert bundle authorizer opts = Ok config' →
  server_accepts config' w raw = Ok () ↔
  served_by config w raw (∃ id certs, spiffe_accepts bundle authorizer w raw id certs ∧ base_accepts config w raw certs).
Proof.
  unfold HookMTLSWebServerConfig. destruct cert as [cert|]; [|done]. intros [= <-].
  apply server_selected; [done|]. by apply mtls_server_checks.
Qed.

(** The configurations of the package itself have no GetConfigForClient. *)
Lemma mtls_server_accepts svid bundle authorizer opts w raw :
  server_accepts (MTLSServerConfig svid bundle authorizer opts) w raw = Ok () ↔
  ∃ id certs, spiffe_accepts bundle authorizer w raw id certs ∧ base_accepts newTLSConfig w raw certs.
Proof. apply (mtls_server_hook_accepts newTLSConfig). Qed.

Lemma mtls_web_server_accepts cert bundle authorizer opts config' w raw :
  MTLSWebServerConfig cert bundle authorizer opts = Ok config' →
  server_accepts config' w raw = Ok () ↔
  ∃ id certs, spiffe_accepts bundle authorizer w raw id certs ∧ base_accepts newTLSConfig w raw certs.
Proof. apply (mtls_web_server_hook_accepts newTLSConfig). Qed.

Lemma fresh_base_accepts (w : W) raw certs : base_accepts newTLSConfig w raw certs.
Proof. done. Qed.

(** What SPIFFE acceptance means for the certificates. *)
Lemma spiffe_accepts_sound {CL : CharsetLaws C} {VL : VerifierLaws V}
    (b : W → TrustDomain → res X509Bundle.Bundle) authorizer w raw id certs :
  (∀ td (bundle : X509Bundle.Bundle), b w td = Ok bundle → X509Bundle.trustDomain bundle = td) →
  spiffe_accepts (Some b) authorizer w raw id certs →
  ∃ leaf others td path (bundle : X509Bundle.Bundle),
    forM (λ raw, of_lib (x509_ParseCertificate raw)) raw = Ok (leaf :: others) ∧
    X509Svid.IDFromCert leaf = Ok id ∧ id_parts id td path ∧
    b w td = Ok bundle ∧ certs ≠ [] ∧
    Forall (λ chain, head chain = Some leaf ∧
      ∃ root, last chain = Some root ∧ X509Bundle.HasX509Authority bundle root = true) certs.
Proof.
  intros Hb [Hp _]. unfold parse_and_verify, ParseAndVerify in Hp. cbn in Hp.
  destruct (forM _ raw) as [cs| |] eqn:Hcs; [|done..].
  apply Verify_Ok in Hp as (leaf & others & td & path & bundle & -> & Hid & Hparts & _ & _ & _ & Hg & _ & _ & Hne & Hall).
  2: { intros td bundle. apply Hb. }
  exists leaf, others, td, path, bundle. split_and!; try done.
  apply forM_Ok in Hcs. apply forM_Ok. eapply Forall2_impl; [exact Hcs|].
  intros x y ?%wrap_err_Ok. done.
Qed.
End tls_lemmas.

Section tls_properties.
Context {C : Charset} {CL : CharsetLaws C} {L : X509Lib} {V : X509Verifier} {VL : VerifierLaws V}.
Context {W : Type} {TL : TlsLib (W := W)}.

(** [C2] What each hook makes of any base configuration, in a full handshake. A SPIFFE
    client accepts a peer exactly when the peer's certificates verify as an X509-SVID
    against the bundle source as it is at the handshake, the authorizer accepts the ID
    and chains, and the callbacks the base already had accept: VerifyPeerCertificate the
    verified chains, VerifyConnection the connection; a peer without certificates never
    passes. A SPIFFE server does the same, unless the GetConfigForClient of the base, which
    the hooks keep, fails or selects a configuration for the client: then that
    configuration alone decides, and nothing of SPIFFE is checked. A TLS server asks for
    no certificate. A web client relies on the default verification against the given
    roots alone, plus the base's callbacks. *)
Theorem hooks_authenticate (config config' : Config W) svid b authorizer cert roots opts w raw :
  HookMTLSWebServerConfig config (Some cert) b authorizer opts = Ok config' →
  let accepted := ∃ id certs, spiffe_accepts b authorizer w raw id certs ∧ base_accepts config w raw certs in
  (client_accepts (HookTLSClientConfig config b authorizer opts) w raw = Ok () ↔ accepted) ∧
  (client_accepts (HookMTLSClientConfig config svid b authorizer opts) w raw = Ok () ↔ accepted) ∧
  (server_accepts (HookMTLSServerConfig config svid b authorizer opts) w raw = Ok () ↔ served_by config w raw accepted) ∧
  (server_accepts config' w raw = Ok () ↔ served_by config w raw accepted) ∧
  (accepted → raw ≠ []) ∧
  (server_accepts (HookTLSServerConfig config svid opts) w raw = Ok () ↔
     served_by config w raw (run_verify_connection config w [] [] false = Ok ())) ∧
  (client_accepts (HookMTLSWebClientConfig config svid roots opts) w raw = Ok () ↔
     ∃ verified, default_verify roots w raw = inl verified ∧ run_verify_callback config w raw verified = Ok () ∧
       run_verify_connection config w raw verified false = Ok ()).
Proof.
  intros Hc accepted. split_and!.
  - apply client_hook_accepts.
  - apply mtls_client_hook_accepts.
  - apply mtls_server_hook_accepts.
  - by eapply mtls_web_server_hook_accepts.
  - intros (id & certs & Hs & _) ->. by apply spiffe_accepts_nonempty in Hs.
  - by apply server_selected.
  - unfold client_accepts. cbn. split.
    + intros (verified & Hd & [Hb Hv]%check_Ok_inv)%bind_Ok_inv. exists verified. by destruct (default_verify _ _ _); simplify_eq/=.
    + intros (verified & -> & Hb & Hv). unfold run_callbacks. cbn. unfold run_verify_callback in *. cbn. by rewrite Hb.
Qed.

(** [C3] A peer accepted by the MTLS configurations, for a bundle source that returns
    the bundles it is asked for and the authorizer of the members of a trust domain:
    its first certificate has an ID in that very trust domain, and chains from it to
    an authority of that trust domain's bundle at the time of the handshake. *)
Theorem members_only svid b td opts w raw :
  (∀ td bundle, b w td = Ok bundle → X509Bundle.trustDomain bundle = td) →
  client_accepts (MTLSClientConfig svid (Some b) (AuthorizeMemberOf td) opts) w raw = Ok () ∨
  client_accepts (TLSClientConfig (Some b) (AuthorizeMemberOf td) opts) w raw = Ok () ∨
  server_accepts (MTLSServerConfig svid (Some b) (AuthorizeMemberOf td) opts) w raw = Ok () →
  ∃ leaf others id bundle certs,
    forM (λ raw, of_lib (x509_ParseCertificate raw)) raw = Ok (leaf :: others) ∧
    X509Svid.IDFromCert leaf = Ok id ∧ ID_TrustDomain id = Ok td ∧ b w td = Ok bundle ∧ certs ≠ [] ∧
    Forall (λ chain, head chain = Some leaf ∧
      ∃ root, last chain = Some root ∧ X509Bundle.HasX509Authority bundle root = true) certs.
Proof.
  intros Hb Hacc.
  assert (∃ id certs, spiffe_accepts (Some b) (AuthorizeMemberOf td) w raw id certs) as (id & certs & Hs).
  { destruct Hacc as [H|[H|H]]; [apply mtls_client_hook_accepts in H|apply client_hook_accepts in H
      |apply mtls_server_accepts in H]; naive_solver. }
  pose proof Hs as [_ Hm].
  apply spiffe_accepts_sound in Hs as (leaf & others & td' & path & bundle & Hp & Hid & Hparts & Hg & Hne & Hall); [|done].
  pose proof (id_parts_TrustDomain _ _ _ Hparts) as Htd. apply MatchMemberOf_accepts in Hm.
  - assert (td' = td) as -> by congruence. by exists leaf, others, id, bundle, certs.
  - by eapply id_parts_wf.
Qed.

(** Every hook leaves a configuration with at least TLS 1.2, no certificates,
    names or roots of the base, and the fields the package does not know untouched; on
    the SPIFFE sides the certificate presented is the source's SVID at the handshake,
    with the trace callbacks around the call in order. *)
Theorem hooks_reset (config : Config W) svid b authorizer roots opts w :
  (∀ config', config' ∈ [HookTLSClientConfig config b authorizer opts; HookMTLSClientConfig config svid b authorizer opts;
       HookMTLSWebClientConfig config svid roots opts; HookTLSServerConfig config svid opts;
       HookMTLSServerConfig config svid b authorizer opts] →
     (VersionTLS12 ≤ MinVersion config')%Z ∧ (MinVersion config ≤ MinVersion config')%Z ∧
     Certificates config' = [] ∧ NameToCertificate config' = None ∧
     VerifyConnection config' = VerifyConnection config ∧ GetConfigForClient config' = GetConfigForClient config ∧
     SessionTicketsDisabled config' = SessionTicketsDisabled config ∧
     ClientSessionCache config' = ClientSessionCache config ∧ tc_rest config' = tc_rest config) ∧
  (∀ s leaf rest, svid w = Ok s → X509Svid.svid_Certificates s = leaf :: rest →
     let trace := opt_trace (newOptions opts) in
     let cert := mkTlsCertificate (Raw <$> leaf :: rest) (Some (X509Svid.svid_PrivateKey s)) (Some leaf) in
     getTLSCertificate svid trace w =
       (Ok cert,
        match trace_GetCertificate trace with Some _ => [GetCertificate_called] | None => [] end ++
        got trace (Some cert) None (trace_GetCertificate trace)) ∧
     GetClientCertificate (HookMTLSClientConfig config svid b authorizer opts) = Some (getTLSCertificate svid trace) ∧
     GetCertificate (HookMTLSServerConfig config svid b authorizer opts) = Some (getTLSCertificate svid trace)).
Proof.
  split.
  - intros config' Hin. rewrite !elem_of_cons, elem_of_nil in Hin.
    assert (VersionTLS12 ≤ MinVersion (resetAuthFields config) ∧ MinVersion config ≤ MinVersion (resetAuthFields config))%Z as [H1 H2].
    { cbn. destruct (Z.ltb_spec (MinVersion config) VersionTLS12); lia. }
    by destruct Hin as [->|[->|[->|[->|[->|[]]]]]].
  - intros s leaf rest Hs Hc. cbn. unfold getTLSCertificate, svid_certificate. by rewrite Hs, Hc.
Qed.

(** A hook does not drop the callback of an earlier hook: a base configuration
    hooked twice accepts a peer only if both authorizers do, each with the bundle source
    of its own hook. *)
Theorem hook_twice (b1 b2 : bundle_source (W := W)) authorizer1 authorizer2 opts1 opts2 w raw :
  client_accepts (HookTLSClientConfig (HookTLSClientConfig newTLSConfig b1 authorizer1 opts1) b2 authorizer2 opts2) w raw = Ok () ↔
  (∃ id certs, spiffe_accepts b2 authorizer2 w raw id certs) ∧ (∃ id certs, spiffe_accepts b1 authorizer1 w raw id certs).
Proof.
  rewrite client_hook_accepts. unfold base_accepts, run_verify_callback; cbn [VerifyPeerCertificate HookTLSClientConfig
    set_VerifyPeerCertificate set_InsecureSkipVerify resetAuthFields].
  setoid_rewrite wrap_accepts. cbn [newTLSConfig VerifyPeerCertificate]. naive_solver.
Qed.
End tls_properties.

(** ** Witnesses *)
#[export] Instance sample_TlsLib : TlsLib (W := unit) := {|
  default_verify roots w raw := inl [];
  verify_client_certs config w raw := inl [];
|}.

Definition sample_bundles : unit → TrustDomain → res X509Bundle.Bundle :=
  λ _, X509Bundle.GetX509BundleForTrustDomain X509Svid.sample_x509_bundle.
Definition sample_svid_source : svid_source (W := unit) := λ _, Ok X509Svid.sample_svid.

Lemma sample_bundles_ok w td bundle : sample_bundles w td = Ok bundle → X509Bundle.trustDomain bundle = td.
Proof. apply (X509Bundle.x509_Bundle_source_ok X509Svid.sample_x509_bundle). Qed.

(** A base that selects a configuration asking for no certificate. *)
Definition selecting_config : Config unit :=
  set_GetConfigForClient (Some (λ _, Ok (Some newTLSConfig))) newTLSConfig.

Definition sample_web_server (base : Config unit) : Config unit :=
  match HookMTLSWebServerConfig (C := charset_deny) base (Some (mkTlsCertificate [] None None)) (Some sample_bundles) AuthorizeAny []
  with Ok c => c | _ => base end.

Lemma hooks_authenticate_witness :
  client_accepts
    (TLSClientConfig (C := charset_deny) (Some sample_bundles) AuthorizeAny []) tt ["L"] = Ok () ∧
  client_accepts (TLSClientConfig (C := charset_deny) (Some sample_bundles) AuthorizeAny []) tt [] ≠ Ok () ∧
  server_accepts
    (HookMTLSServerConfig (C := charset_deny) selecting_config sample_svid_source (Some sample_bundles) AuthorizeAny []) tt [] = Ok ().
Proof.
  pose proof (λ base raw, hooks_authenticate (C := charset_deny) base (sample_web_server base)
    sample_svid_source (Some sample_bundles) AuthorizeAny (mkTlsCertificate [] None None) None [] tt raw eq_refl) as H.
  split_and!.
  - apply (proj1 (H newTLSConfig ["L"])). exists X509Svid.workload_id, [[leafL; caA]]. by split; [split; vm_compute|].
  - by vm_compute.
  - destruct (H selecting_config []) as (_ & _ & Hs & _). by apply Hs.
Defined.

Lemma members_only_witness :
  let td := mkTrustDomain "example.org" in
  ∃ leaf others, forM (λ raw, of_lib (x509_ParseCertificate raw)) ["L"] = Ok (leaf :: others) ∧
    client_accepts
      (MTLSClientConfig (C := charset_deny) sample_svid_source (Some sample_bundles) (AuthorizeMemberOf td) []) tt ["L"] = Ok ().
Proof.
  intros td.
  assert (client_accepts
    (MTLSClientConfig (C := charset_deny) sample_svid_source (Some sample_bundles) (AuthorizeMemberOf td) []) tt ["L"] = Ok ())
    as Hacc by by vm_compute.
  destruct (members_only (C := charset_deny) sample_svid_source sample_bundles td [] tt ["L"]
    (sample_bundles_ok tt) (or_introl Hacc)) as (leaf & others & _ & _ & _ & Hp & _).
  exists leaf, others. by split.
Defined.
