(* ===== verification/TlsSession.v ===== *)
(** * TLS session resumption under the SPIFFE configurations

    crypto/tls lets a peer resume a session instead of running the full handshake, and
    documents that VerifyPeerCertificate is not called on a resumed connection, whereas
    VerifyConnection is. The functions of src/spiffetls/tlsconfig/config.go install SPIFFE
    verification as VerifyPeerCertificate and leave VerifyConnection, GetConfigForClient
    and the session settings of the configuration as they are. This file is about the
    connections an endpoint accepts over its life under one of their configurations: full
    handshakes, checked by [client_accepts] and [server_accepts] of TlsConfig.v, and
    resumptions, of the sessions they leave behind or of sessions that another
    configuration left in a shared session cache or under shared ticket keys.

    A session holds the peer's certificates, the chains crypto/tls verified itself, and the
    state of the world in which it was issued; a resumption issues a new one for the same
    certificates. When crypto/tls finds a session usable (lifetime, keys, server name) is
    the parameter [session_usable]; it never does when resumption is off in the
    configuration of the connection. *)

From S2P Require Import Prelude Path GoUrl ID Match Crypto X509 X509Sample Pem BundleSet X509Bundle X509Svid TlsConfig.

Inductive side : Type := Client | Server.

Section sessions.
Context {C : Charset} {L : X509Lib} {V : X509Verifier} {W : Type} {TL : TlsLib (W := W)}.

(** [s_foreign]: it stems from a full handshake that was not one of this endpoint. *)
Record session : Type := mkSession { s_issued : W; s_peer : list string; s_verified : chains; s_foreign : bool }.

Class SessionLib := session_usable : side → Config W → W → session → bool.
Context {SL : SessionLib}.

(** The settings: tickets can be disabled, and a client resumes only with a cache. *)
Definition resumption_on (s : side) (config : Config W) : bool :=
  negb (SessionTicketsDisabled config) && match s with Client => ClientSessionCache config | Server => true end.

(** The configuration of a connection, and the checks of a full handshake under it. *)
Definition effective (s : side) (config : Config W) (w : W) : res (Config W) :=
  match s with Client => Ok config | Server => selected config w end.

Definition checks (s : side) (config : Config W) (w : W) (raw : list string) : res unit :=
  match s with Client => client_accepts config w raw | Server => server_checks config w raw end.

Definition accepts (s : side) (config : Config W) (w : W) (raw : list string) : res unit :=
  match s with Client => client_accepts config w raw | Server => server_accepts config w raw end.

(** What the peer presents: nothing to a server that does not ask; and the chains that
    crypto/tls verifies itself. *)
Definition presented (s : side) (config : Config W) (raw : list string) : list string :=
  match s, ClientAuth config with Server, NoClientCert => [] | _, _ => raw end.

Definition lib_chains (r : chains + error) : chains := match r with inl v => v | inr _ => [] end.

Definition verified_chains (s : side) (config : Config W) (w : W) (raw : list string) : chains :=
  match s with
  | Client => if InsecureSkipVerify config then [] else lib_chains (default_verify (RootCAs config) w raw)
  | Server =>
      match ClientAuth config, raw with
      | (VerifyClientCertIfGiven | RequireAndVerifyClientCert), _ :: _ => lib_chains (verify_client_certs config w raw)
      | _, _ => []
      end
  end.

(** An accepted connection. *)
Record connection : Type := mkConnection { c_world : W; c_peer : list string; c_resumed : bool; c_foreign : bool }.

(** The sessions that can be resumed and the connections accepted, both latest first. *)
Record endpoint : Type := mkEndpoint { sessions : list session; connections : list connection }.

Definition new_endpoint : endpoint := mkEndpoint [] [].

(** What a peer attempts: a handshake with its certificates, the resumption of the
    endpoint's i-th session, or that of a session another configuration has shared. *)
Inductive attempt : Type :=
  | FullHandshake (w : W) (raw : list string)
  | Resume (w : W) (i : nat)
  | Shared (w issued : W) (peer : list string) (verified : chains).

Definition connected (w : W) (peer : list string) (verified : chains) (resumed foreign : bool) (e : endpoint) : endpoint :=
  mkEndpoint (mkSession w peer verified foreign :: sessions e) (mkConnection w peer resumed foreign :: connections e).

Definition resume (s : side) (config : Config W) (w : W) (t : session) (e : endpoint) : endpoint :=
  match effective s config w with
  | Ok cfg =>
      if resumption_on s cfg && session_usable s cfg w t then
        match run_verify_connection cfg w (s_peer t) (s_verified t) true with
        | Ok _ => connected w (s_peer t) (s_verified t) true (s_foreign t) e
        | _ => e
        end
      else e
  | _ => e
  end.

Definition handle (s : side) (config : Config W) (e : endpoint) (a : attempt) : endpoint :=
  match a with
  | FullHandshake w raw =>
      match effective s config w with
      | Ok cfg =>
          match checks s cfg w raw with
          | Ok _ => connected w (presented s cfg raw) (verified_chains s cfg w raw) false false e
          | _ => e
          end
      | _ => e
      end
  | Resume w i => match sessions e !! i with Some t => resume s config w t e | None => e end
  | Shared w issued peer verified => resume s config w (mkSession issued peer verified true) e
  end.

Definition serve_all (s : side) (config : Config W) (attempts : list attempt) : endpoint :=
  foldl (handle s config) new_endpoint attempts.

(** The configurations the hooks make of a base, with the side each is for. *)
Inductive hooked (base : Config W) (b : bundle_source (W := W)) (authorizer : Authorizer) : side → Config W → Prop :=
  | hooked_TLSClient opts : hooked base b authorizer Client (HookTLSClientConfig base b authorizer opts)
  | hooked_MTLSClient svid opts : hooked base b authorizer Client (HookMTLSClientConfig base svid b authorizer opts)
  | hooked_MTLSServer svid opts : hooked base b authorizer Server (HookMTLSServerConfig base svid b authorizer opts)
  | hooked_MTLSWebServer cert opts config :
      HookMTLSWebServerConfig base cert b authorizer opts = Ok config → hooked base b authorizer Server config.

(** A peer that passes a full handshake under them. *)
Definition authenticated (base : Config W) b (authorizer : Authorizer) (s : side) (w : W) (raw : list string) : Prop :=
  let accepted := ∃ id certs, spiffe_accepts b authorizer w raw id certs ∧ base_accepts base w raw certs in
  match s with Client => accepted | Server => served_by base w raw accepted end.

(** ** Full handshakes *)
Lemma accepts_effective s config w raw :
  accepts s config w raw = (let! cfg := effective s config w in checks s cfg w raw).
Proof. by destruct s. Qed.

Lemma checks_presented s config w raw : checks s config w (presented s config raw) = checks s config w raw.
Proof. destruct s; [done|]. unfold presented, checks, server_checks. by destruct (ClientAuth config). Qed.

(** VerifyConnection had the last word. *)
Lemma checks_connection s config w raw :
  checks s config w raw = Ok () →
  run_verify_connection config w (presented s config raw) (verified_chains s config w raw) false = Ok ().
Proof.
  destruct s; unfold checks, presented, verified_chains.
  - unfold client_accepts. destruct (InsecureSkipVerify config); [by intros [_ ?]%check_Ok_inv|].
    by intros (v & Hv & [_ ?]%check_Ok_inv)%bind_Ok_inv; destruct (default_verify _ w raw); simplify_eq/=.
  - unfold server_checks. destruct (ClientAuth config), raw as [|r raw]; try done; try (by intros [_ ?]%check_Ok_inv).
    all: by intros (v & Hv & [_ ?]%check_Ok_inv)%bind_Ok_inv; destruct (verify_client_certs _ w _); simplify_eq/=.
Qed.

(** ** Invariant: the certificates of a session or a connection were those of a full
    handshake, at that time or before, unless the session was a shared one. *)
Definition from_full (peer : list string) (cs : list connection) : Prop :=
  ∃ c0, c0 ∈ cs ∧ c_resumed c0 = false ∧ c_peer c0 = peer.

(** A connection as its configuration allows it. *)
Definition allowed_connection (s : side) (config : Config W) (c : connection) : Prop :=
  ∃ cfg, effective s config (c_world c) = Ok cfg ∧
    (∃ verified, run_verify_connection cfg (c_world c) (c_peer c) verified (c_resumed c) = Ok ()) ∧
    if c_resumed c then resumption_on s cfg = true
    else c_foreign c = false ∧ accepts s config (c_world c) (c_peer c) = Ok ().

Record endpoint_ok (s : side) (config : Config W) (e : endpoint) : Prop := {
  eo_sessions : Forall (λ t, s_foreign t = false → from_full (s_peer t) (connections e)) (sessions e);
  eo_connections : Forall (allowed_connection s config) (connections e);
  eo_origin later c earlier :
    connections e = later ++ c :: earlier → c_foreign c = false → from_full (c_peer c) (c :: earlier);
}.

Lemma from_full_cons peer c cs : from_full peer cs → from_full peer (c :: cs).
Proof. intros (c0 & ? & ?). exists c0. split; [by right|done]. Qed.

Lemma connected_ok s config e w peer verified resumed foreign :
  endpoint_ok s config e → allowed_connection s config (mkConnection w peer resumed foreign) →
  (foreign = false → from_full peer (mkConnection w peer resumed foreign :: connections e)) →
  endpoint_ok s config (connected w peer verified resumed foreign e).
Proof.
  intros [Hs Hc Ho] Ha Hp. split; cbn.
  - constructor; [done|]. eapply Forall_impl; [exact Hs|]. intros t Ht Hf. by apply from_full_cons, Ht.
  - by constructor.
  - intros [|c' later] c earlier E; injection E as <- E; [by rewrite <- E|]. by eapply Ho.
Qed.

Lemma resume_ok s config w t e :
  endpoint_ok s config e → (s_foreign t = false → from_full (s_peer t) (connections e)) →
  endpoint_ok s config (resume s config w t e).
Proof.
  intros He Ht. unfold resume. destruct (effective s config w) as [cfg| |] eqn:Hcfg; [|done..].
  destruct (resumption_on s cfg) eqn:Hon; [|done]. cbn. destruct (session_usable _ _ _ _); [|done].
  destruct (run_verify_connection cfg w _ _ true) as [[]| |] eqn:Hv; [|done..].
  apply connected_ok; [done| |intros Hf; by apply from_full_cons, Ht].
  exists cfg. split_and!; [done|by eexists|done].
Qed.

Lemma handle_ok s config e a : endpoint_ok s config e → endpoint_ok s config (handle s config e a).
Proof.
  intros He. destruct a as [w raw|w i|w issued peer verified]; cbn [handle].
  - destruct (effective s config w) as [cfg| |] eqn:Hcfg; [|done..].
    destruct (checks s cfg w raw) as [[]| |] eqn:Ha; [|done..]. apply connected_ok; [done| |].
    + exists cfg. cbn. split_and!; [done|eexists; by apply checks_connection|done|].
      rewrite accepts_effective, Hcfg. cbn. by rewrite checks_presented.
    + intros _. eexists. split; [by left|done].
  - destruct (sessions e !! i) as [t|] eqn:Ht; [|done]. apply resume_ok; [done|].
    exact (proj1 (Forall_lookup _ _) (eo_sessions _ _ _ He) i t Ht).
  - by apply resume_ok.
Qed.

Lemma serve_all_ok s config attempts : endpoint_ok s config (serve_all s config attempts).
Proof.
  unfold serve_all. assert (endpoint_ok s config new_endpoint) as He.
  { split; cbn; [constructor..|]. by intros []. }
  revert He. generalize new_endpoint. induction attempts as [|a attempts IH]; intros e He; cbn; [done|].
  by apply IH, handle_ok.
Qed.

(** ** Hooked configurations *)
Lemma hooked_accepts base b authorizer s config w raw :
  hooked base b authorizer s config → accepts s config w raw = Ok () ↔ authenticated base b authorizer s w raw.
Proof.
  destruct 1; cbn [accepts].
  - apply client_hook_accepts.
  - apply mtls_client_hook_accepts.
  - apply mtls_server_hook_accepts.
  - by eapply mtls_web_server_hook_accepts.
Qed.

Lemma hooked_kept base b authorizer s config :
  hooked base b authorizer s config →
  resumption_on s config = resumption_on s base ∧ VerifyConnection config = VerifyConnection base ∧
  GetConfigForClient config = GetConfigForClient base ∧
  (∀ raw, presented s config raw = raw) ∧ (∀ w raw, verified_chains s config w raw = []).
Proof. destruct 1; [done..|]. unfold HookMTLSWebServerConfig in *. destruct cert; [|done]. by simplify_eq/=. Qed.

(** A connection's configuration, before and after the hook. *)
Lemma hooked_effective base b authorizer s config w cfg :
  hooked base b authorizer s config → effective s config w = Ok cfg →
  ∃ cfg0, effective s base w = Ok cfg0 ∧ resumption_on s cfg = resumption_on s cfg0.
Proof.
  intros Hh He. pose proof (hooked_kept _ _ _ _ _ Hh) as (Hr & _ & Hg & _).
  destruct s; cbn in *; [exists base; by simplify_eq|]. unfold selected in *. rewrite Hg in He.
  destruct (GetConfigForClient base) as [f|]; [|exists base; by simplify_eq].
  destruct (f w) as [[c|]| |]; simplify_eq/=; eauto.
Qed.

(** Where no configuration of a connection resumes, every connection was a full handshake. *)
Lemma connections_unresumed base b authorizer s config attempts :
  hooked base b authorizer s config →
  (∀ w cfg, effective s base w = Ok cfg → resumption_on s cfg = false) →
  Forall (λ c, c_resumed c = false ∧ authenticated base b authorizer s (c_world c) (c_peer c))
    (connections (serve_all s config attempts)).
Proof.
  intros Hh Hoff. pose proof (serve_all_ok s config attempts) as [_ Hc _]. eapply Forall_impl; [exact Hc|].
  intros c (cfg & He & _ & Hr). destruct (c_resumed c).
  - destruct (hooked_effective _ _ _ _ _ _ _ Hh He) as (cfg0 & He0 & Hon). rewrite (Hoff _ _ He0) in Hon. congruence.
  - split; [done|]. destruct Hr as [_ Hr]. by apply (hooked_accepts _ _ _ _ _ _ _ Hh).
Qed.

(** Nothing is selected: the hooked configuration is that of the connection. *)
Definition selects_nothing (s : side) (base : Config W) : Prop :=
  match s with Client => True | Server => GetConfigForClient base = None end.

Lemma hooked_own base b authorizer s config w :
  hooked base b authorizer s config → selects_nothing s base → effective s config w = Ok config.
Proof.
  intros (_ & _ & Hg & _)%hooked_kept Hn. destruct s; [done|]. cbn in *. unfold selected. by rewrite Hg, Hn.
Qed.

Lemma hooked_resume base b authorizer s config w t e :
  hooked base b authorizer s config → selects_nothing s base → resumption_on s base = true →
  session_usable s config w t = true → run_verify_connection base w (s_peer t) (s_verified t) true = Ok () →
  resume s config w t e = connected w (s_peer t) (s_verified t) true (s_foreign t) e.
Proof.
  intros Hh Hn Hon Hu Hv. unfold resume. rewrite (hooked_own _ _ _ _ _ _ Hh Hn).
  pose proof (hooked_kept _ _ _ _ _ Hh) as (-> & Hc & _). rewrite Hon, Hu. cbn.
  unfold run_verify_connection in *. by rewrite Hc, Hv.
Qed.
End sessions.
Arguments SessionLib W : clear implicits.
Arguments session W : clear implicits.
Arguments attempt W : clear implicits.
Arguments endpoint W : clear implicits.

Section session_properties.
Context {C : Charset} {L : X509Lib} {V : X509Verifier} {W : Type} {TL : TlsLib (W := W)} {SL : SessionLib W}.

(** [C4] The connections of a SPIFFE client or server over its life, made from any base
    configuration. One that does not stem from a shared session has the certificates of a
    peer that passed the full handshake - SPIFFE authentication, the authorizer and the
    base's callbacks, or the configuration that the base selected for the client instead -
    at that time or before. Every connection passed VerifyConnection of its configuration
    at its own time. Where no configuration of a connection resumes - always for a client
    whose configuration this package made, which has no session cache - every connection
    passed the full handshake at its very time. With resumption, the default of a server,
    a connection is accepted whatever the bundles and the authorizer have become since,
    and a session that another configuration has shared is accepted though its peer never
    passed this endpoint's authentication: VerifyConnection alone can refuse either. *)
Theorem sessions_authenticate (base config : Config W) b authorizer s (attempts : list (attempt W)) :
  hooked base b authorizer s config →
  let cs := connections (serve_all s config attempts) in
  (∀ later c earlier, cs = later ++ c :: earlier → c_foreign c = false →
     ∃ c0, c0 ∈ c :: earlier ∧ c_peer c0 = c_peer c ∧ authenticated base b authorizer s (c_world c0) (c_peer c) ∧
       (c_resumed c = false → authenticated base b authorizer s (c_world c) (c_peer c))) ∧
  Forall (λ c, ∃ cfg verified, effective s config (c_world c) = Ok cfg ∧
    run_verify_connection cfg (c_world c) (c_peer c) verified (c_resumed c) = Ok ()) cs ∧
  ((∀ w cfg, effective s base w = Ok cfg → resumption_on s cfg = false) →
     Forall (λ c, c_resumed c = false ∧ authenticated base b authorizer s (c_world c) (c_peer c)) cs) ∧
  resumption_on Client (newTLSConfig (W := W)) = false ∧ resumption_on Server (newTLSConfig (W := W)) = true ∧
  (selects_nothing s base → resumption_on s base = true → ∀ w' t,
     session_usable s config w' t = true → run_verify_connection base w' (s_peer t) (s_verified t) true = Ok () →
     (∀ w raw, authenticated base b authorizer s w raw → t = mkSession w raw [] false →
        connections (serve_all s config [FullHandshake w raw; Resume w' 0]) =
          [mkConnection w' raw true false; mkConnection w raw false false]) ∧
     (s_foreign t = true →
        connections (serve_all s config [Shared w' (s_issued t) (s_peer t) (s_verified t)]) =
          [mkConnection w' (s_peer t) true true])).
Proof.
  intros Hh cs. unfold cs. pose proof (serve_all_ok s config attempts) as [_ Hc Ho].
  assert (∀ w raw, accepts s config w raw = Ok () ↔ authenticated base b authorizer s w raw) as Ha
    by (intros; by apply hooked_accepts).
  rewrite Forall_forall in Hc. split_and!; [| | |done|done|].
  - intros later c earlier E Hf. destruct (Ho _ _ _ E Hf) as (c0 & Hin & Hfull & Hp).
    assert (∀ c', c' ∈ c :: earlier → c_resumed c' = false → authenticated base b authorizer s (c_world c') (c_peer c')) as Hauth.
    { intros c' Hin' Hr. destruct (Hc c') as (cfg & _ & _ & Hacc); [rewrite E; apply elem_of_app; by right|].
      rewrite Hr in Hacc. destruct Hacc as [_ Hacc]. by apply Ha. }
    exists c0. split_and!; [done|done|rewrite <- Hp; by apply Hauth|apply Hauth; by left].
  - apply Forall_forall. intros c Hin. destruct (Hc c Hin) as (cfg & ? & (verified & ?) & _). by exists cfg, verified.
  - by apply connections_unresumed.
  - intros Hn Hon w' t Hu Hv. pose proof (hooked_own _ _ _ _ _ w' Hh Hn) as Hw'.
    pose proof (hooked_kept _ _ _ _ _ Hh) as (_ & _ & _ & Hpres & Hver). split.
    + intros w raw Hauth ->. unfold serve_all. cbn [foldl handle]. rewrite (hooked_own _ _ _ _ _ w Hh Hn).
      apply Ha in Hauth. rewrite accepts_effective, (hooked_own _ _ _ _ _ w Hh Hn) in Hauth. cbn [mbind res_bind] in Hauth.
      rewrite Hauth, Hpres, Hver. cbn [sessions connected lookup list_lookup].
      by rewrite (hooked_resume _ _ _ _ _ _ _ _ Hh Hn Hon Hu Hv).
    + intros Hf. unfold serve_all. cbn [foldl handle].
      assert (mkSession (s_issued t) (s_peer t) (s_verified t) true = t) as -> by (destruct t; cbn in *; congruence).
      rewrite (hooked_resume _ _ _ _ _ _ _ _ Hh Hn Hon Hu Hv). by rewrite Hf.
Qed.
End session_properties.

(** ** Witness: the bundle is withdrawn between the handshake and the resumption *)
#[export] Instance sample_TlsLib_bool : TlsLib (W := bool) := {|
  default_verify roots w raw := inl [];
  verify_client_certs config w raw := inl [];
|}.

Definition withdrawn_bundles : bool → TrustDomain → res X509Bundle.Bundle := λ w td,
  if w then sample_bundles tt td else Err (errors_New "withdrawn").

#[local] Instance sample_SessionLib : SessionLib bool := λ s config w t, true.

Lemma sessions_authenticate_witness :
  let config := MTLSServerConfig (C := charset_deny) (W := bool) (λ _, Ok X509Svid.sample_svid) (Some withdrawn_bundles) AuthorizeAny [] in
  server_accepts config true ["L"] = Ok () ∧ server_accepts config false ["L"] ≠ Ok () ∧
  connections (serve_all Server config [FullHandshake true ["L"]; Resume false 0]) =
    [mkConnection false ["L"] true false; mkConnection true ["L"] false false] ∧
  connections (serve_all Server config [Shared false true ["nobody"] []]) = [mkConnection false ["nobody"] true true].
Proof.
  intros config.
  destruct (sessions_authenticate (C := charset_deny) newTLSConfig config (Some withdrawn_bundles) AuthorizeAny Server []
    (hooked_MTLSServer _ _ _ _ _)) as (_ & _ & _ & _ & _ & H).
  split_and!.
  - by vm_compute.
  - by vm_compute.
  - apply (proj1 (H eq_refl eq_refl false (mkSession true ["L"] [] false) eq_refl eq_refl)); [|done].
    exists X509Svid.workload_id, [[leafL; caA]]. by split; [split; vm_compute|].
  - exact (proj2 (H eq_refl eq_refl false (mkSession true ["nobody"] [] true) eq_refl eq_refl) eq_refl).
Defined.
