(* ===== verification/SpiffeTls.v ===== *)
(** * spiffetls: dialing and listening

    Models src/spiffetls: the modes (mode.go), DialWithMode and its connection
    (dial.go), NewListenerWithMode, ListenWithMode and their listener (listen.go), the
    options (option.go) and the peer's ID (peerid.go). A mode is behind a pointer and
    DialWithMode assigns its bundle and svid fields: it comes back in the outcome. A
    configuration is a cell of a heap: a base given as an option is an address of it, which
    the hooks change in place, and a call without a base allocates a cell of its own; the
    heap comes back in the outcome too. X509Source values are handles of type [Src]; what
    they serve at some state of the world is given by the getters of Sources.v, here the
    fields [src_bundle] and [src_svid]. Creating a source and dialing may panic: dialing runs
    the callbacks of the configuration. *)

From S2P Require Import Prelude Path GoUrl ID Match Crypto X509 X509Sample Pem BundleSet X509Bundle X509Svid TlsConfig TlsSession.

Definition wrapSpiffetlsErr (err : error) : error := fmt_Errorf "spiffetls: %w" [Arg_w (Some err)].

(** ** peerid.go *)
Section peerid.
Context {C : Charset}.

(** tls.ConnectionState: the field the code reads. *)
Record ConnectionState : Type := mkConnectionState { PeerCertificates : list Certificate }.

Definition PeerIDFromConnectionState (state : ConnectionState) : res ID.ID :=
  match PeerCertificates state with
  | [] => Err (wrapSpiffetlsErr (errors_New "no peer certificates"))
  | cert :: _ =>
      wrap_err (λ err, wrapSpiffetlsErr (fmt_Errorf "invalid peer certificate: %w" [Arg_w (Some err)]))
        (X509Svid.IDFromCert cert)
  end.

(** PeerIDGetter: the connections of this package implement it; others may, with a
    method of their own, or not. *)
Inductive net_Conn : Type :=
  | spiffe_conn (state : ConnectionState)
  | getter_conn (PeerID : res ID.ID)
  | other_conn.

Definition conn_PeerID (state : ConnectionState) : res ID.ID := PeerIDFromConnectionState state.

Definition serverConn_PeerID (state : ConnectionState) : res ID.ID := PeerIDFromConnectionState state.

Definition PeerIDFromConn (conn : net_Conn) : res ID.ID :=
  match conn with
  | spiffe_conn state => conn_PeerID state
  | getter_conn PeerID => PeerID
  | other_conn => Err (wrapSpiffetlsErr (errors_New "connection does not expose peer ID"))
  end.
End peerid.

(** ** Modes *)
Inductive clientMode : Type := tlsClientMode | mtlsClientMode | mtlsWebClientMode | unknownClientMode (n : Z).
Inductive serverMode : Type := tlsServerMode | mtlsServerMode | mtlsWebServerMode | unknownServerMode (n : Z).

Section modes.
Context {W Src SrcOption : Type}.

(** Calling a nil function or a method of a nil interface panics. *)
Definition nil_authorizer : Authorizer := λ _ _, Panic "nil function".
Definition nil_svid : svid_source (W := W) := λ _, Panic "nil pointer dereference".

Record dialMode : Type := mkDialMode {
  dm_mode : clientMode;
  dm_sourceUnneeded : bool;
  dm_authorizer : Authorizer;
  dm_source : option Src;
  dm_options : list SrcOption;
  dm_bundle : bundle_source (W := W);
  dm_svid : svid_source (W := W);
  dm_roots : option CertPool;
}.

Record listenMode : Type := mkListenMode {
  lm_mode : serverMode;
  lm_sourceUnneeded : bool;
  lm_authorizer : Authorizer;
  lm_source : option Src;
  lm_options : list SrcOption;
  lm_bundle : bundle_source (W := W);
  lm_svid : svid_source (W := W);
  lm_cert : option tls_Certificate;
}.

Implicit Types (authorizer : Authorizer) (source : option Src) (options : list SrcOption) (roots : option CertPool).

Definition TLSClient authorizer : dialMode := mkDialMode tlsClientMode false authorizer None [] None nil_svid None.
Definition TLSClientWithSource authorizer source : dialMode :=
  mkDialMode tlsClientMode false authorizer source [] None nil_svid None.
Definition TLSClientWithSourceOptions authorizer options : dialMode :=
  mkDialMode tlsClientMode false authorizer None options None nil_svid None.
Definition TLSClientWithRawConfig authorizer bundle : dialMode :=
  mkDialMode tlsClientMode true authorizer None [] bundle nil_svid None.
Definition MTLSClient authorizer : dialMode := mkDialMode mtlsClientMode false authorizer None [] None nil_svid None.
Definition MTLSClientWithSource authorizer source : dialMode :=
  mkDialMode mtlsClientMode false authorizer source [] None nil_svid None.
Definition MTLSClientWithSourceOptions authorizer options : dialMode :=
  mkDialMode mtlsClientMode false authorizer None options None nil_svid None.
Definition MTLSClientWithRawConfig authorizer svid bundle : dialMode :=
  mkDialMode mtlsClientMode true authorizer None [] bundle svid None.
Definition MTLSWebClient roots : dialMode := mkDialMode mtlsWebClientMode false nil_authorizer None [] None nil_svid roots.
Definition MTLSWebClientWithSource roots source : dialMode :=
  mkDialMode mtlsWebClientMode false nil_authorizer source [] None nil_svid roots.
Definition MTLSWebClientWithSourceOptions roots options : dialMode :=
  mkDialMode mtlsWebClientMode false nil_authorizer None options None nil_svid roots.
Definition MTLSWebClientWithRawConfig roots svid : dialMode :=
  mkDialMode mtlsWebClientMode true nil_authorizer None [] None svid roots.

Definition TLSServer : listenMode := mkListenMode tlsServerMode false nil_authorizer None [] None nil_svid None.
Definition TLSServerWithSource source : listenMode :=
  mkListenMode tlsServerMode false nil_authorizer source [] None nil_svid None.
Definition TLSServerWithSourceOptions options : listenMode :=
  mkListenMode tlsServerMode false nil_authorizer None options None nil_svid None.
Definition TLSServerWithRawConfig svid : listenMode :=
  mkListenMode tlsServerMode true nil_authorizer None [] None svid None.
Definition MTLSServer authorizer : listenMode := mkListenMode mtlsServerMode false authorizer None [] None nil_svid None.
Definition MTLSServerWithSource authorizer source : listenMode :=
  mkListenMode mtlsServerMode false authorizer source [] None nil_svid None.
Definition MTLSServerWithSourceOptions authorizer options : listenMode :=
  mkListenMode mtlsServerMode false authorizer None options None nil_svid None.
Definition MTLSServerWithRawConfig authorizer svid bundle : listenMode :=
  mkListenMode mtlsServerMode true authorizer None [] bundle svid None.
Definition MTLSWebServer authorizer cert : listenMode :=
  mkListenMode mtlsWebServerMode false authorizer None [] None nil_svid cert.
Definition MTLSWebServerWithSource authorizer cert source : listenMode :=
  mkListenMode mtlsWebServerMode false authorizer source [] None nil_svid cert.
Definition MTLSWebServerWithSourceOptions authorizer cert options : listenMode :=
  mkListenMode mtlsWebServerMode false authorizer None options None nil_svid cert.
Definition MTLSWebServerWithRawConfig authorizer cert bundle : listenMode :=
  mkListenMode mtlsWebServerMode true authorizer None [] bundle nil_svid cert.
End modes.
Arguments dialMode W Src SrcOption : clear implicits.
Arguments listenMode W Src SrcOption : clear implicits.

(** ** Configurations by address *)
Abbreviation conf_ptr := nat.
Abbreviation conf_heap W := (gmap conf_ptr (Config W)).

Section conf_heap.
Context {W : Type}.

(** Every address of the program has a cell; the default is never read. *)
Definition deref (h : conf_heap W) (p : conf_ptr) : Config W := default newTLSConfig (h !! p).

(** The configuration a call works on: the base, or a new one. *)
Definition base_conf (h : conf_heap W) (base : option conf_ptr) : Config W :=
  match base with Some p => deref h p | None => newTLSConfig end.

Definition conf_for (base : option conf_ptr) (h : conf_heap W) : conf_ptr * conf_heap W :=
  match base with
  | Some p => (p, h)
  | None => let p := fresh (dom h) in (p, <[p := newTLSConfig]> h)
  end.
End conf_heap.

(** ** Options *)
Section options.
Context {Dialer : Type}.

Record dialConfig : Type := mkDialConfig {
  dc_baseTLSConf : option conf_ptr;
  dc_dialer : option Dialer;
  dc_tlsOptions : list TlsConfig.Option;
}.
Record listenConfig : Type := mkListenConfig {
  lc_baseTLSConf : option conf_ptr;
  lc_tlsOptions : list TlsConfig.Option;
}.
Definition DialOption : Type := dialConfig → dialConfig.
Definition ListenOption : Type := listenConfig → listenConfig.

Definition WithDialTLSConfigBase (base : option conf_ptr) : DialOption :=
  λ c, mkDialConfig base (dc_dialer c) (dc_tlsOptions c).
Definition WithDialTLSOptions (opts : list TlsConfig.Option) : DialOption :=
  λ c, mkDialConfig (dc_baseTLSConf c) (dc_dialer c) opts.
Definition WithDialer (dialer : option Dialer) : DialOption :=
  λ c, mkDialConfig (dc_baseTLSConf c) dialer (dc_tlsOptions c).
Definition WithListenTLSConfigBase (base : option conf_ptr) : ListenOption :=
  λ c, mkListenConfig base (lc_tlsOptions c).
Definition WithListenTLSOptions (opts : list TlsConfig.Option) : ListenOption :=
  λ c, mkListenConfig (lc_baseTLSConf c) opts.

Definition dial_options (options : list DialOption) : dialConfig :=
  foldl (λ c o, o c) (mkDialConfig None None []) options.
Definition listen_options (options : list ListenOption) : listenConfig :=
  foldl (λ c o, o c) (mkListenConfig None []) options.
End options.
Arguments DialOption Dialer : clear implicits.

(** ** The outside: workloadapi.NewX509Source, crypto/tls and net. The first two may panic:
    NewX509Source for a nil option, a dial in a callback of its configuration. *)
Class TlsNet (W Src SrcOption Dialer Conn Lis : Type) := {
  NewX509Source : list SrcOption → res Src;
  src_bundle : Src → W → TrustDomain → res X509Bundle.Bundle;
  src_svid : Src → W → res X509Svid.SVID;
  src_Close : Src → option error;
  tls_Dial : option Dialer → string → string → Config W → res Conn;
  conn_Close : Conn → option error;
  net_Listen : string → string → Lis + error;
  lis_Close : Lis → option error;
}.

(** What a call did, in order. *)
Inductive tls_event (W Src : Type) : Type :=
  | SourceCreated (s : Src)
  | SourceClosed (s : Src)
  | Dialed (config : Config W)
  | InnerClosed.
Arguments SourceCreated {W Src} s.
Arguments SourceClosed {W Src} s.
Arguments Dialed {W Src} config.
Arguments InnerClosed {W Src}.

Section spiffetls.
Context {C : Charset} {L : X509Lib} {V : X509Verifier}.
Context {W Src SrcOption Dialer Conn Lis : Type} {N : TlsNet W Src SrcOption Dialer Conn Lis}.

(** A handle as an x509bundle.Source and an x509svid.Source. *)
Definition as_bundle (s : Src) : bundle_source (W := W) := Some (src_bundle s).
Definition as_svid (s : Src) : svid_source (W := W) := src_svid s.

(** Both functions begin alike: use the raw sources, the given source, or a new
    one, which is the call's to close. *)
Definition acquire_source (sourceUnneeded : bool) (source : option Src) (options : list SrcOption)
    : res ((option Src * option Src) * list (tls_event W Src)) :=
  if sourceUnneeded then Ok ((None, None), [])
  else
    match source with
    | Some s => Ok ((Some s, None), [])
    | None =>
        let! s := wrap_err (λ err, wrapSpiffetlsErr (fmt_Errorf "cannot create X.509 source: %w" [Arg_w (Some err)]))
                    (NewX509Source options) in
        Ok ((Some s, Some s), [SourceCreated s])
    end.

(** The deferred function: the source created by the call is closed on failure. *)
Definition close_created (sourceCloser : option Src) : list (tls_event W Src) :=
  match sourceCloser with Some s => [SourceClosed s] | None => [] end.

(** *** dial.go *)
Record clientConn : Type := mkClientConn { cc_Conn : Conn; cc_sourceCloser : option Src }.

(** What a call leaves: its result, what it did, and the mode and the configurations as
    they are afterwards. *)
Record outcome (M A : Type) : Type := mkOutcome {
  o_mode : M;
  o_result : res A;
  o_events : list (tls_event W Src);
  o_heap : conf_heap W;
}.
Arguments mkOutcome {M A} o_mode o_result o_events o_heap.
Arguments o_mode {M A} o.
Arguments o_result {M A} o.
Arguments o_events {M A} o.
Arguments o_heap {M A} o.

Definition dm_with_source (m : dialMode W Src SrcOption) (s : option Src) : dialMode W Src SrcOption :=
  match s with
  | Some s => mkDialMode (dm_mode m) (dm_sourceUnneeded m) (dm_authorizer m) (dm_source m) (dm_options m)
                (as_bundle s) (as_svid s) (dm_roots m)
  | None => m
  end.

Definition dial_hook (m : dialMode W Src SrcOption) (opt : dialConfig (Dialer := Dialer)) (tlsConfig : Config W)
    : res (Config W) :=
  match dm_mode m with
  | tlsClientMode => Ok (HookTLSClientConfig tlsConfig (dm_bundle m) (dm_authorizer m) [])
  | mtlsClientMode =>
      Ok (HookMTLSClientConfig tlsConfig (dm_svid m) (dm_bundle m) (dm_authorizer m) (dc_tlsOptions opt))
  | mtlsWebClientMode => Ok (HookMTLSWebClientConfig tlsConfig (dm_svid m) (dm_roots m) (dc_tlsOptions opt))
  | unknownClientMode n => Err (wrapSpiffetlsErr (fmt_Errorf "unknown client mode: %v" [Arg_d n]))
  end.

(** A panic runs the deferred function with a nil err, which leaves the source open. *)
Definition DialWithMode (network addr : string) (mode : dialMode W Src SrcOption)
    (options : list (DialOption Dialer)) (h : conf_heap W) : outcome (dialMode W Src SrcOption) clientConn :=
  match acquire_source (dm_sourceUnneeded mode) (dm_source mode) (dm_options mode) with
  | Panic why => mkOutcome mode (Panic why) [] h
  | Err err => mkOutcome mode (Err err) [] h
  | Ok ((source, sourceCloser), events) =>
      let m := dm_with_source mode source in
      let opt := dial_options options in
      let '(tlsConfig, h) := conf_for (dc_baseTLSConf opt) h in
      match dial_hook m opt (deref h tlsConfig) with
      | Panic why => mkOutcome m (Panic why) events h
      | Err err => mkOutcome m (Err err) (events ++ close_created sourceCloser) h
      | Ok hooked =>
          let h := <[tlsConfig := hooked]> h in
          match tls_Dial (dc_dialer opt) network addr (deref h tlsConfig) with
          | Panic why => mkOutcome m (Panic why) (events ++ [Dialed (deref h tlsConfig)]) h
          | Err err =>
              mkOutcome m (Err (wrapSpiffetlsErr (fmt_Errorf "unable to dial: %w" [Arg_w (Some err)])))
                (events ++ [Dialed (deref h tlsConfig)] ++ close_created sourceCloser) h
          | Ok conn => mkOutcome m (Ok (mkClientConn conn sourceCloser)) (events ++ [Dialed (deref h tlsConfig)]) h
          end
      end
  end.

Definition Dial (network addr : string) (authorizer : Authorizer) (options : list (DialOption Dialer)) :=
  DialWithMode network addr (MTLSClient authorizer) options.

(** clientConn.Close: the source first, then the connection; errors.Join. *)
Definition clientConn_Close (c : clientConn) : option error * list (tls_event W Src) :=
  let group := match cc_sourceCloser c with Some s => [src_Close s] | None => [] end in
  let events := close_created (cc_sourceCloser c) ++ [InnerClosed] in
  let group := match conn_Close (cc_Conn c) with
    | Some err => group ++ [Some (wrapSpiffetlsErr (fmt_Errorf "unable to close TLS connection: %w" [Arg_w (Some err)]))]
    | None => group
    end in
  (errors_Join group, events).

(** *** listen.go *)

(** tls.NewListener keeps the configuration's address: each connection is served under what
    the cell holds then. *)
Record listener : Type := mkListener { l_inner : Lis; l_config : conf_ptr; l_sourceCloser : option Src }.

Definition lm_with_source (m : listenMode W Src SrcOption) (s : option Src) : listenMode W Src SrcOption :=
  match s with
  | Some s => mkListenMode (lm_mode m) (lm_sourceUnneeded m) (lm_authorizer m) (lm_source m) (lm_options m)
                (as_bundle s) (as_svid s) (lm_cert m)
  | None => m
  end.

Definition listen_hook (m : listenMode W Src SrcOption) (opt : listenConfig) (tlsConfig : Config W)
    : res (Config W) :=
  match lm_mode m with
  | tlsServerMode => Ok (HookTLSServerConfig tlsConfig (lm_svid m) (lc_tlsOptions opt))
  | mtlsServerMode =>
      Ok (HookMTLSServerConfig tlsConfig (lm_svid m) (lm_bundle m) (lm_authorizer m) (lc_tlsOptions opt))
  | mtlsWebServerMode => HookMTLSWebServerConfig tlsConfig (lm_cert m) (lm_bundle m) (lm_authorizer m) []
  | unknownServerMode n => Err (wrapSpiffetlsErr (fmt_Errorf "unknown server mode: %v" [Arg_d n]))
  end.

(** What the hook has done to the base configuration when it panics. *)
Definition before_panic (base : Config W) : Config W := set_ClientAuth RequireAnyClientCert (resetAuthFields base).

Definition NewListenerWithMode (inner : Lis) (mode : listenMode W Src SrcOption) (options : list ListenOption)
    (h : conf_heap W) : outcome (listenMode W Src SrcOption) listener :=
  match acquire_source (lm_sourceUnneeded mode) (lm_source mode) (lm_options mode) with
  | Panic why => mkOutcome mode (Panic why) [] h
  | Err err => mkOutcome mode (Err err) [] h
  | Ok ((source, sourceCloser), events) =>
      let m := lm_with_source mode source in
      let opt := listen_options options in
      let '(tlsConfig, h) := conf_for (lc_baseTLSConf opt) h in
      match listen_hook m opt (deref h tlsConfig) with
      | Panic why => mkOutcome m (Panic why) events (<[tlsConfig := before_panic (deref h tlsConfig)]> h)
      | Err err => mkOutcome m (Err err) (events ++ close_created sourceCloser) h
      | Ok hooked => mkOutcome m (Ok (mkListener inner tlsConfig sourceCloser)) events (<[tlsConfig := hooked]> h)
      end
  end.

(** A panic leaves the inner listener open. *)
Definition ListenWithMode (network laddr : string) (mode : listenMode W Src SrcOption)
    (options : list ListenOption) (h : conf_heap W) : outcome (listenMode W Src SrcOption) listener :=
  match net_Listen network laddr with
  | inr err => mkOutcome mode (Err err) [] h
  | inl inner =>
      let o := NewListenerWithMode inner mode options h in
      match o_result o with
      | Err err => mkOutcome (o_mode o) (Err err) (o_events o ++ [InnerClosed]) (o_heap o)
      | _ => o
      end
  end.

Definition Listen (network laddr : string) (authorizer : Authorizer) (options : list (ListenOption)) :=
  ListenWithMode network laddr (MTLSServer authorizer) options.
Definition NewListener (inner : Lis) (authorizer : Authorizer) (options : list (ListenOption)) :=
  NewListenerWithMode inner (MTLSServer authorizer) options.

(** What the TLS listener's Accept returns: a connection, of type *tls.Conn by contract. *)
Inductive accepted : Type := accepted_tls (c : Conn) | accepted_other (c : Conn) (type : string).

(** listener.Accept, given the outcome of the inner Accept: a connection of any other
    type is closed. *)
Definition listener_Accept (inner : accepted + error) : res Conn * list Conn :=
  match inner with
  | inr err => (Err err, [])
  | inl (accepted_tls c) => (Ok c, [])
  | inl (accepted_other c type) =>
      (Err (wrapSpiffetlsErr (fmt_Errorf "unexpected conn type %T returned by TLS listener" [Arg_s type])), [c])
  end.

(** listener.Addr: the inner listener's. *)
Definition listener_Addr {Addr : Type} (lis_Addr : Lis → Addr) (l : listener) : Addr := lis_Addr (l_inner l).

Definition listener_Close (l : listener) : option error * list (tls_event W Src) :=
  let group := match l_sourceCloser l with Some s => [src_Close s] | None => [] end in
  let events := close_created (l_sourceCloser l) ++ [InnerClosed] in
  let group := match lis_Close (l_inner l) with
    | Some err => group ++ [Some (wrapSpiffetlsErr (fmt_Errorf "unable to close TLS connection: %w" [Arg_w (Some err)]))]
    | None => group
    end in
  (errors_Join group, events).
End spiffetls.
Arguments outcome W Src M A : clear implicits.
Arguments o_mode {W Src M A} o.
Arguments o_result {W Src M A} o.
Arguments o_events {W Src M A} o.
Arguments o_heap {W Src M A} o.

(** ** Lemmas *)
Definition created_of {W Src} (events : list (tls_event W Src)) : list Src :=
  omap (λ e, match e with SourceCreated s => Some s | _ => None end) events.
Definition closed_of {W Src} (events : list (tls_event W Src)) : list Src :=
  omap (λ e, match e with SourceClosed s => Some s | _ => None end) events.

Section spiffetls_lemmas.
Context {C : Charset} {CL : CharsetLaws C} {L : X509Lib} {V : X509Verifier} {VL : VerifierLaws V}.
Context {W Src SrcOption Dialer Conn Lis : Type} {N : TlsNet W Src SrcOption Dialer Conn Lis} {TL : TlsLib (W := W)}.

(** The certificates of the connection are the ones that were verified: the
    peer's ID is the one the authorizer was given. *)
Lemma peer_id_accepted (b : bundle_source (W := W)) authorizer w raw id certs cs :
  spiffe_accepts b authorizer w raw id certs →
  forM (λ raw, of_lib (x509_ParseCertificate raw)) raw = Ok cs →
  PeerIDFromConnectionState (mkConnectionState cs) = Ok id.
Proof.
  intros [Hp _] Hcs. unfold parse_and_verify, ParseAndVerify in Hp.
  assert (forM (λ rawCert, wrap_err (λ err, wrapX509svidErr
    (fmt_Errorf "unable to parse certificate: %w" [Arg_w (Some err)])) (of_lib (x509_ParseCertificate rawCert))) raw = Ok cs) as E.
  { apply forM_Ok. apply forM_Ok in Hcs. eapply Forall2_impl; [exact Hcs|]. intros x y Hx. by apply wrap_err_Ok. }
  rewrite E in Hp. destruct cs as [|leaf others]; [by destruct b|]. destruct b as [b|]; [|done].
  unfold Verify in Hp. cbn [fmap option_fmap option_map] in Hp. unfold PeerIDFromConnectionState. cbn [PeerCertificates].
  destruct (IDFromCert leaf) as [i| |]; [|done..]. by injection Hp as <-.
Qed.

(** What acquire_source can do. *)
Lemma acquire_cases unneeded source (options : list SrcOption) r :
  acquire_source (W := W) unneeded source options = Ok r →
  (unneeded = true ∧ r = ((None, None), [])) ∨
  (unneeded = false ∧ ∃ s, source = Some s ∧ r = ((Some s, None), [])) ∨
  (unneeded = false ∧ source = None ∧ ∃ s, r = ((Some s, Some s), [SourceCreated s])).
Proof.
  unfold acquire_source. destruct unneeded; [intros [= <-]; by left|].
  destruct source as [s|]; [intros [= <-]; right; left; split; [done|by exists s]|].
  destruct (NewX509Source options) as [s| |]; [|done..]. intros [= <-]. right; right. split_and!; [done..|by exists s].
Qed.

Lemma acquire_panic unneeded source (options : list SrcOption) why :
  acquire_source (W := W) unneeded source options = Panic why →
  unneeded = false ∧ source = None ∧ NewX509Source options = Panic why.
Proof.
  unfold acquire_source. destruct unneeded; [done|]. destruct source; [done|].
  destruct (NewX509Source options); [done..|]. intros H. split_and!; [done..|]. cbn in H. congruence.
Qed.

(** The configuration a call works on. *)
Lemma deref_conf_for base (h : conf_heap W) p h' : conf_for base h = (p, h') → deref h' p = base_conf h base.
Proof.
  unfold conf_for, base_conf. destruct base as [q|]; intros [= <- <-]; [done|]. unfold deref. by rewrite lookup_insert_eq.
Qed.

Lemma deref_insert (h : conf_heap W) p c : deref (<[p := c]> h) p = c.
Proof. unfold deref. by rewrite lookup_insert_eq. Qed.

Lemma dial_hook_no_panic (m : dialMode W Src SrcOption) (opt : dialConfig (Dialer := Dialer)) c : no_panic (dial_hook m opt c) = true.
Proof. unfold dial_hook. by destruct (dm_mode m). Qed.

Lemma dm_with_source_twice (m : dialMode W Src SrcOption) s : dm_with_source (dm_with_source m s) s = dm_with_source m s.
Proof. by destruct s. Qed.

Lemma dm_with_source_fields (m : dialMode W Src SrcOption) s :
  dm_mode (dm_with_source m s) = dm_mode m ∧ dm_authorizer (dm_with_source m s) = dm_authorizer m ∧
  dm_sourceUnneeded (dm_with_source m s) = dm_sourceUnneeded m ∧ dm_source (dm_with_source m s) = dm_source m ∧
  dm_options (dm_with_source m s) = dm_options m.
Proof. by destruct s. Qed.

(** What a dial does after its source: the hook on its configuration, then the handshake. *)
Lemma dial_unfold network addr m options h source closer events :
  acquire_source (dm_sourceUnneeded m) (dm_source m) (dm_options m) = Ok ((source, closer), events) →
  let o := DialWithMode network addr m options h in
  let opt := dial_options options in
  o_mode o = dm_with_source m source ∧
  match dial_hook (dm_with_source m source) opt (base_conf h (dc_baseTLSConf opt)) with
  | Ok cfg =>
      deref (o_heap o) (conf_for (dc_baseTLSConf opt) h).1 = cfg ∧
      o_events o = events ++ [Dialed cfg] ++
        match tls_Dial (dc_dialer opt) network addr cfg with Err _ => close_created closer | _ => [] end ∧
      o_result o = match tls_Dial (dc_dialer opt) network addr cfg with
                   | Ok conn => Ok (mkClientConn conn closer)
                   | Err err => Err (wrapSpiffetlsErr (fmt_Errorf "unable to dial: %w" [Arg_w (Some err)]))
                   | Panic why => Panic why
                   end
  | Err err => o_events o = events ++ close_created closer ∧ o_result o = Err err
  | Panic _ => False
  end.
Proof.
  intros Ha o opt. unfold o, DialWithMode. rewrite Ha. fold opt.
  destruct (conf_for (dc_baseTLSConf opt) h) as [p h'] eqn:Hp. rewrite (deref_conf_for _ _ _ _ Hp).
  pose proof (dial_hook_no_panic (dm_with_source m source) opt (base_conf h (dc_baseTLSConf opt))) as Hnp.
  destruct (dial_hook _ _ _) as [cfg|err|why]; [|by split|done]. rewrite deref_insert.
  destruct (tls_Dial _ _ _ _); cbn; by rewrite ?deref_insert, ?app_nil_r.
Qed.

(** The source a call creates, and what becomes of it. *)
Definition accounts_for {A} (closer_of : A → option Src) (events : list (tls_event W Src)) (r : res A) (closer : option Src) : Prop :=
  created_of events = option_list closer ∧
  match r with
  | Ok a => closer_of a = closer ∧ closed_of events = []
  | Err _ => closed_of events = option_list closer
  | Panic _ => closed_of events = []
  end.

Lemma created_app (l1 l2 : list (tls_event W Src)) : created_of (l1 ++ l2) = created_of l1 ++ created_of l2.
Proof. apply omap_app. Qed.
Lemma closed_app (l1 l2 : list (tls_event W Src)) : closed_of (l1 ++ l2) = closed_of l1 ++ closed_of l2.
Proof. apply omap_app. Qed.

(** What acquire_source hands on: a closer for the source it has created. *)
Lemma acquire_accounts unneeded source (options : list SrcOption) s closer events :
  acquire_source (W := W) unneeded source options = Ok ((s, closer), events) →
  created_of events = option_list closer ∧ closed_of events = [] ∧
  created_of (close_created (W := W) closer) = [] ∧ closed_of (close_created (W := W) closer) = option_list closer ∧
  (is_Some closer → unneeded = false ∧ source = None).
Proof.
  intros Ha. destruct (acquire_cases _ _ _ _ Ha) as [[-> E]|[(-> & s' & -> & E)|(-> & -> & s' & E)]]; injection E as -> -> ->;
    split_and!; try done; by intros [??].
Qed.

Lemma dial_accounts network addr m options h :
  let o := DialWithMode network addr m options h in
  ∃ closer, (is_Some closer → dm_sourceUnneeded m = false ∧ dm_source m = None) ∧
    accounts_for cc_sourceCloser (o_events o) (o_result o) closer.
Proof.
  intros o. destruct (acquire_source (dm_sourceUnneeded m) (dm_source m) (dm_options m)) as [[[source closer] events]|err|why] eqn:Ha.
  2, 3: exists None; (split; [by intros [??]|]); unfold o, DialWithMode; rewrite Ha; by split_and!.
  destruct (acquire_accounts _ _ _ _ _ _ Ha) as (Hc & Hcl & Hc' & Hcl' & Hn). exists closer. split; [done|].
  destruct (dial_unfold network addr m options h _ _ _ Ha) as [_ Ho]. fold o in Ho. unfold accounts_for.
  destruct (dial_hook _ _ _) as [cfg|err|why]; [|destruct Ho as [-> ->]; by rewrite created_app, closed_app, Hc, Hcl, Hc', Hcl', app_nil_r|done].
  destruct Ho as (_ & -> & ->). rewrite !created_app, !closed_app, Hc, Hcl.
  destruct (tls_Dial _ _ _ _); cbn; by rewrite ?Hc', ?Hcl', ?app_nil_r.
Qed.

(** Where a dial's panics come from. *)
Lemma dial_panics network addr m options h why :
  let o := DialWithMode network addr m options h in
  o_result o = Panic why →
  (dm_sourceUnneeded m = false ∧ dm_source m = None ∧ NewX509Source (dm_options m) = Panic why ∧ o_events o = []) ∨
  (∃ cfg, last (o_events o) = Some (Dialed cfg) ∧ tls_Dial (dc_dialer (dial_options options)) network addr cfg = Panic why).
Proof.
  intros o Hw. destruct (acquire_source (dm_sourceUnneeded m) (dm_source m) (dm_options m)) as [[[source closer] events]|err|why'] eqn:Ha.
  - right. destruct (dial_unfold network addr m options h _ _ _ Ha) as [_ Ho]. fold o in Ho.
    destruct (dial_hook _ _ _) as [cfg|err|?]; [|destruct Ho as [_ Ho]; congruence|done].
    destruct Ho as (_ & He & Hr). exists cfg. rewrite He. rewrite Hr in Hw.
    destruct (tls_Dial _ _ _ _); [done..|]. injection Hw as ->. split; [|done]. by rewrite app_nil_r, last_snoc.
  - unfold o, DialWithMode in Hw. by rewrite Ha in Hw.
  - left. unfold o, DialWithMode in *. rewrite Ha in *. injection Hw as ->. by apply acquire_panic in Ha as (? & ? & ?).
Qed.

(** A second dial with the same mode and options: with a configuration of its own it does
    the same; on a base it hooks what the first has made of it. *)
Lemma dial_again network addr m options h :
  let o := DialWithMode network addr m options h in
  let o' := DialWithMode network addr (o_mode o) options (o_heap o) in
  (dc_baseTLSConf (dial_options options) = None → o_result o' = o_result o ∧ o_events o' = o_events o) ∧
  (∀ p cfg, dc_baseTLSConf (dial_options options) = Some p → Dialed cfg ∈ o_events o →
     deref (o_heap o) p = cfg ∧ ∃ cfg', dial_hook (o_mode o) (dial_options options) cfg = Ok cfg' ∧ Dialed cfg' ∈ o_events o').
Proof.
  intros o o'. destruct (acquire_source (dm_sourceUnneeded m) (dm_source m) (dm_options m)) as [[[source closer] events]|err|why] eqn:Ha.
  2, 3: split; [|intros p cfg _]; unfold o', o, DialWithMode; rewrite Ha; cbn [o_mode]; rewrite ?Ha; [done|];
    by rewrite elem_of_nil.
  pose proof (dm_with_source_fields m source) as (_ & _ & E1 & E2 & E3).
  destruct (dial_unfold network addr m options h _ _ _ Ha) as [Hm Ho]. fold o in Hm, Ho.
  rewrite <- E1, <- E2, <- E3, <- Hm in Ha.
  destruct (dial_unfold network addr (o_mode o) options (o_heap o) _ _ _ Ha) as [_ Ho']. fold o' in Ho'.
  rewrite Hm, dm_with_source_twice in Ho'. rewrite Hm in *. split.
  - intros Hb. rewrite Hb in Ho, Ho'. cbn [base_conf] in Ho, Ho'.
    destruct (dial_hook _ _ _); [destruct Ho as (_ & -> & ->), Ho' as (_ & -> & ->)|destruct Ho as [-> ->], Ho' as [-> ->]|]; done.
  - intros p cfg Hb Hin. rewrite Hb in Ho, Ho'. cbn [base_conf conf_for fst] in Ho, Ho'.
    assert (∀ e, e ∈ close_created (W := W) closer → ∀ c, e ≠ Dialed c) as Hclose.
    { intros e He c ->. unfold close_created in He. destruct closer; [apply list_elem_of_singleton in He|apply elem_of_nil in He]; done. }
    assert (∀ c, Dialed c ∉ events) as Hev.
    { intros c Hc. destruct (acquire_cases _ _ _ _ Ha) as [[_ E]|[(_ & s' & _ & E)|(_ & _ & s' & E)]]; injection E as -> -> ->;
        [apply elem_of_nil in Hc|apply elem_of_nil in Hc|apply list_elem_of_singleton in Hc]; done. }
    destruct (dial_hook _ _ (deref h p)) as [cfg0|err|?] eqn:Hh; [| |done].
    2: { destruct Ho as [Ho _]. rewrite Ho, elem_of_app in Hin. destruct Hin as [Hin|Hin]; [by apply Hev in Hin|].
         by destruct (Hclose _ Hin cfg). }
    destruct Ho as (Hd & He & _). rewrite He, !elem_of_app in Hin.
    assert (cfg = cfg0) as ->.
    { destruct Hin as [Hin|[Hin|Hin]]; [by apply Hev in Hin|by apply list_elem_of_singleton in Hin as [= ->]|].
      destruct (tls_Dial _ _ _ _); [by apply elem_of_nil in Hin|by destruct (Hclose _ Hin cfg)|by apply elem_of_nil in Hin]. }
    split; [done|]. rewrite Hd in Ho'.
    assert (∃ cfg', dial_hook (dm_with_source m source) (dial_options options) cfg0 = Ok cfg') as [cfg' Hcfg'].
    { clear -Hh. unfold dial_hook in *. destruct (dm_mode (dm_with_source m source)); [by eexists..|done]. }
    rewrite Hcfg' in Ho'. destruct Ho' as (_ & -> & _). exists cfg'. split; [done|]. rewrite !elem_of_app. right. left. by left.
Qed.

Lemma listen_hook_panic (m : listenMode W Src SrcOption) opt c why :
  listen_hook m opt c = Panic why → lm_mode m = mtlsWebServerMode ∧ lm_cert m = None.
Proof. unfold listen_hook. destruct (lm_mode m); try done. by destruct (lm_cert m). Qed.

Lemma lm_with_source_fields (m : listenMode W Src SrcOption) s :
  lm_mode (lm_with_source m s) = lm_mode m ∧ lm_cert (lm_with_source m s) = lm_cert m.
Proof. by destruct s. Qed.

Lemma listen_accounts inner m options h :
  let o := NewListenerWithMode inner m options h in
  (∀ why, o_result o = Panic why →
     (lm_sourceUnneeded m = false ∧ lm_source m = None ∧ NewX509Source (lm_options m) = Panic why) ∨
     (lm_mode m = mtlsWebServerMode ∧ lm_cert m = None)) ∧
  ∃ closer, (is_Some closer → lm_sourceUnneeded m = false ∧ lm_source m = None) ∧
    accounts_for l_sourceCloser (o_events o) (o_result o) closer.
Proof.
  intros o. unfold o, NewListenerWithMode.
  destruct (acquire_source (lm_sourceUnneeded m) (lm_source m) (lm_options m)) as [[[source closer] events]|err|why] eqn:Ha.
  2: { split; [done|]. exists None. split; [by intros [??]|by split_and!]. }
  2: { split; [intros why' [= <-]; left; by apply acquire_panic in Ha|]. exists None. split; [by intros [??]|by split_and!]. }
  destruct (acquire_accounts _ _ _ _ _ _ Ha) as (Hc & Hcl & Hc' & Hcl' & Hn).
  destruct (lm_with_source_fields m source) as [Em Ec].
  destruct (conf_for _ h) as [p h']. destruct (listen_hook _ _ _) as [cfg|err|why] eqn:Hh; cbn [o_result o_events].
  - split; [done|]. exists closer. by split_and!.
  - split; [done|]. exists closer. split; [done|]. split; [by rewrite created_app, Hc, Hc', app_nil_r|by rewrite closed_app, Hcl, Hcl'].
  - split; [intros ? _; right; apply listen_hook_panic in Hh; by rewrite Em, Ec in Hh|]. exists closer. by split_and!.
Qed.
End spiffetls_lemmas.

Section spiffetls_properties.
Context {C : Charset} {CL : CharsetLaws C} {L : X509Lib} {V : X509Verifier} {VL : VerifierLaws V}.
Context {W Src SrcOption Dialer Conn Lis : Type} {N : TlsNet W Src SrcOption Dialer Conn Lis} {TL : TlsLib (W := W)}.

(** The X.509 source of a dial: one is created only when the mode needs one and
    has none; a failed dial has closed each source it created, and a connection keeps
    the created one, still open, and closes it, before itself, when it is closed. *)
Lemma dial_lifetime network addr (m : dialMode W Src SrcOption) options h :
  let o := DialWithMode network addr m options h in
  (created_of (o_events o) ≠ [] → dm_sourceUnneeded m = false ∧ dm_source m = None) ∧
  (∀ err, o_result o = Err err → closed_of (o_events o) = created_of (o_events o)) ∧
  (∀ conn, o_result o = Ok conn →
     closed_of (o_events o) = [] ∧
     closed_of (clientConn_Close conn).2 = created_of (o_events o) ∧
     last (clientConn_Close conn).2 = Some InnerClosed) ∧
  (∀ why, o_result o = Panic why → closed_of (o_events o) = []).
Proof.
  intros o. destruct (dial_accounts network addr m options h) as (closer & Hn & Hc & Ho). fold o in Hc, Ho.
  split_and!.
  - intros Hne. apply Hn. rewrite Hc in Hne. by destruct closer.
  - intros err E. rewrite E in Ho. by rewrite Hc.
  - intros conn E. rewrite E in Ho. destruct Ho as [Hcl Hcd]. split_and!; [done| |].
    + unfold clientConn_Close. rewrite Hcl, Hc. by destruct closer.
    + unfold clientConn_Close. cbn [snd]. by rewrite last_snoc.
  - intros why E. by rewrite E in Ho.
Qed.

(** The same for a listener. *)
Lemma listen_lifetime network laddr inner (m : listenMode W Src SrcOption) options h :
  let o := NewListenerWithMode inner m options h in
  let o' := ListenWithMode network laddr m options h in
  (created_of (o_events o) ≠ [] → lm_sourceUnneeded m = false ∧ lm_source m = None) ∧
  (∀ err, o_result o = Err err → closed_of (o_events o) = created_of (o_events o)) ∧
  (∀ l, o_result o = Ok l →
     closed_of (o_events o) = [] ∧ closed_of (listener_Close l).2 = created_of (o_events o) ∧
     last (listener_Close l).2 = Some InnerClosed) ∧
  (∀ why, o_result o = Panic why → closed_of (o_events o) = []) ∧
  (net_Listen network laddr = inl inner →
     o_result o' = o_result o ∧ (is_Err (o_result o') = true → last (o_events o') = Some InnerClosed)).
Proof.
  intros o o'. destruct (listen_accounts inner m options h) as (_ & closer & Hn & Hc & Ho). fold o in Hc, Ho.
  split_and!.
  - intros Hne. apply Hn. rewrite Hc in Hne. by destruct closer.
  - intros err E. rewrite E in Ho. by rewrite Hc.
  - intros l E. rewrite E in Ho. destruct Ho as [Hcl Hcd]. split_and!; [done| |].
    + unfold listener_Close. rewrite Hcl, Hc. by destruct closer.
    + unfold listener_Close. cbn [snd]. by rewrite last_snoc.
  - intros why E. by rewrite E in Ho.
  - intros Hl. unfold o', ListenWithMode. rewrite Hl. fold o. destruct (o_result o) eqn:E; cbn; rewrite ?E; (split; [done|]); try done.
    intros _. by rewrite last_snoc.
Qed.

Lemma listen_without_cert inner (m : listenMode W Src SrcOption) options h :
  lm_mode m = mtlsWebServerMode → lm_cert m = None → is_Ok (o_result (NewListenerWithMode inner m options h)) = false.
Proof.
  intros Hm Hcert. unfold NewListenerWithMode.
  destruct (acquire_source _ _ _) as [[[source closer] events]| |]; [|done..].
  destruct (lm_with_source_fields m source) as [Em Ec]. destruct (conf_for _ h) as [p h'].
  unfold listen_hook. by rewrite Em, Hm, Ec, Hcert.
Qed.


(** The bundle source of a connection's mode. *)
Definition mode_bundle (m : dialMode W Src SrcOption) (conn : clientConn (Src := Src) (Conn := Conn)) : bundle_source (W := W) :=
  match dm_sourceUnneeded m, dm_source m, cc_sourceCloser conn with
  | true, _, _ => dm_bundle m
  | false, Some s, _ => as_bundle s
  | false, None, Some s => as_bundle s
  | false, None, None => None
  end.

(** A dial in a SPIFFE mode uses its base, hooked. *)
Lemma dial_hooked network addr (m : dialMode W Src SrcOption) options h conn :
  let o := DialWithMode network addr m options h in
  dm_mode m = tlsClientMode ∨ dm_mode m = mtlsClientMode →
  o_result o = Ok conn →
  ∃ cfg, Dialed cfg ∈ o_events o ∧
    hooked (base_conf h (dc_baseTLSConf (dial_options options))) (mode_bundle m conn) (dm_authorizer m) TlsSession.Client cfg.
Proof.
  intros o Hmode Ho.
  destruct (acquire_source (dm_sourceUnneeded m) (dm_source m) (dm_options m)) as [[[source closer] events]| |] eqn:Ha.
  2, 3: unfold o, DialWithMode in Ho; by rewrite Ha in Ho.
  destruct (dial_unfold network addr m options h _ _ _ Ha) as [_ Hd]. fold o in Hd.
  destruct (dm_with_source_fields m source) as (Hm & Hau & _). unfold dial_hook in Hd. rewrite Hm, Hau in Hd.
  assert (∀ c, o_result o = match c with Ok c => Ok (mkClientConn c closer) | Err err => Err (wrapSpiffetlsErr
      (fmt_Errorf "unable to dial: %w" [Arg_w (Some err)])) | Panic why => Panic why end →
    dm_bundle (dm_with_source m source) = mode_bundle m conn) as Hbundle.
  { intros c E. rewrite Ho in E. destruct c; [injection E as ->|done..]. unfold mode_bundle. cbn.
    by destruct (acquire_cases _ _ _ _ Ha) as [[-> [= -> -> ->]]|[(-> & s & -> & [= -> -> ->])|(-> & -> & s & [= -> -> ->])]]. }
  destruct Hmode as [E|E]; rewrite E in Hd; destruct Hd as (_ & He & Hr); rewrite (Hbundle _ Hr) in He;
    (eexists; split; [rewrite He, !elem_of_app; right; left; by left|]); constructor.
Qed.

(** [C30] The connections of the SPIFFE client modes. A dial that succeeds has used the
    base configuration (its own, without one) hooked with the bundle source of the mode
    (the given source, the created one, or the raw bundle source) and the mode's
    authorizer. Under it a server is accepted in a full handshake exactly when its
    certificates verify against that bundle source as it is at the handshake, the
    authorizer accepts it and so do the base's VerifyPeerCertificate and
    VerifyConnection; and the peer's ID read off the connection is the ID the authorizer
    accepted. The handshake is a full one for every connection unless the base has a
    session cache and tickets are enabled: without resumption each connection under that
    configuration has passed this at its own time. *)
Theorem dial_authenticates {SL : SessionLib W} network addr (m : dialMode W Src SrcOption) options h conn :
  let o := DialWithMode network addr m options h in
  let base := base_conf h (dc_baseTLSConf (dial_options options)) in
  let bundle := mode_bundle m conn in
  dm_mode m = tlsClientMode ∨ dm_mode m = mtlsClientMode →
  o_result o = Ok conn →
  ∃ cfg, Dialed cfg ∈ o_events o ∧
    (∀ w raw,
      (client_accepts cfg w raw = Ok () ↔
       ∃ id certs, spiffe_accepts bundle (dm_authorizer m) w raw id certs ∧ base_accepts base w raw certs) ∧
      (client_accepts cfg w raw = Ok () → ∀ cs, forM (λ raw, of_lib (x509_ParseCertificate raw)) raw = Ok cs →
         ∃ id certs, PeerIDFromConn (spiffe_conn (mkConnectionState cs)) = Ok id ∧ dm_authorizer m id certs = Ok ())) ∧
    (resumption_on TlsSession.Client cfg = negb (SessionTicketsDisabled base) && ClientSessionCache base) ∧
    (dc_baseTLSConf (dial_options options) = None → resumption_on TlsSession.Client cfg = false) ∧
    (resumption_on TlsSession.Client cfg = false → ∀ attempts,
       Forall (λ c, c_resumed c = false ∧
         ∃ id certs, spiffe_accepts bundle (dm_authorizer m) (c_world c) (c_peer c) id certs ∧
           base_accepts base (c_world c) (c_peer c) certs)
         (connections (serve_all TlsSession.Client cfg attempts))).
Proof.
  intros o base bundle Hmode Ho. destruct (dial_hooked network addr m options h conn Hmode Ho) as (cfg & Hin & Hh).
  pose proof (hooked_kept _ _ _ _ _ Hh) as (Hres & _). fold base bundle in Hh, Hres.
  assert (∀ w raw, client_accepts cfg w raw = Ok () ↔
       ∃ id certs, spiffe_accepts bundle (dm_authorizer m) w raw id certs ∧ base_accepts base w raw certs) as Hacc
    by (intros w raw; exact (hooked_accepts _ _ _ _ _ w raw Hh)).
  exists cfg. split_and!; [done| |done| |].
  - intros w raw. split; [apply Hacc|]. intros (id & certs & Hs & _)%Hacc cs Hcs. exists id, certs.
    split; [by eapply peer_id_accepted|by destruct Hs].
  - intros Hb. unfold base in Hres. rewrite Hb in Hres. by rewrite Hres.
  - intros Hoff attempts. refine (connections_unresumed _ _ _ _ _ attempts Hh _).
    intros w c [= <-]. by rewrite <- Hres.
Qed.
End spiffetls_properties.

(** ** Witness *)
#[export] Instance sample_TlsNet : TlsNet unit nat nat nat nat nat := {|
  NewX509Source opts := Ok (length opts);
  src_bundle s := sample_bundles;
  src_svid s := sample_svid_source;
  src_Close s := None;
  tls_Dial dialer network addr cfg := Ok 7;
  conn_Close c := None;
  net_Listen network addr := inl 8;
  lis_Close l := None;
|}.

#[local] Instance any_session : SessionLib unit := λ s config w t, true.

Lemma dial_authenticates_witness :
  let o := DialWithMode (C := charset_deny) (N := sample_TlsNet) "tcp" "server:443"
             (MTLSClient (AuthorizeID X509Svid.workload_id)) [] ∅ in
  ∃ cfg id certs, Dialed cfg ∈ o_events o ∧ client_accepts cfg tt ["L"] = Ok () ∧
    PeerIDFromConn (C := charset_deny) (spiffe_conn (mkConnectionState [leafL])) = Ok id ∧ AuthorizeID X509Svid.workload_id id certs = Ok () ∧
    resumption_on TlsSession.Client cfg = false.
Proof.
  intros o.
  destruct (dial_authenticates (C := charset_deny) (N := sample_TlsNet) "tcp" "server:443"
    (MTLSClient (AuthorizeID X509Svid.workload_id)) [] ∅ (mkClientConn 7 (Some 0)) (or_intror eq_refl) eq_refl)
    as (cfg & Hin & Hall & _ & Hres & _).
  destruct (Hall tt ["L"]) as [[_ Hacc] Hid].
  assert (client_accepts cfg tt ["L"] = Ok ()) as Ha.
  { apply Hacc. exists X509Svid.workload_id, [[leafL; caA]]. by split; [split; vm_compute|]. }
  destruct (Hid Ha [leafL]) as (id & certs & ? & ?); [by vm_compute|]. exists cfg, id, certs. split_and!; try done.
  by apply Hres.
Defined.
