(* ===== verification/ModeRace.v ===== *)
(** * Concurrent dials, the mode and the base configuration they share

    DialWithMode (src/spiffetls/dial.go) assigns the fields m.bundle and m.svid of the
    mode it was given and reads them again, and hooks the base configuration of its
    options in place (src/spiffetls/tlsconfig/config.go). SpiffeTls.v has one call at a
    time; here calls run concurrently, each on the mode its pointer names and on the
    configuration its base points to, or on one of its own. Every read and write of the
    mode's fields and every write of the hooks to the configuration is a step of its
    own, and so is the read of VerifyPeerCertificate that the hooks wrap; at the end
    tls.Dial reads the configuration. *)

From S2P Require Import Prelude Path GoUrl ID Match Crypto X509 X509Sample Pem BundleSet X509Bundle X509Svid TlsConfig TlsSession SpiffeTls.

Section mode_race.
Context {C : Charset} {L : X509Lib} {V : X509Verifier}.
Context {W Src SrcOption Dialer Conn Lis : Type} {N : TlsNet W Src SrcOption Dialer Conn Lis}.
#[local] Abbreviation mode := (dialMode W Src SrcOption).
#[local] Abbreviation conf := (Config W).
#[local] Abbreviation opts := (dialConfig (Dialer := Dialer)).

(** ** The hooks, write by write *)
Inductive conf_step : Type :=
  | Write (f : conf → conf)
  | ReadVerify                                                      (* the argument of WrapVerifyPeerCertificate *)
  | WriteWrapped (bundle : bundle_source (W := W)) (authorizer : Authorizer).

Definition reset_steps : list conf_step :=
  [Write (λ c, if (MinVersion c <? VersionTLS12)%Z then set_MinVersion VersionTLS12 c else c);
   Write (set_Certificates []); Write (set_ClientAuth NoClientCert); Write (set_GetCertificate None);
   Write (set_GetClientCertificate None); Write (set_InsecureSkipVerify false); Write (set_NameToCertificate None);
   Write (set_RootCAs None)].

Definition hook_steps (m : clientMode) (svid : svid_source (W := W)) (bundle : bundle_source (W := W))
    (authorizer : Authorizer) (roots : option CertPool) (opts : list TlsConfig.Option) : res (list conf_step) :=
  match m with
  | tlsClientMode =>
      Ok (reset_steps ++ [Write (set_InsecureSkipVerify true); ReadVerify; WriteWrapped bundle authorizer])
  | mtlsClientMode =>
      Ok (reset_steps ++ [Write (set_GetClientCertificate (Some (getClientCertificate svid opts)));
                          Write (set_InsecureSkipVerify true); ReadVerify; WriteWrapped bundle authorizer])
  | mtlsWebClientMode =>
      Ok (reset_steps ++ [Write (set_GetClientCertificate (Some (getClientCertificate svid opts))); Write (set_RootCAs roots)])
  | unknownClientMode n => Err (wrapSpiffetlsErr (fmt_Errorf "unknown client mode: %v" [Arg_d n]))
  end.

(** A step on the callback that was read and the configuration. *)
Definition conf_run (x : option (verify_callback (W := W)) * conf) (s : conf_step) : option (verify_callback (W := W)) * conf :=
  match s with
  | Write f => (x.1, f x.2)
  | ReadVerify => (VerifyPeerCertificate x.2, x.2)
  | WriteWrapped bundle authorizer =>
      (x.1, set_VerifyPeerCertificate (Some (WrapVerifyPeerCertificate x.1 bundle authorizer)) x.2)
  end.

(** ** A call *)

(** Where it is: before acquire_source, the two assignments, the choice of the
    configuration, the two reads, the hook with what is left of it, tls.Dial with the
    configuration it has read; or at its end. *)
Inductive pc : Type :=
  | AtAcquire
  | AtSetBundle (source : option Src)
  | AtSetSvid (source : option Src)
  | AtConf (source : option Src)
  | AtReadSvid (source : option Src)
  | AtReadBundle (source : option Src) (svid : svid_source (W := W))
  | AtHook (source : option Src) (read : option (verify_callback (W := W))) (todo : list conf_step)
  | Dialing (source : option Src) (config : conf)
  | Stopped (result : res unit).

Definition set_dm_bundle (b : bundle_source (W := W)) (m : mode) : mode :=
  mkDialMode (dm_mode m) (dm_sourceUnneeded m) (dm_authorizer m) (dm_source m) (dm_options m) b (dm_svid m) (dm_roots m).
Definition set_dm_svid (s : svid_source (W := W)) (m : mode) : mode :=
  mkDialMode (dm_mode m) (dm_sourceUnneeded m) (dm_authorizer m) (dm_source m) (dm_options m) (dm_bundle m) s (dm_roots m).

(** The source a call uses: none when raw sources were given. *)
Definition source_of (m : mode) (new : res Src) : res (option Src) :=
  if dm_sourceUnneeded m then Ok None
  else match dm_source m with
       | Some s => Ok (Some s)
       | None => Some <$> wrap_err (λ err, wrapSpiffetlsErr (fmt_Errorf "cannot create X.509 source: %w" [Arg_w (Some err)])) new
       end.

(** The end of a call that fails, and where it goes on otherwise. *)
Definition go_on {A} (r : res A) (k : A → pc) : pc :=
  match r with Ok a => k a | Err err => Stopped (Err err) | Panic why => Stopped (Panic why) end.

(** The next step of a call with these options, to which NewX509Source gives [new]: its
    next place, the mode and the configuration afterwards. *)
Definition dial_step (opt : opts) (new : res Src) (at_ : pc) (m : mode) (c : conf) : option (pc * mode * conf) :=
  match at_ with
  | AtAcquire => Some (go_on (source_of m new) AtSetBundle, m, c)
  | AtSetBundle s => Some (AtSetSvid s, match s with Some s => set_dm_bundle (as_bundle s) m | None => m end, c)
  | AtSetSvid s => Some (AtConf s, match s with Some s => set_dm_svid (as_svid s) m | None => m end, c)
  | AtConf s => Some (AtReadSvid s, m, match dc_baseTLSConf opt with Some _ => c | None => newTLSConfig end)
  | AtReadSvid s => Some (AtReadBundle s (dm_svid m), m, c)
  | AtReadBundle s svid =>
      Some (go_on (hook_steps (dm_mode m) svid (dm_bundle m) (dm_authorizer m) (dm_roots m) (dc_tlsOptions opt)) (AtHook s None), m, c)
  | AtHook s read (st :: todo) => let x := conf_run (read, c) st in Some (AtHook s x.1 todo, m, x.2)
  | AtHook s read [] => Some (Dialing s c, m, c)
  | Dialing _ _ | Stopped _ => None
  end.

(** ** Calls together *)

(** A call: the pointer to its mode, its options, what NewX509Source gives it, the
    configuration it allocates when its options have none, and where it is. *)
Record dial : Type := mkDial {
  d_mode : nat;
  d_opt : opts;
  d_new : res Src;
  d_own : conf;
  d_pc : pc;
}.

(** The modes and the configurations by pointer, and the calls. *)
Record race : Type := mkRace { r_modes : gmap nat mode; r_confs : conf_heap W; r_dials : list dial }.

(** The configuration of a call, and a write to it. *)
Definition conf_of (opt : opts) (own : conf) (h : conf_heap W) : conf :=
  match dc_baseTLSConf opt with Some p => deref h p | None => own end.
Definition put_conf (opt : opts) (c : conf) (h : conf_heap W) : conf_heap W :=
  match dc_baseTLSConf opt with Some p => <[p := c]> h | None => h end.

(** A step of call [i]. *)
Definition race_step (i : nat) (r : race) : option race :=
  d ← r_dials r !! i; m ← r_modes r !! d_mode d;
  '(p, m, c) ← dial_step (d_opt d) (d_new d) (d_pc d) m (conf_of (d_opt d) (d_own d) (r_confs r));
  Some (mkRace (<[d_mode d := m]> (r_modes r)) (put_conf (d_opt d) c (r_confs r))
         (<[i := mkDial (d_mode d) (d_opt d) (d_new d) c p]> (r_dials r))).

Fixpoint race_run (sched : list nat) (r : race) : option race :=
  match sched with [] => Some r | i :: sched => race_step i r ≫= race_run sched end.

(** All calls about to start. *)
Definition start (modes : gmap nat mode) (h : conf_heap W) (dials : list (nat * opts * res Src)) : race :=
  mkRace modes h ((λ d, mkDial d.1.1 d.1.2 d.2 newTLSConfig AtAcquire) <$> dials).

(** ** The hook, step by step and at once *)
Lemma hook_steps_hook (m : mode) (opt : opts) c :
  match hook_steps (dm_mode m) (dm_svid m) (dm_bundle m) (dm_authorizer m) (dm_roots m) (dc_tlsOptions opt) with
  | Ok todo => dial_hook m opt c = Ok (foldl conf_run (None, c) todo).2
  | Err err => dial_hook m opt c = Err err
  | Panic _ => False
  end.
Proof.
  unfold hook_steps, dial_hook. destruct (dm_mode m); [| | |done]; cbn; f_equal;
    unfold HookTLSClientConfig, HookMTLSClientConfig, HookMTLSWebClientConfig, resetAuthFields; by case_match.
Qed.

(** What the steps before the wrapping do: the callback is the base's still. *)
Lemma hook_steps_wrap md svid bundle authorizer roots topts todo :
  hook_steps md svid bundle authorizer roots topts = Ok todo → md = tlsClientMode ∨ md = mtlsClientMode →
  ∃ pre, todo = pre ++ [WriteWrapped bundle authorizer] ∧
    ∀ c, let x := foldl conf_run (None, c) pre in
    x.1 = VerifyPeerCertificate c ∧ VerifyPeerCertificate x.2 = VerifyPeerCertificate c ∧
    InsecureSkipVerify x.2 = true ∧ VerifyConnection x.2 = VerifyConnection c.
Proof.
  intros Hs [-> | ->]; injection Hs as <-;
    [exists (reset_steps ++ [Write (set_InsecureSkipVerify true); ReadVerify])
    |exists (reset_steps ++ [Write (set_GetClientCertificate (Some (getClientCertificate svid topts)));
              Write (set_InsecureSkipVerify true); ReadVerify])]; (split; [done|]); intros c; cbn; by case_match.
Qed.

(** ** One call's view of the whole *)
Definition view (i ptr : nat) (opt : opts) (new : res Src) (r : race) (x : pc * mode * conf) : Prop :=
  ∃ own, r_dials r !! i = Some (mkDial ptr opt new own x.1.1) ∧ r_modes r !! ptr = Some x.1.2 ∧
    conf_of opt own (r_confs r) = x.2.

Definition same_base (opt opt' : opts) : bool :=
  match dc_baseTLSConf opt, dc_baseTLSConf opt' with Some p, Some q => bool_decide (p = q) | _, _ => false end.

Lemma conf_of_put opt c h : conf_of opt c (put_conf opt c h) = c.
Proof. unfold conf_of, put_conf. destruct (dc_baseTLSConf opt); [apply deref_insert|done]. Qed.

Lemma conf_of_put_other opt opt' own c h :
  conf_of opt' own (put_conf opt c h) = if same_base opt opt' then c else conf_of opt' own h.
Proof.
  unfold conf_of, put_conf, same_base. destruct (dc_baseTLSConf opt) as [p|], (dc_baseTLSConf opt') as [q|]; try done.
  case_bool_decide as E; [subst; apply deref_insert|]. unfold deref. by rewrite lookup_insert_ne.
Qed.

(** A step as the call that makes it sees it, and as another call does. *)
Lemma view_step i ptr opt new r x x' :
  view i ptr opt new r x → dial_step opt new x.1.1 x.1.2 x.2 = Some x' →
  ∃ r', race_step i r = Some r' ∧ view i ptr opt new r' x' ∧
    ∀ j ptr' opt' new' y, j ≠ i → view j ptr' opt' new' r y →
      view j ptr' opt' new' r' (y.1.1, if decide (ptr = ptr') then x'.1.2 else y.1.2, if same_base opt opt' then x'.2 else y.2).
Proof.
  destruct x as [[p m] c], x' as [[p' m'] c']. intros (own & Hd & Hm & Hc) Hs. cbn in *. unfold race_step.
  rewrite Hd. cbn. rewrite Hm. cbn. rewrite Hc, Hs. cbn. eexists. split; [done|]. split.
  - exists c'. cbn. split_and!; [by apply list_lookup_insert_eq; eapply lookup_lt_Some|apply lookup_insert_eq|apply conf_of_put].
  - intros j ptr' opt' new' [[q n] e] Hne (own' & Hd' & Hm' & He). cbn in *. exists own'. cbn. split_and!.
    + by rewrite list_lookup_insert_ne.
    + case_decide as E; [subst; apply lookup_insert_eq|by rewrite lookup_insert_ne].
    + rewrite conf_of_put_other. by rewrite He.
Qed.

(** Conversely, a step of the race is one of some call. *)
Lemma race_step_view i r r' :
  race_step i r = Some r' →
  ∃ ptr opt new x x', view i ptr opt new r x ∧ dial_step opt new x.1.1 x.1.2 x.2 = Some x'.
Proof.
  unfold race_step. intros (d & Hd & (m & Hm & ([[p m'] c] & Hs & _)%bind_Some)%bind_Some)%bind_Some.
  exists (d_mode d), (d_opt d), (d_new d), (d_pc d, m, conf_of (d_opt d) (d_own d) (r_confs r)), (p, m', c).
  split; [|done]. exists (d_own d). by destruct d.
Qed.

(** Several steps of one call on end. *)
Fixpoint solo (n : nat) (opt : opts) (new : res Src) (x : pc * mode * conf) : option (pc * mode * conf) :=
  match n with 0 => Some x | S n => dial_step opt new x.1.1 x.1.2 x.2 ≫= solo n opt new end.

Lemma race_run_app s1 s2 r : race_run (s1 ++ s2) r = race_run s1 r ≫= race_run s2.
Proof. revert r; induction s1 as [|i s1 IH]; intros r; cbn; [done|]. by destruct (race_step i r); cbn. Qed.

Lemma view_solo n i j ptr opt new ptr' opt' new' r x x' y :
  j ≠ i → view i ptr opt new r x → view j ptr' opt' new' r y → solo n opt new x = Some x' →
  ∃ r', race_run (replicate n i) r = Some r' ∧ view i ptr opt new r' x' ∧
    view j ptr' opt' new' r' (y.1.1, if decide (ptr = ptr') then x'.1.2 else y.1.2, if same_base opt opt' then x'.2 else y.2).
Proof.
  intros Hne. revert r x y; induction n as [|n IH]; intros r x y Hi Hj; cbn [solo replicate race_run].
  - intros [= <-]. exists r. split_and!; [done|done|]. destruct x as [[p m] c], y as [[q n] e]. cbn.
    destruct Hi as (own & _ & Hm & Hc), Hj as (own' & Hd' & Hm' & Hc'). exists own'. split_and!; [done| |]; cbn in *.
    + case_decide; [subst; congruence|done].
    + unfold conf_of, same_base in *. destruct (dc_baseTLSConf opt), (dc_baseTLSConf opt'); try done.
      case_bool_decide; congruence.
  - intros (x1 & Hs & Hn)%bind_Some. destruct (view_step _ _ _ _ _ _ _ Hi Hs) as (r1 & -> & Hi1 & Hother). cbn.
    destruct (IH r1 x1 _ Hi1 (Hother _ _ _ _ _ Hne Hj) Hn) as (r' & Hr & Hi' & Hj'). exists r'. split_and!; [done|done|].
    revert Hj'. cbn. destruct (decide (ptr = ptr')), (same_base opt opt'); done.
Qed.

Lemma solo_app n1 n2 opt new x : solo (n1 + n2) opt new x = solo n1 opt new x ≫= solo n2 opt new.
Proof. revert x; induction n1 as [|n1 IH]; intros x; cbn; [done|]. destruct (dial_step _ _ _ _ _); cbn; [apply IH|done]. Qed.

(** Steps of the hook on end, and the read of tls.Dial. *)
Lemma solo_hook opt new s l rest v m c :
  solo (length l) opt new (AtHook s v (l ++ rest), m, c) =
    Some (AtHook s (foldl conf_run (v, c) l).1 rest, m, (foldl conf_run (v, c) l).2).
Proof.
  revert v c; induction l as [|st l IH]; intros v c; [done|]. cbn [length solo app dial_step fst snd mbind option_bind foldl].
  rewrite IH. by rewrite <- surjective_pairing.
Qed.

Lemma solo_dial opt new s todo v m c :
  solo (length todo + 1) opt new (AtHook s v todo, m, c) =
    Some (Dialing s (foldl conf_run (v, c) todo).2, m, (foldl conf_run (v, c) todo).2).
Proof. rewrite solo_app. rewrite <- (app_nil_r todo) at 2. by rewrite solo_hook. Qed.

(** The assignments, then the choice of the configuration and the reads. *)
Lemma solo_assign opt new m c s :
  source_of m new = Ok s → solo 3 opt new (AtAcquire, m, c) = Some (AtConf s, dm_with_source m s, c).
Proof. intros Hs. cbn. rewrite Hs. by destruct s. Qed.

Lemma solo_read opt new m c s todo :
  hook_steps (dm_mode m) (dm_svid m) (dm_bundle m) (dm_authorizer m) (dm_roots m) (dc_tlsOptions opt) = Ok todo →
  solo 3 opt new (AtConf s, m, c) =
    Some (AtHook s None todo, m, match dc_baseTLSConf opt with Some _ => c | None => newTLSConfig end).
Proof. intros Hs. cbn. by rewrite Hs. Qed.

(** ** A mode and a base that no other call uses *)

(** How far a call has got, alone on a mode that was [m0] and a configuration that was [c0]. *)
Definition progress (m0 : mode) (c0 : conf) (opt : opts) (new : res Src) (x : pc * mode * conf) : Prop :=
  let base := match dc_baseTLSConf opt with Some _ => x.2 = c0 | None => c0 = newTLSConfig end in
  let source s := source_of m0 new = Ok s in
  match x.1.1 with
  | AtAcquire => x.1.2 = m0 ∧ base
  | AtSetBundle s => source s ∧ x.1.2 = m0 ∧ base
  | AtSetSvid s => source s ∧ x.1.2 = match s with Some s => set_dm_bundle (as_bundle s) m0 | None => m0 end ∧ base
  | AtConf s => source s ∧ x.1.2 = dm_with_source m0 s ∧ base
  | AtReadSvid s => source s ∧ x.1.2 = dm_with_source m0 s ∧ x.2 = c0
  | AtReadBundle s svid => source s ∧ x.1.2 = dm_with_source m0 s ∧ x.2 = c0 ∧ svid = dm_svid x.1.2
  | AtHook s v todo => source s ∧
      dial_hook (dm_with_source m0 s) opt c0 = Ok (foldl conf_run (v, x.2) todo).2
  | Dialing s c => source s ∧ dial_hook (dm_with_source m0 s) opt c0 = Ok c
  | Stopped r =>
      match source_of m0 new with
      | Ok s => ∃ err, dial_hook (dm_with_source m0 s) opt c0 = Err err ∧ r = Err err
      | Err err => r = Err err
      | Panic why => r = Panic why
      end
  end.

Lemma dial_step_progress m0 c0 opt new x x' :
  progress m0 c0 opt new x → dial_step opt new x.1.1 x.1.2 x.2 = Some x' → progress m0 c0 opt new x'.
Proof.
  destruct x as [[p m] c]. unfold progress. cbn [fst snd]. destruct p as [|s|s|s|s|s svid|s v [|st todo]|s e|res]; cbn [dial_step];
    intros Hp [= <-]; cbn [fst snd].
  - destruct Hp as [-> Hb]. destruct (source_of m0 new) as [s|err|why] eqn:Hs; cbn; rewrite ?Hs; done.
  - destruct Hp as (Hs & -> & Hb). done.
  - destruct Hp as (Hs & -> & Hb). by destruct s.
  - destruct Hp as (Hs & -> & Hb). split_and!; [done..|]. by destruct (dc_baseTLSConf opt).
  - by destruct Hp as (Hs & -> & ->).
  - destruct Hp as (Hs & -> & -> & ->). pose proof (hook_steps_hook (dm_with_source m0 s) opt c0) as Hh.
    destruct (hook_steps _ _ _ _ _ _) as [todo|err|why]; cbn; [by split|rewrite Hs; by exists err|done].
  - done.
  - destruct Hp as [Hs Hh]. split; [done|]. cbn [foldl] in Hh. by rewrite <- surjective_pairing.
Qed.

Definition apart (i ptr : nat) (opt : opts) (r : race) : Prop :=
  ∀ j d, j ≠ i → r_dials r !! j = Some d → d_mode d ≠ ptr ∧ same_base (d_opt d) opt = false.

Lemma race_step_apart i ptr opt new k r r' x m0 c0 :
  apart i ptr opt r → view i ptr opt new r x → progress m0 c0 opt new x → race_step k r = Some r' →
  apart i ptr opt r' ∧ ∃ x', view i ptr opt new r' x' ∧ progress m0 c0 opt new x'.
Proof.
  intros Ha Hi Hp Hs. destruct (race_step_view _ _ _ Hs) as (ptrk & optk & newk & y & y' & Hk & Hd).
  destruct (view_step _ _ _ _ _ _ _ Hk Hd) as (r1 & Hr1 & Hk1 & Hother). rewrite Hs in Hr1. injection Hr1 as <-. split.
  - intros j d Hj Hjd. destruct (decide (j = k)) as [->|Hne].
    + destruct Hk as (own & Hdk & _), Hk1 as (own1 & Hdk1 & _). rewrite Hjd in Hdk1. injection Hdk1 as ->. by apply (Ha k _ Hj Hdk).
    + apply (Ha j d Hj). revert Hs Hjd. unfold race_step.
      intros (dk & Hdk & (m & _ & ([[p m'] c] & _ & [= <-])%bind_Some)%bind_Some)%bind_Some. cbn.
      by rewrite list_lookup_insert_ne.
  - destruct (decide (k = i)) as [->|Hne].
    + destruct Hi as (own & Hdi & Hm & Hc), Hk as (ownk & Hdk & Hmk & Hck). rewrite Hdi in Hdk. injection Hdk as -> -> -> -> Hpc.
      rewrite Hm in Hmk. rewrite Hc in Hck. exists y'. split; [done|].
      assert (x = y) as -> by (destruct x as [[??]?], y as [[??]?]; cbn in *; congruence). by eapply dial_step_progress.
    + destruct Hk as (ownk & Hdk & Hmk & Hck). destruct (Ha k _ Hne Hdk) as [Hptr Hb]. cbn in Hptr, Hb.
      eexists. split; [eapply Hother; [by intros ->|exact Hi]|]. rewrite decide_False, Hb by done. by destruct x as [[??]?].
Qed.

Lemma race_run_apart i ptr opt new sched r r' x m0 c0 :
  apart i ptr opt r → view i ptr opt new r x → progress m0 c0 opt new x → race_run sched r = Some r' →
  ∃ x', view i ptr opt new r' x' ∧ progress m0 c0 opt new x'.
Proof.
  revert r x; induction sched as [|k sched IH]; intros r x Ha Hi Hp; cbn; [intros [= <-]; by exists x|].
  intros (r1 & Hs & Hr)%bind_Some. destruct (race_step_apart _ _ _ _ _ _ _ _ _ _ Ha Hi Hp Hs) as (Ha1 & x1 & Hi1 & Hp1). by eapply IH.
Qed.

(** A call run alone: acquire_source of SpiffeTls.v. *)
Lemma source_of_acquire (m : mode) :
  match source_of m (NewX509Source (dm_options m)) with
  | Ok s => ∃ closer events, acquire_source (dm_sourceUnneeded m) (dm_source m) (dm_options m) = Ok ((s, closer), events)
  | Err err => acquire_source (dm_sourceUnneeded m) (dm_source m) (dm_options m) = Err err
  | Panic why => acquire_source (dm_sourceUnneeded m) (dm_source m) (dm_options m) = Panic why
  end.
Proof.
  unfold source_of, acquire_source. destruct (dm_sourceUnneeded m); [by eexists _, _|].
  destruct (dm_source m); [by eexists _, _|]. destruct (NewX509Source _); [by eexists _, _|done..].
Qed.

(** Two calls on one mode, or on one base. *)
Lemma view_solo_mode n i j ptr opt new opt' new' r x x' y :
  j ≠ i → view i ptr opt new r x → view j ptr opt' new' r y → solo n opt new x = Some x' → x'.2 = x.2 →
  ∃ r', race_run (replicate n i) r = Some r' ∧ view i ptr opt new r' x' ∧ view j ptr opt' new' r' (y.1.1, x'.1.2, y.2).
Proof.
  intros Hne Hi Hj Hs Hc. destruct (view_solo _ _ _ _ _ _ _ _ _ _ _ _ _ Hne Hi Hj Hs) as (r' & Hr & Hi' & Hj').
  exists r'. split_and!; [done|done|]. rewrite decide_True in Hj' by done.
  assert ((if same_base opt opt' then x'.2 else y.2) = y.2) as E; [|by rewrite E in Hj'].
  destruct (same_base opt opt') eqn:Hb; [|done]. rewrite Hc.
  destruct Hi as (own & _ & _ & Hi), Hj as (own' & _ & _ & Hj). unfold conf_of, same_base in *.
  destruct (dc_baseTLSConf opt), (dc_baseTLSConf opt'); try done. apply bool_decide_eq_true in Hb. congruence.
Qed.

Lemma view_solo_base n i j ptr ptr' opt new opt' new' r x x' y :
  j ≠ i → ptr ≠ ptr' → same_base opt opt' = true →
  view i ptr opt new r x → view j ptr' opt' new' r y → solo n opt new x = Some x' →
  ∃ r', race_run (replicate n i) r = Some r' ∧ view i ptr opt new r' x' ∧ view j ptr' opt' new' r' (y.1.1, y.1.2, x'.2).
Proof.
  intros Hne Hp Hb Hi Hj Hs. destruct (view_solo _ _ _ _ _ _ _ _ _ _ _ _ _ Hne Hi Hj Hs) as (r' & Hr & Hi' & Hj').
  exists r'. rewrite decide_False, Hb in Hj' by done. by split_and!.
Qed.

(** From the choice of the configuration to tls.Dial. *)
Lemma solo_finish opt new m c s :
  dm_mode m = tlsClientMode ∨ dm_mode m = mtlsClientMode →
  ∃ n cfg c', solo n opt new (AtConf s, m, c) = Some (Dialing s cfg, m, c') ∧
    dial_hook m opt (match dc_baseTLSConf opt with Some _ => c | None => newTLSConfig end) = Ok cfg.
Proof.
  intros Hm. set (c0 := match dc_baseTLSConf opt with Some _ => c | None => newTLSConfig end).
  pose proof (hook_steps_hook m opt c0) as Hh.
  destruct (hook_steps (dm_mode m) (dm_svid m) (dm_bundle m) (dm_authorizer m) (dm_roots m) (dc_tlsOptions opt))
    as [todo|err|why] eqn:Ht; [|unfold hook_steps in Ht; by destruct Hm as [E|E]; rewrite E in Ht|done].
  exists (3 + (length todo + 1)). do 2 eexists. split; [|exact Hh].
  rewrite solo_app, (solo_read opt new m c s todo Ht). cbn [mbind option_bind]. apply solo_dial.
Qed.

(** A lost update: both calls read the base's callback before either writes its own. *)
Lemma lost_update opt0 opt1 new0 new1 m0 m1 c s0 s1 r :
  same_base opt0 opt1 = true → is_Some (dc_baseTLSConf opt0) → is_Some (dc_baseTLSConf opt1) →
  dm_mode m0 = tlsClientMode ∨ dm_mode m0 = mtlsClientMode → dm_mode m1 = tlsClientMode ∨ dm_mode m1 = mtlsClientMode →
  view 0 0 opt0 new0 r (AtConf s0, m0, c) → view 1 1 opt1 new1 r (AtConf s1, m1, c) →
  ∃ sched r' cfg c', race_run sched r = Some r' ∧ view 0 0 opt0 new0 r' (Dialing s0 cfg, m0, c') ∧
    InsecureSkipVerify cfg = true ∧ VerifyConnection cfg = VerifyConnection c ∧
    VerifyPeerCertificate cfg = Some (WrapVerifyPeerCertificate (VerifyPeerCertificate c) (dm_bundle m1) (dm_authorizer m1)).
Proof.
  assert (0 ≠ 1 ∧ 1 ≠ 0) as [N01 N10] by done. intros Hb [p0 Hp0] [p1 Hp1] Hm0 Hm1 H0 H1. assert (same_base opt1 opt0 = true) as Hb'.
  { unfold same_base in *. rewrite Hp0, Hp1 in *. apply bool_decide_eq_true in Hb as ->. by apply bool_decide_eq_true. }
  assert (∀ (m : mode) (opt : opts), dm_mode m = tlsClientMode ∨ dm_mode m = mtlsClientMode →
    ∃ todo, hook_steps (dm_mode m) (dm_svid m) (dm_bundle m) (dm_authorizer m) (dm_roots m) (dc_tlsOptions opt) = Ok todo) as Hsome.
  { intros m opt [-> | ->]; by eexists. }
  destruct (Hsome m0 opt0 Hm0) as [todo0 Ht0], (Hsome m1 opt1 Hm1) as [todo1 Ht1].
  pose proof (solo_read opt0 new0 m0 c s0 todo0 Ht0) as Hr0. pose proof (solo_read opt1 new1 m1 c s1 todo1 Ht1) as Hr1.
  rewrite Hp0 in Hr0. rewrite Hp1 in Hr1.
  destruct (hook_steps_wrap _ _ _ _ _ _ _ Ht0 Hm0) as (pre0 & -> & Hpre0).
  destruct (hook_steps_wrap _ _ _ _ _ _ _ Ht1 Hm1) as (pre1 & -> & Hpre1).
  destruct (Hpre0 c) as (Hx1 & Hx2 & Hx3 & Hx4). set (x := foldl conf_run (None, c) pre0) in *.
  destruct (Hpre1 x.2) as (Hy1 & Hy2 & Hy3 & Hy4). set (y := foldl conf_run (None, x.2) pre1) in *.
  destruct (view_solo_base _ 0 1 _ _ _ _ _ _ _ _ _ _ N10 N01 Hb H0 H1 Hr0) as (r1 & E1 & V0 & V1).
  destruct (view_solo_base _ 1 0 _ _ _ _ _ _ _ _ _ _ N01 N10 Hb' V1 V0 Hr1) as (r2 & E2 & V1' & V0').
  destruct (view_solo_base _ 0 1 _ _ _ _ _ _ _ _ _ _ N10 N01 Hb V0' V1' (solo_hook opt0 new0 s0 pre0 _ None m0 c))
    as (r3 & E3 & V0'' & V1'').
  destruct (view_solo_base _ 1 0 _ _ _ _ _ _ _ _ _ _ N01 N10 Hb' V1'' V0'' (solo_hook opt1 new1 s1 pre1 _ None m1 x.2))
    as (r4 & E4 & V13 & V03).
  destruct (view_solo_base 1 0 1 _ _ _ _ _ _ _ _ _ _ N10 N01 Hb V03 V13 eq_refl) as (r5 & E5 & V05 & V15).
  destruct (view_solo_base 1 1 0 _ _ _ _ _ _ _ _ _ _ N01 N10 Hb' V15 V05 eq_refl) as (r6 & E6 & V16 & V06).
  destruct (view_solo_base 1 0 1 _ _ _ _ _ _ _ _ _ _ N10 N01 Hb V06 V16 eq_refl) as (r7 & E7 & V07 & _).
  eexists (replicate _ 0 ++ replicate _ 1 ++ replicate _ 0 ++ replicate _ 1 ++ replicate 1 0 ++ replicate 1 1 ++ replicate 1 0), r7, _, _.
  split; [|split; [exact V07|]].
  - rewrite race_run_app, E1; cbn [mbind option_bind]. rewrite race_run_app, E2; cbn [mbind option_bind].
    rewrite race_run_app, E3; cbn [mbind option_bind]. rewrite race_run_app, E4; cbn [mbind option_bind].
    rewrite race_run_app, E5; cbn [mbind option_bind]. rewrite race_run_app, E6; cbn [mbind option_bind]. exact E7.
  - cbn. fold x y. rewrite Hy3, Hy4, Hx4, Hy1, Hx2. done.
Qed.
End mode_race.

Section mode_race_properties.
Context {C : Charset} {CL : CharsetLaws C} {L : X509Lib} {V : X509Verifier} {VL : VerifierLaws V}.
Context {W Src SrcOption Dialer Conn Lis : Type} {N : TlsNet W Src SrcOption Dialer Conn Lis} {TL : TlsLib (W := W)}.
#[local] Abbreviation mode := (dialMode W Src SrcOption).

(** A verifier whose bundle source has no bundles accepts no peer. *)
Lemma no_bundle_not_accepted (b : W → TrustDomain → res X509Bundle.Bundle) authorizer w raw id certs :
  (∀ td, is_Ok (b w td) = false) → ¬ spiffe_accepts (Some b) authorizer w raw id certs.
Proof.
  intros Hb Hacc. destruct (spiffe_accepts_sound b authorizer w raw id certs) as (? & ? & td & ? & bundle & _ & _ & _ & Hg & _); [|done|].
  - intros td bundle Hg. specialize (Hb td). by rewrite Hg in Hb.
  - specialize (Hb td). by rewrite Hg in Hb.
Qed.

(** A hooked configuration checks what the hook was given. *)
Lemma dial_hook_accepts (m : mode) (opt : dialConfig (Dialer := Dialer)) c cfg w raw :
  dm_mode m = tlsClientMode ∨ dm_mode m = mtlsClientMode → dial_hook m opt c = Ok cfg →
  client_accepts cfg w raw = Ok () ↔
  ∃ id certs, spiffe_accepts (dm_bundle m) (dm_authorizer m) w raw id certs ∧ base_accepts c w raw certs.
Proof.
  unfold dial_hook. intros [-> | ->] [= <-]; [apply client_hook_accepts|apply mtls_client_hook_accepts].
Qed.

(** The views of two calls that are about to start. *)
Lemma start_view (modes : gmap nat mode) (h : conf_heap W) dials i ptr opt new m0 :
  dials !! i = Some (ptr, opt, new) → modes !! ptr = Some m0 →
  view i ptr opt new (start modes h dials) (AtAcquire, m0, base_conf h (dc_baseTLSConf (Dialer := Dialer) opt)).
Proof. intros Hi Hm. exists newTLSConfig. cbn. rewrite list_lookup_fmap, Hi. split_and!; [done|done|by destruct opt as [[] ? ?]]. Qed.

(** The end of a call in a race, against the outcome of the call run alone. *)
Definition as_alone (network addr : string) (m0 : mode) (options : list (DialOption Dialer)) (h : conf_heap W)
    (p : pc (W := W) (Src := Src)) : Prop :=
  let o := DialWithMode network addr m0 options h in
  match p with
  | Dialing source cfg =>
      dial_hook (dm_with_source m0 source) (dial_options options) (base_conf h (dc_baseTLSConf (dial_options options))) = Ok cfg ∧
      Dialed cfg ∈ o_events o
  | Stopped (Err err) => o_result o = Err err
  | Stopped (Panic why) => o_result o = Panic why
  | Stopped (Ok _) => False
  | _ => True
  end.

Lemma progress_as_alone network addr m0 options h x :
  progress m0 (base_conf h (dc_baseTLSConf (dial_options options))) (dial_options options) (NewX509Source (dm_options m0)) x →
  as_alone network addr m0 options h x.1.1.
Proof.
  destruct x as [[p m] c]. unfold progress, as_alone. cbn [fst snd]. pose proof (source_of_acquire m0) as Ha.
  destruct p; try done.
  - intros [Hs Hh]. rewrite Hs in Ha. destruct Ha as (closer & events & Ha). split; [done|].
    destruct (dial_unfold network addr m0 options h _ _ _ Ha) as [_ Ho]. rewrite Hh in Ho. destruct Ho as (_ & -> & _).
    rewrite !elem_of_app. right. left. by left.
  - destruct (source_of m0 (NewX509Source (dm_options m0))) as [s|err|why].
    + intros (err & Hh & ->). destruct Ha as (closer & events & Ha).
      destruct (dial_unfold network addr m0 options h _ _ _ Ha) as [_ Ho]. rewrite Hh in Ho. by destruct Ho.
    + intros ->. unfold DialWithMode. by rewrite Ha.
    + intros ->. unfold DialWithMode. by rewrite Ha.
Qed.

(** Two calls on one mode without a source. *)
Lemma shared_mode :
  ∀ (m0 : mode) h opt0 opt1 s0 s1,
     dm_sourceUnneeded m0 = false → dm_source m0 = None → dm_mode m0 = tlsClientMode ∨ dm_mode m0 = mtlsClientMode →
     ∃ sched r d cfg,
       race_run sched (start {[0%nat := m0]} h [(0%nat, opt0, Ok s0); (0%nat, opt1, Ok s1)]) = Some r ∧
       r_dials r !! 0%nat = Some d ∧ d_pc d = Dialing (Some s0) cfg ∧
       ∀ w raw, (∀ td, is_Ok (src_bundle s1 w td) = false) → client_accepts cfg w raw ≠ Ok ().
Proof.
  intros m0 h opt0 opt1 s0 s1 Hun Hsrc Hmode.
  assert (∀ (m : mode) s, dm_sourceUnneeded m = false → dm_source m = None → source_of m (Ok s) = Ok (Some s)) as Hso.
  { intros m s E1 E2. unfold source_of. by rewrite E1, E2. }
  pose proof (start_view {[0%nat := m0]} h [(0%nat, opt0, Ok s0); (0%nat, opt1, Ok s1)] 0 0 opt0 (Ok s0) m0 eq_refl
    ltac:(apply lookup_singleton_eq)) as V0.
  pose proof (start_view {[0%nat := m0]} h [(0%nat, opt0, Ok s0); (0%nat, opt1, Ok s1)] 1 0 opt1 (Ok s1) m0 eq_refl
    ltac:(apply lookup_singleton_eq)) as V1.
  destruct (view_solo_mode _ 0 1 _ _ _ _ _ _ _ _ _ ltac:(done) V0 V1 (solo_assign opt0 (Ok s0) m0 _ _ (Hso m0 s0 Hun Hsrc)) eq_refl)
    as (r1 & E1 & V0' & V1'). cbn [fst snd] in V1'.
  destruct (view_solo_mode _ 1 0 _ _ _ _ _ _ _ _ _ ltac:(done) V1' V0'
    (solo_assign opt1 (Ok s1) (dm_with_source m0 (Some s0)) _ _ (Hso _ s1 Hun Hsrc)) eq_refl) as (r2 & E2 & V1'' & V0'').
  cbn [fst snd] in V0''. change (dm_with_source (dm_with_source m0 (Some s0)) (Some s1)) with (dm_with_source m0 (Some s1)) in *.
  destruct (solo_finish opt0 (Ok s0) (dm_with_source m0 (Some s1)) (base_conf h (dc_baseTLSConf opt0)) (Some s0) Hmode)
    as (n & cfg & c' & Hn & Hh).
  destruct (view_solo _ 0 1 _ _ _ _ _ _ _ _ _ _ ltac:(done) V0'' V1'' Hn) as (r3 & E3 & (own & Hd & _) & _).
  exists (replicate 3 0 ++ replicate 3 1 ++ replicate n 0), r3. eexists _, cfg. split_and!; [|exact Hd|done|].
  - rewrite race_run_app, E1. cbn [mbind option_bind]. rewrite race_run_app, E2. exact E3.
  - intros w raw Hcl Hacc. apply (dial_hook_accepts (dm_with_source m0 (Some s1)) _ _ _ w raw Hmode Hh) in Hacc as (id & certs & Ha & _).
    by apply no_bundle_not_accepted in Ha.
Qed.

(** Two calls on one base. *)
Lemma shared_base :
  ∀ (m0 m1 : mode) h opt0 opt1 p new0 new1 s0 s1,
     dc_baseTLSConf opt0 = Some p → dc_baseTLSConf opt1 = Some p →
     dm_mode m0 = tlsClientMode ∨ dm_mode m0 = mtlsClientMode → dm_mode m1 = tlsClientMode ∨ dm_mode m1 = mtlsClientMode →
     source_of m0 new0 = Ok s0 → source_of m1 new1 = Ok s1 →
     ∃ sched r d cfg,
       race_run sched (start {[0%nat := m0; 1%nat := m1]} h [(0%nat, opt0, new0); (1%nat, opt1, new1)]) = Some r ∧
       r_dials r !! 0%nat = Some d ∧ d_pc d = Dialing s0 cfg ∧
       ∀ w raw, client_accepts cfg w raw = Ok () ↔
         ∃ id certs, spiffe_accepts (dm_bundle (dm_with_source m1 s1)) (dm_authorizer m1) w raw id certs ∧
           base_accepts (deref h p) w raw certs.
Proof.
  assert ((0 ≠ 1)%nat ∧ (1 ≠ 0)%nat) as [N01 N10] by done. intros m0 m1 h opt0 opt1 p new0 new1 s0 s1 Hp0 Hp1 Hm0 Hm1 Hs0 Hs1.
  assert (same_base opt0 opt1 = true ∧ same_base opt1 opt0 = true) as [Hb Hb']
    by (unfold same_base; rewrite Hp0, Hp1; split; by apply bool_decide_eq_true).
  pose proof (start_view {[0%nat := m0; 1%nat := m1]} h [(0%nat, opt0, new0); (1%nat, opt1, new1)] 0 0 opt0 new0 m0 eq_refl eq_refl) as V0.
  pose proof (start_view {[0%nat := m0; 1%nat := m1]} h [(0%nat, opt0, new0); (1%nat, opt1, new1)] 1 1 opt1 new1 m1 eq_refl eq_refl) as V1.
  rewrite Hp0 in V0. rewrite Hp1 in V1. cbn [base_conf] in V0, V1.
  destruct (view_solo_base _ 0 1 _ _ _ _ _ _ _ _ _ _ N10 N01 Hb V0 V1 (solo_assign opt0 new0 m0 _ _ Hs0)) as (r1 & E1 & V0' & V1').
  destruct (view_solo_base _ 1 0 _ _ _ _ _ _ _ _ _ _ N01 N10 Hb' V1' V0' (solo_assign opt1 new1 m1 _ _ Hs1)) as (r2 & E2 & V1'' & V0'').
  destruct (dm_with_source_fields m0 s0) as (F0 & _), (dm_with_source_fields m1 s1) as (F1 & A1 & _).
  destruct (lost_update opt0 opt1 new0 new1 (dm_with_source m0 s0) (dm_with_source m1 s1) (deref h p) s0 s1 r2 Hb)
    as (sched & r3 & cfg & c' & E3 & (own & Hd & _) & Hi & Hc & Hv); [by eexists|by eexists|by rewrite F0|by rewrite F1|exact V0''|exact V1''|].
  exists (replicate 3 0 ++ replicate 3 1 ++ sched), r3. eexists _, cfg. split_and!; [|exact Hd|done|].
  - rewrite race_run_app, E1. cbn [mbind option_bind]. rewrite race_run_app, E2. exact E3.
  - intros w raw. rewrite A1 in Hv. unfold client_accepts. rewrite Hi. by apply hooked_callbacks.
Qed.

(** [C29] DialWithMode and concurrency. When no other call uses a call's mode and
    its base configuration, then however the calls are interleaved, once it has reached
    tls.Dial or stopped it is as the call run alone: it dials with the same configuration,
    or stopped with the same error or panic. Two calls that share
    a mode without a source need not: there is an interleaving in which the first has
    created the source it will close, but its configuration reads the source of the
    second, so that once the second has closed its source no server is accepted. Nor need
    two calls with modes of their own that share a base configuration, which the hooks
    change in place: there is an interleaving in which the first dials with a
    configuration that checks servers against the bundle source and the authorizer of the
    second, and not at all against its own. *)
Theorem dials_own_their_mode :
  (∀ (modes : gmap nat mode) h dials sched r i ptr options m0 d network addr,
     race_run sched (start modes h dials) = Some r →
     dials !! i = Some (ptr, dial_options options, NewX509Source (dm_options m0)) → modes !! ptr = Some m0 →
     (∀ j dj, j ≠ i → dials !! j = Some dj → dj.1.1 ≠ ptr ∧ same_base dj.1.2 (dial_options options) = false) →
     r_dials r !! i = Some d → as_alone network addr m0 options h (d_pc d)) ∧
  (∀ (m0 : mode) h opt0 opt1 s0 s1,
     dm_sourceUnneeded m0 = false → dm_source m0 = None → dm_mode m0 = tlsClientMode ∨ dm_mode m0 = mtlsClientMode →
     ∃ sched r d cfg,
       race_run sched (start {[0%nat := m0]} h [(0%nat, opt0, Ok s0); (0%nat, opt1, Ok s1)]) = Some r ∧
       r_dials r !! 0%nat = Some d ∧ d_pc d = Dialing (Some s0) cfg ∧
       ∀ w raw, (∀ td, is_Ok (src_bundle s1 w td) = false) → client_accepts cfg w raw ≠ Ok ()) ∧
  (∀ (m0 m1 : mode) h opt0 opt1 p new0 new1 s0 s1,
     dc_baseTLSConf opt0 = Some p → dc_baseTLSConf opt1 = Some p →
     dm_mode m0 = tlsClientMode ∨ dm_mode m0 = mtlsClientMode → dm_mode m1 = tlsClientMode ∨ dm_mode m1 = mtlsClientMode →
     source_of m0 new0 = Ok s0 → source_of m1 new1 = Ok s1 →
     ∃ sched r d cfg,
       race_run sched (start {[0%nat := m0; 1%nat := m1]} h [(0%nat, opt0, new0); (1%nat, opt1, new1)]) = Some r ∧
       r_dials r !! 0%nat = Some d ∧ d_pc d = Dialing s0 cfg ∧
       ∀ w raw, client_accepts cfg w raw = Ok () ↔
         ∃ id certs, spiffe_accepts (dm_bundle (dm_with_source m1 s1)) (dm_authorizer m1) w raw id certs ∧
           base_accepts (deref h p) w raw certs).
Proof.
  split; [|split; [exact shared_mode|exact shared_base]].
  intros modes h dials sched r i ptr options m0 d network addr Hrun Hi Hm Hex Hd.
  pose proof (start_view modes h dials i ptr _ _ m0 Hi Hm) as Hv.
  assert (apart i ptr (dial_options options) (start modes h dials)) as Ha.
  { intros j dj Hj. cbn. rewrite list_lookup_fmap. destruct (dials !! j) as [y|] eqn:Hy; [|done]. intros [= <-]. by apply (Hex j y). }
  destruct (race_run_apart i ptr _ _ sched _ r _ m0 (base_conf h (dc_baseTLSConf (dial_options options))) Ha Hv)
    as (x & (own & Hdi & _) & Hp); [|done|].
  - unfold progress. cbn. by destruct (dc_baseTLSConf (dial_options options)).
  - rewrite Hd in Hdi. injection Hdi as ->. by apply progress_as_alone.
Qed.
End mode_race_properties.

(** ** Witness: source 1 has been closed *)
Definition race_TlsNet : TlsNet unit nat nat nat nat nat := {|
  NewX509Source opts := Ok (length opts);
  src_bundle s w td := if (s =? 1)%nat then Err (errors_New "source is closed") else sample_bundles w td;
  src_svid s := sample_svid_source;
  src_Close s := None;
  tls_Dial dialer network addr cfg := Ok 7%nat;
  conn_Close c := None;
  net_Listen network addr := inl 8%nat;
  lis_Close l := None;
|}.

Definition race_mode : dialMode unit nat nat := MTLSClient AuthorizeAny.
Definition race_base (p : conf_ptr) : list (DialOption nat) := [WithDialTLSConfigBase (Some p)].
Definition nobody : Authorizer := λ id certs, Err (errors_New "nobody").

(** Two calls with bases of their own, and whether the first gets to dial. *)
Definition race_start : race (W := unit) (Src := nat) (SrcOption := nat) (Dialer := nat) :=
  start {[0%nat := race_mode; 1%nat := race_mode]} ∅
    [(0%nat, dial_options (race_base 0), NewX509Source (TlsNet := race_TlsNet) (dm_options race_mode));
     (1%nat, dial_options (race_base 1), Ok 1%nat)].
Definition dials_after (sched : list nat) : bool :=
  match race_run (C := charset_deny) (N := race_TlsNet) sched race_start with
  | Some r => match r_dials r !! 0%nat with Some (mkDial _ _ _ _ (Dialing (Some 0%nat) _)) => true | _ => false end
  | None => false
  end.

Lemma dials_after_inv sched :
  dials_after sched = true →
  ∃ r md op nw ow cfg, race_run (C := charset_deny) (N := race_TlsNet) sched race_start = Some r ∧
    r_dials r !! 0%nat = Some (mkDial md op nw ow (Dialing (Some 0%nat) cfg)).
Proof.
  unfold dials_after. generalize (race_run (C := charset_deny) (N := race_TlsNet) sched race_start). intros [r|]; [|done].
  destruct (r_dials r !! 0%nat) as [[md op nw ow p]|] eqn:Hd; [|done].
  destruct p as [| | | | | | |[[|s]|] cfg|]; try done. intros _. by exists r, md, op, nw, ow, cfg.
Qed.

Lemma race_start_dials : dials_after (concat (replicate 19 [0; 1]%nat)) = true.
Proof. by vm_compute. Qed.

Lemma dials_own_their_mode_witness :
  (∃ cfg, Dialed cfg ∈ o_events (DialWithMode (C := charset_deny) (N := race_TlsNet) "tcp" "server:443" race_mode (race_base 0) ∅) ∧
     client_accepts cfg tt ["L"] = Ok ()) ∧
  (∃ cfg : Config unit, client_accepts cfg tt ["L"] ≠ Ok ()) ∧
  (∃ sched (r : race (W := unit) (Src := nat) (SrcOption := nat) (Dialer := nat)) d s cfg,
     race_run (C := charset_deny) (N := race_TlsNet) sched
       (start {[0%nat := MTLSClient nobody; 1%nat := race_mode]} ∅
         [(0%nat, dial_options (race_base 5), Ok 0%nat); (1%nat, dial_options (race_base 5), Ok 0%nat)]) = Some r ∧
     r_dials r !! 0%nat = Some d ∧ d_pc d = Dialing s cfg ∧ client_accepts cfg tt ["L"] = Ok ()).
Proof.
  assert (spiffe_accepts (C := charset_deny) (Some sample_bundles) AuthorizeAny tt ["L"] X509Svid.workload_id [[leafL; caA]]) as Hany.
  { split; vm_compute; reflexivity. }
  destruct (dials_own_their_mode (C := charset_deny) (N := race_TlsNet)) as (Hown & Hmode & Hbase). split_and!.
  - destruct (dials_after_inv _ race_start_dials) as (r & md & op & nw & ow & cfg & Hr & Hd).
    pose proof (Hown _ _ _ _ r 0%nat 0%nat (race_base 0) race_mode (mkDial md op nw ow (Dialing (Some 0%nat) cfg)) "tcp" "server:443" Hr eq_refl eq_refl) as Ha.
    assert (∀ j dj, j ≠ 0%nat →
      [(0%nat, dial_options (race_base 0), NewX509Source (TlsNet := race_TlsNet) (dm_options race_mode));
       (1%nat, dial_options (race_base 1), Ok 1%nat)] !! j = Some dj → dj.1.1 ≠ 0%nat ∧ same_base dj.1.2 (dial_options (race_base 0)) = false) as Hx.
    { intros [|[|j]] dj Hj Hdj; [by destruct Hj| |discriminate Hdj]. injection Hdj as <-. split; [discriminate|reflexivity]. }
    destruct (Ha Hx Hd) as [Hh Hin]. exists cfg. split; [exact Hin|].
    apply (dial_hook_accepts (dm_with_source (N := race_TlsNet) race_mode (Some 0%nat)) _ _ _ tt ["L"] (or_intror eq_refl) Hh). exists X509Svid.workload_id, [[leafL; caA]]. split; [exact Hany|]. by split.
  - destruct (Hmode race_mode ∅ (dial_options (race_base 0)) (dial_options (race_base 1)) 0%nat 1%nat eq_refl eq_refl (or_intror eq_refl))
      as (sched & r & d & cfg & _ & _ & _ & Hno). exists cfg. apply Hno. reflexivity.
  - destruct (Hbase (MTLSClient nobody) race_mode ∅ (dial_options (race_base 5)) (dial_options (race_base 5)) 5%nat (Ok 0%nat) (Ok 0%nat)
      (Some 0%nat) (Some 0%nat) eq_refl eq_refl (or_intror eq_refl) (or_intror eq_refl) eq_refl eq_refl)
      as (sched & r & d & cfg & Hr & Hd & Hpc & Hacc).
    exists sched, r, d, (Some 0%nat), cfg. split; [exact Hr|]. split; [exact Hd|]. split; [exact Hpc|]. apply Hacc.
    exists X509Svid.workload_id, [[leafL; caA]]. split; [exact Hany|]. by split.
Defined.
