(* ===== verification/GrpcCreds.v ===== *)
(** * spiffegrpc/grpccredentials: gRPC transport credentials

    Models src/spiffegrpc/grpccredentials/credentials.go. The TLS credentials of
    google.golang.org/grpc are represented by the configuration they are made from;
    the result of their handshake is an argument: a connection and its AuthInfo, a
    credentials.TLSInfo (whose SPIFFEID pointer may be nil) or another type. *)

From S2P Require Import Prelude Path GoUrl ID Match Crypto X509 X509Sample Pem BundleSet X509Bundle X509Svid TlsConfig SpiffeTls.

(** ** google.golang.org/grpc: what the code sees of it *)
Inductive AuthInfo : Type :=
  | TLSInfo (SPIFFEID : option URL)
  | other_AuthInfo (name : string).

Definition handshake (Conn : Type) : Type := (Conn * AuthInfo) + error.

(** A method call on a nil *url.URL dereferences it. *)
Definition url_pointer_String (u : option URL) : res string :=
  match u with None => Panic "nil pointer dereference" | Some u => Ok (URL_String u) end.

Section credentials.
Context {C : Charset} {L : X509Lib} {V : X509Verifier} {W Conn : Type}.

Record authInfoWrapper : Type := mkAuthInfoWrapper { aw_AuthInfo : AuthInfo; aw_peerID : ID.ID }.

Definition authInfo_PeerID (w : authInfoWrapper) : ID.ID * bool := (aw_peerID w, negb (ID_IsZero (aw_peerID w))).

(** The AuthInfo of a peer: wrapped by this package or not. *)
Inductive peer_AuthInfo : Type :=
  | wrapped_AuthInfo (w : authInfoWrapper)
  | foreign_AuthInfo (a : AuthInfo).

Definition PeerIDFromPeer (p : peer_AuthInfo) : ID.ID * bool :=
  match p with wrapped_AuthInfo w => authInfo_PeerID w | foreign_AuthInfo _ => (zero_ID, false) end.

Definition PeerIDFromContext (p : option peer_AuthInfo) : ID.ID * bool :=
  match p with None => (zero_ID, false) | Some p => PeerIDFromPeer p end.

(** [cw_config]: the configuration given to credentials.NewTLS. *)
Record credentialsWrapper : Type := mkCredentialsWrapper { cw_config : Config W; expectPeerID : bool }.

Inductive conn_event : Type := ConnClosed (c : Conn).

Definition wrapHandshake (w : credentialsWrapper) (h : handshake Conn) : res (Conn * authInfoWrapper) * list conn_event :=
  match h with
  | inr handshakeErr => (Err handshakeErr, [])
  | inl (conn, authInfo) =>
      match authInfo, expectPeerID w with
      | TLSInfo u, true =>
          match url_pointer_String u with
          | Panic why => (Panic why, [])
          | Err err => (Err err, [])
          | Ok text =>
              match FromString text with
              | Panic why => (Panic why, [])
              | Err err => (Err (fmt_Errorf "invalid peer SPIFFE ID: %w" [Arg_w (Some err)]), [ConnClosed conn])
              | Ok peerID => (Ok (conn, mkAuthInfoWrapper authInfo peerID), [])
              end
          end
      | _, _ => (Ok (conn, mkAuthInfoWrapper authInfo zero_ID), [])
      end
  end.

(** The handshakes of the wrapped credentials are arguments. *)
Definition ClientHandshake (w : credentialsWrapper) (h : Config W → handshake Conn) := wrapHandshake w (h (cw_config w)).
Definition ServerHandshake (w : credentialsWrapper) (h : Config W → handshake Conn) := wrapHandshake w (h (cw_config w)).

Definition Clone (w : credentialsWrapper) : credentialsWrapper := mkCredentialsWrapper (cw_config w) (expectPeerID w).

(** The other two methods of credentials.TransportCredentials; the wrapped credentials
    are changed behind the wrapper's interface. *)
Class TransportCredentials (W : Type) := {
  ProtocolInfo : Type;
  c_Info : Config W → ProtocolInfo;
  c_OverrideServerName : Config W → string → Config W * option error;
}.

Definition Info {TC : TransportCredentials W} (w : credentialsWrapper) : ProtocolInfo := c_Info (cw_config w).

Definition OverrideServerName {TC : TransportCredentials W} (w : credentialsWrapper) (serverName : string)
    : credentialsWrapper * option error :=
  let '(config, err) := c_OverrideServerName (cw_config w) serverName in
  (mkCredentialsWrapper config (expectPeerID w), err).

Definition TLSClientCredentials bundle authorizer opts : credentialsWrapper :=
  mkCredentialsWrapper (TLSClientConfig bundle authorizer opts) true.
Definition MTLSClientCredentials svid bundle authorizer opts : credentialsWrapper :=
  mkCredentialsWrapper (MTLSClientConfig svid bundle authorizer opts) true.
Definition MTLSWebClientCredentials svid roots opts : credentialsWrapper :=
  mkCredentialsWrapper (MTLSWebClientConfig svid roots opts) false.
Definition TLSServerCredentials svid opts : credentialsWrapper :=
  mkCredentialsWrapper (TLSServerConfig svid opts) false.
Definition MTLSServerCredentials svid bundle authorizer opts : credentialsWrapper :=
  mkCredentialsWrapper (MTLSServerConfig svid bundle authorizer opts) true.
Definition MTLSWebServerCredentials cert bundle authorizer opts : res credentialsWrapper :=
  let! config := MTLSWebServerConfig cert bundle authorizer opts in
  Ok (mkCredentialsWrapper config true).
End credentials.
Arguments credentialsWrapper W : clear implicits.

Section grpc_lemmas.
Context {C : Charset} {CL : CharsetLaws C} {L : X509Lib} {V : X509Verifier} {W Conn : Type} {TL : TlsLib (W := W)}.

(** The URI of the leaf that passed SPIFFE authentication gives its ID. *)
Lemma accepted_uri (b : bundle_source (W := W)) authorizer w raw id certs cs :
  spiffe_accepts b authorizer w raw id certs →
  forM (λ raw, of_lib (x509_ParseCertificate raw)) raw = Ok cs →
  ∃ leaf others uri, cs = leaf :: others ∧ URIs leaf = [uri] ∧ FromString (URL_String uri) = Ok id.
Proof.
  intros Hs Hcs. pose proof (peer_id_accepted _ _ _ _ _ _ _ Hs Hcs) as Hp.
  unfold PeerIDFromConnectionState in Hp. cbn [PeerCertificates] in Hp. destruct cs as [|leaf others]; [done|].
  apply wrap_err_Ok in Hp. unfold IDFromCert in Hp. destruct (URIs leaf) as [|uri [|? ?]] eqn:Hu; try done.
  by exists leaf, others, uri.
Qed.

Lemma FromString_not_zero s id : FromString s = Ok id → ID_IsZero id = false.
Proof. intros (td & path & Hp & _)%FromString_Ok. by eapply id_parts_not_zero. Qed.

(** The handshake of credentials that expect a peer ID, with a peer that was accepted. *)
Lemma accepted_handshake (cw : credentialsWrapper W) (b : bundle_source (W := W)) authorizer w raw id certs
    (conn : Conn) leaf others uri :
  expectPeerID cw = true → spiffe_accepts b authorizer w raw id certs →
  forM (λ raw, of_lib (x509_ParseCertificate raw)) raw = Ok (leaf :: others) → URIs leaf = [uri] →
  ∃ aw, wrapHandshake cw (inl (conn, TLSInfo (Some uri))) = (Ok (conn, aw), []) ∧
    PeerIDFromContext (Some (wrapped_AuthInfo aw)) = (id, true).
Proof.
  intros He Hs Hcs Huri. destruct (accepted_uri _ _ _ _ _ _ _ Hs Hcs) as (? & ? & uri' & [= <- <-] & Hu & Hid).
  rewrite Huri in Hu. injection Hu as <-. cbn. rewrite He. cbn. rewrite Hid. eexists. split; [done|].
  cbn. unfold authInfo_PeerID. cbn. by rewrite (FromString_not_zero _ _ Hid).
Qed.
End grpc_lemmas.

Section grpc_properties.
Context {C : Charset} {CL : CharsetLaws C} {L : X509Lib} {V : X509Verifier} {W Conn : Type} {TL : TlsLib (W := W)}.

(** wrapHandshake: a failed handshake is passed on; credentials that expect a peer
    ID return one exactly when the SPIFFEID of the TLSInfo parses, otherwise the
    connection is closed; the other credentials report no peer ID. The one case in which
    it panics is a TLSInfo without a SPIFFEID when a peer ID is expected. A foreign
    AuthInfo has no peer ID. *)
Theorem wrapHandshake_spec (w : credentialsWrapper W) (conn : Conn) info :
  (∀ err, wrapHandshake w (inr err) = (Err err, [] : list (conn_event (Conn := Conn)))) ∧
  (no_panic (wrapHandshake w (inl (conn, info))).1 = true ↔ ¬ (expectPeerID w = true ∧ info = TLSInfo None)) ∧
  (∀ conn' aw evs, wrapHandshake w (inl (conn, info)) = (Ok (conn', aw), evs) →
     conn' = conn ∧ evs = [] ∧ aw_AuthInfo aw = info ∧
     ∀ id, PeerIDFromPeer (wrapped_AuthInfo aw) = (id, true) ↔
       expectPeerID w = true ∧ ∃ u, info = TLSInfo (Some u) ∧ FromString (URL_String u) = Ok id) ∧
  (is_Err (wrapHandshake w (inl (conn, info))).1 = true →
     (wrapHandshake w (inl (conn, info))).2 = [ConnClosed conn]) ∧
  (∀ a, PeerIDFromPeer (foreign_AuthInfo a) = (zero_ID, false)).
Proof.
  split; [done|]. destruct info as [[u|]|name], (expectPeerID w) eqn:E; cbn; rewrite ?E; cbn.
  1: { pose proof (FromString_no_panic (URL_String u)) as Hnp. destruct (FromString (URL_String u)) as [id| |] eqn:Hu; [| |done].
    - split_and!; [split; [by intros _ [_ ?]|done]| |done|done].
      intros conn' aw evs [= <- <- <-]. split_and!; [done..|]. intros id'. unfold authInfo_PeerID. cbn [aw_peerID].
      rewrite (FromString_not_zero _ _ Hu). cbn. split.
      + intros [= <-]. split; [done|]. by exists u.
      + intros (_ & u' & [= <-] & Hid). congruence.
    - split_and!; [split; [by intros _ [_ ?]|done]|done|done|done]. }
  2: { split_and!; [split; [done|intros Hn; by destruct Hn]|done|done|done]. }
  all: split_and!; [split; [by intros _ [? ?]|done]| |done|done].
  all: intros conn' aw evs [= <- <- <-]; split_and!; [done..|]; intros id'; split;
    [done|by intros (? & u' & ? & _)].
Qed.

(** [C31] The six kinds of credentials of this package expect a peer ID exactly when
    their configuration authenticates the peer with SPIFFE, and then the ID reported is the
    ID that was authorized, when gRPC reports the URI of the peer's certificate: for the
    clients, the servers, and their clones. When gRPC reports no URI, which it may for the
    same certificate, their handshake panics; and so does the making of the web server's
    credentials exactly when its certificate is nil. *)
Theorem grpc_peer_id svid b authorizer roots cert opts (w : W) raw (conn : Conn) cs leaf others uri :
  forM (λ raw, of_lib (x509_ParseCertificate raw)) raw = Ok cs → cs = leaf :: others → URIs leaf = [uri] →
  let clients := [TLSClientCredentials b authorizer opts; MTLSClientCredentials svid b authorizer opts] in
  let web_server cw := MTLSWebServerCredentials cert b authorizer opts = Ok cw in
  (∀ cw, cw ∈ clients → client_accepts (cw_config cw) w raw = Ok () →
     ∃ id certs aw, spiffe_accepts b authorizer w raw id certs ∧
       ClientHandshake (Clone cw) (λ _, inl (conn, TLSInfo (Some uri))) = (Ok (conn, aw), []) ∧
       PeerIDFromContext (Some (wrapped_AuthInfo aw)) = (id, true)) ∧
  (∀ cw, cw = MTLSServerCredentials svid b authorizer opts ∨ web_server cw →
     server_accepts (cw_config cw) w raw = Ok () →
     ∃ id certs aw, spiffe_accepts b authorizer w raw id certs ∧
       ServerHandshake (Clone cw) (λ _, inl (conn, TLSInfo (Some uri))) = (Ok (conn, aw), []) ∧
       PeerIDFromContext (Some (wrapped_AuthInfo aw)) = (id, true)) ∧
  (∀ cw, cw ∈ clients ++ [MTLSWebClientCredentials svid roots opts; TLSServerCredentials svid opts;
       MTLSServerCredentials svid b authorizer opts] ∨ web_server cw →
     expectPeerID cw = match VerifyPeerCertificate (cw_config cw) with Some _ => true | None => false end) ∧
  (∀ cw, cw ∈ clients ++ [MTLSServerCredentials svid b authorizer opts] ∨ web_server cw →
     no_panic (ClientHandshake (Clone cw) (λ _, inl (conn, TLSInfo None))).1 = false ∧
     no_panic (ServerHandshake (Clone cw) (λ _, inl (conn, TLSInfo None))).1 = false) ∧
  match cert with
  | Some _ => ∃ cw, web_server cw
  | None => no_panic (MTLSWebServerCredentials cert b authorizer opts) = false
  end.
Proof.
  intros Hcs -> Huri clients web_server.
  assert (∀ cw, web_server cw → expectPeerID cw = true ∧ MTLSWebServerConfig cert b authorizer opts = Ok (cw_config cw)) as Hweb.
  { intros cw Hw. unfold web_server, MTLSWebServerCredentials in Hw. by destruct (MTLSWebServerConfig _ _ _ _); [injection Hw as <-|..]. }
  assert (∀ cw id certs, expectPeerID cw = true → spiffe_accepts b authorizer w raw id certs → ∃ aw,
    wrapHandshake (W := W) cw (inl (conn, TLSInfo (Some uri))) = (Ok (conn, aw), []) ∧
    PeerIDFromContext (Some (wrapped_AuthInfo aw)) = (id, true)) as Hwrap by (intros; by eapply accepted_handshake).
  split_and!.
  - intros cw Hin Hacc. unfold clients in Hin. rewrite !elem_of_cons, elem_of_nil in Hin.
    assert (∃ id certs, spiffe_accepts b authorizer w raw id certs) as (id & certs & Hs).
    { destruct Hin as [->|[->|[]]]; [apply client_hook_accepts in Hacc|apply mtls_client_hook_accepts in Hacc]; naive_solver. }
    destruct (Hwrap (Clone cw) id certs) as (aw & ? & ?); [by destruct Hin as [->|[->|[]]]|done|]. by exists id, certs, aw.
  - intros cw Hcw Hacc. assert (expectPeerID cw = true ∧ ∃ id certs, spiffe_accepts b authorizer w raw id certs) as (He & id & certs & Hs).
    { destruct Hcw as [->|[He Hc]%Hweb]; (split; [done|]);
        [apply mtls_server_accepts in Hacc|apply (mtls_web_server_accepts _ _ _ _ _ _ _ Hc) in Hacc]; naive_solver. }
    destruct (Hwrap (Clone cw) id certs) as (aw & ? & ?); [done..|]. by exists id, certs, aw.
  - intros cw [Hin|[-> Hc]%Hweb].
    + unfold clients in Hin. cbn in Hin. rewrite !elem_of_cons, elem_of_nil in Hin. by destruct Hin as [->|[->|[->|[->|[->|[]]]]]].
    + destruct cert; [injection Hc as <-; done|done].
  - intros cw Hin. assert (expectPeerID cw = true) as He.
    { destruct Hin as [Hin|[He _]%Hweb]; [|done]. unfold clients in Hin. cbn in Hin. rewrite !elem_of_cons, elem_of_nil in Hin.
      by destruct Hin as [->|[->|[->|[]]]]. }
    cbn. by rewrite He.
  - destruct cert; [by eexists|done].
Qed.

(** Overriding the server name, when all gRPC does is to set it in the configuration,
    changes neither whom the credentials accept nor whether they expect a peer ID. *)
Theorem override_keeps_authentication {TC : TransportCredentials W} (cw : credentialsWrapper W) serverName (w : W) raw :
  c_OverrideServerName (cw_config cw) serverName = (set_ServerName serverName (cw_config cw), None) →
  let '(cw', err) := OverrideServerName cw serverName in
  err = None ∧ expectPeerID cw' = expectPeerID cw ∧
  (InsecureSkipVerify (cw_config cw) = true → client_accepts (cw_config cw') w raw = client_accepts (cw_config cw) w raw).
Proof.
  intros Ho. unfold OverrideServerName. rewrite Ho. split_and!; [done..|]. intros Hi. unfold client_accepts. cbn. by rewrite Hi.
Qed.
End grpc_properties.

Lemma grpc_peer_id_witness :
  let reports (h : res (nat * authInfoWrapper) * list (conn_event (Conn := nat))) :=
    ∃ id aw, h = (Ok (5, aw), []) ∧ PeerIDFromContext (Some (wrapped_AuthInfo aw)) = (id, true) in
  reports (ClientHandshake (C := charset_deny) (TLSClientCredentials (C := charset_deny) (Some sample_bundles) AuthorizeAny [])
    (λ _, inl (5, TLSInfo (head (URIs leafL))))) ∧
  ∃ cw, MTLSWebServerCredentials (C := charset_deny) (W := unit) (Some (mkTlsCertificate [] None None)) (Some sample_bundles) AuthorizeAny []
      = Ok cw ∧
    reports (ServerHandshake (C := charset_deny) (Clone cw) (λ _, inl (5, TLSInfo (head (URIs leafL))))).
Proof.
  intros reports.
  destruct (grpc_peer_id (C := charset_deny) sample_svid_source (Some sample_bundles) AuthorizeAny None
    (Some (mkTlsCertificate [] None None)) [] tt ["L"] 5 [leafL] leafL [] (default url_zero (head (URIs leafL))))
    as (Hc & Hs & _ & _ & cw & Hcw); [by vm_compute..|]. split.
  - destruct (Hc (TLSClientCredentials (C := charset_deny) (Some sample_bundles) AuthorizeAny [])) as (id & certs & aw & _ & Hh & Hp).
    + by left.
    + by vm_compute.
    + exists id, aw. by split.
  - destruct (Hs cw) as (id & certs & aw & _ & Hh & Hp); [by right|injection Hcw as <-; by vm_compute|].
    exists cw. split; [done|]. exists id, aw. by split.
Defined.

Lemma wrapHandshake_spec_witness :
  let cw := TLSClientCredentials (C := charset_deny) (Some sample_bundles) AuthorizeAny [] in
  no_panic (wrapHandshake (C := charset_deny) cw (inl (5, TLSInfo None))).1 = false ∧
  (wrapHandshake (C := charset_deny) cw (inl (5, TLSInfo (Some url_zero)))).2 = [ConnClosed 5].
Proof.
  intros cw. split.
  - apply not_true_is_false. intros Hn.
    destruct (wrapHandshake_spec (C := charset_deny) cw 5 (TLSInfo None)) as (_ & Hp & _). by apply Hp in Hn as [].
  - destruct (wrapHandshake_spec (C := charset_deny) cw 5 (TLSInfo (Some url_zero))) as (_ & _ & _ & Hc & _).
    apply Hc. by vm_compute.
Defined.
