(* ===== verification/Federation.v ===== *)
(** * federation: fetching, serving and watching SPIFFE bundles

    Models src/federation: the fetch options and FetchBundle (fetch.go), the HTTP
    handler (handler.go) and WatchBundle (watch.go).

    net/http is a parameter where it does I/O: [http_Do] is the exchange of
    Client.Do for a GET request, under the TLS configuration of the transport and
    the state of the world [W] at that time. WatchBundle runs against a script with
    one round per iteration: the world of the fetch, the context's error after it,
    and whether the refresh timer or the context ends the wait. *)

From S2P Require Import Prelude Logger Path GoUrl ID Match Crypto X509 X509Sample Pem BundleSet X509Bundle Jose JwtBundle WitBundle SpiffeBundle X509Svid TlsConfig.

Definition wrapFederationErr (err : error) : error := fmt_Errorf "federation: %w" [Arg_w (Some err)].

(** ** net/http *)

(** A response: the certificates of the server when it came over TLS
    (Response.TLS), and what reading its body gives. *)
Record http_Response : Type := mkResponse {
  resp_StatusCode : Z;
  resp_TLS : option (list string);
  resp_Body : string + error;
}.

Class HttpLib (W : Type) := {
  DefaultTransport : option (option (Config W));   (* None: not an *http.Transport; else its TLSClientConfig *)
  NewRequest_error : string → option error;        (* http.NewRequestWithContext: a malformed URL *)
  http_Do : W → option (Config W) → string → http_Response + error;
}.

Inductive http_event : Type := BodyClosed.

(** ** fetch.go *)
Inductive authMethod : Type := authMethodDefault | authMethodSPIFFE | authMethodWebPKI.
#[export] Instance authMethod_eq_dec : EqDecision authMethod.
Proof. solve_decision. Defined.

Section fetch.
Context {C : Charset} {L : X509Lib} {V : X509Verifier} {J : JoseLib} {W : Type} {H : HttpLib W}.

Record fetchOptions : Type := mkFetchOptions {
  transport_TLSClientConfig : option (Config W);
  fo_authMethod : authMethod;
}.
Definition FetchOption : Type := fetchOptions → res fetchOptions.

Definition both_methods : error :=
  wrapFederationErr (errors_New "cannot use both SPIFFE and Web PKI authentication").

Definition WithSPIFFEAuth (bundleSource : bundle_source (W := W)) (endpointID : ID.ID) : FetchOption := λ o,
  if negb (bool_decide (fo_authMethod o = authMethodDefault)) then Err both_methods
  else Ok (mkFetchOptions (Some (TLSClientConfig bundleSource (AuthorizeID endpointID) [])) authMethodSPIFFE).

Definition web_pki_config (rootCAs : option CertPool) : Config W := set_RootCAs rootCAs newTLSConfig.

Definition WithWebPKIRoots (rootCAs : option CertPool) : FetchOption := λ o,
  if negb (bool_decide (fo_authMethod o = authMethodDefault)) then Err both_methods
  else Ok (mkFetchOptions (Some (web_pki_config rootCAs)) authMethodWebPKI).

Fixpoint apply_options (option : list FetchOption) (opts : fetchOptions) : res fetchOptions :=
  match option with
  | [] => Ok opts
  | o :: option => let! opts := o opts in apply_options option opts
  end.

(** The result, and the response bodies closed. *)
Definition FetchBundle (w : W) (trustDomain : TrustDomain) (url : string) (option : list FetchOption)
    : res Bundle * list http_event :=
  match DefaultTransport with
  | None => (Panic "interface conversion", [])
  | Some default_config =>
      match apply_options option (mkFetchOptions default_config authMethodDefault) with
      | Panic why => (Panic why, [])
      | Err err => (Err err, [])
      | Ok opts =>
          match NewRequest_error url with
          | Some err => (Err (wrapFederationErr (fmt_Errorf "could not create request: %w" [Arg_w (Some err)])), [])
          | None =>
              match http_Do w (transport_TLSClientConfig opts) url with
              | inr err => (Err (wrapFederationErr (fmt_Errorf "could not GET bundle: %w" [Arg_w (Some err)])), [])
              | inl response => (wrap_err wrapFederationErr (Read trustDomain (resp_Body response)), [BodyClosed])
              end
          end
      end
  end.
End fetch.
Arguments fetchOptions W : clear implicits.
Arguments FetchOption W : clear implicits.

(** ** handler.go *)

(** What the handler wrote to the http.ResponseWriter. *)
Record written : Type := mkWritten { w_status : Z; w_ContentType : string; w_body : string }.

Definition StatusOK : Z := 200.
Definition StatusMethodNotAllowed : Z := 405.
Definition StatusInternalServerError : Z := 500.

(** http.Error writes the text with a final newline. *)
Definition http_Error (msg : string) (status : Z) : written :=
  mkWritten status "text/plain; charset=utf-8" (msg +:+ newline).

Record handlerConfig : Type := mkHandlerConfig { hc_log : Logger }.
Definition HandlerOption : Type := handlerConfig → res handlerConfig.
Definition WithLogger (log : Logger) : HandlerOption := λ c, Ok (mkHandlerConfig log).

Section handler.
Context {J : JoseLib} {F : Fmt} {T : Type} {S : SpiffeBundle.Source T}.

(** The order in which Marshal visits the authorities of a bundle. *)
Definition map_orders : Type := Bundle → list (string * PublicKey) * list (string * PublicKey).

Definition unable_to_serve (td : TrustDomain) : string :=
  fmt_Sprintf "unable to serve bundle for %q" [Arg_s (name td)].

(** The function NewHandler returns: what it writes, and the log entries. *)
Definition serve (conf : handlerConfig) (trustDomain : TrustDomain) (source : T) (orders : map_orders) (Method : string)
    : res (written * list log_entry) :=
  if negb (bool_decide (Method = "GET")) then Ok (http_Error "method is not allowed" StatusMethodNotAllowed, [])
  else
    match SpiffeBundle.GetBundle source trustDomain with
    | Panic why => Panic why
    | Err err =>
        let! entries := Errorf (hc_log conf) "unable to get bundle for trust domain %q: %v"
                          [Arg_s (name trustDomain); Arg_v (Some err)] in
        Ok (http_Error (unable_to_serve trustDomain) StatusInternalServerError, entries)
    | Ok bundle =>
        match Marshal_in bundle (orders bundle).1 (orders bundle).2 with
        | Panic why => Panic why
        | Err err =>
            let! entries := Errorf (hc_log conf) "unable to marshal bundle for trust domain %q: %v"
                              [Arg_s (name trustDomain); Arg_v (Some err)] in
            Ok (http_Error (unable_to_serve trustDomain) StatusInternalServerError, entries)
        | Ok data => Ok (mkWritten StatusOK "application/json" data, [])
        end
    end.

Fixpoint configure_handler (opts : list HandlerOption) (conf : handlerConfig) : res handlerConfig :=
  match opts with
  | [] => Ok conf
  | opt :: opts => let! conf := opt conf in configure_handler opts conf
  end.

Definition NewHandler (trustDomain : TrustDomain) (source : T) (opts : list HandlerOption)
    : res (map_orders → string → res (written * list log_entry)) :=
  let! conf := wrap_err (λ err, fmt_Errorf "handler configuration is invalid: %w" [Arg_w (Some err)])
                 (configure_handler opts (mkHandlerConfig Null)) in
  Ok (serve conf trustDomain source).
End handler.

(** ** watch.go *)

(** A BundleWatcher with its own state; OnUpdate receives the pointer that the
    watch keeps, so it also gives the contents of the bundle after the call. *)
Record BundleWatcher (S : Type) : Type := mkBundleWatcher {
  NextRefresh : S → Z → S * Z;
  OnUpdate : S → Bundle → S * Bundle;
  OnError : S → error → S;
}.
Arguments mkBundleWatcher {S}.
Arguments NextRefresh {S} b.
Arguments OnUpdate {S} b.
Arguments OnError {S} b.

(** What WatchBundle does, in order. *)
Inductive watch_action : Type :=
  | NextRefresh_called (refreshHint nextRefresh : Z)
  | OnUpdate_called (b : Bundle)
  | OnError_called (err : error)
  | Timer_New (d : Z)
  | Timer_Reset (d : Z)
  | Timer_Stopped.

(** [r_ctx]: ctx.Err() once the fetch has returned; [r_waited]: None when the
    timer fires, Some (ctx.Err()) when the context is done first. *)
Record round (W : Type) : Type := mkRound { r_world : W; r_ctx : option error; r_waited : option error }.
Arguments mkRound {W}.
Arguments r_world {W} r.
Arguments r_ctx {W} r.
Arguments r_waited {W} r.

Definition context_Canceled : error := extern_error "context" "Canceled".

(** [err == context.Canceled]: an error of another call is another value. *)
Definition is_Canceled (err : option error) : bool :=
  match err with
  | Some (extern_error pkg name) => bool_decide (pkg = "context") && bool_decide (name = "Canceled")
  | _ => false
  end.

Definition zero_Bundle : Bundle := New zero_TrustDomain.

Section watch.
Context {C : Charset} {L : X509Lib} {V : X509Verifier} {J : JoseLib} {W : Type} {H : HttpLib W}.
Context {S : Type}.
Variables (trustDomain : TrustDomain) (url : string) (watcher : BundleWatcher S) (options : list (FetchOption W)).

(** The variables of the loop; [wv_timer]: the timer has been created. *)
Record watch_vars : Type := mkVars { wv_state : S; wv_latest : Bundle; wv_timer : bool }.

(** The switch on the outcome of the fetch; the result is an error to return. *)
Definition on_fetched (v : watch_vars) (ctx_Err : option error) (fetched : res Bundle)
    : res (watch_vars * list watch_action * option error) :=
  match fetched with
  | Panic why => Panic why
  | _ =>
      if is_Canceled ctx_Err then Ok (v, [], ctx_Err)
      else
        match fetched with
        | Panic why => Panic why
        | Err err => Ok (mkVars (OnError watcher (wv_state v) err) (wv_latest v) (wv_timer v), [OnError_called err], None)
        | Ok bundle =>
            let! eq := Equal (Some (wv_latest v)) (Some bundle) in
            if negb eq then
              let '(s, bundle') := OnUpdate watcher (wv_state v) bundle in
              Ok (mkVars s bundle' (wv_timer v), [OnUpdate_called bundle], None)
            else Ok (v, [], None)
        end
  end.

(** The refresh time and the timer. *)
Definition arm_timer (v : watch_vars) : watch_vars * list watch_action :=
  let '(refreshHint, ok) := RefreshHint (wv_latest v) in
  let hint := if ok then refreshHint else 0%Z in
  let '(s, nextRefresh) := NextRefresh watcher (wv_state v) hint in
  (mkVars s (wv_latest v) true,
   [NextRefresh_called hint nextRefresh; if wv_timer v then Timer_Reset nextRefresh else Timer_New nextRefresh]).

(** The deferred timer.Stop, once there is a timer. *)
Definition on_return (v : watch_vars) : list watch_action := if wv_timer v then [Timer_Stopped] else [].

(** The loop; the result is None while the watch is running. *)
Fixpoint watch_loop (script : list (round W)) (v : watch_vars) : res (list watch_action * option error) :=
  match script with
  | [] => Ok ([], None)
  | r :: script =>
      let! '(v, acts, result) := on_fetched v (r_ctx r) (FetchBundle (r_world r) trustDomain url options).1 in
      match result with
      | Some err => Ok (acts ++ on_return v, Some err)
      | None =>
          let '(v, acts') := arm_timer v in
          match r_waited r with
          | Some err => Ok (acts ++ acts' ++ on_return v, Some err)
          | None =>
              let! '(rest, result) := watch_loop script v in
              Ok (acts ++ acts' ++ rest, result)
          end
      end
  end.
End watch.
Arguments watch_vars S : clear implicits.

(** WatchBundle; the watcher is None when nil. *)
Definition WatchBundle {C : Charset} {L : X509Lib} {V : X509Verifier} {J : JoseLib} {W} {H : HttpLib W} {S}
    (script : list (round W)) (trustDomain : TrustDomain) (url : string) (watcher : option (BundleWatcher S))
    (s : S) (options : list (FetchOption W)) : res (list watch_action * option error) :=
  match watcher with
  | None => Ok ([], Some (wrapFederationErr (errors_New "watcher cannot be nil")))
  | Some watcher => watch_loop trustDomain url watcher options script (mkVars s zero_Bundle false)
  end.

(** ** Lemmas *)
Lemma Parse_loop_trustDomain `{JoseLib} keys b i b' : Parse_loop b i keys = Ok b' → SpiffeBundle.trustDomain b' = SpiffeBundle.trustDomain b.
Proof.
  revert b i; induction keys as [|key keys IH]; intros b i; cbn [Parse_loop]; [by intros [= <-]|].
  intros (b1 & Hb1 & Hl)%bind_Ok_inv. rewrite (IH _ _ Hl).
  unfold AddX509Authority, AddJWTAuthority, AddWITAuthority in Hb1. repeat case_match; res_inv; by repeat case_match; simplify_eq.
Qed.

Lemma Read_trustDomain `{JoseLib} td r b : Read td r = Ok b → SpiffeBundle.trustDomain b = td.
Proof.
  unfold Read, Parse. intros (bs & _ & (jwks & _ & Hp)%bind_Ok_inv)%bind_Ok_inv. case_match; [|done].
  rewrite (Parse_loop_trustDomain _ _ _ _ Hp). unfold Parse_header. by repeat case_match.
Qed.

Section fetch_lemmas.
Context {C : Charset} {L : X509Lib} {V : X509Verifier} {J : JoseLib} {W : Type} {H : HttpLib W}.

(** The two options there are, with the configuration each sets. *)
Inductive auth_option : FetchOption W → Config W → Prop :=
  | is_SPIFFEAuth b id : auth_option (WithSPIFFEAuth b id) (TLSClientConfig b (AuthorizeID id) [])
  | is_WebPKIRoots roots : auth_option (WithWebPKIRoots roots) (web_pki_config roots).

Lemma auth_option_first o cfg c :
  auth_option o cfg → ∃ m, m ≠ authMethodDefault ∧ o (mkFetchOptions c authMethodDefault) = Ok (mkFetchOptions (Some cfg) m).
Proof. destruct 1; eexists; (split; [|done]); done. Qed.

Lemma auth_option_second o cfg opts : auth_option o cfg → fo_authMethod opts ≠ authMethodDefault → o opts = Err both_methods.
Proof. destruct 1; intros Hm; unfold WithSPIFFEAuth, WithWebPKIRoots; by rewrite (bool_decide_eq_false_2 _ Hm). Qed.

Lemma apply_one o cfg c : auth_option o cfg → ∃ m, apply_options [o] (mkFetchOptions c authMethodDefault) = Ok (mkFetchOptions (Some cfg) m).
Proof. intros (m & _ & Ho)%(auth_option_first _ _ c). exists m. cbn [apply_options]. by rewrite Ho. Qed.

Lemma apply_two o1 o2 cfg1 cfg2 more c :
  auth_option o1 cfg1 → auth_option o2 cfg2 →
  apply_options (o1 :: o2 :: more) (mkFetchOptions c authMethodDefault) = Err both_methods.
Proof.
  intros (m & Hm & Ho)%(auth_option_first _ _ c) H2. cbn [apply_options]. rewrite Ho; cbn [mbind res_bind].
  by rewrite (auth_option_second _ _ _ H2).
Qed.

Lemma FetchBundle_Ok w td url options b evs :
  FetchBundle w td url options = (Ok b, evs) ↔
  ∃ c opts response, DefaultTransport = Some c ∧ apply_options options (mkFetchOptions c authMethodDefault) = Ok opts ∧
    NewRequest_error url = None ∧ http_Do w (transport_TLSClientConfig opts) url = inl response ∧
    Read td (resp_Body response) = Ok b ∧ evs = [BodyClosed].
Proof.
  unfold FetchBundle. split.
  - repeat case_match; intros [= Hr <-]; try done. apply wrap_err_Ok in Hr. naive_solver.
  - intros (c & opts & response & -> & -> & -> & -> & Hr & ->). f_equal. by apply wrap_err_Ok.
Qed.

Lemma wrap_FetchBundle w td url c response :
  DefaultTransport = Some c → NewRequest_error url = None → http_Do w c url = inl response →
  FetchBundle w td url [] = (wrap_err wrapFederationErr (Read td (resp_Body response)), [BodyClosed]).
Proof. unfold FetchBundle. intros -> -> Hd. cbn. by rewrite Hd. Qed.
End fetch_lemmas.

(** *** The watch *)
Definition same_bundle (b b' : Bundle) : bool :=
  match Equal (Some b) (Some b') with Ok eq => eq | _ => false end.

Lemma Equal_same b b' : Equal (Some b) (Some b') = Ok (same_bundle b b').
Proof. unfold same_bundle. by rewrite Equal_decides. Qed.

(** Equal is a partial equivalence that respects the refresh hint. *)
Lemma same_bundle_trans b1 b2 b3 : same_bundle b1 b2 = true → same_bundle b2 b3 = same_bundle b1 b3.
Proof.
  unfold same_bundle. rewrite !Equal_decides, bool_decide_eq_true. intros (-> & -> & -> & [-> ?] & [-> ?] & ->). done.
Qed.

Lemma same_bundle_hint b1 b2 : same_bundle b1 b2 = true → SpiffeBundle.refreshHint b1 = SpiffeBundle.refreshHint b2.
Proof. unfold same_bundle. rewrite Equal_decides, bool_decide_eq_true. by intros (_ & ? & _). Qed.

(** What the watcher is told, without the refresh times it answers. *)
Inductive told : Type := Told_update (b : Bundle) | Told_error (err : error) | Told_refresh (hint : Z).

Definition told_of (a : watch_action) : option told :=
  match a with
  | OnUpdate_called b => Some (Told_update b)
  | OnError_called err => Some (Told_error err)
  | NextRefresh_called hint _ => Some (Told_refresh hint)
  | _ => None
  end.
Definition answer_of (a : watch_action) : option Z :=
  match a with NextRefresh_called _ d => Some d | _ => None end.
Definition timer_of (a : watch_action) : option watch_action :=
  match a with Timer_New _ | Timer_Reset _ | Timer_Stopped => Some a | _ => None end.

(** The contract: per fetch, an update when the bundle differs from the one
    fetched before it, or the error; then the refresh hint of the last bundle
    fetched, zero when it has none. *)
Definition hint_of (b : Bundle) : Z := default 0%Z (SpiffeBundle.refreshHint b).

Fixpoint contract (previous : Bundle) (fetched : list (res Bundle)) : list told :=
  match fetched with
  | [] => []
  | Ok b :: fetched =>
      (if same_bundle previous b then [] else [Told_update b]) ++ Told_refresh (hint_of b) :: contract b fetched
  | Err err :: fetched => Told_error err :: Told_refresh (hint_of previous) :: contract previous fetched
  | Panic _ :: fetched => contract previous fetched
  end.

(** One timer, created for the first answer and reset for the others. *)
Definition timers_for (answers : list Z) : list watch_action :=
  match answers with [] => [] | d :: ds => Timer_New d :: (Timer_Reset <$> ds) end.

Section watch_lemmas.
Context {C : Charset} {L : X509Lib} {V : X509Verifier} {J : JoseLib} {W : Type} {H : HttpLib W} {S : Type}.
Context (td : TrustDomain) (url : string) (watcher : BundleWatcher S) (options : list (FetchOption W)).
Hypothesis leaves_bundle : ∀ s b, (OnUpdate watcher s b).2 = b.
Implicit Types (v : watch_vars S) (r : round W).

Definition outcome r : res Bundle := (FetchBundle (r_world r) td url options).1.
Definition goes_on r : Prop := is_Canceled (r_ctx r) = false ∧ r_waited r = None.

(** The loop holds the bundle fetched last, or one equal to it. *)
Definition holds v (previous : Bundle) : Prop := wv_latest v = previous ∨ same_bundle (wv_latest v) previous = true.

Lemma holds_same v previous b : holds v previous → same_bundle (wv_latest v) b = same_bundle previous b.
Proof. intros [->|Hs]; [done|]. symmetry. by apply same_bundle_trans. Qed.

Lemma holds_hint v previous : holds v previous → SpiffeBundle.refreshHint (wv_latest v) = SpiffeBundle.refreshHint previous.
Proof. intros [->|?]; [done|]. by apply same_bundle_hint. Qed.

Definition next_previous (previous : Bundle) (o : res Bundle) : Bundle :=
  match o with Ok b => b | _ => previous end.

Lemma on_fetched_spec v r previous :
  holds v previous → is_Canceled (r_ctx r) = false → no_panic (outcome r) = true →
  ∃ v' acts, on_fetched watcher v (r_ctx r) (outcome r) = Ok (v', acts, None) ∧
    holds v' (next_previous previous (outcome r)) ∧ wv_timer v' = wv_timer v ∧
    omap answer_of acts = [] ∧ omap timer_of acts = [] ∧
    contract previous [outcome r] = omap told_of acts ++ [Told_refresh (hint_of (next_previous previous (outcome r)))].
Proof.
  intros Hv Hc Hnp. unfold on_fetched. rewrite Hc. destruct (outcome r) as [b|err|]; [| |done].
  - rewrite Equal_same; cbn [mbind res_bind]. rewrite (holds_same _ _ _ Hv). cbn [contract next_previous].
    destruct (same_bundle previous b) eqn:E; cbn [negb].
    + eexists _, _. split; [done|]. split_and!; try done. right. by rewrite (holds_same _ _ _ Hv).
    + pose proof (leaves_bundle (wv_state v) b) as Hl. destruct (OnUpdate watcher (wv_state v) b) as [s b']. cbn in Hl; subst b'.
      eexists _, _. split; [done|]. split_and!; try done. by left.
  - by eexists _, _.
Qed.

Lemma arm_timer_spec v previous :
  holds v previous → ∃ v' d acts, arm_timer watcher v = (v', acts) ∧ holds v' previous ∧ wv_timer v' = true ∧
    omap told_of acts = [Told_refresh (hint_of previous)] ∧ omap answer_of acts = [d] ∧
    omap timer_of acts = [if wv_timer v then Timer_Reset d else Timer_New d].
Proof.
  intros Hv. unfold arm_timer, RefreshHint, hint_of. rewrite <- (holds_hint _ _ Hv).
  destruct (SpiffeBundle.refreshHint (wv_latest v)) as [h|];
    destruct (NextRefresh watcher (wv_state v) _) as [s d] eqn:E; eexists _, d, _; (split; [done|]);
    (split; [exact Hv|]); cbn; by destruct (wv_timer v).
Qed.

(** The timer actions of a loop entered with the timer created or not. *)
Definition more_timers (timer : bool) (answers : list Z) : list watch_action :=
  if timer then Timer_Reset <$> answers else timers_for answers.

Lemma more_timers_cons timer d ds :
  more_timers timer (d :: ds) = (if timer then Timer_Reset d else Timer_New d) :: more_timers true ds.
Proof. by destruct timer. Qed.

Lemma contract_cons previous o os :
  no_panic o = true → contract previous (o :: os) = contract previous [o] ++ contract (next_previous previous o) os.
Proof. destruct o; [| |done]; intros _; cbn [contract next_previous]; by rewrite <- ?app_assoc. Qed.

(** What a stretch of iterations did. *)
Record stretch (timer : bool) (previous : Bundle) (os : list (res Bundle)) (acts : list watch_action) : Prop := {
  st_told : omap told_of acts = contract previous os;
  st_timers : omap timer_of acts = more_timers timer (omap answer_of acts);
}.

Lemma stretch_nil timer previous : stretch timer previous [] [].
Proof. split; [done|by destruct timer]. Qed.

(** A stretch with nothing after it. *)
Lemma stretch_end t t' previous p' os acts :
  (∀ os' acts', stretch t' p' os' acts' → stretch t previous (os ++ os') (acts ++ acts')) → stretch t previous os acts.
Proof. intros Hst. rewrite <- (app_nil_r os), <- (app_nil_r acts). apply Hst, stretch_nil. Qed.

(** One iteration up to the wait. *)
Lemma iteration_spec v r previous :
  holds v previous → is_Canceled (r_ctx r) = false → no_panic (outcome r) = true →
  ∃ v1 v2 acts1 acts2, on_fetched watcher v (r_ctx r) (outcome r) = Ok (v1, acts1, None) ∧
    arm_timer watcher v1 = (v2, acts2) ∧ holds v2 (next_previous previous (outcome r)) ∧ wv_timer v2 = true ∧
    ∀ os acts, stretch true (next_previous previous (outcome r)) os acts →
      stretch (wv_timer v) previous (outcome r :: os) (acts1 ++ acts2 ++ acts).
Proof.
  intros Hv Hc Hnp. destruct (on_fetched_spec v r previous Hv Hc Hnp) as (v1 & acts1 & E1 & Hv1 & Ht1 & Ha1 & Hm1 & Hc1).
  destruct (arm_timer_spec v1 _ Hv1) as (v2 & d & acts2 & E2 & Hv2 & Ht2 & Htold & Hans & Htim).
  exists v1, v2, acts1, acts2. split_and!; try done. intros os acts [H1 H2]. split.
  - rewrite contract_cons, Hc1, !omap_app, Htold, H1 by done. by rewrite <- app_assoc.
  - rewrite !omap_app, Ha1, Hm1, Hans, Htim, H2, Ht1. cbn [app]. by rewrite more_timers_cons.
Qed.

Lemma watch_loop_goes_on rs v previous script :
  holds v previous → Forall goes_on rs → Forall (λ r, no_panic (outcome r) = true) rs →
  ∃ v' acts, watch_loop td url watcher options (rs ++ script) v =
      (let! '(rest, result) := watch_loop td url watcher options script v' in Ok (acts ++ rest, result)) ∧
    holds v' (foldl next_previous previous (outcome <$> rs)) ∧
    wv_timer v' = (wv_timer v || negb (bool_decide (rs = []))) ∧
    ∀ os acts', stretch (wv_timer v') (foldl next_previous previous (outcome <$> rs)) os acts' →
      stretch (wv_timer v) previous ((outcome <$> rs) ++ os) (acts ++ acts').
Proof.
  revert v previous; induction rs as [|r rs IH]; intros v previous Hv Hg Hn.
  - exists v, []. split_and!; try done; [|by rewrite orb_false_r].
    cbn [app]. destruct (watch_loop _ _ _ _ script v) as [[? ?]| |]; done.
  - apply Forall_cons in Hg as [[Hc Hw] Hg]. apply Forall_cons in Hn as [Hn0 Hn].
    destruct (iteration_spec v r previous Hv Hc Hn0) as (v1 & v2 & acts1 & acts2 & E1 & E2 & Hv2 & Ht2 & Hst).
    destruct (IH v2 _ Hv2 Hg Hn) as (v' & acts & E & Hv' & Ht' & Hst').
    exists v', (acts1 ++ acts2 ++ acts). split_and!.
    + cbn [app watch_loop]. fold (outcome r). rewrite E1; cbn [mbind res_bind]. rewrite E2, Hw, E.
      destruct (watch_loop _ _ _ _ script v') as [[? ?]| |]; [|done..]. cbn [mbind res_bind]. by rewrite <- !app_assoc.
    + done.
    + rewrite Ht', Ht2. cbn. by rewrite orb_true_r.
    + intros os acts' Hs. cbn [fmap list_fmap app]. rewrite <- !app_assoc. apply Hst. rewrite Ht2 in Hst'. by apply Hst'.
Qed.
End watch_lemmas.

Section federation_properties.
Context {C : Charset} {L : X509Lib} {V : X509Verifier} {J : JoseLib} {W : Type} {H : HttpLib W}.

(** [C19] WatchBundle keeps the contract of BundleWatcher, for a watcher that leaves the
    bundles it is given alone. As long as the timer fires first and the context is not
    cancelled it keeps fetching; the watcher is told of each bundle that differs from
    the one fetched before it and of each error, then asked for the next refresh with
    the hint of the last bundle fetched. The first round that finds the context
    cancelled after the fetch (whose outcome is then dropped) or done in the wait ends
    the watch with the context's error and the timer stopped; the rounds after it are
    never run. There is one timer, created once and reset with each answer. *)
Theorem WatchBundle_contract {S} (watcher : BundleWatcher S) s td url options (rs rest : list (round W)) (r : round W) :
  (∀ s b, (OnUpdate watcher s b).2 = b) →
  Forall goes_on rs → Forall (λ r, no_panic (outcome td url options r) = true) (rs ++ [r]) →
  let fetched := outcome td url options in
  let cancelled := is_Canceled (r_ctx r) in
  let seen := fetched <$> if cancelled then rs else rs ++ [r] in
  (∃ acts, WatchBundle rs td url (Some watcher) s options = Ok (acts, None) ∧
     omap told_of acts = contract zero_Bundle (fetched <$> rs) ∧
     omap timer_of acts = timers_for (omap answer_of acts)) ∧
  (cancelled = true ∨ is_Some (r_waited r) →
   ∃ acts, WatchBundle (rs ++ r :: rest) td url (Some watcher) s options =
       Ok (acts, if cancelled then r_ctx r else r_waited r) ∧
     omap told_of acts = contract zero_Bundle seen ∧
     omap timer_of acts = timers_for (omap answer_of acts) ++ (if seen is [] then [] else [Timer_Stopped])) ∧
  WatchBundle (rs ++ r :: rest) td url (None : option (BundleWatcher S)) s options =
    Ok ([], Some (wrapFederationErr (errors_New "watcher cannot be nil"))).
Proof.
  intros Hw Hg [Hn Hnr]%Forall_app fetched cancelled seen.
  assert (no_panic (fetched r) = true) as Hnp by exact (proj1 (Forall_singleton _ _) Hnr). split_and!; [| |done].
  - destruct (watch_loop_goes_on td url watcher options Hw rs (mkVars s zero_Bundle false) zero_Bundle []
      (or_introl eq_refl) Hg Hn) as (v' & acts & E & _ & _ & Hst).
    apply stretch_end in Hst as [Ht Hm]. rewrite app_nil_r in E.
    exists acts. split; [|split; [exact Ht|exact Hm]]. unfold WatchBundle. rewrite E. cbn [watch_loop mbind res_bind]. by rewrite app_nil_r.
  - intros Hend.
    destruct (watch_loop_goes_on td url watcher options Hw rs (mkVars s zero_Bundle false) zero_Bundle (r :: rest)
      (or_introl eq_refl) Hg Hn) as (v' & acts & E & Hv' & Ht' & Hst).
    unfold WatchBundle. rewrite E. unfold cancelled in *. destruct (is_Canceled (r_ctx r)) eqn:Hc.
    + apply stretch_end in Hst as [Ht Hm].
      destruct (r_ctx r) as [err|] eqn:Hctx; [|done].
      assert (on_fetched watcher v' (r_ctx r) (fetched r) = Ok (v', [], Some err)) as Ho.
      { unfold on_fetched. rewrite Hctx, Hc. by destruct (fetched r). }
      cbn [watch_loop]. fold (outcome td url options r). fold fetched. rewrite <- Hctx, Ho. cbn [mbind res_bind app].
      eexists. split; [by rewrite Hctx|]. rewrite !omap_app, Ht, Hm. unfold on_return. rewrite Ht'. cbn [wv_timer orb].
      unfold seen. by destruct rs; cbn; rewrite !app_nil_r.
    + destruct Hend as [|[err Herr]]; [done|].
      destruct (iteration_spec td url watcher options Hw v' r _ Hv' Hc Hnp) as (v1 & v2 & a1 & a2 & E1 & E2 & _ & Ht2 & Hst2).
      destruct (Hst _ _ (Hst2 [] [] (stretch_nil _ _))) as [Ht Hm]. rewrite (app_nil_r a2) in Ht, Hm.
      cbn [watch_loop]. fold (outcome td url options r). rewrite E1. cbn [mbind res_bind]. rewrite E2, Herr.
      eexists. split; [done|]. unfold on_return. rewrite Ht2. rewrite !app_assoc, (omap_app _ _ [Timer_Stopped]), (omap_app _ _ [Timer_Stopped]),
        (omap_app _ _ [Timer_Stopped]), <- !app_assoc, Ht, Hm. cbn. rewrite !app_nil_r. unfold seen. rewrite fmap_app.
      split; [done|]. by destruct rs.
Qed.

(** A TLS connection of the HTTP client passed the checks of its configuration. *)
Definition http_authenticates {TL : TlsLib (W := W)} : Prop := ∀ w cfg url response raw,
  http_Do w (Some cfg) url = inl response → resp_TLS response = Some raw → client_accepts cfg w raw = Ok ().

(** [C21] FetchBundle with a second authentication option fails before any request. With
    SPIFFE authentication, a bundle is returned only for the requested trust domain, from a
    body that was closed, and when the response came over TLS, from a server whose leaf
    certificate has the endpoint's ID and chains to an authority of the bundle that the
    source has for the endpoint's trust domain; with Web PKI roots, from a server
    verified against those roots. Nothing else of the response is looked at: whatever its
    status and even without TLS, the result is what its body parses to. *)
Theorem fetch_authenticated {CL : CharsetLaws C} {VL : VerifierLaws V} {TL : TlsLib (W := W)} (w : W) td url
    (b : W → TrustDomain → res X509Bundle.Bundle) endpointID roots :
  http_authenticates → (∀ td bundle, b w td = Ok bundle → X509Bundle.trustDomain bundle = td) → is_Some DefaultTransport →
  (∀ o1 o2 cfg1 cfg2 more, auth_option o1 cfg1 → auth_option o2 cfg2 →
     FetchBundle w td url (o1 :: o2 :: more) = (Err both_methods, [])) ∧
  (∀ o cfg bundle evs, auth_option o cfg → FetchBundle w td url [o] = (Ok bundle, evs) →
     SpiffeBundle.trustDomain bundle = td ∧ evs = [BodyClosed] ∧
     ∃ response, http_Do w (Some cfg) url = inl response ∧ Read td (resp_Body response) = Ok bundle ∧
     ∀ raw, resp_TLS response = Some raw →
       (o = WithSPIFFEAuth (Some b) endpointID → cfg = TLSClientConfig (Some b) (AuthorizeID endpointID) [] →
          ∃ leaf others td' xb certs, forM (λ raw, of_lib (x509_ParseCertificate raw)) raw = Ok (leaf :: others) ∧
            IDFromCert leaf = Ok endpointID ∧ ID_TrustDomain endpointID = Ok td' ∧ b w td' = Ok xb ∧ certs ≠ [] ∧
            Forall (λ chain, head chain = Some leaf ∧
              ∃ root, last chain = Some root ∧ X509Bundle.HasX509Authority xb root = true) certs) ∧
       (cfg = web_pki_config roots → ∃ verified, default_verify roots w raw = inl verified)) ∧
  (∀ o cfg status tls body, auth_option o cfg → NewRequest_error url = None →
     http_Do w (Some cfg) url = inl (mkResponse status tls body) →
     FetchBundle w td url [o] = (wrap_err wrapFederationErr (Read td body), [BodyClosed])).
Proof.
  intros Hlaw Hb [c Hc]. split_and!.
  - intros o1 o2 cfg1 cfg2 more H1 H2. unfold FetchBundle. by rewrite Hc, (apply_two _ _ _ _ _ _ H1 H2).
  - intros o cfg bundle evs Ho (c' & opts & response & Hc' & Ha & _ & Hd & Hr & ->)%FetchBundle_Ok.
    destruct (apply_one _ _ c' Ho) as [m Hm]. rewrite Hm in Ha. injection Ha as <-. cbn in Hd.
    split_and!; [by eapply Read_trustDomain|done|]. exists response. split_and!; [done..|].
    intros raw Hraw. pose proof (Hlaw _ _ _ _ _ Hd Hraw) as Hacc. split.
    + intros -> ->. apply (client_hook_accepts _ _ _ []) in Hacc as (id & certs & Hs & _).
      pose proof Hs as [_ Hid]. apply MatchID_accepts in Hid as ->.
      apply spiffe_accepts_sound in Hs as (leaf & others & td' & path & xb & ? & ? & Hp & ? & ? & ?); [|done].
      exists leaf, others, td', xb, certs. split_and!; try done. by eapply id_parts_TrustDomain.
    + intros ->. unfold client_accepts in Hacc. cbn in Hacc. apply bind_Ok_inv in Hacc as (v & Hv & _).
      exists v. destruct (default_verify roots w raw) eqn:E; by simplify_eq/=.
  - intros o cfg status tls body Ho Hu Hd. unfold FetchBundle. rewrite Hc.
    destruct (apply_one _ _ c Ho) as [m ->]. rewrite Hu. cbn. by rewrite Hd.
Qed.

(** [C33] The handler and FetchBundle fit together: for the source's bundle of the trust
    domain the handler answers a GET with the JSON document, and a client that gets that
    answer has the bundle, its refresh hint rounded to seconds (an empty bundle is served
    but refused by the client). Other methods are answered 405 without asking the source;
    an error is answered 500 and logged. *)
Theorem served_bundle_fetched {JL : JoseLaws J} {F : Fmt} {T} {Src : SpiffeBundle.Source T}
    td (source : T) log (orders : map_orders) handler :
  log ≠ nil_logger → NewHandler td source [WithLogger log] = Ok handler →
  (∀ Method, Method ≠ "GET" → ∃ text, handler orders Method = Ok (mkWritten 405 "text/plain; charset=utf-8" text, [])) ∧
  (∀ err, SpiffeBundle.GetBundle source td = Err err →
     ∃ text, handler orders "GET" = Ok (mkWritten 500 "text/plain; charset=utf-8" text,
       logs log ERROR "unable to get bundle for trust domain %q: %v" [Arg_s (name td); Arg_v (Some err)])) ∧
  (∀ b, SpiffeBundle.GetBundle source td = Ok b → SpiffeBundle.trustDomain b = td → portable b →
     range_of (jwtAuthorities b) (orders b).1 → range_of (witAuthorities b) (orders b).2 →
     (∃ text err, handler orders "GET" = Ok (mkWritten 500 "text/plain; charset=utf-8" text,
        logs log ERROR "unable to marshal bundle for trust domain %q: %v" [Arg_s (name td); Arg_v (Some err)])) ∨
     ∃ body, handler orders "GET" = Ok (mkWritten 200 "application/json" body, []) ∧
       ∀ (w : W) url status tls, is_Some DefaultTransport → NewRequest_error url = None →
         (∀ cfg, http_Do w cfg url = inl (mkResponse status tls (inl body))) →
         (FetchBundle w td url []).1 =
           if Empty b then Err (wrapFederationErr (wrapSpiffebundleErr (errors_New "no authorities found")))
           else Ok (with_hint b ((λ h, hint_duration (hint_seconds h)) <$> refreshHint b))).
Proof.
  intros Hlog [= <-]. split_and!.
  - intros Method Hne. unfold serve. rewrite bool_decide_eq_false_2 by done. by eexists.
  - intros err He. unfold serve. cbn. rewrite He, (Errorf_logs log) by done. by eexists.
  - intros b Hb Htd Hp Hj Hw. unfold serve. cbn. rewrite Hb.
    destruct (Marshal_in b (orders b).1 (orders b).2) as [data|err|] eqn:Hm.
    + right. exists data. split; [done|]. intros w url status tls [c Hc] Hu Hd.
      rewrite (wrap_FetchBundle w td url c _ Hc Hu (Hd c)). cbn [fst]. unfold Read. cbn [resp_Body of_lib wrap_err mbind res_bind].
      subst td. rewrite (Marshal_in_Parse b _ _ _ Hp Hj Hw Hm). by destruct (Empty b).
    + left. rewrite (Errorf_logs log) by done. by eexists _, _.
    + unfold Marshal_in in Hm. by destruct (json_Marshal_bundleDoc _).
Qed.
End federation_properties.

(** ** Witnesses *)
Definition sample_body : string := match SpiffeBundle.Marshal sample_spiffe_bundle with Ok bytes => bytes | _ => "" end.

(** A server with the certificate of the samples, and one whose body is the state of the world. *)
#[export] Instance sample_HttpLib : HttpLib unit := {|
  DefaultTransport := Some None;
  NewRequest_error url := None;
  http_Do w cfg url :=
    match cfg with
    | None => inl (mkResponse 200 None (inl sample_body))
    | Some cfg =>
        match client_accepts cfg w ["L"] with
        | Ok _ => inl (mkResponse 200 (Some ["L"]) (inl sample_body))
        | _ => inr (extern_error "net/http" "Get: bad certificate")
        end
    end;
|}.
#[export] Instance body_HttpLib : HttpLib string := {|
  DefaultTransport := Some None;
  NewRequest_error url := None;
  http_Do w cfg url := inl (mkResponse 200 None (inl w));
|}.

Definition sample_watcher : BundleWatcher nat :=
  mkBundleWatcher (λ s hint, (S s, hint)) (λ s b, (S s, b)) (λ s err, S s).

Lemma WatchBundle_contract_witness :
  let r w := mkRound w None None in
  ∃ acts, WatchBundle (C := charset_deny) [r sample_body; r "x"; r sample_body; mkRound "" (Some context_Canceled) None]
      (mkTrustDomain "example.org") "" (Some sample_watcher) 0 [] = Ok (acts, Some context_Canceled) ∧
    length (omap timer_of acts) = 4 ∧ length (filter (λ a, is_Some (told_of a)) acts) = 5.
Proof.
  intros r.
  destruct (WatchBundle_contract (C := charset_deny) sample_watcher 0 (mkTrustDomain "example.org") "" []
    [r sample_body; r "x"; r sample_body] [] (mkRound "" (Some context_Canceled) None)) as (_ & Hend & _).
  - done.
  - repeat constructor.
  - repeat (constructor; [by vm_compute|]). constructor.
  - destruct (Hend (or_introl eq_refl)) as (acts & Hrun & _). exists acts. split; [exact Hrun|].
    vm_compute in Hrun. injection Hrun as <-. by split.
Defined.

Lemma sample_http_authenticates : http_authenticates (H := sample_HttpLib).
Proof.
  intros [] cfg url response raw. cbn [http_Do sample_HttpLib].
  destruct (client_accepts cfg () ["L"]) as [[]| |] eqn:E; [|done..]. intros [= <-] [= <-]. done.
Qed.

Lemma fetch_authenticated_witness :
  ∃ bundle leaf, (FetchBundle () (mkTrustDomain "example.org") "https://example.org/bundle"
      [WithSPIFFEAuth (C := charset_deny) (Some sample_bundles) workload_id]).1 = Ok bundle ∧
    SpiffeBundle.trustDomain bundle = mkTrustDomain "example.org" ∧ IDFromCert (C := charset_deny) leaf = Ok workload_id.
Proof.
  destruct (FetchBundle () (mkTrustDomain "example.org") "https://example.org/bundle"
    [WithSPIFFEAuth (C := charset_deny) (Some sample_bundles) workload_id]) as [[bundle| |] evs] eqn:E; try (by vm_compute in E).
  destruct (fetch_authenticated (C := charset_deny) () (mkTrustDomain "example.org") "https://example.org/bundle" sample_bundles workload_id None
    sample_http_authenticates (sample_bundles_ok ()) (mk_is_Some _ _ eq_refl)) as (_ & Hok & _).
  destruct (Hok _ _ bundle evs (is_SPIFFEAuth (Some sample_bundles) workload_id) E) as (Htd & _ & response & Hd & _ & Htls).
  vm_compute in Hd. destruct (Htls ["L"]) as [Hs _]; [by injection Hd as <-|].
  destruct (Hs eq_refl eq_refl) as (leaf & _ & _ & _ & _ & _ & Hid & _). by exists bundle, leaf.
Defined.

Lemma served_bundle_fetched_witness :
  let td := mkTrustDomain "example.org" in
  let orders b := (map_to_list (jwtAuthorities b), map_to_list (witAuthorities b)) in
  ∃ handler body, NewHandler (F := λ format _, format) td sample_spiffe_bundle [WithLogger (other_logger "log")] = Ok handler ∧
    handler orders "GET" = Ok (mkWritten 200 "application/json" body, []) ∧
    (FetchBundle body td "" []).1 = Ok (SetRefreshHint sample_spiffe_bundle 2000000000).
Proof.
  intros td orders.
  destruct (served_bundle_fetched (H := body_HttpLib) (F := λ format _, format) td sample_spiffe_bundle
    (other_logger "log") orders _ ltac:(done) eq_refl) as (_ & _ & Hserve).
  destruct (Hserve sample_spiffe_bundle) as [(text & err & Hbad)|(body & Hget & Hfetch)].
  - by vm_compute.
  - done.
  - apply sample_spiffe_portable.
  - apply range_of_map_to_list.
  - apply range_of_map_to_list.
  - by vm_compute in Hbad.
  - eexists _, body. split; [done|]. split; [exact Hget|].
    rewrite (Hfetch body "" 200%Z None (mk_is_Some _ _ eq_refl) eq_refl (λ cfg, eq_refl)). by vm_compute.
Defined.
