(* ===== verification/FakeEndpoint.v ===== *)
(** * internal/test/fakebundleendpoint: a bundle endpoint for tests

    Models src/internal/test/fakebundleendpoint/server.go and CreateWebCredentials of
    src/internal/test/ca.go: an HTTPS server that gives each of its bundles once, and the
    client of Federation.v against it. The listener and the dispatch of net/http are left
    out: a request is a call of [testbundle]. *)

From S2P Require Import Prelude Logger Path GoUrl ID Match Crypto X509 X509Sample Pem BundleSet X509Bundle Jose JwtBundle WitBundle SpiffeBundle X509Svid Jwt JwtSvid Client FakeApi TestCA TlsConfig Federation.

Definition localhostIPs : list string := ["127.0.0.1"; "::1"].
Definition StatusNotFound : Z := 404.

Record Server (W : Type) : Type := mkServer {
  rootCAs : CertPool;                  (* to verify the server with *)
  tlscfg : Config W;
  bundles : list SpiffeBundle.Bundle;  (* to be returned *)
}.
Arguments mkServer {W}.
Arguments rootCAs {W} s.
Arguments tlscfg {W} s.
Arguments bundles {W} s.

Section endpoint.
Context {C : Charset} {L : X509Lib} {V : X509Verifier} {J : JoseLib} {F : Fmt} {W : Type}.

Definition CreateWebCredentials {R} {CA_ : CALib R} : gen R (CertPool * tls_Certificate) :=
  gen! '(rootCert, rootKey) := CreateCACertificate None [] in
  gen! '(childCert, childKey) := CreateX509Certificate rootCert rootKey [WithIPAddresses localhostIPs] in
  gen_ret (NewCertPool [rootCert], mkTlsCertificate [Raw childCert] (Some childKey) None).

Definition ServerOption : Type := Server W → Server W.

Definition WithTestBundles (bs : list SpiffeBundle.Bundle) : ServerOption := λ s, mkServer (rootCAs s) (tlscfg s) bs.

Definition WithSPIFFEAuth (bundle : SpiffeBundle.Bundle) (svid : X509Svid.SVID) : ServerOption := λ s,
  mkServer (NewCertPool (SpiffeBundle.X509Authorities bundle)) (TLSServerConfig (λ _, Ok svid) []) (bundles s).

Definition New {R} {CA_ : CALib R} (option : list ServerOption) : gen R (Server W) :=
  gen! '(rootCAs, cert) := CreateWebCredentials in
  let tlscfg := set_Certificates [cert] newTLSConfig in
  gen_ret (foldl (λ s opt, opt s) (mkServer rootCAs tlscfg []) option).

Definition FetchBundleURL (addr : string) : string := fmt_Sprintf "https://%s/test-bundle" [Arg_s addr].

(** The handler: what it writes, and whether it has failed the test. *)
Definition testbundle (orders : map_orders) (s : Server W) : Server W * written * bool :=
  match bundles s with
  | [] => (s, mkWritten StatusNotFound "" "", false)
  | bundle :: rest =>
      let '(bb, failed) := assert_NoError (Marshal_in bundle (orders bundle).1 (orders bundle).2) in
      (mkServer (rootCAs s) (tlscfg s) rest, mkWritten StatusOK "application/json" bb, failed)
  end.

(** What so many requests, one after the other, are answered. *)
Fixpoint answers (orders : map_orders) (s : Server W) (n : nat) : list written :=
  match n with
  | O => []
  | S n => let '(s, answer, _) := testbundle orders s in answer :: answers orders s n
  end.

(** ** The client *)
Definition readable (orders : map_orders) (b : SpiffeBundle.Bundle) : Prop :=
  portable b ∧ range_of (jwtAuthorities b) (orders b).1 ∧ range_of (witAuthorities b) (orders b).2 ∧
  SpiffeBundle.Empty b = false ∧ is_Ok (Marshal_in b (orders b).1 (orders b).2) = true.

(** The bundle as it is read from its document. *)
Definition as_read (b : SpiffeBundle.Bundle) : SpiffeBundle.Bundle :=
  with_hint b ((λ h, hint_duration (hint_seconds h)) <$> refreshHint b).

Lemma answers_all orders s n k :
  answers orders s (n + k) = answers orders s n ++
    answers orders (mkServer (rootCAs s) (tlscfg s) (drop n (bundles s))) k.
Proof.
  revert s; induction n as [|n IH]; intros s; [by destruct s|]. cbn [answers Nat.add]. unfold testbundle.
  destruct s as [roots cfg bs]; cbn [bundles rootCAs tlscfg]. destruct bs as [|b bs].
  - rewrite IH. cbn [bundles rootCAs tlscfg]. by rewrite !drop_nil.
  - destruct (assert_NoError _) as [bb failed]. rewrite IH. done.
Qed.

Lemma answers_empty orders s n : bundles s = [] → answers orders s n = replicate n (mkWritten StatusNotFound "" "").
Proof. intros Hb. induction n as [|n IH]; [done|]. cbn [answers]. unfold testbundle. rewrite Hb. cbn. by rewrite IH. Qed.

Lemma answers_length orders s n : length (answers orders s n) = n.
Proof. revert s; induction n as [|n IH]; intros s; [done|]. cbn [answers]. destruct (testbundle orders s) as [[s' a] f]. cbn. by rewrite IH. Qed.

Lemma answers_bundles {JL : JoseLaws J} orders s :
  Forall (readable orders) (bundles s) →
  Forall2 (λ a b, w_status a = StatusOK ∧ SpiffeBundle.Parse (SpiffeBundle.trustDomain b) (w_body a) = Ok (as_read b))
    (answers orders s (length (bundles s))) (bundles s).
Proof.
  destruct s as [roots cfg bs]; cbn [bundles]. induction bs as [|b bs IH]; intros Hr; [constructor|].
  apply Forall_cons in Hr as [(Hp & Hj & Hw & He & Hm) Hr]. cbn [length answers]. unfold testbundle; cbn [bundles rootCAs tlscfg].
  destruct (Marshal_in b _ _) as [bb| |] eqn:Hbb; [|done..]. cbn [assert_NoError]. constructor; [|by apply IH].
  split; [done|]. cbn [w_body]. rewrite (Marshal_in_Parse b _ _ _ Hp Hj Hw Hbb). by rewrite He.
Qed.

Context {H : HttpLib W}.

(** Requests of the client, each in its world, reach the server in order. *)
Definition reaches (orders : map_orders) (s : Server W) (ws : list W) : Prop :=
  Forall2 (λ w a, ∃ tls, ∀ cfg url, http_Do w cfg url = inl (mkResponse (w_status a) tls (inl (w_body a))))
    ws (answers orders s (length ws)).

(** A client that fetches the bundles of a trust domain gets them in order, and then errors. *)
Theorem endpoint_fetched_in_order {JL : JoseLaws J} orders s ws extra td url e :
  length ws = length (bundles s) → Forall (readable orders) (bundles s) →
  Forall (λ b, SpiffeBundle.trustDomain b = td) (bundles s) → reaches orders s (ws ++ extra) →
  is_Some DefaultTransport → NewRequest_error url = None → json_Unmarshal_bundleDoc "" = inr e →
  (λ w, (FetchBundle w td url []).1) <$> ws ++ extra =
    (Ok ∘ as_read <$> bundles s) ++
    replicate (length extra) (Err (wrapFederationErr (wrapSpiffebundleErr
      (fmt_Errorf "unable to parse JWKS: %v" [Arg_v (Some e)])))).
Proof.
  intros Hlen Hr Htd Hreach [c Hc] Hu He. unfold reaches in Hreach.
  rewrite length_app, Hlen, answers_all, drop_ge, (answers_empty _ _ (length extra)) in Hreach by done.
  apply Forall2_app_inv in Hreach as [H1 H2]; [|by rewrite answers_length].
  rewrite fmap_app. f_equal.
  - pose proof (answers_bundles orders s Hr) as H3. clear Hlen Hr. revert H1 H3 Htd. generalize (answers orders s (length (bundles s))).
    intros ans H1 H3 Htd. revert ws H1. induction H3 as [|a b ans bs [_ Hp] H3 IH]; intros ws H1; inversion H1 as [|w ? ws' ? [tls Hd]]; subst; [done|].
    apply Forall_cons in Htd as [Ht Htd]. subst. cbn [fmap list_fmap]. rewrite IH by done. f_equal. rewrite (wrap_FetchBundle w _ url c _ Hc Hu (Hd c url)).
    cbn [fst]. unfold SpiffeBundle.Read. cbn [resp_Body of_lib wrap_err mbind res_bind]. by rewrite Hp.
  - clear -H2 Hc Hu He. induction extra as [|w extra IH]; [done|]. cbn [length replicate fmap list_fmap] in *.
    apply Forall2_cons in H2 as [[tls Hd] H2]. rewrite IH by done. f_equal.
    rewrite (wrap_FetchBundle w td url c _ Hc Hu (Hd c url)). cbn [fst]. unfold SpiffeBundle.Read, SpiffeBundle.Parse.
    cbn [resp_Body of_lib wrap_err mbind res_bind w_body]. by rewrite He.
Qed.
End endpoint.
