(* ===== verification/Federated.v ===== *)
(** * Trust across federated trust domains

    The composition of Federation.v, SpiffeBundle.v, TlsConfig.v: a workload keeps a
    spiffebundle.Set, adds to it what it fetches from the bundle endpoint of another
    trust domain (src/federation/fetch.go), and authenticates its peers against the set
    (src/spiffetls/tlsconfig). *)

From S2P Require Import Prelude Logger Path GoUrl ID Match Crypto X509 X509Sample Pem BundleSet X509Bundle Jose JwtBundle WitBundle SpiffeBundle X509Svid TlsConfig Federation.

Section federated.
Context {C : Charset} {CL : CharsetLaws C} {L : X509Lib} {V : X509Verifier} {J : JoseLib} {JL : JoseLaws J}.
Context {W : Type} {H : HttpLib W} {TL : TlsLib (W := W)}.
Implicit Types (set : SpiffeBundle.Set_) (raws : list string).

(** A set and a bundle as sources of X.509 bundles. *)
Definition of_set set : bundle_source (W := W) := Some (λ _, SpiffeBundle.Set_GetX509BundleForTrustDomain set).
Definition of_bundle (b : SpiffeBundle.Bundle) : bundle_source (W := W) := Some (λ _, SpiffeBundle.GetX509BundleForTrustDomain b).

(** The bundles of successive fetches are added to the set. *)
Definition federate set (fetched : list SpiffeBundle.Bundle) : SpiffeBundle.Set_ :=
  foldl (λ set b, SpiffeBundle.Add set (Some b)) set fetched.

(** The certificates are those of a peer of the trust domain. *)
Definition peer_of td raws : Prop := ∃ leaf others id,
  forM (λ raw, of_lib (x509_ParseCertificate raw)) raws = Ok (leaf :: others) ∧
  IDFromCert leaf = Ok id ∧ ID_TrustDomain id = Ok td.

(** Verification asks the source for the bundle of the peer's own trust domain, and for
    nothing else. *)
Lemma verify_local (b b' : W → TrustDomain → res X509Bundle.Bundle) (w : W) td raws :
  peer_of td raws → b w td = b' w td → parse_and_verify (Some b) w raws = parse_and_verify (Some b') w raws.
Proof.
  intros (leaf & others & id & Hraw & Hid & Htd) Hb. unfold parse_and_verify, ParseAndVerify. cbn [fmap option_fmap option_map].
  assert (∀ wr, forM (λ raw, wrap_err wr (of_lib (x509_ParseCertificate raw))) raws = Ok (leaf :: others)) as Hw.
  { intros wr. rewrite forM_Ok in *. eapply Forall2_impl; [exact Hraw|]. intros r c Hc. cbn in *. by rewrite Hc. }
  rewrite Hw. unfold Verify. rewrite Hid. cbn [mbind res_bind]. rewrite Htd. cbn [mbind res_bind].
  change (X509Bundle.GetX509 (b w) td) with (b w td). change (X509Bundle.GetX509 (b' w) td) with (b' w td). by rewrite Hb.
Qed.

(** The configurations that authenticate a peer, on either side: the four hooks over any
    base. The package's own configurations are the hooks over a new one; the web server's
    panic without a certificate. *)
Definition accepts_alike (source source' : bundle_source (W := W)) (w : W) raws : Prop := ∀ base svid cert authorizer opts,
  (client_accepts (HookTLSClientConfig base source authorizer opts) w raws = Ok () ↔
   client_accepts (HookTLSClientConfig base source' authorizer opts) w raws = Ok ()) ∧
  (client_accepts (HookMTLSClientConfig base svid source authorizer opts) w raws = Ok () ↔
   client_accepts (HookMTLSClientConfig base svid source' authorizer opts) w raws = Ok ()) ∧
  (server_accepts (HookMTLSServerConfig base svid source authorizer opts) w raws = Ok () ↔
   server_accepts (HookMTLSServerConfig base svid source' authorizer opts) w raws = Ok ()) ∧
  match HookMTLSWebServerConfig base cert source authorizer opts, HookMTLSWebServerConfig base cert source' authorizer opts with
  | Ok config, Ok config' => server_accepts config w raws = Ok () ↔ server_accepts config' w raws = Ok ()
  | Panic _, Panic _ => cert = None
  | _, _ => False
  end.

Lemma alike source source' w rawss : parse_and_verify source w rawss = parse_and_verify source' w rawss → accepts_alike source source' w rawss.
Proof.
  intros E base svid cert authorizer opts.
  assert (∀ id certs, spiffe_accepts source authorizer w rawss id certs ↔ spiffe_accepts source' authorizer w rawss id certs) as Hs.
  { intros id certs. unfold spiffe_accepts. by rewrite E. }
  assert ((∃ id certs, spiffe_accepts source authorizer w rawss id certs ∧ base_accepts base w rawss certs) ↔
    ∃ id certs, spiffe_accepts source' authorizer w rawss id certs ∧ base_accepts base w rawss certs) as Hex by (setoid_rewrite Hs; done).
  rewrite !client_hook_accepts, !mtls_client_hook_accepts, !mtls_server_hook_accepts.
  split; [exact Hex|]. split; [exact Hex|]. split; [by apply served_by_iff|].
  destruct cert as [cert|]; [|done]. cbn -[server_accepts].
  rewrite (mtls_web_server_hook_accepts base (Some cert) source authorizer opts _ w rawss eq_refl).
  rewrite (mtls_web_server_hook_accepts base (Some cert) source' authorizer opts _ w rawss eq_refl). by apply served_by_iff.
Qed.

(** A bundle fetched from an endpoint of the trust domain, whatever it answered. *)
Definition fetched_for td (b : SpiffeBundle.Bundle) : Prop := ∃ w url options evs, FetchBundle w td url options = (Ok b, evs).

Lemma fetched_trustDomain td b : fetched_for td b → SpiffeBundle.trustDomain b = td.
Proof. intros (w & url & options & evs & (c & opts & response & _ & _ & _ & _ & Hr & _)%FetchBundle_Ok). by eapply Read_trustDomain. Qed.

Lemma add_lookup set (b : SpiffeBundle.Bundle) td :
  SpiffeBundle.Set_GetX509BundleForTrustDomain (SpiffeBundle.Add set (Some b)) td =
    if bool_decide (td = SpiffeBundle.trustDomain b) then Ok (X509Bundle_ b) else SpiffeBundle.Set_GetX509BundleForTrustDomain set td.
Proof.
  unfold SpiffeBundle.Set_GetX509BundleForTrustDomain, Set_lookup, SpiffeBundle.Add, Set_Add, put_bundle. cbn [bundles].
  case_bool_decide as Hd; [subst td; by rewrite lookup_insert_eq|by rewrite lookup_insert_ne].
Qed.

Lemma federate_lookup set (bs : list SpiffeBundle.Bundle) td td' :
  Forall (fetched_for td') bs →
  SpiffeBundle.Set_GetX509BundleForTrustDomain (federate set bs) td =
    match last bs with
    | Some b => if bool_decide (td = td') then Ok (X509Bundle_ b) else SpiffeBundle.Set_GetX509BundleForTrustDomain set td
    | None => SpiffeBundle.Set_GetX509BundleForTrustDomain set td
    end.
Proof.
  unfold federate. induction bs as [|b bs IH] using rev_ind; [done|]. intros [Hbs [Hb _]%Forall_cons]%Forall_app. specialize (IH Hbs).
  rewrite foldl_app, last_snoc. cbn [foldl]. rewrite add_lookup, (fetched_trustDomain _ _ Hb).
  case_bool_decide; [done|]. rewrite IH. by destruct (last bs).
Qed.
(** The bundle endpoint of [T] at the time of a fetch: what it answers is what its handler
    writes (src/federation/handler.go), with a status and headers that are not looked at. *)
Definition honest_fetch {F : Fmt} {T} {Src : SpiffeBundle.Source T} td (source : T) (orders : map_orders) (own b : SpiffeBundle.Bundle) : Prop :=
  SpiffeBundle.GetBundle source td = Ok own ∧ portable own ∧
  range_of (jwtAuthorities own) (orders own).1 ∧ range_of (witAuthorities own) (orders own).2 ∧
  ∃ handler_options handler body (w : W) url options evs status tls,
    NewHandler td source handler_options = Ok handler ∧ handler orders "GET" = Ok (mkWritten 200 "application/json" body, []) ∧
    (∀ cfg, http_Do w cfg url = inl (mkResponse status tls (inl body))) ∧
    FetchBundle w td url options = (Ok b, evs).

Lemma honest_authorities {F : Fmt} {T} {Src : SpiffeBundle.Source T} td (source : T) orders own b :
  SpiffeBundle.trustDomain own = td → honest_fetch td source orders own b → X509Bundle_ b = X509Bundle_ own.
Proof.
  intros Htd (Hb & Hp & Hj & Hw & ho & handler & body & w & url & options & evs & status & tls & Hn & Hs & Hd & Hf).
  apply FetchBundle_Ok in Hf as (c & opts & response & _ & _ & _ & Hdo & Hr & _). rewrite Hd in Hdo. injection Hdo as <-.
  unfold Read in Hr. cbn [resp_Body of_lib wrap_err mbind res_bind] in Hr. apply bind_Ok_inv in Hn as (conf & _ & [= <-]). unfold serve in Hs. cbn in Hs. rewrite Hb in Hs.
  destruct (Marshal_in own (orders own).1 (orders own).2) as [data|err|] eqn:Hm; [|by destruct (hc_log conf)|done]. injection Hs as <-.
  subst td. rewrite (Marshal_in_Parse own _ _ _ Hp Hj Hw Hm) in Hr. destruct (Empty own); [done|]. by injection Hr as <-.
Qed.

(** [C20] Federation cannot reach beyond its trust domain. A workload fetches bundles for
    [td'] any number of times, from endpoints that may answer anything, and adds them to
    its set. For a peer of another trust domain every configuration that authenticates
    peers - the four kinds of hooks, over any base - accepts exactly what it accepted with the set as it was; for a peer of [td'] it
    accepts what the bundle fetched last accepts; and when that came from the handler of
    an endpoint whose source has a bundle of [td'], what that bundle accepts. *)
Theorem federation_isolated {F : Fmt} {T} {Src : SpiffeBundle.Source T} set (bs : list SpiffeBundle.Bundle) td' (w : W) raws td :
  Forall (fetched_for td') bs → peer_of td raws →
  (td ≠ td' → accepts_alike (of_set (federate set bs)) (of_set set) w raws) ∧
  (∀ b, last bs = Some b → td = td' → accepts_alike (of_set (federate set bs)) (of_bundle b) w raws) ∧
  (∀ b (source : T) orders own, last bs = Some b → td = td' → SpiffeBundle.trustDomain own = td' →
     honest_fetch td' source orders own b → accepts_alike (of_set (federate set bs)) (of_bundle own) w raws).
Proof.
  intros Hbs Hpeer.
  assert (∀ b own, last bs = Some b → td = td' → X509Bundle_ b = X509Bundle_ own → SpiffeBundle.trustDomain own = td' →
    accepts_alike (of_set (federate set bs)) (of_bundle own) w raws) as Hsame.
  { intros b own Hl Htd Hx Hown. apply alike, (verify_local _ _ w td raws Hpeer). cbn beta. rewrite (federate_lookup set bs td td' Hbs), Hl.
    rewrite bool_decide_eq_true_2, Hx by done. unfold SpiffeBundle.GetX509BundleForTrustDomain, for_trust_domain.
    by rewrite bool_decide_eq_true_2 by congruence. }
  split_and!.
  - intros Hne. apply alike, (verify_local _ _ w td raws Hpeer). cbn beta. rewrite (federate_lookup set bs td td' Hbs).
    destruct (last bs); [|done]. by rewrite bool_decide_eq_false_2.
  - intros b Hl Htd. apply (Hsame b b Hl Htd); [done|]. apply fetched_trustDomain.
    rewrite Forall_forall in Hbs. apply Hbs. by apply last_Some_elem_of.
  - intros b source orders own Hl Htd Hown Hh. apply (Hsame b own Hl Htd); [|done]. by eapply honest_authorities.
Qed.
End federated.

(** ** Witness: a peer is refused, its trust domain is federated, and it is accepted *)
#[export] Instance sample_string_TlsLib : TlsLib (W := string) := {|
  default_verify roots w raw := inl [];
  verify_client_certs config w raw := inl [];
|}.

Definition sample_orders (b : SpiffeBundle.Bundle) : list (string * PublicKey) * list (string * PublicKey) :=
  (map_to_list (jwtAuthorities b), map_to_list (witAuthorities b)).

Lemma federation_isolated_witness :
  let td := mkTrustDomain "example.org" in
  let set := SpiffeBundle.NewSet [] in
  let accepted set := client_accepts (TLSClientConfig (C := charset_deny) (of_set set) AuthorizeAny []) sample_body ["L"] in
  ∃ b, FetchBundle sample_body td "" [] = (Ok b, [BodyClosed]) ∧
    is_Err (accepted set) = true ∧ accepted (federate set [b]) = Ok ().
Proof.
  intros td set accepted. destruct (FetchBundle sample_body td "" []) as [[b| |] evs] eqn:Hf; try (by vm_compute in Hf).
  assert (evs = [BodyClosed]) as -> by (vm_compute in Hf; by injection Hf as _ <-).
  exists b. split; [done|]. split; [by vm_compute|].
  destruct (federation_isolated (C := charset_deny) (F := λ format _, format) (T := SpiffeBundle.Bundle) set [b] td sample_body ["L"] td)
    as (_ & _ & Hhonest).
  - apply Forall_cons_2; [by exists sample_body, "", [], [BodyClosed]|by apply Forall_nil].
  - exists leafL, [], workload_id. split_and!; by vm_compute.
  - assert (honest_fetch (F := λ format _, format) td sample_spiffe_bundle sample_orders sample_spiffe_bundle b) as Hh.
    { split_and!; [by vm_compute|apply sample_spiffe_portable|apply range_of_map_to_list|apply range_of_map_to_list|].
      exists [], (serve (F := λ format _, format) (mkHandlerConfig Null) td sample_spiffe_bundle), sample_body, sample_body, "", [], [BodyClosed], 200%Z, None.
      split_and!; [done|by vm_compute|done|done]. }
    destruct (Hhonest b sample_spiffe_bundle sample_orders sample_spiffe_bundle eq_refl eq_refl eq_refl Hh newTLSConfig (λ _, Ok X509Svid.sample_svid) None AuthorizeAny []) as [Hacc _].
    apply Hacc. by vm_compute.
Defined.
