(* ===== verification/Convenience.v ===== *)
(** * workloadapi: short-lived clients

    Models New, newConn and Close of src/workloadapi/client.go and the package
    functions of convenience.go, each of which makes a client, calls one of its
    methods and closes it. gRPC is a parameter: dialling, closing a connection, and
    the generated stub of a connection. *)

From S2P Require Import Prelude Logger Path GoUrl ID Crypto X509 X509Sample Pem BundleSet X509Bundle Jose JwtBundle WitBundle X509Svid Jwt JwtSvid WitSvid Backoff Addr Client Watch.

Class Grpc (Conn : Type) := {
  DialContext : string → list string → Conn + error;
  Conn_Close : Conn → option error;
  NewSpiffeWorkloadAPIClient : Conn → WorkloadAPI;
}.

(** What happens to connections. *)
Inductive conn_event (Conn : Type) : Type :=
  | Conn_opened (conn : Conn) (target : string) (dialOptions : list string)
  | Conn_closed (conn : Conn).
Arguments Conn_opened {Conn}.
Arguments Conn_closed {Conn}.

Section convenience.
Context {C : Charset} {L : X509Lib} {J : JoseLib} {T : JwtLib} {K : JwkLib} {KP : JwkPrivateLib}.
Context {A : AddrLib} {P : Platform} {GS : GrpcStatus} {Conn : Type} {G : Grpc Conn}.
Implicit Types (options : list ClientOption) (md : metadata).

Record Client : Type := mkClient { cl_conn : Conn; cl_wlClient : WorkloadAPI; cl_config : clientConfig }.

Definition insecure_credentials : string := "grpc.WithTransportCredentials(insecure.NewCredentials())".

(** The receiver's configuration is updated too. *)
Definition newConn (c : clientConfig) : clientConfig * (Conn + error) :=
  let c := WithDialOptions [insecure_credentials] c in
  let c := appendDialOptionsOS c in
  (c, DialContext (address c) (dialOptions c)).

Definition New options : res Client * list (conn_event Conn) :=
  match configure options with
  | Panic why => (Panic why, [])
  | Err err => (Err err, [])
  | Ok config =>
      match newConn config with
      | (config, inr err) => (Err err, [])
      | (config, inl conn) =>
          (Ok (mkClient conn (NewSpiffeWorkloadAPIClient conn) config), [Conn_opened conn (address config) (dialOptions config)])
      end
  end.

Definition Close (c : Client) : option error * list (conn_event Conn) := (Conn_Close (cl_conn c), [Conn_closed (cl_conn c)]).

(** New; defer c.Close(); a call that does not return does not close. *)
Definition with_client {R} (returned : res R → bool) options (call : Client → res R) : res R * list (conn_event Conn) :=
  match New options with
  | (Panic why, events) => (Panic why, events)
  | (Err err, events) => (Err err, events)
  | (Ok c, events) =>
      let r := call c in
      (r, events ++ if returned r then (Close c).2 else [])
  end.

Definition always {R} (r : res R) : bool := true.

(** A watch without a result is still running. *)
Definition watch_returned {U} (r : res (list (action U) * option error)) : bool :=
  match r with Ok (_, None) => false | _ => true end.

Definition FetchX509SVID md options :=
  with_client always options (λ c, Client.FetchX509SVID (cl_wlClient c) md).
Definition FetchX509SVIDs md options :=
  with_client always options (λ c, Client.FetchX509SVIDs (cl_wlClient c) md).
Definition FetchX509Bundles md options :=
  with_client always options (λ c, Client.FetchX509Bundles (cl_wlClient c) md).
Definition FetchX509Context md options :=
  with_client always options (λ c, Client.FetchX509Context (cl_wlClient c) md).
Definition WatchX509Context (script : list (round X509SVIDResponse)) options :=
  with_client watch_returned options (λ c, Watch.WatchX509Context (BS := backoffStrategy (cl_config c)) (log (cl_config c)) script).
Definition FetchJWTSVID (now : Z) md (params : Params) options :=
  with_client always options (λ c, Client.FetchJWTSVID (cl_wlClient c) now md params).
Definition FetchJWTSVIDs (now : Z) md (params : Params) options :=
  with_client always options (λ c, Client.FetchJWTSVIDs (cl_wlClient c) now md params).
Definition FetchJWTBundles md options :=
  with_client always options (λ c, Client.FetchJWTBundles (cl_wlClient c) md).
Definition WatchJWTBundles (script : list (round (go_map string))) options :=
  with_client watch_returned options (λ c, Watch.WatchJWTBundles (BS := backoffStrategy (cl_config c)) (log (cl_config c)) script).
Definition WatchX509Bundles (script : list (round (go_map string))) options :=
  with_client watch_returned options (λ c, Watch.WatchX509Bundles (BS := backoffStrategy (cl_config c)) (log (cl_config c)) script).
Definition ValidateJWTSVID (now : Z) md (token audience : string) options :=
  with_client always options (λ c, Client.ValidateJWTSVID (cl_wlClient c) now md token audience).
Definition FetchWITSVID (now : Z) md (spiffeID : string) options :=
  with_client always options (λ c, Client.FetchWITSVID (cl_wlClient c) now md spiffeID).
Definition FetchWITSVIDs (now : Z) md (spiffeID : string) options :=
  with_client always options (λ c, Client.FetchWITSVIDs (cl_wlClient c) now md spiffeID).
Definition FetchWITBundles md options :=
  with_client always options (λ c, Client.FetchWITBundles (cl_wlClient c) md).
End convenience.
Arguments Client Conn : clear implicits.

(** ** Properties *)
Definition opened_of {Conn} (events : list (conn_event Conn)) : list Conn :=
  omap (λ e, match e with Conn_opened conn _ _ => Some conn | _ => None end) events.
Definition closed_of {Conn} (events : list (conn_event Conn)) : list Conn :=
  omap (λ e, match e with Conn_closed conn => Some conn | _ => None end) events.

Section convenience_properties.
Context {C : Charset} {L : X509Lib} {J : JoseLib} {T : JwtLib} {K : JwkLib} {KP : JwkPrivateLib}.
Context {A : AddrLib} {P : Platform} {GS : GrpcStatus} {Conn : Type} {G : Grpc Conn}.

(** Either no connection was made, and the call failed, or one was, to the
    configured address, and the result is the method's. *)
Lemma with_client_cases {R} (returned : res R → bool) options (call : Client Conn → res R) :
  ((with_client returned options call).2 = [] ∧ ∀ a, (with_client returned options call).1 ≠ Ok a) ∨
  ∃ config c, configure options = Ok config ∧ newConn config = (cl_config c, inl (cl_conn c)) ∧
    cl_wlClient c = NewSpiffeWorkloadAPIClient (cl_conn c) ∧
    with_client returned options call =
      (call c, Conn_opened (cl_conn c) (address (cl_config c)) (dialOptions (cl_config c)) ::
               if returned (call c) then [Conn_closed (cl_conn c)] else []).
Proof.
  unfold with_client, New. destruct (configure options) as [config|err|why]; [|by left|by left].
  destruct (newConn config) as [config' [conn|err]] eqn:E; [|by left].
  right. by exists config, (mkClient conn (NewSpiffeWorkloadAPIClient conn) config').
Qed.

(** The package functions do not leak connections: a fetch closes the one
    connection it opened, if any, on every path; a watch closes it exactly when the
    watch returns. FetchX509SVID succeeds only with the first SVID of the response of
    the service at the configured address, asked with the security header. *)
Theorem short_lived_clients :
  (∀ R options (call : Client Conn → res R), let '(r, events) := with_client always options call in
     opened_of events = closed_of events ∧ length (opened_of events) ≤ 1 ∧ (opened_of events = [] → is_Ok r = false)) ∧
  (∀ script options, let '(r, events) := WatchX509Context script options in
     closed_of events = (if watch_returned r then opened_of events else []) ∧
     (watch_returned r = false → ∃ conn target opts, events = [Conn_opened conn target opts])) ∧
  (∀ md options svid, (FetchX509SVID md options).1 = Ok svid →
     ∃ config conn opts resp m rest, configure options = Ok config ∧
       (FetchX509SVID md options).2 =
         [Conn_opened conn (address (appendDialOptionsOS (WithDialOptions [insecure_credentials] config))) opts; Conn_closed conn] ∧
       wl_FetchX509SVID (NewSpiffeWorkloadAPIClient conn) [("workload.spiffe.io", "true")] = inl (inl resp) ∧
       x_Svids resp = m :: rest ∧ parse_X509SVID m = Ok svid).
Proof.
  split_and!.
  - intros R options call. destruct (with_client_cases always options call) as [[He Hr]|(config & c & _ & _ & _ & ->)].
    + destruct (with_client always options call) as [r events]. cbn in He, Hr. subst events. split_and!; [done|simpl; lia|].
      intros _. destruct r; [by destruct (Hr a)|done..].
    + split_and!; [done|simpl; lia|done].
  - intros script options. unfold WatchX509Context.
    destruct (with_client_cases watch_returned options (λ c, Watch.WatchX509Context (BS := backoffStrategy (cl_config c)) (log (cl_config c)) script))
      as [[He Hr]|(config & c & _ & _ & _ & ->)].
    + destruct (with_client _ _ _) as [r events]. cbn in He, Hr. subst events.
      destruct r as [[acts [e|]]| |]; [done| |done..]. by destruct (Hr (acts, None)).
    + destruct (watch_returned _); [done|]. split; [done|]. intros _. by eexists _, _, _.
  - intros md options svid. unfold FetchX509SVID.
    destruct (with_client_cases always options (λ c, Client.FetchX509SVID (cl_wlClient c) md)) as [[He Hr]|(config & c & Hc & Hn & Hw & ->)].
    + intros H. by apply Hr in H.
    + cbn [fst snd always]. intros (resp & Hresp & (svids & Hs & Hi)%bind_Ok_inv)%bind_Ok_inv.
      unfold newConn in Hn. injection Hn as Hcfg _. rewrite <- Hcfg.
      assert (∃ m rest, x_Svids resp = m :: rest ∧ parse_X509SVID m = Ok svid) as (m & rest & Hm & Hp).
      { unfold parseX509SVIDs in Hs. destruct (Nat.eqb_spec (length (x_Svids resp)) 0) as [E|E]; [done|].
        destruct (x_Svids resp) as [|m rest]; [done|]. exists m, rest. split; [done|]. cbn [svids_to_parse take] in Hs.
        rewrite parse_svids_kept, kept_head in Hs. cbn [kept forM] in Hs.
        apply bind_Ok_inv in Hs as (s & Hs & (l & [= <-] & [= <-])%bind_Ok_inv). rewrite Hs. exact Hi. }
      exists config, (cl_conn c), (dialOptions (appendDialOptionsOS (WithDialOptions [insecure_credentials] config))), resp, m, rest.
      split_and!; [done|done| |done|done]. rewrite <- Hw. revert Hresp. unfold recv. cbn.
      destruct (wl_FetchX509SVID (cl_wlClient c) _) as [[r|]|]; naive_solver.
Qed.
End convenience_properties.
