(* ===== verification/RwMutex.v ===== *)
(** * sync.RWMutex: threads over objects guarded by locks

    The machine on which Locks.v runs the methods of shared bundles, sets and sources.
    Object [l] is a value behind its sync.RWMutex; a thread is the sequence of its lock
    operations and of its accesses, the deferred unlocks included. A writer's Lock first
    announces the writer, which keeps new readers out, then waits for the readers to
    leave, as in package sync; when a writer unlocks, any waiting thread may be next.
    The discipline [disc] - accesses under the lock of the object, locks taken in
    ascending order - excludes races and deadlocks. *)

From S2P Require Import Prelude.

#[local] Set Warnings "-register-all".

Section machine.
Context {V : Type}.

Inductive lock_op : Type :=
  | RLock (l : nat) | RUnlock (l : nat) | Lock (l : nat) | Unlock (l : nat)
  | Load (l : nat)                                  (* the object is read *)
  | Store (l : nat) (f : V → V)                     (* and assigned, from what was read *)
  | Branch (k : nat) (g : V → list lock_op).        (* what follows depends on what was read: at most [k] operations *)

Record object : Type := mkObject { value : V; readers : nat; writer : option (nat * bool) }.
Record thread : Type := mkThread { code : list lock_op; local : option V }.
Record machine : Type := mkMachine { objects : list object; threads : list thread }.

(** [writer]: the thread that announced itself in Lock, and whether it has the lock. *)
Definition start (values : list V) (codes : list (list lock_op)) : machine :=
  mkMachine ((λ v, mkObject v 0 None) <$> values) ((λ c, mkThread c None) <$> codes).

Definition op_object (o : lock_op) : option nat :=
  match o with RLock l | RUnlock l | Lock l | Unlock l | Load l | Store l _ => Some l | Branch _ _ => None end.

(** What thread [i], with [v] read last, makes of the object of its next operation, and
    whether it goes past it; None when it is blocked (or would unlock a mutex it has not
    locked, which panics). *)
Definition on_object (i : nat) (op : lock_op) (v : option V) (o : object) : option (object * bool) :=
  match op with
  | RLock _ => match writer o with None => Some (mkObject (value o) (S (readers o)) None, true) | Some _ => None end
  | RUnlock _ => match readers o with S n => Some (mkObject (value o) n (writer o), true) | O => None end
  | Lock _ =>
      match writer o with
      | None => Some (mkObject (value o) (readers o) (Some (i, false)), false)
      | Some (j, false) =>
          if bool_decide (j = i ∧ readers o = 0) then Some (mkObject (value o) (readers o) (Some (i, true)), true) else None
      | Some (_, true) => None
      end
  | Unlock _ =>
      match writer o with
      | Some (j, true) => if bool_decide (j = i) then Some (mkObject (value o) (readers o) None, true) else None
      | _ => None
      end
  | Load _ => Some (o, true)
  | Store _ f => match v with Some v => Some (mkObject (f v) (readers o) (writer o), true) | None => None end
  | Branch _ _ => None
  end.

(** A step of thread [i]; None when it has finished or is blocked. *)
Definition do (i : nat) (m : machine) : option machine :=
  match threads m !! i with
  | None => None
  | Some t =>
      match code t with
      | [] => None
      | Branch _ g :: c =>
          match local t with
          | Some v => Some (mkMachine (objects m) (<[i := mkThread (g v ++ c) (Some v)]> (threads m)))
          | None => None
          end
      | op :: c =>
          match op_object op with
          | None => None
          | Some l =>
              match objects m !! l with
              | None => None
              | Some o =>
                  match on_object i op (local t) o with
                  | None => None
                  | Some (o', moves) =>
                      let seen := match op with Load _ => Some (value o) | _ => local t end in
                      Some (mkMachine (<[l := o']> (objects m))
                              (if moves : bool then <[i := mkThread c seen]> (threads m) else threads m))
                  end
              end
          end
      end
  end.

(** A schedule: the thread that moves at each step. *)
Fixpoint run (sched : list nat) (m : machine) : option machine :=
  match sched with
  | [] => Some m
  | i :: sched => match do i m with Some m' => run sched m' | None => None end
  end.

Definition next_op (m : machine) (i : nat) : option lock_op := threads m !! i ≫= λ t, head (code t).
Definition finished (m : machine) : Prop := Forall (λ t, code t = []) (threads m).

(** Two accesses of an object are about to happen at once, one of them an assignment. *)
Definition data_race (m : machine) : Prop := ∃ i j l f, i ≠ j ∧ next_op m i = Some (Store l f) ∧
  (next_op m j = Some (Load l) ∨ ∃ g, next_op m j = Some (Store l g)).

(** The assignments of a schedule, in order: thread, object, function. *)
Definition store_of (i : nat) (o : option lock_op) : list (nat * nat * (V → V)) :=
  match o with Some (Store l f) => [(i, l, f)] | _ => [] end.
Fixpoint stores (sched : list nat) (m : machine) : list (nat * nat * (V → V)) :=
  match sched with
  | [] => []
  | i :: sched => match do i m with None => [] | Some m' => store_of i (next_op m i) ++ stores sched m' end
  end.

Definition to_object (l : nat) (log : list (nat * nat * (V → V))) : list (V → V) := (filter (λ e, e.1.2 = l) log).*2.
Definition by_thread (i : nat) (log : list (nat * nat * (V → V))) : list (nat * (V → V)) :=
  (λ e, (e.1.2, e.2)) <$> filter (λ e, e.1.1 = i) log.
Definition writes_of (c : list lock_op) : list (nat * (V → V)) :=
  omap (λ o, match o with Store l f => Some (l, f) | _ => None end) c.

Definition values (m : machine) : list V := value <$> objects m.

(** Every operation costs two steps at most; a branch pays for what it leads to. *)
Definition cost (o : lock_op) : nat := match o with Branch k g => 1 + 2 * k | _ => 2 end.
End machine.
Arguments lock_op V : clear implicits.
Arguments object V : clear implicits.
Arguments thread V : clear implicits.
Arguments machine V : clear implicits.

(** ** The discipline *)
Section discipline.
Context {V : Type} (n : nat) (I : nat → V → Prop).

(** The locks a thread holds; true for writing. *)
Abbreviation held := (gmap nat bool).
Definition above (l : nat) (h : held) : Prop := ∀ l' w, h !! l' = Some w → l' < l.

(** [disc h seen c]: code [c] is in order for a thread that holds [h] and has just read
    [seen]. Every object has an invariant, [I]. *)
Inductive disc : held → option nat → list (lock_op V) → Prop :=
  | disc_done seen : disc ∅ seen []
  | disc_rlock h seen l c : l < n → above l h → disc (<[l := false]> h) None c → disc h seen (RLock l :: c)
  | disc_lock h seen l c : l < n → above l h → disc (<[l := true]> h) None c → disc h seen (Lock l :: c)
  | disc_runlock h seen l c : h !! l = Some false → disc (delete l h) None c → disc h seen (RUnlock l :: c)
  | disc_unlock h seen l c : h !! l = Some true → disc (delete l h) None c → disc h seen (Unlock l :: c)
  | disc_load h seen l w c : h !! l = Some w → disc h (Some l) c → disc h seen (Load l :: c)
  | disc_store h l f c : h !! l = Some true → (∀ v, I l v → I l (f v)) → disc h None c → disc h (Some l) (Store l f :: c)
  | disc_branch h l w k g c : h !! l = Some w →
      (∀ v, I l v → sum_list (cost <$> g v) ≤ 2 * k ∧ writes_of (g v) = [] ∧ disc h None (g v ++ c)) →
      disc h (Some l) (Branch k g :: c).

(** Whole calls can follow each other. *)
Definition call (c : list (lock_op V)) : Prop := ∀ rest, disc ∅ None rest → disc ∅ None (c ++ rest).

Lemma call_nil : call [].
Proof. by intros rest. Qed.

Lemma call_join cs : Forall call cs → disc ∅ None (mjoin cs).
Proof. induction 1 as [|c cs Hc _ IH]; [constructor|]. by apply Hc. Qed.

(** ** The invariant, with what each thread holds and has read *)
Abbreviation ghost := (held * option nat)%type.
Definition reads (l : nat) (g : ghost) : nat := if decide (g.1 !! l = Some false) then 1 else 0.
Definition readers_of (l : nat) (gs : list ghost) : nat := sum_list (reads l <$> gs).

Record thread_ok (os : list (object V)) (t : thread V) (g : ghost) : Prop := {
  ok_disc : disc g.1 g.2 (code t);
  ok_held : ∀ l w, g.1 !! l = Some w → l < n;
  ok_seen : ∀ l, g.2 = Some l → ∃ v, local t = Some v ∧ I l v ∧
    (g.1 !! l = Some true → ∃ o, os !! l = Some o ∧ value o = v);
}.

Record object_ok (m : machine V) (gs : list ghost) (l : nat) (o : object V) : Prop := {
  ok_value : I l (value o);
  ok_readers : readers o = readers_of l gs;
  ok_writer : ∀ i, writer o = Some (i, true) ↔ ∃ g, gs !! i = Some g ∧ g.1 !! l = Some true;
  ok_exclusive : ∀ i, writer o = Some (i, true) → readers o = 0;
  ok_announced : ∀ i, writer o = Some (i, false) → ∃ t c, threads m !! i = Some t ∧ code t = Lock l :: c;
}.

Record Inv (m : machine V) (gs : list ghost) : Prop := {
  inv_objects : length (objects m) = n;
  inv_ghosts : length gs = length (threads m);
  inv_thread : ∀ i t g, threads m !! i = Some t → gs !! i = Some g → thread_ok (objects m) t g;
  inv_object : ∀ l o, objects m !! l = Some o → object_ok m gs l o;
}.

Lemma sum_list_insert {A} (g : A → nat) (l : list A) i x y :
  l !! i = Some x → sum_list (g <$> <[i := y]> l) + g x = sum_list (g <$> l) + g y.
Proof.
  revert i; induction l as [|z l IH]; intros [|i] H; csimpl in *; simplify_eq; [lia|]. apply IH in H. lia.
Qed.

Lemma readers_of_insert l gs i g g' :
  gs !! i = Some g → readers_of l (<[i := g']> gs) + reads l g = readers_of l gs + reads l g'.
Proof. apply sum_list_insert. Qed.

Lemma readers_of_pos l gs : readers_of l gs ≠ 0 → ∃ i g, gs !! i = Some g ∧ g.1 !! l = Some false.
Proof.
  unfold readers_of; induction gs as [|g gs IH]; csimpl; [done|]. unfold reads at 1. case_decide as Hp.
  - intros _. by exists 0, g.
  - intros (i & g' & ? & ?)%IH. by exists (S i), g'.
Qed.

Lemma readers_of_reads l gs i g : gs !! i = Some g → g.1 !! l = Some false → readers_of l gs ≠ 0.
Proof.
  unfold readers_of. revert i; induction gs as [|g' gs IH]; intros [|i] Ht Hp; csimpl in *; simplify_eq.
  - unfold reads at 1. by rewrite decide_True.
  - apply IH in Ht; [lia|done].
Qed.

Lemma ghost_of m gs i t : Inv m gs → threads m !! i = Some t → ∃ g, gs !! i = Some g ∧ thread_ok (objects m) t g.
Proof.
  intros HI Ht. assert (is_Some (gs !! i)) as [g Hg].
  { apply lookup_lt_is_Some. rewrite (inv_ghosts _ _ HI). by eapply lookup_lt_Some. }
  exists g. split; [done|]. by eapply inv_thread.
Qed.

Lemma object_of m gs l : Inv m gs → l < n → ∃ o, objects m !! l = Some o ∧ object_ok m gs l o.
Proof.
  intros HI Hl. assert (is_Some (objects m !! l)) as [o Ho].
  { apply lookup_lt_is_Some. by rewrite (inv_objects _ _ HI). }
  exists o. split; [done|]. by eapply inv_object.
Qed.
(** Thread [i] moves to [t'] and [g'], and object [l] to [o']; nothing else changes. *)
Lemma Inv_update m gs i t g t' g' l o o' :
  Inv m gs → threads m !! i = Some t → gs !! i = Some g → objects m !! l = Some o →
  thread_ok (<[l := o']> (objects m)) t' g' →
  (∀ l', l' ≠ l → g'.1 !! l' = g.1 !! l') →
  (∀ l' c, code t = Lock l' :: c → l' = l) →
  I l (value o') →
  readers o' + reads l g = readers o + reads l g' →
  (writer o' = Some (i, true) ↔ g'.1 !! l = Some true) →
  (∀ j, j ≠ i → writer o' = Some (j, true) ↔ writer o = Some (j, true)) →
  (∀ j, writer o' = Some (j, true) → readers o' = 0) →
  (∀ j, writer o' = Some (j, false) → (j = i ∧ ∃ c, code t' = Lock l :: c) ∨ (j ≠ i ∧ writer o = Some (j, false))) →
  (value o' = value o ∨ g.1 !! l = Some true) →
  Inv (mkMachine (<[l := o']> (objects m)) (<[i := t']> (threads m))) (<[i := g']> gs).
Proof.
  intros HI Ht Hg Ho Hok Hfr Hlk Hv Hrd Hw Hwj Hex Han Hval.
  assert (i < length gs) as Hi by by eapply lookup_lt_Some.
  assert (i < length (threads m)) as Hi' by by eapply lookup_lt_Some.
  assert (l < length (objects m)) as Hl by by eapply lookup_lt_Some.
  pose proof (inv_object _ _ HI _ _ Ho) as Hobj.
  split; cbn [objects threads].
  - rewrite length_insert. apply HI.
  - rewrite !length_insert. apply HI.
  - intros j u d Hu Hd. destruct (decide (j = i)) as [->|Hne].
    { rewrite list_lookup_insert_eq in Hu by done. rewrite list_lookup_insert_eq in Hd by done. by simplify_eq. }
    rewrite list_lookup_insert_ne in Hu by done. rewrite list_lookup_insert_ne in Hd by done.
    destruct (inv_thread _ _ HI _ _ _ Hu Hd) as [H1 H2 H3]. split; [done..|].
    intros l1 Hl1. destruct (H3 l1 Hl1) as (v & Hlv & Hiv & Hlo). exists v. split_and!; [done..|]. intros Hw1.
    destruct (Hlo Hw1) as (o1 & Ho1 & Hvo1). destruct (decide (l1 = l)) as [->|Hne1]; [|exists o1; by rewrite list_lookup_insert_ne].
    exists o'. rewrite list_lookup_insert_eq by done. split; [done|]. simplify_eq. destruct Hval as [->|Hgl]; [done|].
    assert (writer o = Some (i, true)) as E1 by (apply (ok_writer _ _ _ _ Hobj); by exists g).
    assert (writer o = Some (j, true)) as E2 by (apply (ok_writer _ _ _ _ Hobj); by exists d). congruence.
  - intros l1 o1 [[<- [<- _]]|[Hne Ho1]]%list_lookup_insert_Some.
    + split; cbn [threads]; [done| | |done|].
      * pose proof (readers_of_insert l gs i g g' Hg). pose proof (ok_readers _ _ _ _ Hobj). lia.
      * intros j. destruct (decide (j = i)) as [->|Hj].
        -- rewrite Hw. split; [intros ?; exists g'; by rewrite list_lookup_insert_eq|].
           intros (d & Hd & ?). rewrite list_lookup_insert_eq in Hd by done. by simplify_eq.
        -- rewrite (Hwj j Hj), (ok_writer _ _ _ _ Hobj), list_lookup_insert_ne by done. done.
      * intros j Hj. destruct (Han j Hj) as [(-> & c & Hc)|[Hne Hwo]].
        -- exists t', c. by rewrite list_lookup_insert_eq.
        -- rewrite list_lookup_insert_ne by done. by apply (ok_announced _ _ _ _ Hobj).
    + destruct (inv_object _ _ HI _ _ Ho1) as [H1 H2 H3 H4 H5]. split; cbn [threads]; [done| | |done|].
      * pose proof (readers_of_insert l1 gs i g g' Hg). unfold reads in *. rewrite (Hfr l1) in * by done. lia.
      * intros j. rewrite H3. destruct (decide (j = i)) as [->|Hj]; [|by rewrite list_lookup_insert_ne].
        rewrite list_lookup_insert_eq by done. split; intros (d & Hd & ?); simplify_eq;
          [exists g'|exists g]; by rewrite ?(Hfr l1) in *.
      * intros j Hj. destruct (decide (j = i)) as [->|Hji]; [|rewrite list_lookup_insert_ne by done; by apply H5].
        destruct (H5 i Hj) as (u & c & Hu & Hc). simplify_eq. by rewrite (Hlk _ _ Hc) in Hne.
Qed.
Lemma disc_inv h seen op c : disc h seen (op :: c) →
  match op with
  | RLock l => l < n ∧ above l h ∧ disc (<[l := false]> h) None c
  | Lock l => l < n ∧ above l h ∧ disc (<[l := true]> h) None c
  | RUnlock l => h !! l = Some false ∧ disc (delete l h) None c
  | Unlock l => h !! l = Some true ∧ disc (delete l h) None c
  | Load l => (∃ w, h !! l = Some w) ∧ disc h (Some l) c
  | Store l f => h !! l = Some true ∧ (∀ v, I l v → I l (f v)) ∧ seen = Some l ∧ disc h None c
  | Branch k g => ∃ l w, h !! l = Some w ∧ seen = Some l ∧
      ∀ v, I l v → sum_list (cost <$> g v) ≤ 2 * k ∧ writes_of (g v) = [] ∧ disc h None (g v ++ c)
  end.
Proof. inversion 1; subst; eauto 10. Qed.

Lemma disc_nil_inv h seen : disc h seen [] → h = ∅.
Proof. by inversion 1. Qed.

Definition size_of (t : thread V) : nat := sum_list (cost <$> code t).
Definition unannounced (o : object V) : nat := match writer o with Some (_, false) => 0 | _ => 1 end.
Definition potential (m : machine V) : nat := sum_list (size_of <$> threads m) + sum_list (unannounced <$> objects m).

Definition apply_store (e : nat * nat * (V → V)) (vs : list V) : list V := alter e.2 e.1.2 vs.
Definition after (m : machine V) (i : nat) : list V := foldl (λ vs e, apply_store e vs) (values m) (store_of i (next_op m i)).

Lemma potential_update m i t t' l (o o' : object V) :
  threads m !! i = Some t → objects m !! l = Some o →
  potential (mkMachine (<[l := o']> (objects m)) (<[i := t']> (threads m))) + size_of t + unannounced o =
  potential m + size_of t' + unannounced o'.
Proof.
  intros Ht Ho. unfold potential. cbn [threads objects].
  pose proof (sum_list_insert size_of _ _ _ t' Ht). pose proof (sum_list_insert unannounced _ _ _ o' Ho). lia.
Qed.

Lemma values_update (m : machine V) l (o o' : object V) ts :
  objects m !! l = Some o → value o' = value o → values (mkMachine (<[l := o']> (objects m)) ts) = values m.
Proof.
  intros Ho Hv. unfold values. cbn [objects]. rewrite list_fmap_insert, Hv. apply list_insert_id. by rewrite list_lookup_fmap, Ho.
Qed.

(** What a step must keep. *)
Definition step_ok (m : machine V) (i : nat) (m' : machine V) : Prop :=
  (∃ gs', Inv m' gs') ∧ potential m' < potential m ∧ values m' = after m i.

(** Taking or giving back a lock. *)
Lemma step_lock m gs i op c v (g g' : ghost) l (o o' : object V) :
  Inv m gs → threads m !! i = Some (mkThread (op :: c) v) → gs !! i = Some g → objects m !! l = Some o →
  (op = RLock l ∨ op = RUnlock l ∨ op = Lock l ∨ op = Unlock l) →
  g'.2 = None → disc g'.1 None c → (∀ l' w, g'.1 !! l' = Some w → l' < n) →
  (∀ l', l' ≠ l → g'.1 !! l' = g.1 !! l') →
  value o' = value o →
  readers o' + reads l g = readers o + reads l g' →
  (writer o' = Some (i, true) ↔ g'.1 !! l = Some true) →
  (∀ j, j ≠ i → writer o' = Some (j, true) ↔ writer o = Some (j, true)) →
  (∀ j, writer o' = Some (j, true) → readers o' = 0) →
  (∀ j, writer o' = Some (j, false) → j ≠ i ∧ writer o = Some (j, false)) →
  unannounced o' ≤ S (unannounced o) →
  step_ok m i (mkMachine (<[l := o']> (objects m)) (<[i := mkThread c v]> (threads m))).
Proof.
  intros HI Ht Hg Ho Hop Hn Hd Hb Hfr Hv Hr Hw Hwj Hex Han Hun. split_and!.
  - exists (<[i := g']> gs). eapply (Inv_update m gs i _ g _ g' l o o'); try done.
    + split; [by rewrite Hn|done|by rewrite Hn].
    + intros l' c' [= -> ->]. by destruct Hop as [[= ]|[[= ]|[[= ->]|[= ]]]].
    + rewrite Hv. by apply (ok_value _ _ _ _ (inv_object _ _ HI _ _ Ho)).
    + intros j Hj. right. by apply Han.
    + by left.
  - pose proof (potential_update m i _ (mkThread c v) l o o' Ht Ho) as Hp. unfold size_of in Hp at 1 2. cbn [code] in Hp. csimpl in Hp.
    assert (cost op = 2) as Hc by (by destruct Hop as [->|[->|[->| ->]]]). unfold id in Hp. rewrite Hc in Hp. lia.
  - rewrite (values_update m l o) by done. unfold after, next_op. rewrite Ht. by destruct Hop as [->|[->|[->| ->]]].
Qed.
Lemma above_fresh l (h : held) : above l h → h !! l = None.
Proof. intros Ha. destruct (h !! l) as [w|] eqn:Hw; [|done]. apply Ha in Hw. lia. Qed.

Lemma step_acquire m gs i op c v (g : ghost) l o o' (w : bool) :
  Inv m gs → threads m !! i = Some (mkThread (op :: c) v) → gs !! i = Some g → objects m !! l = Some o →
  op = (if w then Lock l else RLock l) → on_object i op v o = Some (o', true) →
  above l g.1 → disc (<[l := w]> g.1) None c →
  step_ok m i (mkMachine (<[l := o']> (objects m)) (<[i := mkThread c v]> (threads m))).
Proof.
  intros HI Ht Hg Ho -> Hon Ha%above_fresh Hd. pose proof (inv_object _ _ HI _ _ Ho) as Hob.
  assert (l < n) as Hl by (rewrite <- (inv_objects _ _ HI); by eapply lookup_lt_Some).
  pose proof (ok_held _ _ _ (inv_thread _ _ HI _ _ _ Ht Hg)) as Hheld.
  assert (∀ l' w', <[l := w]> g.1 !! l' = Some w' → l' < n) as Hheld'.
  { intros l' w' [[<- _]|[_ ?]]%lookup_insert_Some; eauto. }
  assert (∀ l', l' ≠ l → <[l := w]> g.1 !! l' = g.1 !! l') as Hfr by (intros; by rewrite lookup_insert_ne).
  assert (reads l g = 0) as Hr0 by (unfold reads; rewrite Ha; done).
  destruct w; cbn [on_object] in Hon.
  - destruct (writer o) as [[j []]|] eqn:Ew; [done| |done]. case_bool_decide as Hz; [|done]. destruct Hz as [-> Hz].
    injection Hon as <-. eapply (step_lock m gs i _ c v g (<[l := true]> g.1, None) l o); cbn [fst snd value readers writer]; eauto; rewrite ?Ew.
    + unfold reads at 2. cbn [fst]. rewrite lookup_insert_eq, Hr0. done.
    + by rewrite lookup_insert_eq.
    + naive_solver.
    + naive_solver.
    + unfold unannounced. cbn [writer]. rewrite Ew. lia.
  - destruct (writer o) as [|] eqn:Ew; [done|]. injection Hon as <-.
    eapply (step_lock m gs i _ c v g (<[l := false]> g.1, None) l o); cbn [fst snd value readers writer]; eauto; rewrite ?Ew.
    + unfold reads at 2. cbn [fst]. rewrite lookup_insert_eq, Hr0, decide_True by done. lia.
    + by rewrite lookup_insert_eq.
    + naive_solver.
    + naive_solver.
    + naive_solver.
    + unfold unannounced. cbn [writer]. rewrite Ew. lia.
Qed.

Lemma step_release m gs i op c v (g : ghost) l o o' (w : bool) :
  Inv m gs → threads m !! i = Some (mkThread (op :: c) v) → gs !! i = Some g → objects m !! l = Some o →
  op = (if w then Unlock l else RUnlock l) → on_object i op v o = Some (o', true) →
  g.1 !! l = Some w → disc (delete l g.1) None c →
  step_ok m i (mkMachine (<[l := o']> (objects m)) (<[i := mkThread c v]> (threads m))).
Proof.
  intros HI Ht Hg Ho -> Hon Hw Hd. pose proof (inv_object _ _ HI _ _ Ho) as Hob.
  pose proof (ok_held _ _ _ (inv_thread _ _ HI _ _ _ Ht Hg)) as Hheld.
  assert (∀ l' w', delete l g.1 !! l' = Some w' → l' < n) as Hheld'.
  { intros l' w' [_ ?]%lookup_delete_Some; eauto. }
  assert (∀ l', l' ≠ l → delete l g.1 !! l' = g.1 !! l') as Hfr by (intros; by rewrite lookup_delete_ne).
  assert (reads l (delete l g.1, None) = 0) as Hr0 by (unfold reads; cbn [fst]; by rewrite lookup_delete_eq).
  destruct w; cbn [on_object] in Hon.
  - destruct (writer o) as [[j []]|] eqn:Ew; [|done..]. case_bool_decide as Hz; [subst j|done].
    injection Hon as <-. eapply (step_lock m gs i _ c v g (delete l g.1, None) l o); cbn [fst snd value readers writer]; eauto; rewrite ?Ew.
    + rewrite Hr0. unfold reads. by rewrite Hw.
    + by rewrite lookup_delete_eq.
    + naive_solver.
    + naive_solver.
    + naive_solver.
    + unfold unannounced. cbn [writer]. rewrite Ew. lia.
  - destruct (readers o) as [|k] eqn:Er; [done|]. injection Hon as <-.
    assert (∀ j, writer o ≠ Some (j, true)) as Hnw by (intros j Hj%(ok_exclusive _ _ _ _ Hob); congruence).
    eapply (step_lock m gs i _ c v g (delete l g.1, None) l o); cbn [fst snd value readers writer]; eauto.
    + rewrite Hr0, Er. unfold reads. rewrite decide_True by done. lia.
    + rewrite lookup_delete_eq. split; [|done]. by intros ?%Hnw.
    + by intros j ?%Hnw.
    + intros j Hj. split; [|done]. intros ->. destruct (ok_announced _ _ _ _ Hob i Hj) as (u & c1 & Hu & Hc1). by simplify_eq.
Qed.

(** A writer announces itself. *)
Lemma step_announce m gs i l c v (g : ghost) o :
  Inv m gs → threads m !! i = Some (mkThread (Lock l :: c) v) → gs !! i = Some g → objects m !! l = Some o →
  writer o = None → above l g.1 →
  step_ok m i (mkMachine (<[l := mkObject (value o) (readers o) (Some (i, false))]> (objects m)) (threads m)).
Proof.
  intros HI Ht Hg Ho Hw Ha%above_fresh. set (o' := mkObject _ _ _). pose proof (inv_object _ _ HI _ _ Ho) as Hob.
  pose proof (inv_thread _ _ HI _ _ _ Ht Hg) as Hok.
  assert (threads m = <[i := mkThread (Lock l :: c) v]> (threads m)) as E by (symmetry; by apply list_insert_id). split_and!.
  - exists (<[i := g]> gs). rewrite E at 1. eapply (Inv_update m gs i _ g _ g l o o'); try done; cbn [writer o'].
    + split; [apply Hok..|]. intros l' Hl'. destruct (ok_seen _ _ _ Hok l' Hl') as (u & ? & ? & Hu). exists u. split_and!; [done..|].
      intros Hw'. destruct (Hu Hw') as (o1 & Ho1 & Hv1). destruct (decide (l' = l)) as [->|Hne]; [by rewrite Ha in Hw'|].
      exists o1. by rewrite list_lookup_insert_ne.
    + intros l' c' [= -> ->]. done.
    + by apply (ok_value _ _ _ _ Hob).
    + by rewrite Ha.
    + intros j Hj. rewrite Hw. naive_solver.
    + intros j [= <-]. left. split; [done|by exists c].
    + by left.
  - rewrite E at 1. pose proof (potential_update m i _ (mkThread (Lock l :: c) v) l o o' Ht Ho) as Hp.
    unfold unannounced in Hp. cbn [writer o'] in Hp. rewrite Hw in Hp. lia.
  - rewrite (values_update m l o) by done. unfold after, next_op. by rewrite Ht.
Qed.
(** A step that leaves the locks as they are. *)
Lemma step_access m gs i t t' (g : ghost) (seen : option nat) l o v' :
  Inv m gs → threads m !! i = Some t → gs !! i = Some g → objects m !! l = Some o →
  let o' := mkObject v' (readers o) (writer o) in
  disc g.1 seen (code t') → I l v' → (v' = value o ∨ g.1 !! l = Some true) →
  (∀ l', seen = Some l' → l' = l ∧ local t' = Some v') →
  (∀ l' c, code t ≠ Lock l' :: c) →
  ∃ gs', Inv (mkMachine (<[l := o']> (objects m)) (<[i := t']> (threads m))) gs'.
Proof.
  intros HI Ht Hg Ho o' Hd Hv Hval Hseen Hnl. pose proof (inv_object _ _ HI _ _ Ho) as Hob.
  pose proof (inv_thread _ _ HI _ _ _ Ht Hg) as Hok. assert (l < length (objects m)) by by eapply lookup_lt_Some.
  exists (<[i := (g.1, seen)]> gs). eapply (Inv_update m gs i t g t' (g.1, seen) l o o'); try done; cbn [fst snd value readers writer o'].
  - split; [done|apply Hok|]. cbn [snd fst]. intros l' Hl'. destruct (Hseen l' Hl') as [-> Hlo]. exists v'. split_and!; [done..|].
    intros _. exists o'. by rewrite list_lookup_insert_eq.
  - by intros l' c' ?%Hnl.
  - rewrite (ok_writer _ _ _ _ Hob). split; [intros (g1 & Hg1 & Hw1); by simplify_eq|]. intros Hw1. exists g. by split.
  - apply (ok_exclusive _ _ _ _ Hob).
  - intros j Hj. right. split; [|done]. intros ->. destruct (ok_announced _ _ _ _ Hob i Hj) as (u & c & Hu & Hc).
    simplify_eq. by destruct (Hnl _ _ Hc).
Qed.

Lemma object_eta (o : object V) : mkObject (value o) (readers o) (writer o) = o.
Proof. by destruct o. Qed.

Lemma step_load m gs i l c v (g : ghost) o :
  Inv m gs → threads m !! i = Some (mkThread (Load l :: c) v) → gs !! i = Some g → objects m !! l = Some o →
  disc g.1 (Some l) c →
  step_ok m i (mkMachine (<[l := o]> (objects m)) (<[i := mkThread c (Some (value o))]> (threads m))).
Proof.
  intros HI Ht Hg Ho Hd. split_and!.
  - pose proof (step_access m gs i _ (mkThread c (Some (value o))) g (Some l) l o (value o) HI Ht Hg Ho) as Hs.
    cbn zeta in Hs. rewrite object_eta in Hs. apply Hs; [done| |by left|by intros l' [= <-]|done].
    by apply (ok_value _ _ _ _ (inv_object _ _ HI _ _ Ho)).
  - pose proof (potential_update m i _ (mkThread c (Some (value o))) l o o Ht Ho) as Hp. unfold size_of in Hp at 1 2. csimpl in Hp. unfold id in Hp. lia.
  - rewrite (values_update m l o) by done. unfold after, next_op. by rewrite Ht.
Qed.

Lemma alter_insert_eq (f : V → V) (vs : list V) l v : vs !! l = Some v → alter f l vs = <[l := f v]> vs.
Proof.
  intros Hv. apply list_eq. intros k. assert (l < length vs) by by eapply lookup_lt_Some. destruct (decide (k = l)) as [->|Hne].
  - by rewrite list_lookup_alter_eq, list_lookup_insert_eq, Hv.
  - by rewrite list_lookup_alter_ne, list_lookup_insert_ne.
Qed.

Lemma step_store m gs i l f c v (g : ghost) o :
  Inv m gs → threads m !! i = Some (mkThread (Store l f :: c) (Some v)) → gs !! i = Some g → objects m !! l = Some o →
  g.1 !! l = Some true → g.2 = Some l → (∀ v, I l v → I l (f v)) → disc g.1 None c →
  step_ok m i (mkMachine (<[l := mkObject (f v) (readers o) (writer o)]> (objects m)) (<[i := mkThread c (Some v)]> (threads m))).
Proof.
  intros HI Ht Hg Ho Hw Hs Hf Hd. pose proof (inv_object _ _ HI _ _ Ho) as Hob. set (o' := mkObject _ _ _).
  assert (v = value o) as ->.
  { destruct (ok_seen _ _ _ (inv_thread _ _ HI _ _ _ Ht Hg) l Hs) as (u & [= <-] & _ & Hu). destruct (Hu Hw) as (o1 & ? & <-). by simplify_eq. }
  split_and!.
  - eapply (step_access m gs i _ (mkThread c (Some (value o))) g None l o); try done; [|by right]. by apply Hf, (ok_value _ _ _ _ Hob).
  - pose proof (potential_update m i _ (mkThread c (Some (value o))) l o o' Ht Ho) as Hp. unfold size_of in Hp at 1 2. csimpl in Hp.
    unfold unannounced, id in Hp. cbn [writer o'] in Hp. lia.
  - unfold after, next_op. rewrite Ht. cbn. unfold apply_store, values. cbn [fst snd objects].
    rewrite list_fmap_insert. symmetry. apply alter_insert_eq. by rewrite list_lookup_fmap, Ho.
Qed.

Lemma step_branch m gs i k h c v (g : ghost) l o :
  Inv m gs → threads m !! i = Some (mkThread (Branch k h :: c) (Some v)) → gs !! i = Some g → objects m !! l = Some o →
  sum_list (cost <$> h v) ≤ 2 * k → disc g.1 None (h v ++ c) →
  step_ok m i (mkMachine (objects m) (<[i := mkThread (h v ++ c) (Some v)]> (threads m))).
Proof.
  intros HI Ht Hg Ho Hk Hd. assert (<[l := o]> (objects m) = objects m) as E by by apply list_insert_id. split_and!.
  - pose proof (step_access m gs i _ (mkThread (h v ++ c) (Some v)) g None l o (value o) HI Ht Hg Ho) as Hs.
    cbn zeta in Hs. rewrite object_eta, E in Hs. apply Hs; [done| |by left|done|done].
    by apply (ok_value _ _ _ _ (inv_object _ _ HI _ _ Ho)).
  - pose proof (potential_update m i _ (mkThread (h v ++ c) (Some v)) l o o Ht Ho) as Hp. rewrite E in Hp. unfold size_of in Hp at 1 2.
    csimpl in Hp. rewrite fmap_app, sum_list_with_app in Hp. unfold id in Hp, Hk. lia.
  - unfold after, next_op. by rewrite Ht.
Qed.
Lemma do_ok m gs i m' : Inv m gs → do i m = Some m' → step_ok m i m'.
Proof.
  intros HI Hdo. unfold do in Hdo. destruct (threads m !! i) as [[[|op c] v]|] eqn:Ht; [done| |done]. cbn [code local] in Hdo.
  destruct (ghost_of _ _ _ _ HI Ht) as (g & Hg & Hok). pose proof (disc_inv _ _ _ _ (ok_disc _ _ _ Hok)) as Hd.
  destruct op as [l|l|l|l|l|l f|k h]; cbn [op_object] in Hdo.
  7: { destruct Hd as (l & w & Hl & Hs & Hd). destruct (ok_seen _ _ _ Hok l Hs) as (u & [= ->] & Hu & _). injection Hdo as <-.
       destruct (Hd u Hu) as (Hk & _ & Hd'). destruct (object_of _ _ l HI (ok_held _ _ _ Hok _ _ Hl)) as (o & Ho & _).
       by eapply step_branch. }
  all: destruct (objects m !! l) as [o|] eqn:Ho; [|done]; destruct (on_object i _ _ o) as [[o' mv]|] eqn:Hon; [|done]; injection Hdo as <-.
  - destruct mv; [|by cbn in Hon; case_match]. eapply (step_acquire m gs i _ c v g l o o' false); naive_solver.
  - destruct mv; [|by cbn in Hon; case_match]. eapply (step_release m gs i _ c v g l o o' false); naive_solver.
  - destruct mv; [eapply (step_acquire m gs i _ c v g l o o' true); naive_solver|]. cbn in Hon.
    destruct (writer o) as [[j []]|] eqn:Ew; [done|by case_bool_decide|]. injection Hon as <-. eapply step_announce; naive_solver.
  - destruct mv; [|cbn in Hon; by repeat case_match]. eapply (step_release m gs i _ c v g l o o' true); naive_solver.
  - cbn in Hon. injection Hon as <- <-. eapply step_load; naive_solver.
  - destruct Hd as (Hw & Hf & Hs & Hd). destruct (ok_seen _ _ _ Hok l Hs) as (u & [= ->] & _). cbn in Hon. injection Hon as <- <-.
    by eapply step_store.
Qed.

(** *** Progress *)

(** A thread that is not finished moves, or waits for a lock above those it holds. *)
Lemma moves_or_waits m gs i op c v g :
  Inv m gs → threads m !! i = Some (mkThread (op :: c) v) → gs !! i = Some g →
  is_Some (do i m) ∨ ∃ l o, (op = RLock l ∨ op = Lock l) ∧ l < n ∧ above l g.1 ∧ objects m !! l = Some o ∧ is_Some (writer o).
Proof.
  intros HI Ht Hg. pose proof (inv_thread _ _ HI _ _ _ Ht Hg) as Hok. pose proof (disc_inv _ _ _ _ (ok_disc _ _ _ Hok)) as Hd.
  unfold do. rewrite Ht. cbn [code local].
  assert (∀ l w, g.1 !! l = Some w → ∃ o, objects m !! l = Some o ∧ object_ok m gs l o) as Hobj.
  { intros l w Hl. apply (object_of _ _ l HI). by eapply ok_held. }
  destruct op as [l|l|l|l|l|l f|k h]; cbn [op_object].
  - destruct Hd as (Hl & Ha & _). destruct (object_of _ _ l HI Hl) as (o & Ho & _). rewrite Ho. cbn. destruct (writer o) eqn:Ew; [right|by left; eexists].
    exists l, o. split_and!; [by left|done..|by rewrite Ew].
  - left. destruct Hd as (Hl & _). destruct (Hobj _ _ Hl) as (o & Ho & Hob). rewrite Ho. cbn.
    pose proof (readers_of_reads _ _ _ _ Hg Hl) as Hr. rewrite <- (ok_readers _ _ _ _ Hob) in Hr. by destruct (readers o).
  - destruct Hd as (Hl & Ha & _). destruct (object_of _ _ l HI Hl) as (o & Ho & _). rewrite Ho. cbn. destruct (writer o) eqn:Ew; [right|by left].
    exists l, o. split_and!; [by right|done..|by rewrite Ew].
  - left. destruct Hd as (Hl & _). destruct (Hobj _ _ Hl) as (o & Ho & Hob). rewrite Ho. cbn.
    assert (writer o = Some (i, true)) as -> by (apply (ok_writer _ _ _ _ Hob); by exists g). by rewrite bool_decide_eq_true_2.
  - left. destruct Hd as ((w & Hl) & _). destruct (Hobj _ _ Hl) as (o & Ho & Hob). rewrite Ho. by eexists.
  - left. destruct Hd as (Hl & _ & Hs & _). destruct (Hobj _ _ Hl) as (o & Ho & Hob). rewrite Ho. cbn.
    destruct (ok_seen _ _ _ Hok l Hs) as (u & Hu & _). cbn in Hu. rewrite Hu. by eexists.
  - left. destruct Hd as (l & w & Hl & Hs & _). destruct (ok_seen _ _ _ Hok l Hs) as (u & Hu & _). cbn in Hu. rewrite Hu. by eexists.
Qed.

(** A thread that holds a lock is not finished. *)
Lemma holder_waits m gs j g l w :
  Inv m gs → (∀ i, do i m = None) → gs !! j = Some g → g.1 !! l = Some w →
  ∃ l' op c v, threads m !! j = Some (mkThread (op :: c) v) ∧ (op = RLock l' ∨ op = Lock l') ∧ l < l' ∧ l' < n.
Proof.
  intros HI Hstuck Hg Hw. assert (is_Some (threads m !! j)) as [[c v] Ht].
  { apply lookup_lt_is_Some. rewrite <- (inv_ghosts _ _ HI). by eapply lookup_lt_Some. }
  pose proof (ok_disc _ _ _ (inv_thread _ _ HI _ _ _ Ht Hg)) as Hd. cbn [code] in Hd.
  destruct c as [|op c]; [apply disc_nil_inv in Hd; by rewrite Hd in Hw|].
  destruct (moves_or_waits _ _ _ _ _ _ _ HI Ht Hg) as [[? Hm]|(l' & o & Hop & Hl' & Ha & _)]; [by rewrite Hstuck in Hm|].
  exists l', op, c, v. split_and!; [done..|by eapply Ha|done].
Qed.

Lemma nobody_waits m gs l : Inv m gs → (∀ i, do i m = None) → l < n → ∀ i op c v,
  threads m !! i = Some (mkThread (op :: c) v) → op = RLock l ∨ op = Lock l → False.
Proof.
  intros HI Hstuck Hl. remember (n - l) as k eqn:Hk. revert l Hl Hk.
  induction (lt_wf k) as [k _ IH]. intros l Hl Hk i op c v Ht Hop.
  assert (∀ j g w, gs !! j = Some g → g.1 !! l = Some w → False) as Hno.
  { intros j g w Hg Hw. destruct (holder_waits _ _ _ _ _ _ HI Hstuck Hg Hw) as (l' & op' & c' & v' & Ht' & Hop' & Hlt & Hl').
    by eapply (IH (n - l') ltac:(lia) l' Hl' eq_refl). }
  destruct (ghost_of _ _ _ _ HI Ht) as (g & Hg & _).
  destruct (moves_or_waits _ _ _ _ _ _ _ HI Ht Hg) as [[? Hm]|(l' & o & Hop' & _ & _ & Ho & [[j []] Hwr])]; [by rewrite Hstuck in Hm|..].
  - assert (l' = l) as -> by naive_solver. apply (ok_writer _ _ _ _ (inv_object _ _ HI _ _ Ho)) in Hwr as (g' & Hg' & Hw'). by eapply Hno.
  - assert (l' = l) as -> by naive_solver. destruct (ok_announced _ _ _ _ (inv_object _ _ HI _ _ Ho) j Hwr) as ([cj vj] & cj' & Htj & Hcj).
    cbn [code] in Hcj. subst cj. destruct (decide (readers o = 0)) as [Hz|Hz].
    + specialize (Hstuck j). unfold do in Hstuck. rewrite Htj in Hstuck. cbn in Hstuck. rewrite Ho in Hstuck. cbn in Hstuck.
      by rewrite Hwr, bool_decide_eq_true_2 in Hstuck.
    + rewrite (ok_readers _ _ _ _ (inv_object _ _ HI _ _ Ho)) in Hz. apply readers_of_pos in Hz as (r & gr & Hgr & Hr). by eapply Hno.
Qed.

(** Some thread can move, unless all have finished. *)
Lemma Inv_progress m gs : Inv m gs → finished m ∨ ∃ i, is_Some (do i m).
Proof.
  intros HI. destruct (decide (Exists (λ i, is_Some (do i m)) (seq 0 (length (threads m))))) as [He|Hn].
  { right. apply Exists_exists in He as (i & _ & Hi). by exists i. }
  left. assert (∀ i, do i m = None) as Hstuck.
  { intros i. destruct (decide (i < length (threads m))) as [Hi|Hi].
    - apply eq_None_not_Some. intros Hs. apply Hn, Exists_exists. exists i. split; [|done]. apply elem_of_seq. lia.
    - unfold do. by rewrite lookup_ge_None_2 by lia. }
  apply Forall_forall. intros [c v] (i & Ht)%list_elem_of_lookup. cbn [code]. destruct c as [|op c]; [done|]. exfalso.
  destruct (ghost_of _ _ _ _ HI Ht) as (g & Hg & _).
  destruct (moves_or_waits _ _ _ _ _ _ _ HI Ht Hg) as [[? Hm]|(l & o & Hop & Hl & _)]; [by rewrite Hstuck in Hm|].
  by eapply nobody_waits.
Qed.
Lemma Inv_no_race m gs : Inv m gs → ¬ data_race m.
Proof.
  intros HI (i & j & l & f & Hne & Hi & Hj). unfold next_op in *.
  destruct (threads m !! i) as [[[|o c] v]|] eqn:Hti; [done| |done]. cbn in Hi. injection Hi as ->.
  destruct (threads m !! j) as [[[|o' c'] v']|] eqn:Htj; [naive_solver| |naive_solver]. cbn in Hj.
  destruct (ghost_of _ _ _ _ HI Hti) as (g & Hg & Hok), (ghost_of _ _ _ _ HI Htj) as (g' & Hg' & Hok').
  pose proof (disc_inv _ _ _ _ (ok_disc _ _ _ Hok)) as (Hw & _). pose proof (disc_inv _ _ _ _ (ok_disc _ _ _ Hok')) as Hd'.
  destruct (object_of _ _ l HI (ok_held _ _ _ Hok _ _ Hw)) as (ob & Hob & Hbo).
  assert (writer ob = Some (i, true)) as Hwr by (apply (ok_writer _ _ _ _ Hbo); by exists g).
  assert (∃ w, g'.1 !! l = Some w) as [[] Hw'] by (destruct Hj as [[= ->]|[f' [= ->]]]; naive_solver).
  - assert (writer ob = Some (j, true)) by (apply (ok_writer _ _ _ _ Hbo); by exists g'). congruence.
  - apply (readers_of_reads _ _ _ _ Hg' Hw'). by rewrite <- (ok_readers _ _ _ _ Hbo), (ok_exclusive _ _ _ _ Hbo _ Hwr).
Qed.

(** ** Runs *)

(** What thread [i] has still to assign. *)
Definition pending (m : machine V) (i : nat) : list (nat * (V → V)) :=
  match threads m !! i with Some t => writes_of (code t) | None => [] end.

Lemma pending_goto os ts i t t' :
  ts !! i = Some t → ∀ j, pending (mkMachine os (<[i := t']> ts)) j =
    if decide (j = i) then writes_of (code t') else pending (mkMachine os ts) j.
Proof.
  intros Ht j. unfold pending. cbn [threads]. assert (i < length ts) by by eapply lookup_lt_Some.
  case_decide as Hd; [subst j; by rewrite list_lookup_insert_eq|by rewrite list_lookup_insert_ne].
Qed.

Lemma writes_of_app (c c' : list (lock_op V)) : writes_of (c ++ c') = writes_of c ++ writes_of c'.
Proof. apply omap_app. Qed.

Lemma do_pending m gs i m' j :
  Inv m gs → do i m = Some m' → pending m j = by_thread j (store_of i (next_op m i)) ++ pending m' j.
Proof.
  intros HI. unfold do, next_op. destruct (threads m !! i) as [[[|op c] v]|] eqn:Ht; [done| |done]. cbn [code local mbind option_bind head].
  destruct (ghost_of _ _ _ _ HI Ht) as (g & Hg & Hok). pose proof (disc_inv _ _ _ _ (ok_disc _ _ _ Hok)) as Hd.
  assert (∀ os, pending (mkMachine os (threads m)) j = pending m j) as Hos by done.
  assert (pending m j = if decide (j = i) then writes_of (op :: c) else pending m j) as Hj.
  { case_decide; [|done]. subst. unfold pending. by rewrite Ht. }
  intros Hdo. unfold by_thread. destruct op as [l|l|l|l|l|l f|k h]; cbn [op_object] in Hdo.
  7: { destruct Hd as (l & w & Hl & Hs & Hd). destruct (ok_seen _ _ _ Hok l Hs) as (u & [= ->] & Hu & _). injection Hdo as <-.
       destruct (Hd u Hu) as (_ & Hwr & _). rewrite (pending_goto _ _ _ _ _ Ht), Hos, Hj. cbn [code store_of filter fmap].
       case_decide; [|done]. rewrite writes_of_app, Hwr. done. }
  all: destruct (objects m !! l) as [o|]; [|done]; destruct (on_object i _ _ o) as [[o' mv]|] eqn:Hon; [|done]; injection Hdo as <-; rewrite Hj.
  6: assert (mv = true) as -> by (cbn in Hon; destruct v; by simplify_eq).
  all: try destruct mv; rewrite ?(pending_goto _ _ _ _ _ Ht), ?Hos; cbn [code store_of];
    rewrite ?filter_cons, ?filter_nil; cbn; repeat case_decide; simplify_eq; try done.
  all: unfold pending; rewrite Ht; done.
Qed.

Lemma run_Inv sched m gs m' :
  Inv m gs → run sched m = Some m' →
  (∃ gs', Inv m' gs') ∧ length sched + potential m' ≤ potential m ∧
  values m' = foldl (λ vs e, apply_store e vs) (values m) (stores sched m) ∧
  ∀ i, pending m i = by_thread i (stores sched m) ++ pending m' i.
Proof.
  revert m gs; induction sched as [|i sched IH]; intros m gs HI; cbn [run stores].
  - intros [= <-]. split_and!; [by eexists|simpl; lia|done|done].
  - destruct (do i m) as [m1|] eqn:Hdo; [|done]. intros Hrun.
    destruct (do_ok _ _ _ _ HI Hdo) as ((gs1 & HI1) & Hpot & Hval). destruct (IH m1 gs1 HI1 Hrun) as (HI' & Hlen & Hval' & Hpend).
    split_and!; [done|simpl; lia| |].
    + rewrite foldl_app, Hval', Hval. done.
    + intros j. rewrite (do_pending _ _ _ _ j HI Hdo), Hpend. unfold by_thread. by rewrite filter_app, fmap_app, app_assoc.
Qed.

Lemma foldl_stores log (vs : list V) l :
  foldl (λ vs e, apply_store e vs) vs log !! l = (λ v, foldl (λ v f, f v) v (to_object l log)) <$> vs !! l.
Proof.
  revert vs; induction log as [|[[i k] f] log IH]; intros vs; cbn [foldl]; [by destruct (vs !! l)|].
  rewrite IH. unfold apply_store, to_object. cbn [fst snd]. rewrite filter_cons. case_decide as Hk; cbn [fst snd] in Hk.
  - subst k. rewrite list_lookup_alter_eq. by destruct (vs !! l).
  - by rewrite list_lookup_alter_ne.
Qed.

Lemma start_Inv (vs : list V) codes :
  length vs = n → (∀ l v, vs !! l = Some v → I l v) → Forall (disc ∅ None) codes →
  Inv (start vs codes) (replicate (length codes) (∅, None)).
Proof.
  intros Hn Hv Hc. assert (∀ l, readers_of l (replicate (length codes) (∅, None)) = 0) as Hr.
  { intros l. destruct (decide (readers_of l (replicate (length codes) (∅, None)) = 0)) as [|Hz]; [done|].
    apply readers_of_pos in Hz as (i & g & [-> _]%lookup_replicate & Hg). done. }
  split; cbn [start objects threads].
  - by rewrite length_fmap.
  - by rewrite length_replicate, length_fmap.
  - intros i t g Ht [-> _]%lookup_replicate. rewrite list_lookup_fmap_Some in Ht. destruct Ht as (c & -> & Hci).
    split; [|done..]. by eapply Forall_lookup_1.
  - intros l o. rewrite list_lookup_fmap_Some. intros (v & -> & Hl). split; cbn [value readers writer]; [by apply Hv|by rewrite Hr| |done..].
    intros i. split; [done|]. intros (g & [-> _]%lookup_replicate & Hg). done.
Qed.
End discipline.
