(* ===== verification/Locks.v ===== *)
(** * Concurrent use of bundles and sets

    Models the locking of the methods of Bundle and Set in src/bundle/spiffebundle,
    src/bundle/x509bundle, src/bundle/jwtbundle and src/exp/bundle/witbundle, on the
    machine of RwMutex: a method is the sequence of its lock operations and of its
    accesses to the fields. What a method computes is its definition in SpiffeBundle,
    X509Bundle, JwtBundle or WitBundle; trust domains never change and are not guarded. *)

From S2P Require Import Prelude Path GoUrl ID Crypto X509 X509Sample Pem BundleSet X509Bundle Jose JwtBundle WitBundle SpiffeBundle RwMutex.

(** ** Sections *)

(** A set holds pointers to bundles. *)
Inductive shared (B : Type) : Type := SSet (bundles : gmap TrustDomain nat) | SBundle (b : B).
Arguments SSet {B} bundles.
Arguments SBundle {B} b.

Section sections.
Context {B : Type}.

Definition on_bundle (f : B → B) (v : shared B) : shared B := match v with SBundle b => SBundle (f b) | SSet m => SSet m end.
Definition on_set (f : gmap TrustDomain nat → gmap TrustDomain nat) (v : shared B) : shared B :=
  match v with SSet m => SSet (f m) | SBundle b => SBundle b end.

Definition read_method (l : nat) : list (lock_op (shared B)) := [RLock l; Load l; RUnlock l].
(** The getters of the four sources look at the trust domain only. *)
Definition getter_method (l : nat) : list (lock_op (shared B)) := [RLock l; RUnlock l].
Definition write_method (l : nat) (f : B → B) : list (lock_op (shared B)) := [Lock l; Load l; Store l (on_bundle f); Unlock l].

(** An authority without a key ID is refused before the lock. *)
Definition add_authority (l : nat) (keyID : string) (f : B → res B) : list (lock_op (shared B)) :=
  if bool_decide (keyID = "") then [] else write_method l (λ b, match f b with Ok b' => b' | _ => b end).

(** Equal reads the fields of both bundles without their locks, when the trust domains
    are the same. *)
Definition equal_method (own : nat → TrustDomain) (l other : nat) : list (lock_op (shared B)) :=
  if bool_decide (own l = own other) then [Load l; Load other] else [].

(** *** Sets: Add(bundle), with the pointer of the bundle or nil; Has, Get, Bundles, Len
    and Get...BundleForTrustDomain; the projections of spiffebundle.Set, which call
    X509Bundle, JWTBundle or WITBundle with the lock of the set held. *)
Inductive set_method : Type :=
  | S_Add (bundle : option nat) | S_Remove (td : TrustDomain) | S_read | S_project (td : TrustDomain).

Definition set_code (own : nat → TrustDomain) (l : nat) (m : set_method) : list (lock_op (shared B)) :=
  match m with
  | S_Add (Some p) => [Lock l; Load l; Store l (on_set <[own p := p]>); Unlock l]
  | S_Add None => [Lock l; Unlock l]
  | S_Remove td => [Lock l; Load l; Store l (on_set (delete td)); Unlock l]
  | S_read => read_method l
  | S_project td =>
      [RLock l; Load l;
       Branch 3 (λ v, match v with
         | SSet bundles => match bundles !! td with Some p => read_method p | None => [] end
         | SBundle _ => []
         end);
       RUnlock l]
  end.
End sections.

(** ** What a package promises of the methods of its Bundle *)
Class Package (B : Type) := {
  bundle_td : B → TrustDomain;
  method : Type;
  method_code : (nat → TrustDomain) → nat → method → list (lock_op (shared B));
  once : TrustDomain → method → Prop;        (* takes the lock of the bundle once, around all it does *)
}.
Arguments method B {_}.

(** The sections a method may consist of. *)
Definition guarded {B} `{Package B} (l : nat) (c : list (lock_op (shared B))) : Prop :=
  c = [] ∨ c = read_method l ∨ c = getter_method l ∨ ∃ f, (∀ b, bundle_td (f b) = bundle_td b) ∧ c = write_method l f.

Class PackageLaws (B : Type) `{Package B} : Prop :=
  once_guarded own l m : once (own l) m → guarded l (method_code own l m).

Lemma guarded_add {B} `{Package B} l keyID (f : B → res B) :
  (∀ b b', f b = Ok b' → bundle_td b' = bundle_td b) → guarded l (add_authority l keyID f).
Proof.
  intros Hf. unfold add_authority. case_bool_decide; [by left|]. right; right; right. eexists. split; [|done].
  intros b. cbn. destruct (f b) eqn:E; [by apply Hf|done..].
Qed.
Lemma guarded_write {B} `{Package B} l (f : B → B) : (∀ b, bundle_td (f b) = bundle_td b) → guarded l (write_method l f).
Proof. intros Hf. right; right; right. by exists f. Qed.
Lemma guarded_read {B} `{Package B} l : guarded l (read_method l).
Proof. right. by left. Qed.
Lemma guarded_getter {B} `{Package B} l : guarded l (getter_method l).
Proof. right; right. by left. Qed.
Lemma guarded_nothing {B} `{Package B} l : guarded l [].
Proof. by left. Qed.
Create HintDb locks.
#[export] Hint Resolve guarded_add guarded_write guarded_read guarded_getter guarded_nothing : locks.

(** *** spiffebundle *)
Inductive spiffe_method : Type :=
  | M_read                            (* the accessors, Marshal, Clone and the projections *)
  | M_GetBundleForTrustDomain (td : TrustDomain)
  | M_AddX509Authority (c : Certificate)
  | M_RemoveX509Authority (c : Certificate)
  | M_SetX509Authorities (l : list Certificate)
  | M_AddJWTAuthority (keyID : string) (k : PublicKey)
  | M_RemoveJWTAuthority (keyID : string)
  | M_SetJWTAuthorities (m : gmap string PublicKey)
  | M_AddWITAuthority (keyID : string) (k : PublicKey)
  | M_RemoveWITAuthority (keyID : string)
  | M_SetWITAuthorities (m : gmap string PublicKey)
  | M_SetRefreshHint (h : Z) | M_ClearRefreshHint
  | M_SetSequenceNumber (n : Z) | M_ClearSequenceNumber
  | M_GetX509BundleForTrustDomain (td : TrustDomain)
  | M_GetJWTBundleForTrustDomain (td : TrustDomain)
  | M_GetWITBundleForTrustDomain (td : TrustDomain)
  | M_Equal (other : nat).

(** The projections X509Bundle, JWTBundle and WITBundle are called with the lock held. *)
Definition projection_for (own : nat → TrustDomain) (l : nat) (td : TrustDomain) : list (lock_op (shared Bundle)) :=
  [RLock l] ++ (if bool_decide (own l = td) then read_method l else []) ++ [RUnlock l].

Definition spiffe_code (own : nat → TrustDomain) (l : nat) (m : spiffe_method) : list (lock_op (shared Bundle)) :=
  match m with
  | M_read => read_method l
  | M_GetBundleForTrustDomain _ => getter_method l
  | M_AddX509Authority c => write_method l (λ b, AddX509Authority b c)
  | M_RemoveX509Authority c => write_method l (λ b, RemoveX509Authority b c)
  | M_SetX509Authorities cs => write_method l (λ b, SetX509Authorities b cs)
  | M_AddJWTAuthority keyID k => add_authority l keyID (λ b, AddJWTAuthority b keyID k)
  | M_RemoveJWTAuthority keyID => write_method l (λ b, RemoveJWTAuthority b keyID)
  | M_SetJWTAuthorities m => write_method l (λ b, SetJWTAuthorities b m)
  | M_AddWITAuthority keyID k => add_authority l keyID (λ b, AddWITAuthority b keyID k)
  | M_RemoveWITAuthority keyID => write_method l (λ b, RemoveWITAuthority b keyID)
  | M_SetWITAuthorities m => write_method l (λ b, SetWITAuthorities b m)
  | M_SetRefreshHint h => write_method l (λ b, SetRefreshHint b h)
  | M_ClearRefreshHint => write_method l ClearRefreshHint
  | M_SetSequenceNumber n => write_method l (λ b, SetSequenceNumber b n)
  | M_ClearSequenceNumber => write_method l ClearSequenceNumber
  | M_GetX509BundleForTrustDomain td | M_GetJWTBundleForTrustDomain td | M_GetWITBundleForTrustDomain td =>
      projection_for own l td
  | M_Equal other => equal_method own l other
  end.

(** All but the projections for the bundle's own trust domain, which take the lock
    again, and Equal, which does not take it. *)
Definition spiffe_once (own : TrustDomain) (m : spiffe_method) : Prop :=
  match m with
  | M_GetX509BundleForTrustDomain td | M_GetJWTBundleForTrustDomain td | M_GetWITBundleForTrustDomain td => own ≠ td
  | M_Equal _ => False
  | _ => True
  end.

#[export] Instance spiffe_package : Package SpiffeBundle.Bundle := {|
  bundle_td := SpiffeBundle.trustDomain; method := spiffe_method; method_code := spiffe_code; once := spiffe_once;
|}.
#[export] Instance spiffe_laws : PackageLaws SpiffeBundle.Bundle.
Proof.
  intros own l m Ho. destruct m; cbn in *; try done; try (by eauto with locks);
    try (apply guarded_write; intros b; unfold AddX509Authority; by try destruct (has_equal _ _));
    try (apply guarded_add; intros b b'; unfold AddJWTAuthority, AddWITAuthority; case_bool_decide; [done|]; by intros [= <-]);
    unfold projection_for; rewrite bool_decide_eq_false_2 by done; apply guarded_getter.
Qed.

(** *** x509bundle: GetX509BundleForTrustDomain takes no lock. *)
Inductive x509_method : Type :=
  | X_read | X_GetX509BundleForTrustDomain (td : TrustDomain)
  | X_AddX509Authority (c : Certificate) | X_RemoveX509Authority (c : Certificate) | X_SetX509Authorities (l : list Certificate)
  | X_Equal (other : nat).

Definition x509_code (own : nat → TrustDomain) (l : nat) (m : x509_method) : list (lock_op (shared X509Bundle.Bundle)) :=
  match m with
  | X_read => read_method l
  | X_GetX509BundleForTrustDomain _ => []
  | X_AddX509Authority c => write_method l (λ b, X509Bundle.AddX509Authority b c)
  | X_RemoveX509Authority c => write_method l (λ b, X509Bundle.RemoveX509Authority b c)
  | X_SetX509Authorities cs => write_method l (λ b, X509Bundle.SetX509Authorities b cs)
  | X_Equal other => equal_method own l other
  end.
Definition x509_once (own : TrustDomain) (m : x509_method) : Prop := match m with X_Equal _ => False | _ => True end.

#[export] Instance x509_package : Package X509Bundle.Bundle := {|
  bundle_td := X509Bundle.trustDomain; method := x509_method; method_code := x509_code; once := x509_once;
|}.
#[export] Instance x509_laws : PackageLaws X509Bundle.Bundle.
Proof.
  intros own l m Ho. destruct m; cbn in *; try done; try (by eauto with locks);
    apply guarded_write; intros b; unfold X509Bundle.AddX509Authority, X509Bundle.RemoveX509Authority; by repeat case_match.
Qed.

(** *** jwtbundle *)
Inductive jwt_method : Type :=
  | J_read | J_GetJWTBundleForTrustDomain (td : TrustDomain)
  | J_AddJWTAuthority (keyID : string) (k : PublicKey) | J_RemoveJWTAuthority (keyID : string)
  | J_SetJWTAuthorities (m : gmap string PublicKey) | J_Equal (other : nat).

Definition jwt_code (own : nat → TrustDomain) (l : nat) (m : jwt_method) : list (lock_op (shared JwtBundle.Bundle)) :=
  match m with
  | J_read => read_method l
  | J_GetJWTBundleForTrustDomain _ => getter_method l
  | J_AddJWTAuthority keyID k => add_authority l keyID (λ b, JwtBundle.AddJWTAuthority b keyID k)
  | J_RemoveJWTAuthority keyID => write_method l (λ b, JwtBundle.RemoveJWTAuthority b keyID)
  | J_SetJWTAuthorities m => write_method l (λ b, JwtBundle.SetJWTAuthorities b m)
  | J_Equal other => equal_method own l other
  end.
Definition jwt_once (own : TrustDomain) (m : jwt_method) : Prop := match m with J_Equal _ => False | _ => True end.

#[export] Instance jwt_package : Package JwtBundle.Bundle := {|
  bundle_td := JwtBundle.trustDomain; method := jwt_method; method_code := jwt_code; once := jwt_once;
|}.
#[export] Instance jwt_laws : PackageLaws JwtBundle.Bundle.
Proof.
  intros own l m Ho. destruct m; cbn in *; try done; try (by eauto with locks).
  apply guarded_add. intros b b'. unfold JwtBundle.AddJWTAuthority. case_bool_decide; [done|]. by intros [= <-].
Qed.

(** *** witbundle *)
Inductive wit_method : Type :=
  | W_read | W_GetWITBundleForTrustDomain (td : TrustDomain)
  | W_AddWITAuthority (keyID : string) (k : PublicKey) | W_RemoveWITAuthority (keyID : string)
  | W_SetWITAuthorities (m : gmap string PublicKey) | W_Equal (other : nat).

Definition wit_code (own : nat → TrustDomain) (l : nat) (m : wit_method) : list (lock_op (shared WitBundle.Bundle)) :=
  match m with
  | W_read => read_method l
  | W_GetWITBundleForTrustDomain _ => getter_method l
  | W_AddWITAuthority keyID k => add_authority l keyID (λ b, WitBundle.AddWITAuthority b keyID k)
  | W_RemoveWITAuthority keyID => write_method l (λ b, WitBundle.RemoveWITAuthority b keyID)
  | W_SetWITAuthorities m => write_method l (λ b, WitBundle.SetWITAuthorities b m)
  | W_Equal other => equal_method own l other
  end.
Definition wit_once (own : TrustDomain) (m : wit_method) : Prop := match m with W_Equal _ => False | _ => True end.

#[export] Instance wit_package : Package WitBundle.Bundle := {|
  bundle_td := WitBundle.trustDomain; method := wit_method; method_code := wit_code; once := wit_once;
|}.
#[export] Instance wit_laws : PackageLaws WitBundle.Bundle.
Proof.
  intros own l m Ho. destruct m; cbn in *; try done; try (by eauto with locks).
  apply guarded_add. intros b b'. unfold WitBundle.AddWITAuthority. case_bool_decide; [done|]. by intros [= <-].
Qed.

(** ** Calls on sets and bundles that are shared *)
Section calls.
Context {B : Type} {P : Package B}.

(** The objects are the sets, then the bundles; a pointer is the place of a bundle. *)
Inductive shared_call : Type := C_set (s : nat) (m : set_method) | C_bundle (p : nat) (m : method B).

Context (sets : list (gmap TrustDomain nat)) (bundles : list B).

Definition objects_of : list (shared B) := (SSet <$> sets) ++ (SBundle <$> bundles).
Definition own (l : nat) : TrustDomain :=
  match bundles !! (l - length sets) with Some b => bundle_td b | None => mkTrustDomain "" end.
Definition is_set (l : nat) : Prop := l < length sets.
Definition is_bundle (l : nat) : Prop := length sets ≤ l < length sets + length bundles.

Definition call_code (c : shared_call) : list (lock_op (shared B)) :=
  match c with C_set s m => set_code own s m | C_bundle p m => method_code own p m end.
Definition codes_of (calls : list (list shared_call)) : list (list (lock_op (shared B))) := (λ cs, mjoin (call_code <$> cs)) <$> calls.

(** A set maps the trust domain of each of its bundles to it. *)
Definition set_ok (m : gmap TrustDomain nat) : Prop := ∀ td p, m !! td = Some p → is_bundle p ∧ own p = td.
Definition value_ok (l : nat) (v : shared B) : Prop :=
  match v with SSet m => is_set l ∧ set_ok m | SBundle b => is_bundle l ∧ bundle_td b = own l end.

(** Calls on existing objects, of methods that take the lock once. *)
Definition call_ok (c : shared_call) : Prop :=
  match c with
  | C_set s m => is_set s ∧ match m with S_Add (Some p) => is_bundle p | _ => True end
  | C_bundle p m => is_bundle p ∧ once (own p) m
  end.
End calls.
Arguments shared_call B {P}.

Section calls_lemmas.
Context {B : Type} {P : Package B} {PL : PackageLaws B}.
Context (sets : list (gmap TrustDomain nat)) (bundles : list B).
#[local] Abbreviation n := (length sets + length bundles).
#[local] Abbreviation I := (value_ok sets bundles).
#[local] Abbreviation own := (own sets bundles).
Implicit Types (h : gmap nat bool) (rest : list (lock_op (shared B))).

Lemma delete_fresh h l w : above l h → delete l (<[l := w]> h) = h.
Proof. intros Ha%above_fresh. by apply delete_insert_id. Qed.

Lemma disc_getter h l rest : l < n → above l h → disc n I h None rest → disc n I h None (getter_method l ++ rest).
Proof.
  intros Hl Ha Hr. apply disc_rlock; [done..|]. apply disc_runlock; [by rewrite lookup_insert_eq|]. by rewrite delete_fresh.
Qed.

Lemma disc_read h l rest : l < n → above l h → disc n I h None rest → disc n I h None (read_method l ++ rest).
Proof.
  intros Hl Ha Hr. apply disc_rlock; [done..|]. eapply disc_load; [by rewrite lookup_insert_eq|].
  apply disc_runlock; [by rewrite lookup_insert_eq|]. by rewrite delete_fresh.
Qed.

Lemma disc_write l f rest : l < n → (∀ v, I l v → I l (f v)) → disc n I ∅ None rest →
  disc n I ∅ None ([Lock l; Load l; Store l f; Unlock l] ++ rest).
Proof.
  intros Hl Hf Hr. assert (above l ∅) as Ha by done. apply disc_lock; [done..|]. eapply disc_load; [by rewrite lookup_insert_eq|].
  apply disc_store; [by rewrite lookup_insert_eq|done|]. apply disc_unlock; [by rewrite lookup_insert_eq|]. by rewrite delete_fresh.
Qed.

Lemma bundle_call p c : is_bundle sets bundles p → guarded p c → RwMutex.call n I c.
Proof.
  intros [Hk Hp] Hg rest Hr. destruct Hg as [->|[->|[->|(f & Hf & ->)]]]; [done|by apply disc_read|by apply disc_getter|].
  apply disc_write; [done| |done]. intros [m|b]; cbn; [done|]. by rewrite Hf.
Qed.

Lemma set_call s m : is_set sets s → match m with S_Add (Some p) => is_bundle sets bundles p | _ => True end →
  RwMutex.call n I (set_code own s m).
Proof.
  intros Hs Hm rest Hr. assert (s < n) as Hn by (unfold is_set in Hs; lia). assert (above s ∅) as Ha by done.
  destruct m as [[p|]|td| |td]; cbn [set_code].
  - apply disc_write; [done| |done]. intros [m|b]; cbn; [|done]. intros [_ Hok]. split; [done|].
    intros td q [[<- <-]|[_ Hq]]%lookup_insert_Some; [done|by apply Hok].
  - apply disc_lock; [done..|]. apply disc_unlock; [by rewrite lookup_insert_eq|]. by rewrite delete_fresh.
  - apply disc_write; [done| |done]. intros [m|b]; cbn; [|done]. intros [_ Hok]. split; [done|].
    intros td' q [_ Hq]%lookup_delete_Some. by apply Hok.
  - by apply disc_read.
  - apply disc_rlock; [done..|]. eapply disc_load; [by rewrite lookup_insert_eq|]. eapply disc_branch; [by rewrite lookup_insert_eq|].
    intros v Hv. assert (disc n I (<[s := false]> ∅) None (RUnlock s :: rest)) as Hrest.
    { apply disc_runlock; [by rewrite lookup_insert_eq|]. by rewrite delete_fresh. }
    destruct v as [m|b]; [|split_and!; [cbn; lia|done|done]].
    destruct (m !! td) as [p|] eqn:Hp; [|split_and!; [cbn; lia|done|done]].
    destruct Hv as [_ Hok]. destruct (Hok _ _ Hp) as [[Hk Hlt] _]. split_and!; [cbn; lia|done|]. apply disc_read; [done| |done].
    intros l w [[<- _]|[_ ?]]%lookup_insert_Some; [|done]. unfold is_set in Hs. lia.
Qed.

Lemma codes_disc calls : Forall (Forall (call_ok sets bundles)) calls → Forall (disc n I ∅ None) (codes_of sets bundles calls).
Proof.
  intros Hc. apply Forall_fmap. eapply Forall_impl; [exact Hc|]. intros cs Hcs. apply call_join, Forall_fmap.
  eapply Forall_impl; [exact Hcs|]. intros [s m|p m] [H1 H2]; cbn [call_code compose].
  - by apply set_call.
  - apply (bundle_call p); [done|]. by apply once_guarded.
Qed.

Lemma objects_ok l v : Forall (set_ok sets bundles) sets → objects_of sets bundles !! l = Some v → I l v.
Proof.
  intros Hs. unfold objects_of. rewrite lookup_app_Some, length_fmap, !list_lookup_fmap_Some.
  intros [(m & -> & Hm)|(Hl & b & -> & Hb)]; cbn.
  - split; [by eapply lookup_lt_Some|]. by eapply Forall_lookup_1.
  - pose proof (lookup_lt_Some _ _ _ Hb). split; [unfold is_bundle; lia|]. unfold Locks.own. by rewrite Hb.
Qed.

Lemma start_calls calls : Forall (set_ok sets bundles) sets → Forall (Forall (call_ok sets bundles)) calls →
  Inv n I (start (objects_of sets bundles) (codes_of sets bundles calls)) (replicate (length (codes_of sets bundles calls)) (∅, None)).
Proof.
  intros Hs Hc. apply start_Inv.
  - unfold objects_of. by rewrite length_app, !length_fmap.
  - intros l v. by apply objects_ok.
  - by apply codes_disc.
Qed.
End calls_lemmas.

(** ** Properties *)
Section linearize.
Context {B : Type} {P : Package B} {PL : PackageLaws B}.
Context (sets : list (gmap TrustDomain nat)) (bundles : list B) (calls : list (list (shared_call B))).
#[local] Abbreviation m0 := (start (objects_of sets bundles) (codes_of sets bundles calls)).

(** [C22] Calls on shared bundles and sets of a package, of the methods that take the
    lock of their bundle once and of all methods of sets, by any number of threads in any
    interleaving: no access races with an assignment; sets keep mapping trust domains to
    bundles of that trust domain, and bundles keep theirs; each set and each bundle is
    always what the sequential operations give one after the other in the order of their
    assignments, each thread's own calls in its order, and once all have finished none is
    missing; no state is a deadlock, the projections of sets, which lock a bundle while
    they hold the set, included; and every execution is finite. *)
Theorem bundle_calls_linearize sched m :
  Forall (set_ok sets bundles) sets → Forall (Forall (call_ok sets bundles)) calls → run sched m0 = Some m →
  let log := stores sched m0 in
  let writes i := writes_of (default [] (codes_of sets bundles calls !! i)) in
  ¬ data_race m ∧
  (∀ l v, values m !! l = Some v → value_ok sets bundles l v) ∧
  (∀ l, values m !! l = (λ v, foldl (λ v f, f v) v (to_object l log)) <$> objects_of sets bundles !! l) ∧
  (∀ i, by_thread i log `prefix_of` writes i) ∧
  (finished m → ∀ i, by_thread i log = writes i) ∧
  (finished m ∨ ∃ i, is_Some (do i m)) ∧
  length sched ≤ potential m0.
Proof.
  intros Hs Hc Hrun log writes. pose proof (start_calls sets bundles calls Hs Hc) as HI.
  destruct (run_Inv _ _ _ _ _ _ HI Hrun) as ((gs & HI') & Hlen & Hval & Hpend).
  assert (∀ i, pending m0 i = writes i) as Hw.
  { intros i. unfold pending, writes. cbn [threads start]. rewrite list_lookup_fmap. by destruct (codes_of sets bundles calls !! i). }
  split_and!.
  - by eapply Inv_no_race.
  - intros l v. unfold values. rewrite list_lookup_fmap_Some. intros (o & -> & Ho). by eapply ok_value, inv_object.
  - intros l. rewrite Hval, foldl_stores. unfold values, start. cbn [objects]. by rewrite <- list_fmap_compose, list_fmap_id.
  - intros i. rewrite <- Hw, Hpend. by eexists.
  - intros Hf i. rewrite <- Hw, Hpend. unfold pending. destruct (threads m !! i) as [t|] eqn:Ht.
    + unfold finished in Hf. rewrite Forall_lookup in Hf. by rewrite (Hf _ _ Ht), app_nil_r.
    + by rewrite app_nil_r.
  - by eapply Inv_progress.
  - lia.
Qed.
End linearize.

(** Two calls on the first of two bundles can race. *)
Definition may_race {B} {P : Package B} (b b' : B) (x y : method B) : Prop := ∃ sched m,
  run sched (start (objects_of [] [b; b']) (codes_of [] [b; b'] [[C_bundle 0 x]; [C_bundle 0 y]])) = Some m ∧ data_race m.

(** Equal reads while a writer assigns. *)
Lemma equal_races {B} {P : Package B} (b b' : B) equal writer f :
  bundle_td b = bundle_td b' →
  (∀ own, method_code own 0 equal = equal_method own 0 1) → (∀ own, method_code own 0 writer = write_method 0 f) →
  may_race b b' equal writer.
Proof.
  intros Htd He Hw. exists [1; 1; 1]. unfold codes_of. cbn [fmap list_fmap call_code mjoin list_join]. rewrite He, Hw.
  unfold equal_method. rewrite bool_decide_eq_true_2 by done. eexists. split; [reflexivity|].
  exists 1, 0, 0, (on_bundle f). split_and!; [done|done|by left].
Qed.

Lemma all_equals_race :
  (∀ (b b' : X509Bundle.Bundle) c, bundle_td b = bundle_td b' → may_race (B := X509Bundle.Bundle) b b' (X_Equal 1) (X_AddX509Authority c)) ∧
  (∀ (b b' : JwtBundle.Bundle) keyID, bundle_td b = bundle_td b' → may_race (B := JwtBundle.Bundle) b b' (J_Equal 1) (J_RemoveJWTAuthority keyID)) ∧
  (∀ (b b' : WitBundle.Bundle) keyID, bundle_td b = bundle_td b' → may_race (B := WitBundle.Bundle) b b' (W_Equal 1) (W_RemoveWITAuthority keyID)).
Proof. split_and!; intros b b' x Htd; (eapply equal_races; [done|done|]; intros own; reflexivity). Qed.

Definition spiffe_call (p : nat) (m : spiffe_method) : shared_call SpiffeBundle.Bundle := C_bundle (B := SpiffeBundle.Bundle) p m.

(** [C23] The other methods of spiffebundle.Bundle do not compose with a concurrent
    writer: a projection for the bundle's own trust domain takes the read lock twice, and
    when a writer announces itself in between neither thread can ever move again; Equal
    reads while a writer assigns. *)
Theorem projection_deadlock (b b' : SpiffeBundle.Bundle) (getter writer : spiffe_method) f :
  let td := SpiffeBundle.trustDomain b in
  getter ∈ [M_GetX509BundleForTrustDomain td; M_GetJWTBundleForTrustDomain td; M_GetWITBundleForTrustDomain td] →
  (∀ own, spiffe_code own 0 writer = write_method 0 f) → td = SpiffeBundle.trustDomain b' →
  (∃ sched m, run sched (start (objects_of [] [b]) (codes_of [] [b] [[spiffe_call 0 getter]; [spiffe_call 0 writer]])) = Some m ∧
     ¬ finished m ∧ values m = [SBundle b] ∧ ∀ i, do i m = None) ∧
  may_race (B := SpiffeBundle.Bundle) b b' (M_Equal 1) writer.
Proof.
  intros td Hg Hf Htd. split; [|by apply (equal_races b b' _ _ f)].
  assert (spiffe_code (own [] [b]) 0 getter = [RLock 0; RLock 0; Load 0; RUnlock 0; RUnlock 0]) as Hc.
  { rewrite !elem_of_cons, elem_of_nil in Hg. destruct Hg as [->|[->|[->|[]]]]; cbn [spiffe_code];
      unfold projection_for; by rewrite bool_decide_eq_true_2. }
  unfold codes_of, spiffe_call. cbn [fmap list_fmap call_code mjoin list_join method_code spiffe_package]. rewrite Hc, Hf.
  exists [0; 1]. eexists. split; [reflexivity|]. split_and!; [|done|].
  - by intros [? _]%Forall_cons.
  - intros [|[|i]]; [done..|]. unfold do. by rewrite lookup_ge_None_2 by (simpl; lia).
Qed.

Lemma bundle_calls_linearize_witness :
  let td := mkTrustDomain "example.org" in
  let b := SpiffeBundle.New td in
  let sets := [<[td := 1]> ∅] in
  let calls := [[spiffe_call 1 (M_AddX509Authority caA); C_set 0 (S_Add (Some 2))]; [C_set 0 (S_project td)];
                [spiffe_call 1 (M_AddX509Authority caB)]] in
  let sched := [1; 1; 0; 0; 0; 0; 0; 1; 2; 2; 2; 2; 2; 1; 1; 1; 0; 1; 0; 0; 0; 0] in
  ∃ m, run sched (start (objects_of sets [b; b]) (codes_of sets [b; b] calls)) = Some m ∧
    values m !! 1 = Some (SBundle (AddX509Authority (AddX509Authority b caA) caB)).
Proof.
  intros td b sets calls sched.
  destruct (run sched (start (objects_of sets [b; b]) (codes_of sets [b; b] calls))) as [m|] eqn:Hr; [|by vm_compute in Hr].
  destruct (bundle_calls_linearize sets [b; b] calls sched m) as (_ & _ & Hval & _).
  - apply Forall_cons_2; [|by apply Forall_nil]. intros td' p [[<- <-]|[_ ?]]%lookup_insert_Some; [|done].
    split; [split; cbn; lia|reflexivity].
  - unfold sets, calls.
    repeat first [apply Forall_cons_2|apply Forall_nil; exact Logic.I]; (split; [unfold is_set, is_bundle; cbn [length]; lia|]);
      first [exact Logic.I|unfold is_bundle; cbn [length]; lia].
  - exact Hr.
  - exists m. split; [done|]. rewrite Hval. by vm_compute.
Defined.

Lemma projection_deadlock_witness :
  let b := SpiffeBundle.New (mkTrustDomain "example.org") in
  ∃ sched m, run sched (start (objects_of [] [b]) (codes_of [] [b]
      [[spiffe_call 0 (M_GetX509BundleForTrustDomain (mkTrustDomain "example.org"))]; [spiffe_call 0 (M_SetRefreshHint 5)]])) = Some m ∧
    ¬ finished m ∧ ∀ i, do i m = None.
Proof.
  intros b.
  destruct (projection_deadlock b b (M_GetX509BundleForTrustDomain (mkTrustDomain "example.org")) (M_SetRefreshHint 5) _
    (list_elem_of_here _ _) (λ _, eq_refl) eq_refl) as ((sched & m & Hr & Hf & _ & Hd) & _). by exists sched, m.
Defined.
