(* ===== verification/SourceLocks.v ===== *)
(** * Concurrent use of the sources

    Models the locking of the methods of X509Source, JWTSource and BundleSource in
    src/workloadapi/x509source.go, jwtsource.go and bundlesource.go on the machine of
    RwMutex: object 0 is the flag closed behind closeMtx, object 1 the data behind mtx.
    The updates come from the watch goroutines; what they compute is in Sources. The
    rest of Close, and WITSource, whose checkClosed waits for a Close in progress, are
    in the machine of Watcher. *)

From S2P Require Import Prelude Path GoUrl ID Match Crypto X509 X509Sample Pem BundleSet X509Bundle Jose JwtBundle WitBundle X509Svid Jwt JwtSvid WitSvid Backoff Addr Client Watch Watcher Sources RwMutex.

Inductive field (D : Type) : Type := FClosed (closed : bool) | FData (data : D).
Arguments FClosed {D} closed.
Arguments FData {D} data.

Section sections.
Context {D : Type}.

Definition on_data (f : D → res D) (v : field D) : field D :=
  match v with FData d => match f d with Ok d' => FData d' | _ => FData d end | FClosed c => FClosed c end.

(** checkClosed, then [rest] unless the source is closed. *)
Definition check_closed (rest : list (lock_op (field D))) : list (lock_op (field D)) :=
  [RLock 0; Load 0; Branch (1 + length rest) (λ v, match v with FClosed true => [RUnlock 0] | _ => RUnlock 0 :: rest end)].

(** The first part of Close. *)
Definition set_closed : list (lock_op (field D)) :=
  [Lock 0; Load 0; Store 0 (λ v, match v with FClosed _ => FClosed true | v => v end); Unlock 0].
Definition update_data (f : D → res D) : list (lock_op (field D)) := [Lock 1; Load 1; Store 1 (on_data f); Unlock 1].
Definition locked_read : list (lock_op (field D)) := [RLock 1; Load 1; RUnlock 1].
End sections.

(** ** The methods *)
Inductive x509source_call : Type :=
  | XS_Close | XS_GetX509SVID | XS_GetX509BundleForTrustDomain (td : TrustDomain)
  | XS_setX509Context (picker : option (list X509Svid.SVID → option X509Svid.SVID)) (c : X509Context).

(** The pick comes before the lock; the bundles are read without it. *)
Definition x509source_code (c : x509source_call) : list (lock_op (field X509Source)) :=
  match c with
  | XS_Close => set_closed
  | XS_GetX509SVID => check_closed locked_read
  | XS_GetX509BundleForTrustDomain _ => check_closed [Load 1]
  | XS_setX509Context picker ctx => update_data (setX509Context picker ctx)
  end.

(** FetchJWTSVID and FetchJWTSVIDs only check the flag. *)
Inductive jwtsource_call : Type :=
  | JS_Close | JS_Fetch | JS_GetJWTBundleForTrustDomain (td : TrustDomain) | JS_setJWTBundles (bundles : JwtBundle.Set_).

Definition jwtsource_code (c : jwtsource_call) : list (lock_op (field JWTSource)) :=
  match c with
  | JS_Close => set_closed
  | JS_Fetch => check_closed []
  | JS_GetJWTBundleForTrustDomain _ => check_closed [Load 1]
  | JS_setJWTBundles bundles => update_data (setJWTBundles bundles)
  end.

Inductive bundlesource_call : Type :=
  | BS_Close | BS_GetBundleForTrustDomain (td : TrustDomain) | BS_GetX509BundleForTrustDomain (td : TrustDomain)
  | BS_GetJWTBundleForTrustDomain (td : TrustDomain)
  | BS_setX509Context (c : X509Context) | BS_setJWTBundles (bundles : JwtBundle.Set_).

Definition bundlesource_code (c : bundlesource_call) : list (lock_op (field BundleSource)) :=
  match c with
  | BS_Close => set_closed
  | BS_GetBundleForTrustDomain _ | BS_GetX509BundleForTrustDomain _ | BS_GetJWTBundleForTrustDomain _ => check_closed locked_read
  | BS_setX509Context ctx => update_data (BundleSource_setX509Context ctx)
  | BS_setJWTBundles bundles => update_data (BundleSource_setJWTBundles bundles)
  end.

(** ** Sections in order *)
Section discipline.
Context {D : Type}.
Implicit Types (rest : list (lock_op (field D))).

Definition field_ok (l : nat) (v : field D) : Prop := match v with FClosed _ => l = 0 | FData _ => l = 1 end.
#[local] Abbreviation in_order := (RwMutex.call 2 field_ok).

Inductive guarded_section : list (lock_op (field D)) → Prop :=
  | gs_close : guarded_section set_closed
  | gs_update f : guarded_section (update_data f)
  | gs_check : guarded_section (check_closed [])
  | gs_read : guarded_section (check_closed locked_read).

Lemma section_write l f rest : l < 2 → (∀ v, field_ok l v → field_ok l (f v)) → disc 2 field_ok ∅ None rest →
  disc 2 field_ok ∅ None ([Lock l; Load l; Store l f; Unlock l] ++ rest).
Proof.
  intros Hl Hf Hr. apply disc_lock; [done..|]. eapply disc_load; [by rewrite lookup_insert_eq|].
  apply disc_store; [by rewrite lookup_insert_eq|done|]. apply disc_unlock; [by rewrite lookup_insert_eq|].
  by rewrite delete_insert_id.
Qed.

Lemma section_check c rest : sum_list (cost <$> c) ≤ 2 * length c → writes_of c = [] →
  disc 2 field_ok ∅ None rest → disc 2 field_ok ∅ None (c ++ rest) → disc 2 field_ok ∅ None (check_closed c ++ rest).
Proof.
  intros Hc Hw Hr Hcr. apply disc_rlock; [lia|done|]. eapply disc_load; [by rewrite lookup_insert_eq|].
  eapply disc_branch; [by rewrite lookup_insert_eq|]. intros v _.
  assert (∀ c', disc 2 field_ok ∅ None c' → disc 2 field_ok (<[0 := false]> ∅) None (RUnlock 0 :: c')) as Hun.
  { intros c' Hc'. apply disc_runlock; [by rewrite lookup_insert_eq|]. by rewrite delete_insert_id. }
  destruct v as [[]|]; (split_and!; [csimpl; unfold id in *; lia|done|by apply Hun]).
Qed.

Lemma guarded_in_order c : guarded_section c → in_order c.
Proof.
  destruct 1; intros rest Hr.
  - apply section_write; [lia| |done]. by intros [].
  - apply section_write; [lia| |done]. intros [?|d]; cbn; [done|]. by destruct (f d).
  - by apply section_check.
  - apply section_check; [by cbn; lia|done|done|]. apply disc_rlock; [lia|done|]. eapply disc_load; [by rewrite lookup_insert_eq|].
    apply disc_runlock; [by rewrite lookup_insert_eq|]. by rewrite delete_insert_id.
Qed.

(** Threads of calls on an open source. *)
Definition source_start (d : D) (calls : list (list (list (lock_op (field D))))) : machine (field D) :=
  start [FClosed false; FData d] (fmap (M := list) (mjoin (M := list)) calls).

Lemma source_start_Inv d calls : Forall (Forall guarded_section) calls →
  ∃ gs, Inv 2 field_ok (source_start d calls) gs.
Proof.
  intros Hc. eexists. apply start_Inv; [done| |].
  - intros [|[|l]] v; [by intros [= <-]|by intros [= <-]|done].
  - apply Forall_fmap. eapply Forall_impl; [exact Hc|]. intros cs Hcs. apply call_join.
    eapply Forall_impl; [exact Hcs|]. apply guarded_in_order.
Qed.
End discipline.

(** ** Properties *)

(** What holds of a state reached by a schedule: no race, no deadlock, no endless run,
    and the flag and the data are what the sections that assign make of them, one after
    the other. *)
Definition source_safe {D} (d : D) (calls : list (list (list (lock_op (field D))))) (sched : list nat) (m : machine (field D)) : Prop :=
  let log := stores sched (source_start d calls) in
  ¬ data_race m ∧ (finished m ∨ ∃ i, is_Some (do i m)) ∧ length sched ≤ potential (source_start d calls) ∧
  values m = [foldl (λ v f, f v) (FClosed false) (to_object 0 log); foldl (λ v f, f v) (FData d) (to_object 1 log)].

Lemma guarded_source_safe {D} (d : D) calls sched m :
  Forall (Forall guarded_section) calls → run sched (source_start d calls) = Some m → source_safe d calls sched m.
Proof.
  intros Hc Hrun. destruct (source_start_Inv d calls Hc) as [gs HI].
  destruct (run_Inv _ _ _ _ _ _ HI Hrun) as ((gs' & HI') & Hlen & Hval & _). split_and!.
  - by eapply Inv_no_race.
  - by eapply Inv_progress.
  - lia.
  - apply list_eq. intros l. rewrite Hval, foldl_stores. destruct l as [|[|l]]; [done..|]. by rewrite !lookup_ge_None_2 by (cbn; lia).
Qed.

Definition each {K O : Type} (code : K → list O) (calls : list (list K)) : list (list (list O)) := map (map code) calls.

Lemma forall_calls {D K} (code : K → list (lock_op (field D))) (ok : K → Prop) (calls : list (list K)) :
  (∀ c, ok c → guarded_section (code c)) → Forall (Forall ok) calls → Forall (Forall guarded_section) (each code calls).
Proof.
  intros Hok Hc. apply Forall_fmap. eapply Forall_impl; [exact Hc|]. intros cs Hcs. apply Forall_fmap.
  eapply Forall_impl; [exact Hcs|]. exact Hok.
Qed.

(** The calls of a source other than the getter that reads the bundles unlocked. *)
Definition x509_locked (c : x509source_call) : Prop := match c with XS_GetX509BundleForTrustDomain _ => False | _ => True end.
Definition jwt_locked (c : jwtsource_call) : Prop := match c with JS_GetJWTBundleForTrustDomain _ => False | _ => True end.

Lemma x509source_guarded c : x509_locked c → guarded_section (x509source_code c).
Proof. destruct c; first [done|intros _|idtac]; first [exact gs_close|exact (gs_update _)|exact gs_check|exact gs_read]. Qed.
Lemma jwtsource_guarded c : jwt_locked c → guarded_section (jwtsource_code c).
Proof. destruct c; first [done|intros _|idtac]; first [exact gs_close|exact (gs_update _)|exact gs_check|exact gs_read]. Qed.
Lemma bundlesource_guarded c : guarded_section (bundlesource_code c).
Proof. destruct c; first [done|intros _|idtac]; first [exact gs_close|exact (gs_update _)|exact gs_check|exact gs_read]. Qed.

(** An unlocked read and an update. *)
Lemma unlocked_read_races {D} (d : D) f : ∃ sched m,
  run sched (source_start d [[check_closed [Load 1]]; [update_data f]]) = Some m ∧ data_race m.
Proof.
  exists [0; 0; 0; 0; 1; 1; 1]. eexists. split; [reflexivity|]. exists 1, 0, 1, (on_data f). split_and!; [done|done|by left].
Qed.

(** [C24] The sources under concurrent calls. Calls of BundleSource, by any number of
    threads in any interleaving with the updates and with Close, do not race, do not
    block each other for ever, and leave the flag and the data as the updates, one after
    the other, make them. The same holds of X509Source and JWTSource without their bundle
    getter; the getter reads the bundles without the lock and can race with an update. *)
Theorem sources_concurrently :
  (∀ d calls sched m, let codes := each bundlesource_code calls in
     run sched (source_start d codes) = Some m → source_safe d codes sched m) ∧
  (∀ d calls sched m, let codes := each x509source_code calls in Forall (Forall x509_locked) calls →
     run sched (source_start d codes) = Some m → source_safe d codes sched m) ∧
  (∀ d calls sched m, let codes := each jwtsource_code calls in Forall (Forall jwt_locked) calls →
     run sched (source_start d codes) = Some m → source_safe d codes sched m) ∧
  (∀ d td picker ctx, ∃ sched m, data_race m ∧
     run sched (source_start d (each x509source_code [[XS_GetX509BundleForTrustDomain td]; [XS_setX509Context picker ctx]])) = Some m) ∧
  (∀ d td bundles, ∃ sched m, data_race m ∧
     run sched (source_start d (each jwtsource_code [[JS_GetJWTBundleForTrustDomain td]; [JS_setJWTBundles bundles]])) = Some m).
Proof.
  split_and!.
  - intros d calls sched m codes. apply guarded_source_safe. apply (forall_calls _ (λ _, True)); [intros c _; apply bundlesource_guarded|].
    apply Forall_true. intros cs. by apply Forall_true.
  - intros d calls sched m codes Hc. apply guarded_source_safe. eapply forall_calls; [exact x509source_guarded|exact Hc].
  - intros d calls sched m codes Hc. apply guarded_source_safe. eapply forall_calls; [exact jwtsource_guarded|exact Hc].
  - intros d td picker ctx. destruct (unlocked_read_races d (setX509Context picker ctx)) as (sched & m & Hr & Hd). by exists sched, m.
  - intros d td bundles. destruct (unlocked_read_races d (setJWTBundles bundles)) as (sched & m & Hr & Hd). by exists sched, m.
Qed.

Lemma sources_concurrently_witness :
  let bundles := X509Bundle.NewSet [] in
  let calls := [[XS_GetX509SVID; XS_Close]; [XS_setX509Context (Some (λ _, None)) (mkX509Context [] bundles)]; [XS_GetX509SVID]] in
  let sched := [2; 2; 2; 2; 1; 0; 0; 0; 0; 1; 1; 1; 1; 2; 2; 2; 0; 0; 0; 0; 0; 0; 0; 0] in
  ∃ m, run sched (source_start (mkX509Source None None) (each x509source_code calls)) = Some m ∧
    values m = [FClosed true; FData (mkX509Source None (Some bundles))].
Proof.
  intros bundles calls sched.
  destruct (run sched (source_start (mkX509Source None None) (each x509source_code calls))) as [m|] eqn:Hr; [|by vm_compute in Hr].
  destruct sources_concurrently as (_ & Hx & _). destruct (Hx (mkX509Source None None) calls sched m) as (_ & _ & _ & Hv).
  - repeat first [apply Forall_cons_2|apply Forall_nil; exact Logic.I|exact Logic.I].
  - exact Hr.
  - exists m. split; [done|]. rewrite Hv. by vm_compute.
Defined.
