(* ===== verification/Live.v ===== *)
(** * Mutual TLS between two workloads with live sources

    The composition of Watcher.v, Sources.v, TlsConfig.v and SpiffeTls.v: two
    workloads, each with an X509Source kept up to date by its own Workload API,
    connect with the configurations of src/spiffetls/tlsconfig. The world of a
    handshake is the pair of their sources at that moment; the configurations are
    made once and never change. *)

From S2P Require Import Prelude Path GoUrl ID Match Crypto X509 X509Sample Pem BundleSet X509Bundle Jose JwtBundle WitBundle X509Svid Jwt JwtSvid WitSvid Backoff Addr Client Watcher Sources TlsConfig SpiffeTls.

Section live.
Context {C : Charset} {CL : CharsetLaws C} {L : X509Lib} {LL : X509LibLaws L} {V : X509Verifier} {VL : VerifierLaws V}.
Context {J : JoseLib} {T : JwtLib} {K : JwkLib} {KP : JwkPrivateLib}.

(** An X509Source: the state of its watcher's machine, and its closed flag. *)
Record live : Type := mkLive { lv_machine : state X509Source source_update; lv_closed : bool }.

Definition live_source (l : live) : Source X509Source := mkSource (src (lv_machine l)) (lv_closed l).

(** Any state after NewX509Source has returned a source. *)
Definition up picker (l : live) : Prop :=
  main (lv_machine l) = Returned None ∧
  ∃ given, reachable (X509Source_fn picker) api_delivers (mkX509Source None None) given
    (newWatcher_prog (X509Source_fn picker) given) (lv_machine l).

(** The context its Workload API delivered last. *)
Definition current (l : live) : option X509Context := latest1 (trace (lv_machine l)).

(** The world of a handshake: the client's source and the server's. *)
Definition world : Type := live * live.
Context {TL : TlsLib (W := world)}.

Definition svids_of (side : world → live) : svid_source (W := world) := λ w, X509Source_GetX509SVID (live_source (side w)).
Definition bundles_of (side : world → live) : bundle_source (W := world) :=
  Some (λ w td, X509Source_GetX509BundleForTrustDomain (live_source (side w)) td).

(** A full handshake, as crypto/tls documents it: the server's certificate is
    asked for and checked by the client, then the client's by the server. *)
Definition presented (callback : option (cert_callback (W := world))) (w : world) : res tls_Certificate :=
  match callback with None => Err (extern_error "tls" "no certificates configured") | Some f => (f w).1 end.

Definition mtls_handshake (client server : Config world) (w : world) : res (list string * list string) :=
  let! server_cert := presented (GetCertificate server) w in
  check! client_accepts client w (tc_Certificate server_cert);
  let! client_cert := presented (GetClientCertificate client) w in
  check! server_accepts server w (tc_Certificate client_cert);
  Ok (tc_Certificate server_cert, tc_Certificate client_cert).

(** Documented: the certificates of ParseCertificates are parsed ones. *)
Definition parses_to_parsed : Prop := ∀ bs cs, x509_ParseCertificates bs = inl cs → Forall parsed_cert cs.

(** A picker chooses among the SVIDs it is given. *)
Definition chooses (picker : option (list X509Svid.SVID → option X509Svid.SVID)) : Prop :=
  ∀ p l svid, picker = Some p → p l = Some svid → svid ∈ l.

(** An SVID of a delivered context: its certificates can be presented, and the
    leaf has its ID. *)
Lemma delivered_svid resp ctx svid :
  parses_to_parsed → parseX509Context resp = Ok ctx → svid ∈ SVIDs ctx →
  ∃ leaf signing, X509Svid.svid_Certificates svid = leaf :: signing ∧ IDFromCert leaf = Ok (X509Svid.svid_ID svid) ∧
    Forall parsed_cert (leaf :: signing).
Proof.
  intros Hpp (svids & Hs & (bundles & _ & [= <-])%bind_Ok_inv)%bind_Ok_inv Hin. cbn [SVIDs] in Hin.
  unfold parseX509SVIDs in Hs. case_match; [done|]. destruct (parse_svids_from _ _ _ _ _ _ Hs Hin) as [m Hm].
  unfold parse_X509SVID in Hm. destruct (X509Svid.ParseRaw _ _) as [s0| |] eqn:Hp; cbn in Hm; [|done..]. injection Hm as <-.
  apply bind_Ok_inv in Hp as (cs & Hcs & (k & _ & (leaf & signing & k' & id & -> & _ & Hleaf & _ & _ & ->)%newSVID_Ok)%bind_Ok_inv).
  apply wrap_err_Ok in Hcs. destruct (x509_ParseCertificates _) as [cs'|] eqn:Hx; cbn in Hcs; simplify_eq.
  exists leaf, signing. split_and!; [done|apply Hleaf|by eapply Hpp].
Qed.

(** Certificates sent as they are parse to themselves. *)
Lemma forM_parsed cs : Forall parsed_cert cs → forM (λ raw, of_lib (x509_ParseCertificate raw)) (Raw <$> cs) = Ok cs.
Proof.
  intros Hall. apply forM_Ok. induction Hall as [|c cs [raw Hc] Hall IH]; cbn; constructor; [|done].
  rewrite (x509_Raw _ _ Hc), Hc. done.
Qed.

(** What a live, open source presents. *)
Lemma live_presents picker (side : world → live) opts w cert :
  parses_to_parsed → chooses picker → up picker (side w) →
  (getTLSCertificate (svids_of side) (opt_trace (newOptions opts)) w).1 = Ok cert →
  lv_closed (side w) = false ∧
  ∃ ctx svid leaf signing, current (side w) = Some ctx ∧ pick picker ctx = Some svid ∧
    IDFromCert leaf = Ok (X509Svid.svid_ID svid) ∧
    forM (λ raw, of_lib (x509_ParseCertificate raw)) (tc_Certificate cert) = Ok (leaf :: signing).
Proof.
  intros Hpp Hch [Hm [given Hr]]. destruct (constructed_X509Source _ _ _ Hr Hm) as (ctx & Hctx & [resp Hresp] & Hne & Hsrc).
  unfold getTLSCertificate, svids_of, X509Source_GetX509SVID, live_source. rewrite Hsrc. unfold checkClosed. cbn [src_closed data_of].
  destruct (lv_closed (side w)); [done|]. cbn [mbind res_bind xs_svid]. destruct (pick picker ctx) as [svid|] eqn:Hpick; [|done].
  assert (svid ∈ SVIDs ctx) as Hin.
  { unfold pick in Hpick. destruct picker as [p|]; [by eapply Hch|]. destruct (SVIDs ctx); simplify_eq/=. by left. }
  destruct (delivered_svid _ _ _ Hpp Hresp Hin) as (leaf & signing & Hcs & Hid & Hparsed).
  unfold svid_certificate. rewrite Hcs. cbn [fst]. intros [= <-]. split; [done|].
  exists ctx, svid, leaf, signing. split_and!; try done. exact (forM_parsed _ Hparsed).
Qed.

(** What a live, open source accepts. *)
Lemma live_accepts picker (side : world → live) authorizer w raw id certs :
  up picker (side w) → spiffe_accepts (bundles_of side) authorizer w raw id certs →
  lv_closed (side w) = false ∧ ∃ ctx leaf others td bundle, current (side w) = Some ctx ∧
    forM (λ raw, of_lib (x509_ParseCertificate raw)) raw = Ok (leaf :: others) ∧ IDFromCert leaf = Ok id ∧
    ID_TrustDomain id = Ok td ∧ X509Bundle.Set_GetX509BundleForTrustDomain (ctx_Bundles ctx) td = Ok bundle ∧
    X509Bundle.trustDomain bundle = td ∧ certs ≠ [] ∧
    Forall (λ chain, head chain = Some leaf ∧
      ∃ root, last chain = Some root ∧ X509Bundle.HasX509Authority bundle root = true) certs.
Proof.
  intros [Hm [given Hr]] Hacc. destruct (constructed_X509Source _ _ _ Hr Hm) as (ctx & Hctx & [resp Hresp] & Hne & Hsrc).
  pose proof (parseX509Context_delivered _ _ Hresp) as [_ Hwf].
  assert (∀ td bundle, X509Source_GetX509BundleForTrustDomain (live_source (side w)) td = Ok bundle →
    lv_closed (side w) = false ∧ X509Bundle.Set_GetX509BundleForTrustDomain (ctx_Bundles ctx) td = Ok bundle) as Hget.
  { intros td bundle. unfold X509Source_GetX509BundleForTrustDomain, live_source. rewrite Hsrc. unfold checkClosed.
    cbn [src_closed data_of]. by destruct (lv_closed (side w)). }
  pose proof (X509Bundle.x509_Set_source_ok _ Hwf) as Hok.
  apply spiffe_accepts_sound in Hacc as (leaf & others & td & path & bundle & Hp & Hid & Hparts & Hb & Hne' & Hall).
  2: { intros td bundle [_ Hb]%Hget. by apply Hok. }
  destruct (Hget _ _ Hb) as [Hcl Hset]. split; [done|]. exists ctx, leaf, others, td, bundle. split_and!; try done.
  - by eapply id_parts_TrustDomain.
  - by apply Hok.
Qed.

(** The peer with these certificates is authenticated as [id], by a verifier
    whose latest context is [ctx]. *)
Definition authenticated (ctx : X509Context) (authorizer : Authorizer) (raw : list string) (id : ID.ID) : Prop :=
  ∃ leaf others td bundle certs,
    forM (λ raw, of_lib (x509_ParseCertificate raw)) raw = Ok (leaf :: others) ∧
    PeerIDFromConn (spiffe_conn (mkConnectionState (leaf :: others))) = Ok id ∧ authorizer id certs = Ok () ∧
    ID_TrustDomain id = Ok td ∧ X509Bundle.Set_GetX509BundleForTrustDomain (ctx_Bundles ctx) td = Ok bundle ∧
    X509Bundle.trustDomain bundle = td ∧ certs ≠ [] ∧
    Forall (λ chain, head chain = Some leaf ∧
      ∃ root, last chain = Some root ∧ X509Bundle.HasX509Authority bundle root = true) certs.

Lemma live_authenticates picker side authorizer w raw id certs ctx id' leaf signing :
  up picker (side w) → spiffe_accepts (bundles_of side) authorizer w raw id certs → current (side w) = Some ctx →
  forM (λ raw, of_lib (x509_ParseCertificate raw)) raw = Ok (leaf :: signing) → IDFromCert leaf = Ok id' →
  authenticated ctx authorizer raw id'.
Proof.
  intros Hup Hsp Hctx Hraw Hid'. pose proof Hsp as [_ Hauth]. pose proof (peer_id_accepted _ _ _ _ _ _ _ Hsp Hraw) as Hpeer.
  destruct (live_accepts _ _ _ _ _ _ _ Hup Hsp) as (_ & ctx' & leaf' & others & td & bundle & Hctx' & Hraw' & Hid & Htd & Hset & Hbtd & Hne & Hall).
  rewrite Hctx in Hctx'. injection Hctx' as <-. rewrite Hraw in Hraw'. injection Hraw' as <- <-.
  rewrite Hid in Hid'. injection Hid' as <-. exists leaf, signing, td, bundle, certs. by split_and!.
Qed.

(** [C5] Mutual TLS over live sources. A handshake that succeeds between two workloads
    whose sources have been constructed authenticates both against what their own
    Workload APIs delivered last: the ID each reads off the connection is the ID of the
    SVID that the other's source holds at that moment, the authorizer of each accepted
    that ID, and the other's leaf certificate chains to an authority of the bundle of its
    trust domain in the verifier's latest context. With either source closed no handshake
    succeeds. *)
Theorem live_mtls picker_c picker_s authorizer_c authorizer_s opts_c opts_s (w : world) raw_s raw_c :
  parses_to_parsed → chooses picker_c → chooses picker_s → up picker_c w.1 → up picker_s w.2 →
  mtls_handshake (MTLSClientConfig (svids_of fst) (bundles_of fst) authorizer_c opts_c)
    (MTLSServerConfig (svids_of snd) (bundles_of snd) authorizer_s opts_s) w = Ok (raw_s, raw_c) →
  lv_closed w.1 = false ∧ lv_closed w.2 = false ∧
  ∃ ctx_c ctx_s svid_c svid_s, current w.1 = Some ctx_c ∧ current w.2 = Some ctx_s ∧
    pick picker_c ctx_c = Some svid_c ∧ pick picker_s ctx_s = Some svid_s ∧
    authenticated ctx_c authorizer_c raw_s (X509Svid.svid_ID svid_s) ∧
    authenticated ctx_s authorizer_s raw_c (X509Svid.svid_ID svid_c).
Proof.
  intros Hpp Hc Hs Huc Hus Hh. unfold mtls_handshake in Hh.
  apply bind_Ok_inv in Hh as (cert_s & Hcert_s & Hh). apply check_Ok_inv in Hh as [Hacc_c Hh].
  apply bind_Ok_inv in Hh as (cert_c & Hcert_c & Hh). apply check_Ok_inv in Hh as [Hacc_s [= <- <-]].
  apply mtls_client_hook_accepts in Hacc_c as (id_s & certs_s & Hsp_c & _).
  apply mtls_server_hook_accepts in Hacc_s as (id_c & certs_c & Hsp_s & _).
  destruct (live_presents picker_s snd opts_s w cert_s Hpp Hs Hus Hcert_s)
    as (Hcl_s & ctx_s & svid_s & leaf_s & sig_s & Hctx_s & Hpick_s & Hid_s & Hraw_s).
  destruct (live_presents picker_c fst opts_c w cert_c Hpp Hc Huc Hcert_c)
    as (Hcl_c & ctx_c & svid_c & leaf_c & sig_c & Hctx_c & Hpick_c & Hid_c & Hraw_c).
  split_and!; [done..|]. exists ctx_c, ctx_s, svid_c, svid_s. split_and!; [done..| |].
  - by eapply (live_authenticates picker_c fst).
  - by eapply (live_authenticates picker_s snd).
Qed.
(** ** JWT-SVIDs against a live JWTSource *)
Record live_jwt_source : Type := mkLiveJwt { lj_machine : state JWTSource source_update; lj_closed : bool }.

Definition jwt_up (l : live_jwt_source) : Prop :=
  main (lj_machine l) = Returned None ∧
  ∃ given, reachable JWTSource_fn api_delivers (mkJWTSource None) given (newWatcher_prog JWTSource_fn given) (lj_machine l).

#[export] Instance live_JwtSource : JwtBundle.Source live_jwt_source := λ l td,
  JWTSource_GetJWTBundleForTrustDomain (mkSource (src (lj_machine l)) (lj_closed l)) td.

Context {JL : JwtLaws T}.

(** What a live JWTSource answers. *)
Lemma live_jwt_serves (l : live_jwt_source) :
  jwt_up l → ∃ bundles, latest2 (trace (lj_machine l)) = Some bundles ∧ set_wf bundles ∧
    (∀ td bundle, JwtBundle.GetJWT l td = Ok bundle → lj_closed l = false ∧ BundleSet.bundles bundles !! td = Some bundle) ∧
    (lj_closed l = false → ∀ td, JwtBundle.GetJWT l td = JwtBundle.Set_GetJWTBundleForTrustDomain bundles td).
Proof.
  intros [Hm [given Hr]]. destruct (jwtsource_serves_latest _ _ Hr Hm) as (bundles & Hb & Hserve).
  exists bundles. split_and!; [done| | |].
  - destruct (constructed _ _ _ _ _ _ (or_introl eq_refl) Hr Hm) as (_ & Hdel & _).
    destruct (Hdel _ _ (latest2_in _ _ Hb)) as [resp Hresp]. by eapply parseJWTSVIDBundles_delivered.
  - intros td bundle. unfold JwtBundle.GetJWT, live_JwtSource. destruct (Hserve td) as [Hopen Hcl].
    destruct (lj_closed l); [unfold Source_Close in Hcl; cbn [data_of] in Hcl; by rewrite Hcl|].
    rewrite Hopen. by intros ?%Set_lookup_Ok.
  - intros Hcl td. unfold JwtBundle.GetJWT, live_JwtSource. rewrite Hcl. apply Hserve.
Qed.

(** The token of [s] carries a signature by a key of [bundles], is current, and is meant
    for one of the audiences. *)
Definition signed_by (bundles : JwtBundle.Set_) (now : Z) (tokn : string) (audience : list string) (s : JwtSvid.SVID) : Prop :=
  ∃ td path bundle tok kid k, id_parts (JwtSvid.svid_ID s) td path ∧
    BundleSet.bundles bundles !! td = Some bundle ∧ JwtBundle.trustDomain bundle = td ∧
    JwtBundle.jwtAuthorities bundle !! kid = Some k ∧
    jwt_ParseSigned tokn allowedSignatureAlgorithms = inl tok ∧ tok_Claims k tok = inl (JwtSvid.svid_Claims s) ∧
    (now ≤ JwtSvid.svid_Expiry s + DefaultLeeway)%Z ∧
    (audience ≠ [] → ∃ a, a ∈ audience ∧ a ∈ JwtSvid.svid_Audience s).

Lemma live_jwt_signed (l : live_jwt_source) now tokn audience s :
  jwt_up l → JwtSvid.ParseAndValidate now tokn l audience = Ok s →
  lj_closed l = false ∧ ∃ bundles, latest2 (trace (lj_machine l)) = Some bundles ∧ signed_by bundles now tokn audience s.
Proof.
  intros Hup. destruct (live_jwt_serves l Hup) as (bundles & Hb & Hwf & Hlive & _). unfold JwtSvid.ParseAndValidate.
  rewrite JwtSvid.jwtsvid_parse_Ok. intros (tok & h & claims & exp & td & path & m & Hp & Hh & Ht & Hc & He & Hpa & Hi & Hv & Hval & Hs).
  apply JwtSvid.bundle_validator_Ok in Hv as (h' & bundle & k & _ & _ & Hg & Hf & Hk).
  apply Hlive in Hg as [Hcl Hg]. split; [done|]. exists bundles. split; [done|].
  exists td, path, bundle, tok, (hdr_KeyID h'), k. rewrite Hs. cbn. split_and!; try done.
  - by apply Hwf in Hg.
  - unfold JwtBundle.FindJWTAuthority in Hf. by destruct (JwtBundle.jwtAuthorities bundle !! _); simplify_eq.
  - exact (validated_time _ _ _ _ Hval He).
  - intros Hne. exact (validated_audience _ _ _ Hval Hne).
Qed.

(** [C6] A token validated against a live JWTSource was signed with a key that the Workload
    API delivered last for the trust domain of the token's own subject: keys rotated out
    or trust domains withdrawn by a later update no longer validate, nor does anything
    once the source is closed. Conversely validation against the live source is
    validation against the set delivered last. *)
Theorem live_jwt (l : live_jwt_source) (now : Z) (tokn : string) audience s :
  jwt_up l →
  (lj_closed l = true → JwtSvid.ParseAndValidate now tokn l audience ≠ Ok s) ∧
  ∃ bundles, latest2 (trace (lj_machine l)) = Some bundles ∧
    (lj_closed l = false →
     (JwtSvid.ParseAndValidate now tokn l audience = Ok s ↔
      JwtSvid.ParseAndValidate (S := JwtBundle.Set_GetJWTBundleForTrustDomain) now tokn bundles audience = Ok s)) ∧
    (JwtSvid.ParseAndValidate now tokn l audience = Ok s → signed_by bundles now tokn audience s).
Proof.
  intros Hup. destruct (live_jwt_serves l Hup) as (bundles & Hb & _ & _ & Hget).
  pose proof (live_jwt_signed l now tokn audience s Hup) as Hsigned. split.
  - intros Hcl Hok. destruct (Hsigned Hok). congruence.
  - exists bundles. split_and!; [done| |].
    + intros Hcl. specialize (Hget Hcl). unfold JwtSvid.ParseAndValidate, JwtSvid.bundle_validator. rewrite !JwtSvid.jwtsvid_parse_Ok.
      split; intros (tok & h & claims & exp & td & path & m & Hp & Hh & Ht & Hc & He & Hpa & Hi & Hv & Hval);
        exists tok, h, claims, exp, td, path, m; split_and!; try done; try apply Hval.
      * by rewrite Hget in Hv.
      * by rewrite Hget.
    + intros Hok. destruct (Hsigned Hok) as (_ & bundles' & Hb' & Hs). rewrite Hb in Hb'. by injection Hb' as <-.
Qed.
End live.

(** ** Witness: two workloads of example.org, each with the source of a first run *)
Lemma sample_parses_to_parsed : parses_to_parsed.
Proof.
  intros bs. induction bs as [|a bs IH]; cbn [x509_ParseCertificates sample_X509Lib sample_ParseCertificates]; intros cs Hcs.
  - by injection Hcs as <-.
  - destruct (sample_ParseCertificate (String a "")) as [c|] eqn:Hc; [|done].
    destruct (sample_ParseCertificates bs) as [cs'|] eqn:Hcs'; [|done]. injection Hcs as <-.
    constructor; [by exists (String a "")|by apply IH].
Qed.

Definition sample_live : live :=
  mkLive (after (X509Source_fn None) x509source_run
    (init (mkX509Source None None) false (newWatcher_prog (X509Source_fn None) false))) false.

Lemma sample_live_up : up (C := charset_deny) None sample_live.
Proof.
  split; [by vm_compute|]. exists false. apply after_reachable; [by vm_compute|apply source_options_allowed].
Qed.

#[export] Instance sample_world_TlsLib : TlsLib (W := world) := {|
  default_verify roots w raw := inl [];
  verify_client_certs config w raw := inl [];
|}.

Lemma live_mtls_witness :
  let member := AuthorizeMemberOf (mkTrustDomain "example.org") in
  ∃ raw_s raw_c ctx_c,
    mtls_handshake
      (MTLSClientConfig (C := charset_deny) (svids_of fst) (bundles_of fst) member [])
      (MTLSServerConfig (C := charset_deny) (svids_of snd) (bundles_of snd) AuthorizeAny [])
      (sample_live, sample_live) = Ok (raw_s, raw_c) ∧
    authenticated (C := charset_deny) ctx_c member raw_s X509Svid.workload_id.
Proof.
  intros member.
  assert (Hh : mtls_handshake
      (MTLSClientConfig (C := charset_deny) (svids_of fst) (bundles_of fst) member [])
      (MTLSServerConfig (C := charset_deny) (svids_of snd) (bundles_of snd) AuthorizeAny [])
      (sample_live, sample_live) = Ok (["L"; "A"], ["L"; "A"])) by by vm_compute.
  destruct (live_mtls (C := charset_deny) None None member AuthorizeAny [] [] (sample_live, sample_live) ["L"; "A"] ["L"; "A"]
    sample_parses_to_parsed ltac:(by intros ???) ltac:(by intros ???) sample_live_up sample_live_up Hh)
    as (_ & _ & ctx_c & ctx_s & svid_c & svid_s & Hc & Hs & Hpc & Hps & Ha & _).
  exists ["L"; "A"], ["L"; "A"], ctx_c. split; [exact Hh|].
  assert (X509Svid.svid_ID svid_s = X509Svid.workload_id) as <-; [|exact Ha].
  vm_compute in Hs. injection Hs as <-. vm_compute in Hps. by injection Hps as <-.
Defined.

(** A JWTSource after its first update, a bundle of example.org with the key "a". *)
Definition sample_jwt_doc : string := ok_or "" (JwtBundle.Marshal JwtSvid.sample_key_bundle).
Definition sample_jwt_update : JwtBundle.Set_ :=
  ok_or (JwtBundle.NewSet []) (parseJWTSVIDBundles (C := charset_deny) (listed (<["example.org" := sample_jwt_doc]> ∅))).
Definition jwtsource_run : list (choice source_update) :=
  [Ch_client None; Ch_main; Ch_main] ++ deliver W2 (sample_jwt_update : source_update W2) ++ [Ch_main; Ch_main; Ch_main].
Definition sample_live_jwt : live_jwt_source :=
  mkLiveJwt (after JWTSource_fn jwtsource_run (init (mkJWTSource None) false (newWatcher_prog JWTSource_fn false))) false.

Lemma sample_jwt_update_delivered : api_delivers (C := charset_deny) W2 sample_jwt_update.
Proof. exists (listed (<["example.org" := sample_jwt_doc]> ∅)). apply ok_or_Ok. by vm_compute. Qed.

Lemma sample_live_jwt_up : jwt_up (C := charset_deny) sample_live_jwt.
Proof.
  split; [by vm_compute|]. exists false. apply after_reachable; [by vm_compute|].
  repeat (apply Forall_cons; split; [first [exact I|exact sample_jwt_update_delivered]|]). by apply Forall_nil.
Qed.

Lemma live_jwt_witness :
  ∃ s bundles, JwtSvid.ParseAndValidate (C := charset_deny) 900 "J" sample_live_jwt ["aud2"] = Ok s ∧
    latest2 (trace (lj_machine sample_live_jwt)) = Some bundles ∧
    JwtSvid.ParseAndValidate (C := charset_deny) (S := JwtBundle.Set_GetJWTBundleForTrustDomain) 900 "J" bundles ["aud2"] = Ok s.
Proof.
  destruct (JwtSvid.ParseAndValidate (C := charset_deny) 900 "J" sample_live_jwt ["aud2"]) as [s| |] eqn:Hs;
    try (by vm_compute in Hs).
  destruct (live_jwt (C := charset_deny) sample_live_jwt 900 "J" ["aud2"] s sample_live_jwt_up)
    as (_ & bundles & Hb & Heq & _).
  exists s, bundles. split_and!; [done..|]. by apply Heq.
Defined.
