(* ===== verification/LiveWit.v ===== *)
(** * WIT-SVIDs between two workloads with live WITSources

    The composition of Watcher.v, Sources.v, Client.v and WitSvid.v: a workload takes a
    WIT-SVID from its WITSource (src/workloadapi/witsource.go), and another validates the
    token with [ParseAndValidate] of src/exp/svid/witsvid against its own WITSource. Each
    source is a reachable state of the machine of Watcher.v, fed by its own Workload API. *)

From S2P Require Import Prelude Path GoUrl ID Crypto X509 X509Sample Pem BundleSet X509Bundle Jose JwtBundle WitBundle X509Svid Jwt JwtSvid WitSvid Client Watcher Sources.

Section wit_sources.
Context {C : Charset} {CL : CharsetLaws C} {J : JoseLib} {T : JwtLib} {JL : JwtLaws T}.
Context {K : JwkLib} {KP : JwkPrivateLib}.
Implicit Types (source : state WITSource wit_update).

(** A source that NewWITSource has returned. *)
Definition wit_up source : Prop :=
  main source = Returned None ∧
  ∃ given, reachable WITSource_fn wit_delivers initial_WITSource given (NewWITSource_prog given) source.

(** The bundles that a source answers with; its getter blocks while a Close is in
    progress, so that there are answers only before and after. *)
Definition answers source (get : TrustDomain → res WitBundle.Bundle) : Prop :=
  ∀ td, GetWITBundleForTrustDomain source td = Some (get td).

(** Validation against those answers. *)
Definition validate (now : Z) (tokn : string) (get : TrustDomain → res WitBundle.Bundle) : res WitSvid.SVID :=
  WitSvid.ParseAndValidate (S := λ _ : (), get) now tokn ().

(** The token carries a signature by a key of [bundles], filed under the trust domain of
    its own subject, and is current. *)
Definition wit_signed_by (bundles : WitBundle.Set_) (now : Z) (tokn : string) (s : WitSvid.SVID) : Prop :=
  ∃ td path bundle tok claims k m, id_parts (svid_ID s) td path ∧
    BundleSet.bundles bundles !! td = Some bundle ∧ WitBundle.trustDomain bundle = td ∧
    WitBundle.witAuthorities bundle !! svid_KeyID s = Some k ∧
    jwt_ParseSigned tokn WitSvid.allowedSignatureAlgorithms = inl tok ∧ tok_Claims k tok = inl m ∧
    UnsafeClaims tok = inl claims ∧ ValidateWithLeeway claims (mkExpected [] now) DefaultLeeway = None.

(** What the token of an SVID says by itself. *)
Definition from_token (svid : WitSvid.SVID) : WitSvid.SVID :=
  WitSvid.mkSVID (svid_ID svid) (svid_Expiry svid) (svid_PublicKey svid) (svid_KeyID svid) None "" (token svid).

(** ** Lemmas *)
Lemma parsed_is_from_token now tokn verify s : WitSvid.parse now tokn verify = Ok s → from_token s = s ∧ token s = tokn.
Proof.
  rewrite witsvid_parse_Ok. intros (tok & h & c & td & path & m & H). destruct_and! H.
  match goal with E : s = _ |- _ => rewrite E end. done.
Qed.

(** A delivered SVID has a private key, and its token parses to the rest of it. *)
Lemma delivered_wit svids svid :
  wit_delivers W1 svids → svid ∈ (svids : list WitSvid.SVID) →
  ∃ now, WitSvid.ParseInsecure now (WitSvid.Marshal svid) = Ok (from_token svid) ∧ is_Some (svid_PrivateKey svid).
Proof.
  intros (now & resp & Hresp) Hin. unfold parseWITSVIDs in Hresp. case_match; [done|].
  destruct (parse_svids_from _ _ _ _ _ _ Hresp Hin) as [m (s & k & _ & Hs & _ & ->)%parse_WITSVID_Ok].
  exists now. destruct (parsed_is_from_token _ _ _ _ Hs) as [Hf Ht]. unfold WitSvid.Marshal, from_token; cbn.
  split; [|by eexists]. unfold from_token in Hf. rewrite Hf, Ht. exact Hs.
Qed.

(** Two parses of a token agree on all that it says. *)
Lemma parse_agree now now' tokn verify verify' s s' :
  WitSvid.parse now tokn verify = Ok s → WitSvid.parse now' tokn verify' = Ok s' → s = s'.
Proof.
  rewrite !witsvid_parse_Ok.
  intros (tok & h & c & td & path & m & Hp & Hh & _ & _ & Hc & He & Ha & Hi & Hid & Hm & Hb & _ & _ & Hs).
  intros (tok' & h' & c' & td' & path' & m' & Hp' & Hh' & _ & _ & Hc' & He' & Ha' & Hi' & Hid' & Hm' & Hb' & _ & _ & Hs').
  assert (tok' = tok) as -> by congruence. assert (h' = h) as -> by congruence.
  assert (parse_claims tok = Ok (c, svid_Expiry s, svid_ID s, svid_PublicKey s)) as E
    by (apply parse_claims_Ok; by exists td, path, m).
  assert (parse_claims tok = Ok (c', svid_Expiry s', svid_ID s', svid_PublicKey s')) as E'
    by (apply parse_claims_Ok; by exists td', path', m').
  rewrite E in E'. injection E' as _ Hx Hy Hz. rewrite Hs, Hs', Hx, Hy, Hz. done.
Qed.

(** Validation, for a token that parses: its time and its signature. *)
Lemma validate_parsed now now0 tokn get s0 s :
  WitSvid.ParseInsecure now0 tokn = Ok s0 →
  validate now tokn get = Ok s ↔
  s = s0 ∧ ∃ td path tok claims bundle k m, id_parts (svid_ID s0) td path ∧
    jwt_ParseSigned tokn WitSvid.allowedSignatureAlgorithms = inl tok ∧ UnsafeClaims tok = inl claims ∧
    ValidateWithLeeway claims (mkExpected [] now) DefaultLeeway = None ∧ get td = Ok bundle ∧
    WitBundle.witAuthorities bundle !! svid_KeyID s0 = Some k ∧ tok_Claims k tok = inl m.
Proof.
  intros H0. split.
  - intros Hs. pose proof (parse_agree _ _ _ _ _ _ _ H0 Hs) as <-. split; [done|].
    apply witsvid_parse_Ok in Hs
      as (tok & h & c & td & path & m & Hp & Hh & _ & _ & Hc & _ & _ & Hi & _ & _ & _ & Hval & Hver & Hs).
    apply bundle_verify_Ok in Hver as (bundle & k & m' & Hg & Hf & Hk).
    exists td, path, tok, c, bundle, k, m'. split_and!; try done. rewrite Hs. cbn [svid_KeyID].
    unfold WitBundle.FindWITAuthority in Hf. by destruct (WitBundle.witAuthorities bundle !! _); simplify_eq.
  - intros (-> & td' & path' & tok' & c' & bundle & k & m' & Hi' & Hp' & Hc' & Hval & Hg & Hf & Hk).
    apply witsvid_parse_Ok in H0
      as (tok & h & c & td & path & m & Hp & Hh & Ht & Hkid & Hc & He & Ha & Hi & Hid & Hm & Hb & _ & _ & Hs).
    assert (tok' = tok) as -> by congruence. assert (c' = c) as -> by congruence.
    destruct (id_parts_inj _ _ _ _ _ Hi Hi') as [<- <-].
    apply witsvid_parse_Ok. exists tok, h, c, td, path, m. split_and!; try done.
    apply bundle_verify_Ok. exists bundle, k, m'. split_and!; [done| |done].
    rewrite Hs in Hf. cbn [svid_KeyID] in Hf. unfold WitBundle.FindWITAuthority. by rewrite Hf.
Qed.

(** What a live source answers, and what it hands out. *)
Lemma live_wit_answers source get :
  wit_up source → answers source get →
  ∃ bundles, latest2 (trace source) = Some bundles ∧ set_wf bundles ∧
    (closed source = true → ∀ td, get td = Err (errors_New "witsource: source is closed")) ∧
    (closed source = false → ∀ td, get td = WitBundle.Set_GetWITBundleForTrustDomain bundles td).
Proof.
  intros [Hm [given Hr]] Hget. destruct (witsource_serves_latest _ _ Hr Hm) as (svids & bundles & _ & Hb & _ & Hopen & Hclosed & Hblock).
  assert (closer source = None) as Hcl.
  { destruct (closer source) eqn:E; [|done]. destruct Hblock as [_ H]; [done|].
    specialize (Hget (mkTrustDomain "")). by rewrite H in Hget. }
  exists bundles. split_and!; [done| | |].
  - destruct (constructed _ _ _ _ _ _ (or_intror eq_refl) Hr Hm) as (_ & Hdel & _).
    destruct (Hdel _ _ (latest2_in _ _ Hb)) as [resp Hresp]. by eapply parseWITBundles_delivered.
  - intros Hc td. specialize (Hget td). rewrite (proj2 (Hclosed Hcl Hc)) in Hget. by injection Hget.
  - intros Hc td. specialize (Hget td). rewrite (proj2 (Hopen Hcl Hc)) in Hget. by injection Hget.
Qed.

Lemma live_wit_hands_out source id svid :
  wit_up source → GetWITSVIDForID source id = Some (Ok svid) →
  closed source = false ∧ ∃ svids, latest1 (trace source) = Some svids ∧ wit_delivers W1 svids ∧
    head (filter (λ svid, svid_ID svid = id) svids) = Some svid.
Proof.
  intros [Hm [given Hr]] Hget. destruct (witsource_serves_latest _ _ Hr Hm) as (svids & bundles & Hs & _ & _ & Hopen & Hclosed & Hblock).
  destruct (closer source) eqn:Hcl; [by rewrite (proj1 (Hblock ltac:(done))) in Hget|].
  destruct (closed source) eqn:Hc; [by rewrite (proj1 (Hclosed eq_refl eq_refl)) in Hget|].
  split; [done|]. exists svids. split_and!; [done| |].
  - destruct (constructed _ _ _ _ _ _ (or_intror eq_refl) Hr Hm) as (_ & Hdel & _). exact (Hdel _ _ (latest1_in _ _ Hs)).
  - rewrite (proj1 (Hopen eq_refl eq_refl)) in Hget. by destruct (head _); simplify_eq.
Qed.
Lemma signed_iff bundles get now tokn s :
  set_wf bundles → (∀ td, get td = WitBundle.Set_GetWITBundleForTrustDomain bundles td) →
  (∃ td path tok claims bundle k m, id_parts (svid_ID s) td path ∧
    jwt_ParseSigned tokn WitSvid.allowedSignatureAlgorithms = inl tok ∧ UnsafeClaims tok = inl claims ∧
    ValidateWithLeeway claims (mkExpected [] now) DefaultLeeway = None ∧ get td = Ok bundle ∧
    WitBundle.witAuthorities bundle !! svid_KeyID s = Some k ∧ tok_Claims k tok = inl m) ↔
  wit_signed_by bundles now tokn s.
Proof.
  intros Hwf Hget. split.
  - intros (td & path & tok & c & bundle & k & m & Hi & Hp & Hc & Hval & Hg & Hf & Hk).
    rewrite Hget in Hg. apply Set_lookup_Ok in Hg.
    exists td, path, bundle, tok, c, k, m. split_and!; try done. exact (Hwf _ _ Hg).
  - intros (td & path & bundle & tok & c & k & m & Hi & Hb & _ & Hf & Hp & Hk & Hc & Hval).
    exists td, path, tok, c, bundle, k, m. split_and!; try done. rewrite Hget. by apply Set_lookup_Ok.
Qed.

(** Validation against a live source. *)
Lemma live_validate source get :
  wit_up source → answers source get →
  ∃ bundles, latest2 (trace source) = Some bundles ∧ ∀ now now0 tokn s0 s, WitSvid.ParseInsecure now0 tokn = Ok s0 →
    validate now tokn get = Ok s ↔ s = s0 ∧ closed source = false ∧ wit_signed_by bundles now tokn s0.
Proof.
  intros Hup Hget. destruct (live_wit_answers _ _ Hup Hget) as (bundles & Hb & Hwf & Hclosed & Hopen).
  exists bundles. split; [done|]. intros now now0 tokn s0 s H0. rewrite (validate_parsed _ _ _ _ _ _ H0).
  destruct (closed source).
  - split; [|naive_solver]. intros (_ & td & path & tok & c & bundle & k & m & H). destruct_and! H.
    by match goal with E : get _ = Ok _ |- _ => rewrite Hclosed in E end.
  - rewrite (signed_iff bundles) by auto. naive_solver.
Qed.

Lemma validated_insecure now tokn get s : validate now tokn get = Ok s → WitSvid.ParseInsecure now tokn = Ok s.
Proof.
  unfold validate, WitSvid.ParseAndValidate, WitSvid.ParseInsecure. rewrite !witsvid_parse_Ok.
  intros (tok & h & c & td & path & m & H). exists tok, h, c, td, path, m. naive_solver.
Qed.
End wit_sources.

(** ** The property *)
Section wit_source_properties.
Context {C : Charset} {CL : CharsetLaws C} {J : JoseLib} {T : JwtLib} {JL : JwtLaws T}.
Context {K : JwkLib} {KP : JwkPrivateLib}.

(** [C7] WIT-SVIDs between workloads. What a live WITSource hands out for an ID is the
    first SVID of that ID in the update delivered last; it has that ID and a private key.
    A token that validates against a live WITSource, which is then open, was signed with
    a key that the verifier's own Workload API delivered last for the trust domain of the
    token's subject. The token of the SVID handed out validates exactly when it is
    current and so signed, and the verifier then has the holder's ID, public key, key ID
    and expiry. That the private key belongs to that public key is not checked: a message
    is accepted with any private key in the place of its own. *)
Theorem live_wit (holder verifier : state WITSource wit_update) id svid get :
  wit_up holder → wit_up verifier → GetWITSVIDForID holder id = Some (Ok svid) → answers verifier get →
  (closed holder = false ∧ svid_ID svid = id ∧ is_Some (svid_PrivateKey svid) ∧
   ∃ svids, latest1 (trace holder) = Some svids ∧ head (filter (λ svid, svid_ID svid = id) svids) = Some svid) ∧
  (∃ bundles, latest2 (trace verifier) = Some bundles ∧
     (∀ now tokn s, validate now tokn get = Ok s → closed verifier = false ∧ wit_signed_by bundles now tokn s) ∧
     (∀ now s, validate now (WitSvid.Marshal svid) get = Ok s ↔
        s = from_token svid ∧ closed verifier = false ∧ wit_signed_by bundles now (WitSvid.Marshal svid) svid)) ∧
  (∀ now m key k s, parse_WITSVID now m = Ok s → key ≠ "" → parseJWKPrivateKey key = Ok k →
     parse_WITSVID now (mkWITSVID (w_SpiffeId m) (w_WitSvid m) key (w_Hint m)) = Ok (with_WIT_key k (w_Hint m) s)).
Proof.
  intros Hh Hv Hsvid Hget. destruct (live_wit_hands_out _ _ _ Hh Hsvid) as (Hc & svids & Hs & Hdel & Hfirst).
  assert (svid ∈ filter (λ svid, svid_ID svid = id) svids) as [Hid Hin]%list_elem_of_filter
    by (apply head_Some_elem_of, Hfirst).
  destruct (delivered_wit _ _ Hdel Hin) as (now0 & Hparse & Hkey).
  destruct (live_validate _ _ Hv Hget) as (bundles & Hb & Hval). split; [|split].
  - split_and!; [done..|]. by exists svids.
  - exists bundles. split_and!; [done| |].
    + intros now tokn s Hok. by apply (Hval _ now _ s) in Hok as [_ ?]; [|eapply validated_insecure].
    + intros now s. exact (Hval now now0 _ _ s Hparse).
  - intros now m key k s (s0 & k0 & _ & Hp & _ & ->)%parse_WITSVID_Ok Hne Hk. apply parse_WITSVID_Ok. by exists s0, k.
Qed.
End wit_source_properties.

(** ** Witness: a source whose bundle holds the key that signed the SVID *)
Definition sample_wit_doc : string := ok_or "" (WitBundle.Marshal WitSvid.sample_wit_key_bundle).
Definition sample_wit_bundles : WitBundle.Set_ :=
  ok_or (WitBundle.NewSet []) (parseWITBundles (C := charset_deny) (listed (<["example.org" := sample_wit_doc]> ∅))).
Definition live_wit_run : list (choice wit_update) :=
  [Ch_client None; Ch_main; Ch_main; Ch_main] ++ deliver W2 (sample_wit_bundles : wit_update W2) ++
  deliver W1 (sample_wits : wit_update W1) ++ [Ch_main; Ch_main; Ch_main; Ch_main].
Definition sample_live_wit : state WITSource wit_update :=
  after WITSource_fn live_wit_run (init initial_WITSource false (NewWITSource_prog false)).

Lemma sample_wit_bundles_delivered : wit_delivers (C := charset_deny) W2 sample_wit_bundles.
Proof. exists (listed (<["example.org" := sample_wit_doc]> ∅)). apply ok_or_Ok. by vm_compute. Qed.

Lemma sample_live_wit_up : wit_up (C := charset_deny) sample_live_wit.
Proof.
  split; [by vm_compute|]. exists false. apply after_reachable; [by vm_compute|].
  repeat (apply Forall_cons; split; [first [exact I|exact sample_wit_bundles_delivered|exact sample_wits_delivered]|]).
  by apply Forall_nil.
Qed.

Lemma live_wit_witness :
  let get := WitBundle.Set_GetWITBundleForTrustDomain sample_wit_bundles in
  ∃ svid, GetWITSVIDForID sample_live_wit (mkID "spiffe://example.org/workload" 20) = Some (Ok svid) ∧
    validate (C := charset_deny) 900 (WitSvid.Marshal svid) get = Ok (from_token svid).
Proof.
  intros get.
  destruct (GetWITSVIDForID sample_live_wit (mkID "spiffe://example.org/workload" 20)) as [[svid| |]|] eqn:Hs;
    try (by vm_compute in Hs).
  exists svid. split; [done|].
  destruct (live_wit (C := charset_deny) sample_live_wit sample_live_wit _ svid get
    sample_live_wit_up sample_live_wit_up Hs) as (_ & (bundles & Hb & _ & H) & _).
  - intros td. by vm_compute.
  - apply H. vm_compute in Hs. injection Hs as <-. vm_compute in Hb. injection Hb as <-.
    split_and!; [done|by vm_compute|].
    eexists (mkTrustDomain "example.org"), "/workload", _, _, _, _, _. split_and!; [split_and!|..]; by vm_compute.
Defined.
