(* ===== verification/Examples.v ===== *)
(** * examples: programs built on the library

    Models the programs of src/examples: the HTTP, gRPC and TLS pairs, the pair that
    authenticates with JWT-SVIDs and its variant behind a proxy, and the watcher. A program
    is what it does in order (the deferred calls included) and what it returns; the
    standard library's servers, clients and connections are the class [World]. Log lines
    and the contexts' timeouts are left out. *)

From S2P Require Import Prelude Path GoUrl ID Match Crypto X509 X509Sample Pem BundleSet X509Bundle Jose JwtBundle WitBundle X509Svid Jwt JwtSvid WitSvid Backoff Addr Client Watch Watcher Sources TlsConfig SpiffeTls GrpcCreds Live.

(** ** strings.Fields *)

(** unicode.IsSpace: the white space of ASCII and Latin-1, and category Z. The width in
    bytes of the white space that [s] starts with; its encodings start with bytes that
    are not continuation bytes, so they cannot occur inside another character. *)
Definition space_width (s : string) : option nat :=
  let bytes := N_of_ascii <$> String.list_ascii_of_string s in
  match bytes with
  | (9 | 10 | 11 | 12 | 13 | 32)%N :: _ => Some 1%nat
  | (194 :: (133 | 160) :: _)%N => Some 2%nat                                (* U+0085, U+00A0 *)
  | (225 :: 154 :: 128 :: _)%N => Some 3%nat                                 (* U+1680 *)
  | (226 :: 128 :: b :: _)%N =>                                              (* U+2000 to U+200A, 2028, 2029, 202F *)
      if ((128 <=? b) && (b <=? 138) || (b =? 168) || (b =? 169) || (b =? 175))%N then Some 3%nat else None
  | (226 :: 129 :: 159 :: _)%N => Some 3%nat                                 (* U+205F *)
  | (227 :: 128 :: 128 :: _)%N => Some 3%nat                                 (* U+3000 *)
  | _ => None
  end.

Definition flush (field : string) : list string := if bool_decide (field = "") then [] else [field].

(** [skip]: bytes of white space left to pass over; [field]: the field read so far. *)
Fixpoint Fields_loop (s : string) (skip : nat) (field : string) : list string :=
  match s with
  | EmptyString => flush field
  | String a s' =>
      match skip with
      | S skip => Fields_loop s' skip field
      | O =>
          match space_width s with
          | Some w => flush field ++ Fields_loop s' (w - 1) ""
          | None => Fields_loop s' 0 (field +:+ String a "")
          end
      end
  end.
Definition Fields (s : string) : list string := Fields_loop s 0 "".

(** ** HTTP *)

(** The header the programs use, and the claims the middleware puts in the context. *)
Record request : Type := mkRequest { Authorization : string; ctx_claims : option claims_map }.
Record response : Type := mkResponse { StatusCode : Z; Body : string }.
Definition StatusOK : Z := 200.
Definition StatusUnauthorized : Z := 401.
Definition http_Error (msg : string) (status : Z) : response := mkResponse status (msg +:+ String "010" "").

(** A handler may panic; the server then drops the connection. *)
Definition Handler : Type := request → res response.

Section authenticator.
Context {C : Charset} {J : JwtLib}.
Context {T : Type} {S : JwtBundle.Source T}.

Record authenticator : Type := mkAuthenticator { jwtSource : T; audiences : list string }.

Definition withSVIDClaims (req : request) (claims : claims_map) : request := mkRequest (Authorization req) (Some claims).
Definition svidClaims (req : request) : option claims_map := ctx_claims req.

(** What the two middlewares do with a request up to the call of [next]. *)
Definition authenticate (now : Z) (a : authenticator) (req : request) : res (JwtSvid.SVID + response) :=
  match Fields (Authorization req) with
  | [bearer; token] =>
      if negb (bool_decide (bearer = "Bearer"))
      then Ok (inr (http_Error "Invalid or unsupported authorization header" StatusUnauthorized))
      else
        match JwtSvid.ParseAndValidate now token (jwtSource a) (audiences a) with
        | Panic why => Panic why
        | Err _ => Ok (inr (http_Error "Unauthorized" StatusUnauthorized))
        | Ok svid => Ok (inl svid)
        end
  | _ => Ok (inr (http_Error "Invalid or unsupported authorization header" StatusUnauthorized))
  end.

(** spiffe-jwt/server: the claims are passed on. *)
Definition authenticateClient (now : Z) (a : authenticator) (next : Handler) : Handler := λ req,
  let! r := authenticate now a req in
  match r with inl svid => next (withSVIDClaims req (JwtSvid.svid_Claims svid)) | inr resp => Ok resp end.

(** spiffe-jwt-using-proxy/server: they are not. *)
Definition authenticateClient_proxied (now : Z) (a : authenticator) (next : Handler) : Handler := λ req,
  let! r := authenticate now a req in
  match r with inl _ => next req | inr resp => Ok resp end.

Definition index : Handler := λ _, Ok (mkResponse StatusOK "Success!!!").
End authenticator.
Arguments authenticator T : clear implicits.

Example Fields_example : Fields (" Bearer   tok.en" +:+ String "009" "") = ["Bearer"; "tok.en"].
Proof. reflexivity. Qed.

(** ** The programs *)
Section programs.
Context {C : Charset} {L : X509Lib} {V : X509Verifier} {J : JwtLib}.
Context {W Src JSrc Client Dialer Conn Lis Listener : Type} {N : TlsNet W Src (X509SourceOption Client) Dialer Conn Lis}.

(** What the programs call outside the repository, and NewJWTSource. A server's
    ListenAndServeTLS returns only with an error. *)
Class World := {
  NewJWTSource : list (JWTSourceOption Client) → JSrc + error;
  j_bundle : JSrc → W → TrustDomain → res JwtBundle.Bundle;
  j_FetchJWTSVID : JSrc → Params → res JwtSvid.SVID;
  ListenAndServeTLS : string → Config W → error;
  client_Do : Config W → string → request → response + error;
  http_NewRequest : string → unit + error;
  io_ReadAll : response → string + error;
  url_Parse : string → URL + error;
  conn_ReadString : Conn → string * option error;       (* up to a newline; the text read so far and the error *)
  tls_Accept : Lis → list (accepted (Conn := Conn)) * error;   (* what its Accept returns until it fails, and how it fails *)
  grpc_NewClient : string → credentialsWrapper W → Client + error;
  SayHello : Client → string → string + error;
  net_Listen_tcp : string → Listener + error;
  grpc_Serve : credentialsWrapper W → Listener → option error;
}.
Context {X : World}.

Inductive event : Type :=
  | X509SourceCreated (s : Src) | X509SourceClosed (s : Src)
  | JWTSourceCreated (j : JSrc) | JWTSourceClosed (j : JSrc)
  | Serving (addr : string) (config : Config W) (handler : Z → W → Handler)
  | Proxying (addr : string) (config : Config W) (remote : URL) (transport : Config W)
  | Requested (config : Config W) (url : string) (req : request)
  | BodyClosed
  | Tls (e : tls_event W Src)
  | Listening (config : Config W)
  | Said (c : Conn) (text : string) | Hung_up (c : Conn)
  | Greeted (creds : credentialsWrapper W) (reply : string)
  | GrpcServing (creds : credentialsWrapper W).

(** A run: what it returns and what it did. *)
Definition R (A : Type) : Type := res A * list event.
Definition did {A} (m : R A) : list event := m.2.
Definition bind {A B} (m : R A) (k : A → R B) : R B :=
  match m.1 with
  | Ok a => ((k a).1, m.2 ++ (k a).2)
  | Err e => (Err e, m.2)
  | Panic why => (Panic why, m.2)
  end.
Notation "'let>' x := m 'in' k" := (bind m (λ x, k)) (at level 10, x name, k at level 200).
Definition lift {A} (r : res A) : R A := (r, []).
Definition emit (e : event) : R unit := (Ok (), [e]).
(** defer: whatever [m] returns. *)
Definition defer {A} (e : list event) (m : R A) : R A := (m.1, m.2 ++ e).
(** Return fmt.Errorf(msg, err) when there is an error. *)
Definition try {A} (msg : string) (r : A + error) : R A :=
  lift (wrap_err (λ err, fmt_Errorf msg [Arg_w (Some err)]) (of_lib r)).

Definition socketPath : string := "unix:///tmp/agent.sock".
Definition clientOptions : SourceOption Client := WithClientOptions [WithAddr socketPath].

Definition with_x509Source {A} (body : Src → R A) : R A :=
  let> x509Source := lift (wrap_err (λ err, fmt_Errorf "unable to create X509Source: %w" [Arg_w (Some err)])
    (NewX509Source [X509_SourceOption clientOptions])) in
  let> _ := emit (X509SourceCreated x509Source) in
  defer [X509SourceClosed x509Source] (body x509Source).

Definition with_jwtSource {A} (body : JSrc → R A) : R A :=
  let> jwtSource := try "unable to create JWTSource: %w" (NewJWTSource [JWT_SourceOption clientOptions]) in
  let> _ := emit (JWTSourceCreated jwtSource) in
  defer [JWTSourceClosed jwtSource] (body jwtSource).

(** A JWTSource as the middleware sees it at a state of the world. *)
#[local] Instance jwt_at : JwtBundle.Source (JSrc * W) := λ jw td, j_bundle jw.1 jw.2 td.

Definition serve (addr : string) (config : Config W) (handler : Z → W → Handler) : R unit :=
  let> _ := emit (Serving addr config handler) in
  lift (Err (fmt_Errorf "failed to serve: %w" [Arg_w (Some (ListenAndServeTLS addr config))])).

Definition serverID : res ID.ID := RequireFromString "spiffe://example.org/server".
Definition clientID : res ID.ID := RequireFromString "spiffe://example.org/client".
Definition server_audiences : list string := ["spiffe://example.org/server"].

(** *** spiffe-jwt *)
Definition run_jwt_server : R unit :=
  with_x509Source (λ x509Source,
    let tlsConfig := TLSServerConfig (as_svid x509Source) [] in
    with_jwtSource (λ jwtSource,
      serve ":8443" tlsConfig (λ now w, authenticateClient now (mkAuthenticator (jwtSource, w) server_audiences) index))).

(** os.Args[1] when given, else the server's ID. *)
Definition audience_arg (args : list string) (serverID : ID.ID) : string :=
  match args with _ :: audience :: _ => audience | _ => ID_String serverID end.

Definition bearer (svid : JwtSvid.SVID) : string := "Bearer " +:+ JwtSvid.Marshal svid.

Definition fetch_token (jwtSource : JSrc) (audience : string) : R JwtSvid.SVID :=
  lift (wrap_err (λ err, fmt_Errorf "unable to fetch SVID: %w" [Arg_w (Some err)])
    (j_FetchJWTSVID jwtSource (mkParams audience [] zero_ID))).

(** client.Do; the deferred close of the body follows the rest. *)
Definition do_request {A} (msg : string) (config : Config W) (url : string) (req : request) (rest : response → R A) : R A :=
  let> _ := emit (Requested config url req) in
  let> resp := lift (wrap_err (λ err, fmt_Errorf msg [Arg_s url; Arg_w (Some err)]) (of_lib (client_Do config url req))) in
  defer [BodyClosed] (rest resp).

Definition run_jwt_client (args : list string) : R unit :=
  with_x509Source (λ x509Source,
    let> serverID := lift serverID in
    let tlsConfig := TLSClientConfig (as_bundle x509Source) (AuthorizeID serverID) [] in
    let> _ := try "unable to create request: %w" (http_NewRequest "https://localhost:8443") in
    with_jwtSource (λ jwtSource,
      let> svid := fetch_token jwtSource (audience_arg args serverID) in
      do_request "unable to issue request to %q: %w" tlsConfig "https://localhost:8443" (mkRequest (bearer svid) None) (λ resp,
        let> _ := try "error reading response body: %w" (io_ReadAll resp) in
        lift (Ok ())))).

(** *** spiffe-jwt-using-proxy *)
Definition run_proxied_server : R unit :=
  with_x509Source (λ x509Source,
    with_jwtSource (λ jwtSource,
      serve ":8080" (TLSServerConfig (as_svid x509Source) [])
        (λ now w, authenticateClient_proxied now (mkAuthenticator (jwtSource, w) server_audiences) index))).

Definition run_proxy : R unit :=
  let> remote := try "unable to parse server URL: %w" (url_Parse "https://localhost:8080") in
  with_x509Source (λ x509Source,
    let> serverID := lift serverID in
    let transport := TLSClientConfig (as_bundle x509Source) (AuthorizeID serverID) [] in
    let config := TLSServerConfig (as_svid x509Source) [] in
    let> _ := emit (Proxying ":8443" config remote transport) in
    lift (Err (fmt_Errorf "failed to serve: %w" [Arg_w (Some (ListenAndServeTLS ":8443" config))]))).

Definition run_proxied_client (args : list string) : R unit :=
  with_x509Source (λ x509Source,
    let> serverID := lift serverID in
    with_jwtSource (λ jwtSource,
      let> svid := fetch_token jwtSource (audience_arg args serverID) in
      let> _ := try "unable to create request: %w" (http_NewRequest "https://localhost:8443") in
      let tlsConfig := TLSClientConfig (as_bundle x509Source) (AuthorizeID serverID) [] in
      do_request "unable to connect to %q: %w" tlsConfig "https://localhost:8443" (mkRequest (bearer svid) None) (λ resp,
        if negb (StatusCode resp =? StatusOK)%Z then lift (Err (fmt_Errorf "unexpected status: %d" [Arg_d (StatusCode resp)]))
        else
          let> _ := try "error reading response body: %w" (io_ReadAll resp) in
          lift (Ok ())))).

(** *** spiffe-http *)
Definition run_http_client : R unit :=
  with_x509Source (λ source,
    let> serverID := lift serverID in
    let tlsConfig := MTLSClientConfig (as_svid source) (as_bundle source) (AuthorizeID serverID) [] in
    do_request "error connecting to %q: %w" tlsConfig "https://localhost:8443/" (mkRequest "" None) (λ resp,
      let> _ := try "unable to read body: %w" (io_ReadAll resp) in
      lift (Ok ()))).

Definition run_http_server : R unit :=
  with_x509Source (λ source,
    let> clientID := lift clientID in
    serve ":8443" (MTLSServerConfig (as_svid source) (as_bundle source) (AuthorizeID clientID) []) (λ _ _, index)).

(** *** spiffe-tls *)
Definition tls_events (evs : list (tls_event W Src)) : list event := Tls <$> evs.

Definition run_tls_client : R unit :=
  let> serverID := lift serverID in
  let o := DialWithMode "tcp" "localhost:55555"
             (MTLSClientWithSourceOptions (AuthorizeID serverID) [X509_SourceOption clientOptions]) [] ∅ in
  let> conn := (wrap_err (λ err, fmt_Errorf "unable to create TLS connection: %w" [Arg_w (Some err)]) (o_result o),
                tls_events (o_events o)) in
  defer (tls_events (clientConn_Close conn).2) (
    let> _ := emit (Said (cc_Conn conn) ("Hello server" +:+ String "010" "")) in
    match conn_ReadString (cc_Conn conn) with
    | (status, Some err) =>
        if is_extern err "EOF" then lift (Ok ())
        else lift (Err (fmt_Errorf "unable to read server response: %w" [Arg_w (Some err)]))
    | (status, None) => lift (Ok ())
    end).

(** handleConnection, a goroutine of its own, run here when it is started; conn.Close is
    deferred. What the write returns is only logged. *)
Definition handleConnection (conn : Conn) : R unit :=
  defer [Hung_up conn] (
    match conn_ReadString conn with
    | (_, Some err) => lift (Ok ())
    | (req, None) => emit (Said conn ("Hello client" +:+ String "010" ""))
    end).

(** The loop ends only with the first error of Accept. *)
Fixpoint accept_loop (script : list (accepted (Conn := Conn))) (failure : error) : R unit :=
  let failed err closed := (Err (fmt_Errorf "failed to accept connection: %w" [Arg_w (Some err)]), Hung_up <$> closed) in
  let accept inner rest :=
    match listener_Accept inner with
    | (Err err, closed) => failed err closed
    | (Panic why, closed) => (Panic why, Hung_up <$> closed)
    | (Ok conn, _) => let> _ := handleConnection conn in rest
    end in
  match script with
  | [] => accept (inr failure) (lift (Ok ()))
  | inner :: script => accept (inl inner) (accept_loop script failure)
  end.

Definition run_tls_server : R unit :=
  let> clientID := lift clientID in
  let o := ListenWithMode "tcp" "localhost:55555"
             (MTLSServerWithSourceOptions (AuthorizeID clientID) [X509_SourceOption clientOptions]) [] ∅ in
  let> listener := (wrap_err (λ err, fmt_Errorf "unable to create TLS listener: %w" [Arg_w (Some err)]) (o_result o),
                    tls_events (o_events o)) in
  defer (tls_events (listener_Close listener).2) (
    let> _ := emit (Listening (deref (o_heap o) (l_config listener))) in
    let script := tls_Accept (l_inner listener) in accept_loop script.1 script.2).

(** *** spiffe-grpc *)
Definition run_grpc_client : R unit :=
  with_x509Source (λ source,
    let> serverID := lift serverID in
    let creds := MTLSClientCredentials (as_svid source) (as_bundle source) (AuthorizeID serverID) [] in
    let> conn := try "failed to dial: %w" (grpc_NewClient "dns:///localhost:50051" creds) in
    let> reply := try "failed issuing RPC to server: %w" (SayHello conn "world") in
    emit (Greeted creds reply)).

Definition run_grpc_server : R unit :=
  with_x509Source (λ source,
    let> clientID := lift clientID in
    let creds := MTLSServerCredentials (as_svid source) (as_bundle source) (AuthorizeID clientID) [] in
    let> lis := try "error creating listener: %w" (net_Listen_tcp "127.0.0.1:50051") in
    let> _ := emit (GrpcServing creds) in
    match grpc_Serve creds lis with
    | Some err => lift (Err (fmt_Errorf "failed to serve: %w" [Arg_w (Some err)]))
    | None => lift (Ok ())
    end).
Definition greeting (name : string) : string := "Hello " +:+ name.
End programs.

(** ** spiffe-watcher: what the process ends with; log.Fatalf ends it without the
    deferred calls. *)
Section watcher.
Context {GS : GrpcStatus} {L : X509Lib} {J : JoseLib}.

Inductive exit : Type := Returned (clientClosed : bool) | Fatal (msg : string) (err : error).

(** What a watch goroutine does with the error of its watch. *)
Definition watch_ended (msg : string) (err : option error) : option exit :=
  match err with
  | Some e => if bool_decide (status_Code e = codes_Canceled) then None else Some (Fatal msg e)
  | None => None
  end.

(** startWatchers: the errors of the two watches in the order in which they end. *)
Definition x509_ended : option error → option exit := watch_ended "Error watching X.509 context: %v".
Definition jwt_ended : option error → option exit := watch_ended "Error watching JWT bundles: %v".

Definition startWatchers (new : option error) (x509_first : bool) (x509_err jwt_err : option error) : exit :=
  match new with
  | Some err => Fatal "Unable to create workload API client: %v" err
  | None =>
      let ends := if x509_first then [x509_ended x509_err; jwt_ended jwt_err] else [jwt_ended jwt_err; x509_ended x509_err] in
      default (Returned true) (head (omap id ends))
  end.

(** The update callbacks: fatal when something does not marshal. *)
Fixpoint OnX509ContextUpdate (svids : list X509Svid.SVID) : option exit :=
  match svids with
  | [] => None
  | svid :: svids =>
      match X509Svid.Marshal svid with
      | Err err => Some (Fatal "Unable to marshal X.509 SVID: %v" err)
      | _ => OnX509ContextUpdate svids
      end
  end.
Fixpoint OnJWTBundlesUpdate (bundles : list JwtBundle.Bundle) : option exit :=
  match bundles with
  | [] => None
  | bundle :: bundles =>
      match JwtBundle.Marshal bundle with
      | Err err => Some (Fatal "Unable to marshal JWT Bundle : %v" err)
      | _ => OnJWTBundlesUpdate bundles
      end
  end.

(** The watcher ends quietly, with its client closed, exactly when both watches end with
    no error or with a status of Canceled. In particular an interrupt that finds a watch
    waiting to retry, which then returns the context's error rather than a status, ends
    the process by log.Fatalf. *)
Lemma startWatchers_spec x509_first x509_err jwt_err :
  let quiet err := match err with Some e => status_Code e = codes_Canceled | None => True end in
  (startWatchers None x509_first x509_err jwt_err = Returned true ↔ quiet x509_err ∧ quiet jwt_err) ∧
  (∀ e, x509_err = Some e → status_Code e ≠ codes_Canceled → quiet jwt_err →
     startWatchers None x509_first x509_err jwt_err = Fatal "Error watching X.509 context: %v" e).
Proof.
  intros quiet. unfold startWatchers, x509_ended, jwt_ended, watch_ended, quiet.
  destruct x509_first, x509_err as [e1|], jwt_err as [e2|]; cbn; repeat case_bool_decide; cbn; naive_solver.
Qed.
End watcher.

(** ** The middleware *)

(** Printable ASCII, as in a compact JWT. *)
Definition plain_byte (a : ascii) : bool := ((33 <=? N_of_ascii a) && (N_of_ascii a <=? 126))%N.

Lemma space_width_plain a s : plain_byte a = true → space_width (String a s) = None.
Proof. destruct a as [[] [] [] [] [] [] [] []]; done. Qed.

Lemma Fields_loop_plain s field : all_bytes plain_byte s = true → Fields_loop s 0 field = flush (field +:+ s).
Proof.
  revert field; induction s as [|a s IH]; intros field; cbn [all_bytes Fields_loop]; [by rewrite app_str_nil_r|].
  intros [Ha Hs]%andb_true_iff. rewrite (space_width_plain _ _ Ha), IH by done. by rewrite app_str_assoc, app_str_cons, app_str_nil_l.
Qed.

Lemma Fields_bearer token : all_bytes plain_byte token = true → token ≠ "" → Fields ("Bearer " +:+ token) = ["Bearer"; token].
Proof.
  intros Hp Hne. transitivity ("Bearer" :: Fields_loop token 0 ""); [reflexivity|].
  rewrite (Fields_loop_plain token "" Hp), app_str_nil_l. unfold flush. by rewrite bool_decide_eq_false_2.
Qed.

Section middleware.
Context {C : Charset} {CL : CharsetLaws C} {L : X509Lib} {J : JoseLib} {T : JwtLib} {JL : JwtLaws T} {K : JwkLib} {KP : JwkPrivateLib}.

Lemma authenticate_spec {S} {HS : JwtBundle.Source S} now (a : authenticator S) req r :
  authenticate now a req = Ok r →
  match r with
  | inl svid => ∃ token, Fields (Authorization req) = ["Bearer"; token] ∧
      JwtSvid.ParseAndValidate now token (jwtSource a) (audiences a) = Ok svid
  | inr resp => StatusCode resp = StatusUnauthorized ∧ ∀ token, Fields (Authorization req) = ["Bearer"; token] →
      is_Err (JwtSvid.ParseAndValidate now token (jwtSource a) (audiences a)) = true
  end.
Proof.
  unfold authenticate. destruct (Fields (Authorization req)) as [|b [|token [|]]]; try (by intros [= <-]).
  case_bool_decide as Hb; cbn [negb]; [subst b|by intros [= <-]; split; [|intros ? [= ? ?]]].
  destruct (JwtSvid.ParseAndValidate _ _ _ _) as [svid|err|] eqn:Hp; [| |done]; intros [= <-].
  - by exists token.
  - split; [done|]. intros ? [= <-]. by rewrite Hp.
Qed.

(** The JWT servers of the examples. With a live JWTSource the middleware answers 401
    and stops there, or the header is exactly Bearer and a token that was validated for
    the server's audiences with the keys delivered last, and then the answer is the
    handler's, which is given the validated claims. A client that sends a printable token
    it fetched, as the example clients do, gets the handler's answer exactly when its
    token validates. *)
Theorem jwt_server_serves (l : live_jwt_source) (now : Z) auds req next resp :
  jwt_up l →
  let a := mkAuthenticator l auds in
  authenticateClient now a next req = Ok resp →
  (StatusCode resp = StatusUnauthorized ∨
   ∃ token svid bundles, Fields (Authorization req) = ["Bearer"; token] ∧ lj_closed l = false ∧
     latest2 (trace (lj_machine l)) = Some bundles ∧ signed_by bundles now token auds svid ∧
     next (withSVIDClaims req (JwtSvid.svid_Claims svid)) = Ok resp) ∧
  (∀ fetched, Authorization req = bearer fetched → JwtSvid.Marshal fetched ≠ "" →
     all_bytes plain_byte (JwtSvid.Marshal fetched) = true →
     match JwtSvid.ParseAndValidate now (JwtSvid.Marshal fetched) l auds with
     | Ok svid => next (withSVIDClaims req (JwtSvid.svid_Claims svid)) = Ok resp
     | _ => StatusCode resp = StatusUnauthorized
     end).
Proof.
  intros Hup a. unfold authenticateClient. intros (r & Hr & Hresp)%bind_Ok_inv.
  pose proof (authenticate_spec _ _ _ _ Hr) as Hspec. cbn [jwtSource audiences a] in Hspec. split.
  - destruct r as [svid|resp']; [right|left; injection Hresp as <-; apply Hspec].
    destruct Hspec as (token & Hf & Hp). destruct (live_jwt_signed _ _ _ _ _ Hup Hp) as (Hcl & bundles & Hb & Hs).
    by exists token, svid, bundles.
  - intros fetched Hauth Hne Hplain. pose proof (Fields_bearer _ Hplain Hne) as Hf. unfold bearer in Hauth. rewrite <- Hauth in Hf.
    destruct r as [svid|resp'].
    + destruct Hspec as (token & Hf' & Hp). rewrite Hf in Hf'. injection Hf' as <-. by rewrite Hp.
    + destruct Hspec as (Hst & Herr). specialize (Herr _ Hf). injection Hresp as <-.
      by destruct (JwtSvid.ParseAndValidate _ _ _ _).
Qed.
End middleware.

Lemma jwt_server_serves_witness :
  let req := mkRequest "Bearer J" None in
  let a := mkAuthenticator sample_live_jwt ["aud2"] in
  authenticateClient (C := charset_deny) 900 a index req = Ok (mkResponse StatusOK "Success!!!") ∧
  ∃ svid bundles, latest2 (trace (lj_machine sample_live_jwt)) = Some bundles ∧
    signed_by (C := charset_deny) bundles 900 "J" ["aud2"] svid.
Proof.
  intros req a.
  assert (authenticateClient (C := charset_deny) 900 a index req = Ok (mkResponse StatusOK "Success!!!")) as Hr by by vm_compute.
  destruct (jwt_server_serves (C := charset_deny) sample_live_jwt 900 ["aud2"] req index _ sample_live_jwt_up Hr) as [[[=]|Hserved] _].
  destruct Hserved as (token & svid & bundles & Hf & _ & Hb & Hs & _). injection Hf as <-.
  split; [exact Hr|]. exact (ex_intro _ svid (ex_intro _ bundles (conj Hb Hs))).
Defined.

Section programs_properties.
Context {C : Charset} {L : X509Lib} {V : X509Verifier} {J : JwtLib}.
Context {W Src JSrc Client Dialer Conn Lis Listener : Type} {N : TlsNet W Src (X509SourceOption Client) Dialer Conn Lis}.
Context {X : World (W := W) (JSrc := JSrc) (Client := Client) (Conn := Conn) (Lis := Lis) (Listener := Listener)}.
#[local] Abbreviation event := (event (W := W) (Src := Src) (JSrc := JSrc) (Conn := Conn)).
#[local] Abbreviation events := (list event).
#[local] Existing Instance jwt_at.

(** The sources a program has opened and closed, in order. *)
Definition openings (evs : events) : list (Src + JSrc) :=
  omap (λ e, match e with X509SourceCreated s | Tls (SourceCreated s) => Some (inl s) | JWTSourceCreated j => Some (inr j) | _ => None end) evs.
Definition closings (evs : events) : list (Src + JSrc) :=
  omap (λ e, match e with X509SourceClosed s | Tls (SourceClosed s) => Some (inl s) | JWTSourceClosed j => Some (inr j) | _ => None end) evs.

(** Every source opened is closed, the last one opened first. *)
Definition released (evs : events) : Prop := closings evs = reverse (openings evs).
Definition neutral (evs : events) : Prop := openings evs = [] ∧ closings evs = [].

Lemma released_app evs evs' : neutral evs → released evs' → released (evs ++ evs').
Proof. intros [Ho Hc] Hr. unfold released, openings, closings in *. rewrite !omap_app, Ho, Hc. exact Hr. Qed.

Lemma released_bind {A B} (m : R A) (k : A → R B) : neutral (did m) → (∀ a, released (did (k a))) → released (did (bind m k)).
Proof.
  intros Hm Hk. assert (released []) as Hn by done. unfold bind, did in *.
  destruct m.1 as [a|e|why]; cbn; [by apply released_app|..]; rewrite <- (app_nil_r m.2); by apply released_app.
Qed.

Lemma released_defer {A} evs (m : R A) : neutral evs → released (did m) → released (did (defer evs m)).
Proof.
  intros [Ho Hc] Hr. unfold released, did, defer, openings, closings in *. cbn. by rewrite !omap_app, Ho, Hc, !app_nil_r.
Qed.

Lemma released_bracket c cl x evs :
  openings [c] = [x] → closings [c] = [] → openings [cl] = [] → closings [cl] = [x] → released evs →
  released ([c] ++ evs ++ [cl]).
Proof.
  unfold released, openings, closings. intros Ho Hc Ho' Hc' Hr.
  rewrite !omap_app, Ho, Hc, Ho', Hc', Hr, app_nil_r, reverse_app. done.
Qed.

Lemma released_with_x509Source {A} (body : Src → R A) :
  (∀ s, released (did (body s))) → released (did (with_x509Source body)).
Proof.
  intros Hb. unfold with_x509Source. apply released_bind; [done|]. intros s.
  exact (released_bracket (X509SourceCreated s) (X509SourceClosed s) (inl s) _ eq_refl eq_refl eq_refl eq_refl (Hb s)).
Qed.

Lemma released_with_jwtSource {A} (body : JSrc → R A) :
  (∀ j, released (did (body j))) → released (did (with_jwtSource body)).
Proof.
  intros Hb. unfold with_jwtSource. apply released_bind; [done|]. intros j.
  exact (released_bracket (JWTSourceCreated j) (JWTSourceClosed j) (inr j) _ eq_refl eq_refl eq_refl eq_refl (Hb j)).
Qed.

Lemma released_request {A} msg config url req (rest : response → R A) :
  (∀ resp, released (did (rest resp))) → released (did (do_request msg config url req rest)).
Proof. intros Hr. unfold do_request. apply released_bind; [done|]. intros _. apply released_bind; [done|]. intros resp. by apply released_defer. Qed.

Lemma released_lift {A} (r : res A) : released (did (lift r)).
Proof. done. Qed.

Lemma released_neutral evs : neutral evs → released evs.
Proof. intros [Ho Hc]. unfold released. by rewrite Ho, Hc. Qed.

Lemma tls_events_sources evs :
  openings (tls_events evs) = inl <$> created_of evs ∧ closings (tls_events evs) = inl <$> closed_of evs.
Proof.
  unfold openings, closings, tls_events, created_of, closed_of. induction evs as [|[] evs [IHo IHc]]; [done|..]; cbn in *;
    by rewrite ?IHo, ?IHc.
Qed.

(** A program that dials or listens: the source of the call is closed with what it returned. *)
Lemma released_tls {A B} (evs : list (tls_event W Src)) (r : res A) wrap (closer_of : A → option Src) closer
    (close : A → list (tls_event W Src)) (body : A → R B) :
  accounts_for closer_of evs r closer → (∀ why, r = Panic why → created_of evs = []) →
  (∀ a, closed_of (close a) = option_list (closer_of a) ∧ created_of (close a) = []) → (∀ a, neutral (did (body a))) →
  released (did (bind (wrap_err wrap r, tls_events evs) (λ a, defer (tls_events (close a)) (body a)))).
Proof.
  intros [Hcr Hr] Hnp Hcl Hb. destruct (tls_events_sources evs) as [Ho Hc].
  destruct r as [a|err|why]; cbn in Hr; unfold released, did, bind, defer; cbn -[openings closings reverse].
  - destruct Hr as [Hca Hce], (Hcl a) as [Hc1 Hc2], (Hb a) as [Hb1 Hb2], (tls_events_sources (close a)) as [Ho' Hc'].
    unfold openings, closings, did in *. rewrite !omap_app, Ho, Hc, Ho', Hc', Hb1, Hb2, Hcr, Hce, Hc1, Hc2, Hca. by destruct closer.
  - rewrite Ho, Hc, Hcr, Hr. by destruct closer.
  - by rewrite Ho, Hc, Hr, (Hnp why).
Qed.

Lemma accept_loop_neutral script failure : neutral (did (accept_loop script failure)).
Proof.
  induction script as [|[c|c type] script IH]; [done| |done]. cbn [accept_loop listener_Accept].
  unfold handleConnection, bind, defer, did, neutral, openings, closings in *.
  destruct (conn_ReadString c) as [req [err|]]; cbn; exact IH.
Qed.

Lemma neutral_lift {A} (r : res A) : neutral (did (lift r)).
Proof. done. Qed.

Lemma released_serve addr config handler : released (did (serve addr config handler)).
Proof. apply released_bind; [done|]. intros _. apply released_lift. Qed.

(** A panic of tls.Dial leaves the source of the call open. *)
Lemma released_run_tls_client :
  (∀ dialer network addr config, no_panic (tls_Dial dialer network addr config) = true) → released (did run_tls_client).
Proof.
  intros Hdial. apply released_bind; [apply neutral_lift|]. intros serverID.
  set (m := MTLSClientWithSourceOptions (AuthorizeID serverID) [X509_SourceOption clientOptions]).
  destruct (dial_accounts "tcp" "localhost:55555" m [] ∅) as (closer & _ & Hacc).
  apply (released_tls _ _ _ _ _ _ _ Hacc).
  - intros why [(_ & _ & _ & ->)|(cfg & _ & Hp)]%dial_panics; [done|]. pose proof (Hdial (dc_dialer (dial_options [])) "tcp" "localhost:55555" cfg) as Hd.
    by rewrite Hp in Hd.
  - intros conn. unfold clientConn_Close. by destruct (cc_sourceCloser conn).
  - intros conn. unfold bind. cbn. destruct (conn_ReadString _) as [? [err|]]; [|done]. by destruct (is_extern err "EOF").
Qed.

(** When the source cannot even be made, nothing was done. *)
Lemma listen_panic_events inner (m : listenMode W Src (X509SourceOption Client)) options h why :
  lm_sourceUnneeded m = false ∧ lm_source m = None ∧ NewX509Source (lm_options m) = Panic why →
  created_of (o_events (NewListenerWithMode inner m options h)) = [].
Proof. intros (Hu & Hs & Hn). unfold NewListenerWithMode, acquire_source. by rewrite Hu, Hs, Hn. Qed.

Lemma ListenWithMode_accounts network laddr (m : listenMode W Src (X509SourceOption Client)) options h :
  lm_mode m ≠ mtlsWebServerMode →
  let o := ListenWithMode network laddr m options h in
  (∀ why, o_result o = Panic why → created_of (o_events o) = []) ∧
  ∃ closer, accounts_for l_sourceCloser (o_events o) (o_result o) closer.
Proof.
  intros Hm. unfold ListenWithMode. destruct (net_Listen network laddr) as [inner|err]; [|split; [done|by exists None]].
  destruct (listen_accounts inner m options h) as (Hpanic & closer & _ & Hacc).
  pose proof (listen_panic_events inner m options h) as Hev. set (o := NewListenerWithMode inner m options h) in *. cbv zeta.
  destruct (o_result o) as [l|err|why] eqn:Ho.
  - rewrite Ho. split; [done|]. by exists closer.
  - split; [done|]. exists closer. destruct Hacc as [Hc Hr]. unfold accounts_for, created_of, closed_of in *. cbn [o_events o_result].
    rewrite !omap_app. cbn [omap list_omap]. by rewrite !app_nil_r.
  - rewrite Ho. split; [|by exists closer]. intros _ _. destruct (Hpanic why eq_refl) as [Hs|[? _]]; [|done]. by apply (Hev why).
Qed.

Lemma released_run_tls_server : released (did run_tls_server).
Proof.
  apply released_bind; [apply neutral_lift|]. intros clientID.
  destruct (ListenWithMode_accounts "tcp" "localhost:55555"
    (MTLSServerWithSourceOptions (AuthorizeID clientID) [X509_SourceOption clientOptions]) [] ∅) as (Hnp & closer & Hacc); [done|].
  apply (released_tls _ _ _ _ _ _ _ Hacc Hnp).
  - intros l. unfold listener_Close. by destruct (l_sourceCloser l).
  - intros l. destruct (accept_loop_neutral (tls_Accept (l_inner l)).1 (tls_Accept (l_inner l)).2) as [Ho Hc]. by split.
Qed.

Lemma released_fetched args serverID (rest : JSrc → JwtSvid.SVID → R unit) :
  (∀ j svid, released (did (rest j svid))) →
  released (did (with_jwtSource (λ j, bind (fetch_token j (audience_arg args serverID)) (rest j)))).
Proof. intros Hr. apply released_with_jwtSource. intros j. apply released_bind; [done|]. apply Hr. Qed.

Lemma released_read_body {B} (msg : string) (r : B + error) : released (did (bind (try msg r) (λ _, lift (Ok ())))).
Proof. apply released_bind; [done|]. intros _. apply released_lift. Qed.

Lemma released_jwt_clients args : released (did (run_jwt_client args)) ∧ released (did (run_proxied_client args)).
Proof.
  split; (apply released_with_x509Source; intros s; apply released_bind; [apply neutral_lift|]; intros serverID).
  - apply released_bind; [done|]. intros _. apply released_fetched. intros j svid.
    apply released_request. intros resp. apply released_read_body.
  - apply released_fetched. intros j svid. apply released_bind; [done|]. intros _.
    apply released_request. intros resp. destruct (negb _); [apply released_lift|apply released_read_body].
Qed.

Lemma released_servers : released (did run_jwt_server) ∧ released (did run_proxied_server) ∧ released (did run_proxy) ∧ released (did run_http_server).
Proof.
  split_and!.
  - apply released_with_x509Source. intros s. apply released_with_jwtSource. intros j. apply released_serve.
  - apply released_with_x509Source. intros s. apply released_with_jwtSource. intros j. apply released_serve.
  - apply released_bind; [done|]. intros remote. apply released_with_x509Source. intros s.
    apply released_bind; [apply neutral_lift|]. intros serverID. apply released_bind; [done|]. intros _. apply released_lift.
  - apply released_with_x509Source. intros s. apply released_bind; [apply neutral_lift|]. intros clientID. apply released_serve.
Qed.

Lemma released_http_client : released (did run_http_client).
Proof.
  apply released_with_x509Source. intros s. apply released_bind; [apply neutral_lift|]. intros serverID.
  apply released_request. intros resp. apply released_read_body.
Qed.

Lemma released_grpc : released (did run_grpc_client) ∧ released (did run_grpc_server).
Proof.
  split; (apply released_with_x509Source; intros s; apply released_bind; [apply neutral_lift|]; intros id; apply released_bind; [done|]).
  - intros conn. apply released_bind; [done|]. intros reply. done.
  - intros lis. apply released_bind; [done|]. intros _. destruct (grpc_Serve _ _); apply released_lift.
Qed.

(** The programs close what they open, unless tls.Dial panics: on every other path - errors
    of any call, a panic of a Require function or of NewX509Source - each source a program has created is closed before it returns, in
    the reverse order of creation, and nothing else is. *)
Theorem programs_release args :
  (∀ dialer network addr config, no_panic (tls_Dial dialer network addr config) = true) →
  Forall released [did run_jwt_server; did (run_jwt_client args); did run_proxied_server; did run_proxy;
    did (run_proxied_client args); did run_http_client; did run_http_server; did run_tls_client; did run_tls_server;
    did run_grpc_client; did run_grpc_server].
Proof.
  intros Hdial. destruct (released_jwt_clients args), released_servers as (? & ? & ? & ?), released_grpc.
  pose proof released_http_client. pose proof (released_run_tls_client Hdial). pose proof released_run_tls_server.
  by repeat apply Forall_cons_2.
Qed.

(** *** Whom the programs talk to *)
Context {TL : TlsLib (W := W)}.
Implicit Types evs pre : events.

(** The side of a handshake passes exactly when the peer's certificates verify against
    the source of this run, as it is at the handshake, and show the ID [peer]. *)
Definition expects evs (accepts : W → list string → res unit) (peer : string) : Prop :=
  ∃ src, (X509SourceCreated src ∈ evs ∨ Tls (SourceCreated src) ∈ evs) ∧
  ∀ w raw, accepts w raw = Ok () ↔
    ∃ id certs, parse_and_verify (as_bundle src) w raw = (id, Ok certs) ∧ FromString peer = Ok id.

(** What a program that talks to a peer does about knowing who the peer is. *)
Definition authenticated evs (e : event) : Prop :=
  match e with
  | Requested config _ _ | Proxying _ _ _ config | Tls (Dialed config) =>
      expects evs (client_accepts config) "spiffe://example.org/server"
  | Greeted creds _ => expectPeerID creds = true ∧ expects evs (client_accepts (cw_config creds)) "spiffe://example.org/server"
  | GrpcServing creds => expectPeerID creds = true ∧ expects evs (server_accepts (cw_config creds)) "spiffe://example.org/client"
  | Listening config => expects evs (server_accepts config) "spiffe://example.org/client"
  | Serving _ config handler =>
      expects evs (server_accepts config) "spiffe://example.org/client" ∨
      ∃ j, JWTSourceCreated j ∈ evs ∧
        let a w := mkAuthenticator (j, w) server_audiences in
        (handler = (λ now w, authenticateClient now (a w) index) ∨ handler = (λ now w, authenticateClient_proxied now (a w) index))
  | _ => True
  end.
Definition all_authenticated pre {A} (m : R A) : Prop := Forall (authenticated (pre ++ did m)) (did m).

Lemma authenticated_mono evs evs' e : evs ⊆ evs' → authenticated evs e → authenticated evs' e.
Proof.
  intros Hs. assert (∀ accepts peer, expects evs accepts peer → expects evs' accepts peer) as He.
  { intros accepts peer (src & Hin & Hacc). exists src. split; [|done]. destruct Hin; [left|right]; by apply Hs. }
  destruct e as [ | | | |? ? handler| | | |[]| | | | |]; cbn; try done; [|apply He|apply He|apply He|apply He|intros [? ?]; split; auto..].
  intros [Hc|(j & Hj & Hh)]; [left; by apply He|right; exists j]. split; [by apply Hs|done].
Qed.

Lemma all_authenticated_bind pre {A B} (m : R A) (k : A → R B) :
  all_authenticated pre m → (∀ a, m.1 = Ok a → all_authenticated (pre ++ did m) (k a)) → all_authenticated pre (bind m k).
Proof.
  unfold all_authenticated, bind, did. intros Hm Hk. destruct m.1 as [a|e|why]; cbn; [|done..].
  rewrite (assoc_L (++)). apply Forall_app. split; [|by apply Hk].
  eapply Forall_impl; [exact Hm|]. intros e. apply authenticated_mono. set_solver.
Qed.

Lemma all_authenticated_lift pre {A} (r : res A) : all_authenticated pre (lift r).
Proof. apply Forall_nil. done. Qed.

Lemma all_authenticated_emit pre e : authenticated (pre ++ [e]) e → all_authenticated pre (emit e).
Proof. intros He. apply Forall_cons. by split; [|apply Forall_nil]. Qed.

Lemma all_authenticated_defer pre {A} evs (m : R A) :
  (∀ evs', Forall (authenticated evs') evs) → all_authenticated pre m → all_authenticated pre (defer evs m).
Proof.
  unfold all_authenticated, defer, did. cbn. intros He Hm. apply Forall_app. split; [|apply He].
  eapply Forall_impl; [exact Hm|]. intros e. apply authenticated_mono. set_solver.
Qed.
Lemma all_authenticated_with_x509Source pre {A} (body : Src → R A) :
  (∀ s, all_authenticated (pre ++ [X509SourceCreated s]) (body s)) → all_authenticated pre (with_x509Source body).
Proof.
  intros Hb. apply all_authenticated_bind; [apply all_authenticated_lift|]. intros s _. rewrite app_nil_r.
  apply all_authenticated_bind; [by apply all_authenticated_emit|]. intros _ _.
  apply all_authenticated_defer; [|apply Hb]. intros evs. by repeat apply Forall_cons_2.
Qed.

Lemma all_authenticated_with_jwtSource pre {A} (body : JSrc → R A) :
  (∀ j, all_authenticated (pre ++ [JWTSourceCreated j]) (body j)) → all_authenticated pre (with_jwtSource body).
Proof.
  intros Hb. apply all_authenticated_bind; [apply all_authenticated_lift|]. intros s _. rewrite app_nil_r.
  apply all_authenticated_bind; [by apply all_authenticated_emit|]. intros _ _.
  apply all_authenticated_defer; [|apply Hb]. intros evs. by repeat apply Forall_cons_2.
Qed.

(** A step that leaves no event behind: a Require function, a call that may fail. *)
Lemma all_authenticated_step pre {A B} (r : res A) (k : A → R B) :
  (∀ a, r = Ok a → all_authenticated pre (k a)) → all_authenticated pre (bind (lift r) k).
Proof.
  intros Hk. apply all_authenticated_bind; [apply all_authenticated_lift|]. intros a Ha. rewrite app_nil_r. by apply Hk.
Qed.

Lemma all_authenticated_request pre {A} msg config url req (rest : response → R A) :
  authenticated pre (Requested config url req) → (∀ pre resp, all_authenticated pre (rest resp)) →
  all_authenticated pre (do_request msg config url req rest).
Proof.
  intros He Hr. apply all_authenticated_bind.
  - apply all_authenticated_emit. eapply authenticated_mono, He. set_solver.
  - intros _ _. apply all_authenticated_step. intros resp _. apply all_authenticated_defer; [|apply Hr].
    intros evs. by repeat apply Forall_cons_2.
Qed.

Lemma all_authenticated_read_body pre {B} (msg : string) (r : B + error) : all_authenticated pre (bind (try msg r) (λ _, lift (Ok ()))).
Proof. apply all_authenticated_step. intros ? _. apply all_authenticated_lift. Qed.

Lemma all_authenticated_serve pre addr config handler :
  authenticated pre (Serving addr config handler) → all_authenticated pre (serve addr config handler).
Proof.
  intros He. apply all_authenticated_bind; [|intros _ _; apply all_authenticated_lift].
  apply all_authenticated_emit. eapply authenticated_mono, He. set_solver.
Qed.

(** What makes a configuration expect a peer: AuthorizeID of the parsed ID on a fresh
    configuration, with the source that the program has opened. *)
Lemma expects_hook evs accepts src peer id :
  (X509SourceCreated src ∈ evs ∨ Tls (SourceCreated src) ∈ evs) → RequireFromString peer = Ok id →
  (∀ w raw, accepts w raw = Ok () ↔
     ∃ id' certs, spiffe_accepts (as_bundle src) (AuthorizeID id) w raw id' certs ∧ base_accepts newTLSConfig w raw certs) →
  expects evs accepts peer.
Proof.
  intros Hin Hid Hacc. exists src. split; [done|]. intros w raw. rewrite Hacc.
  assert (FromString peer = Ok id) as Hf by (unfold RequireFromString in Hid; by destruct (FromString peer)).
  rewrite Hf. split.
  - intros (id' & certs & [Hp Ha%MatchID_accepts] & _). subst id'. by exists id, certs.
  - intros (id' & certs & Hp & [= ->]). exists id', certs. split; [|apply fresh_base_accepts]. split; [done|]. by apply MatchID_accepts.
Qed.
Lemma client_expects evs src id :
  X509SourceCreated src ∈ evs → serverID = Ok id →
  expects evs (client_accepts (TLSClientConfig (as_bundle src) (AuthorizeID id) [])) "spiffe://example.org/server" ∧
  expects evs (client_accepts (MTLSClientConfig (as_svid src) (as_bundle src) (AuthorizeID id) [])) "spiffe://example.org/server".
Proof.
  intros Hin Hid. split; (eapply expects_hook; [by left|exact Hid|]); intros w raw.
  - apply client_hook_accepts.
  - apply mtls_client_hook_accepts.
Qed.

Lemma server_expects evs src id :
  X509SourceCreated src ∈ evs → clientID = Ok id →
  expects evs (server_accepts (MTLSServerConfig (as_svid src) (as_bundle src) (AuthorizeID id) [])) "spiffe://example.org/client".
Proof. intros Hin Hid. eapply expects_hook; [by left|exact Hid|]. intros w raw. apply mtls_server_accepts. Qed.

Lemma jwt_clients_authenticated args : all_authenticated [] (run_jwt_client args) ∧ all_authenticated [] (run_proxied_client args).
Proof.
  split; (apply all_authenticated_with_x509Source; intros s; apply all_authenticated_step; intros id Hid).
  - apply all_authenticated_step; intros _ _. apply all_authenticated_with_jwtSource. intros j. apply all_authenticated_step. intros svid _.
    apply all_authenticated_request; [|intros; apply all_authenticated_read_body]. eapply client_expects; [set_solver|exact Hid].
  - apply all_authenticated_with_jwtSource. intros j. apply all_authenticated_step. intros svid _. apply all_authenticated_step; intros _ _.
    apply all_authenticated_request.
    + eapply client_expects; [set_solver|exact Hid].
    + intros pre resp. destruct (negb _); [apply all_authenticated_lift|apply all_authenticated_read_body].
Qed.

Lemma jwt_servers_authenticated : all_authenticated [] run_jwt_server ∧ all_authenticated [] run_proxied_server.
Proof.
  split; apply all_authenticated_with_x509Source; intros s; apply all_authenticated_with_jwtSource; intros j;
    apply all_authenticated_serve; right; exists j; (split; [set_solver|]); [by left|by right].
Qed.

Lemma proxy_authenticated : all_authenticated [] run_proxy.
Proof.
  apply all_authenticated_step. intros remote _. apply all_authenticated_with_x509Source. intros s.
  apply all_authenticated_step. intros id Hid. apply all_authenticated_bind; [|intros; apply all_authenticated_lift].
  apply all_authenticated_emit. eapply client_expects; [set_solver|exact Hid].
Qed.

Lemma http_authenticated : all_authenticated [] run_http_client ∧ all_authenticated [] run_http_server.
Proof.
  split; (apply all_authenticated_with_x509Source; intros s; apply all_authenticated_step; intros id Hid).
  - apply all_authenticated_request; [|intros; apply all_authenticated_read_body]. eapply client_expects; [set_solver|exact Hid].
  - apply all_authenticated_serve. left. eapply server_expects; [set_solver|exact Hid].
Qed.

Lemma grpc_authenticated : all_authenticated [] run_grpc_client ∧ all_authenticated [] run_grpc_server.
Proof.
  split; (apply all_authenticated_with_x509Source; intros s; apply all_authenticated_step; intros id Hid; apply all_authenticated_step).
  - intros conn _. apply all_authenticated_step. intros reply _. apply all_authenticated_emit. split; [done|].
    eapply client_expects; [set_solver|exact Hid].
  - intros lis _. apply all_authenticated_bind.
    + apply all_authenticated_emit. split; [done|]. eapply server_expects; [set_solver|exact Hid].
    + intros _ _. destruct (grpc_Serve _ _); apply all_authenticated_lift.
Qed.

(** Closing what was dialed or listened on. *)
Lemma closing_authenticated evs (s : option Src) : Forall (authenticated evs) (tls_events (close_created s ++ [InnerClosed])).
Proof. destruct s; by repeat apply Forall_cons_2. Qed.

Lemma tls_client_authenticated : all_authenticated [] run_tls_client.
Proof.
  apply all_authenticated_step. intros id Hid. apply all_authenticated_bind.
  - unfold DialWithMode, acquire_source. cbn [dm_sourceUnneeded dm_source dm_options MTLSClientWithSourceOptions].
    destruct (NewX509Source _) as [src|err|why]; [|by apply Forall_nil..]. cbn [of_lib wrap_err mbind option_bind].
    unfold dial_hook, conf_for. cbn -[RequireFromString deref insert].
    rewrite !deref_insert. set (cfg := HookMTLSClientConfig _ _ _ _ _).
    assert (∀ rest, authenticated (Tls (SourceCreated src) :: rest) (Tls (Dialed cfg))) as Hcfg.
    { intros rest. eapply expects_hook; [right; by left|exact Hid|]. intros w raw. apply mtls_client_hook_accepts. }
    destruct (tls_Dial _ _ _ _); unfold all_authenticated; cbn -[authenticated]; repeat apply Forall_cons_2; try done; apply Hcfg.
  - intros conn _. apply all_authenticated_defer; [intros evs; apply closing_authenticated|].
    apply all_authenticated_bind; [by apply all_authenticated_emit|]. intros _ _.
    destruct (conn_ReadString _) as [? [err|]]; [destruct (is_extern err "EOF")|]; apply all_authenticated_lift.
Qed.
Lemma accept_loop_authenticated pre script failure : all_authenticated pre (accept_loop script failure).
Proof.
  revert pre; induction script as [|[c|c type] script IH]; intros pre; [by apply Forall_nil| |by apply Forall_cons_2].
  cbn [accept_loop listener_Accept]. apply all_authenticated_bind; [|intros; apply IH]. apply all_authenticated_defer.
  - intros evs. by repeat apply Forall_cons_2.
  - destruct (conn_ReadString c) as [req [err|]]; [apply all_authenticated_lift|by apply all_authenticated_emit].
Qed.

Lemma tls_server_authenticated : all_authenticated [] run_tls_server.
Proof.
  apply all_authenticated_step. intros id Hid. unfold ListenWithMode.
  destruct (net_Listen _ _) as [inner|err]; [|by apply Forall_nil].
  unfold NewListenerWithMode, acquire_source. cbn [lm_sourceUnneeded lm_source lm_options MTLSServerWithSourceOptions].
  destruct (NewX509Source _) as [src|err|why]; [|by apply Forall_cons_2|by apply Forall_nil].
  cbn -[RequireFromString accept_loop bind defer emit deref insert].
  apply all_authenticated_bind; [by apply Forall_cons_2|]. intros l [= <-].
  apply all_authenticated_defer; [intros evs; apply closing_authenticated|].
  apply all_authenticated_bind; [|intros; apply accept_loop_authenticated].
  apply all_authenticated_emit. cbn [authenticated l_config]. rewrite !deref_insert.
  eapply (expects_hook _ _ src); [right; by left|exact Hid|]. intros w raw. apply mtls_server_accepts.
Qed.

(** [C36] Whom the programs talk to. In every run, each request, dial and RPC of a client - and
    each request a proxy forwards - goes out under a configuration that a server passes
    exactly when its certificates verify against the source of that run and show
    spiffe://example.org/server; each server either accepts connections under a
    configuration that a client passes exactly when its certificates verify in the same
    way and show spiffe://example.org/client, or answers through the middleware that
    wants a JWT for its own audience, over a source of that run. *)
Theorem programs_authenticate args run :
  run ∈ [did run_jwt_server; did (run_jwt_client args); did run_proxied_server; did run_proxy;
    did (run_proxied_client args); did run_http_client; did run_http_server; did run_tls_client; did run_tls_server;
    did run_grpc_client; did run_grpc_server] →
  Forall (authenticated run) run.
Proof.
  destruct (jwt_clients_authenticated args), jwt_servers_authenticated, http_authenticated, grpc_authenticated.
  pose proof proxy_authenticated. pose proof tls_client_authenticated. pose proof tls_server_authenticated.
  rewrite !elem_of_cons, elem_of_nil. intros Hrun. repeat (destruct Hrun as [->|Hrun]; [assumption|]). done.
Qed.
End programs_properties.

(** ** Witness: a world in which every call succeeds *)
#[export] Instance sample_programs_TlsNet : TlsNet unit nat (X509SourceOption nat) nat nat nat := {|
  NewX509Source opts := Ok (length opts);
  src_bundle s := sample_bundles;
  src_svid s := sample_svid_source;
  src_Close s := None;
  tls_Dial dialer network addr cfg := Ok 7;
  conn_Close c := None;
  net_Listen network addr := inl 8;
  lis_Close l := None;
|}.

#[export] Instance sample_World : World (W := unit) (JSrc := nat) (Client := nat) (Conn := nat) (Lis := nat) (Listener := nat) := {|
  NewJWTSource opts := inl (length opts);
  j_bundle j w td := Err (extern_error "sample" "no bundle");
  j_FetchJWTSVID j params := Err (extern_error "sample" "no SVID");
  ListenAndServeTLS addr config := extern_error "http" "Server closed";
  client_Do config url req := inl (mkResponse StatusOK "Success!!!");
  http_NewRequest url := inl ();
  io_ReadAll resp := inl (Body resp);
  url_Parse url := inl url_zero;
  conn_ReadString c := ("Hello client" +:+ String "010" "", None);
  tls_Accept l := ([accepted_tls 7; accepted_tls 9], extern_error "net" "use of closed network connection");
  grpc_NewClient target creds := inl 3;
  SayHello c name := inl (greeting name);
  net_Listen_tcp addr := inl 8;
  grpc_Serve creds lis := None;
|}.

Lemma sample_dials id : serverID (C := charset_deny) = Ok id →
  Tls (Dialed (MTLSClientConfig (C := charset_deny) (as_svid (W := unit) 1) (as_bundle 1) (AuthorizeID id) [])) ∈
    did (run_tls_client (C := charset_deny) (JSrc := nat) (Listener := nat)).
Proof. intros Hid. unfold run_tls_client. rewrite Hid. cbn -[MTLSClientConfig HookMTLSClientConfig]. right. by left. Qed.

Lemma programs_authenticate_witness :
  let run := did (run_tls_client (C := charset_deny) (JSrc := nat) (Listener := nat)) in
  ∃ config, Tls (Dialed config) ∈ run ∧
    expects (C := charset_deny) run (client_accepts config) "spiffe://example.org/server".
Proof.
  intros run. destruct (serverID (C := charset_deny)) as [id| |] eqn:Hid; try (by vm_compute in Hid).
  eexists. split; [exact (sample_dials id Hid)|].
  assert (Forall (authenticated (C := charset_deny) run) run) as Ha.
  { apply (programs_authenticate (C := charset_deny) []). do 7 right. by left. }
  exact (proj1 (Forall_forall _ _) Ha _ (sample_dials id Hid)).
Defined.
